(* ===== verification/_CoqProject ===== *)
-Q . S2P
Prelude.v
CLib.v
Gwlib.v
DbUtil.v
Types.v
IpBlock.v
Kannel.v
Dlr.v
PduUtil.v
World.v
Callbacks.v
Run.v
Esme.v
Acks.v
Route.v
Bearerbox.v
Queues.v
Requeue.v
Listener.v
Replies.v
Submissions.v
Boxes.v
Binds.v
Deliveries.v
Fields.v
Log.v
Http.v
Admin.v
Mysql.v
Schema.v
Stores.v
Ledger.v
Redis.v
RedisStore.v
Config.v
Daemon.v
Stop.v
Stopped.v
Threads.v
Connections.v
Start.v
Shutdown.v
Examples.v
SqlExamples.v
RedisExamples.v
StartExamples.v
StopExamples.v
