(* ===== verification/Prelude.v ===== *)
(** * ksmppd: a verification library for the KSMPPD SMPP daemon

    KSMPPD is an SMPP 3.4 server for Kannel: ESMEs connect and bind to it, submit
    messages (submit_sm, data_sm) that it routes, charges and hands to Kannel's
    bearerboxes or to a database, and receive messages and delivery receipts
    (deliver_sm) from both. All its sources are under src/smpp/libsmpp; this library
    models them as executable functions over an explicit state and proves the
    properties of the last section of this header.

    ** How the program works

    smpp_listener.c accepts connections and reads PDUs into the inbound queue. An
    inbound thread (smpp_queues.c) takes them one by one and runs the handler of their
    type: a bind is authenticated (smpp_esme.c, against the database or an HTTP
    service), a submission is converted (smpp_pdu_util.c), routed (smpp_route.c or
    smpp_http_client.c) and, in the callback of routing, charged and put into the
    queue of the bearerboxes (smpp_bearerbox.c) or the database (smpp_database.c and
    its backends). A bearerbox's writer sends it, its reader gets the acknowledgement
    and calls back; the response goes to the outbound queue, whose thread writes it to
    the ESME. Messages from a bearerbox and those a requeue thread finds in the
    database take the same way in the other direction, and wait in the ESME's
    dictionary open_acks for its deliver_sm_resp. A cleanup thread sends enquire_links,
    expires open acknowledgements and frees ESMEs that are gone. All of them are started
    by ksmppd.c from a configuration file (smpp_server.c), and an administrator looks at
    them and stops binds over HTTP (smpp_http_server.c). Messages that wait can be kept
    in Redis instead of the SQL database (smpp_database_redis.c).

    ** How it is modelled

    An action is a function of the monad [M]: from a state to a result and a state, or
    [None] where the C program dereferences NULL or freed memory, fails an assertion or
    calls panic(). The state is [World] (World.v): the heaps of queued PDUs and ESMEs,
    in which a freed object stays as [Freed], the queues, dictionaries and counters the
    threads share, the state of the database, and the trace of what was written,
    acknowledged and closed. Pointers are addresses in these heaps, so that aliasing is
    explicit; a callback pointer with its context is a constructor of an enumeration.
    Locks are not modelled: what a thread does in one turn (one PDU, one message, one
    event, one pass) is one step, and threads interleave between the steps (Daemon.v).
    Machine integers wrap where the code converts (CLib.v, [to_int], [to_uint]);
    doubles are rationals; gwlib counters are integers.

    Code that is not in the repository is an argument: Kannel's string searches
    ([OctstrLib]), charset, splitting, PDU and time functions (Kannel.v), the fields
    of a message and number formats (Fields.v), regular expressions, the SQL server
    ([SqlServer]), the Redis server and hiredis ([RedisLib]), jansson ([JsonLib]), the
    configuration file ([CfgLib]), libevent, dlopen and the connection pools
    ([StartLib]), HTTP services. Each is a class whose laws are the documented results
    the proofs need, and each has an instance the examples compute with.

    ** The files

    - Prelude.v: notations, the monad, tactics, lemmas on lists; CLib.v, Gwlib.v,
      Kannel.v, Fields.v: the C library and Kannel as the code uses them.
    - Types.v: the structs of the headers.
    - DbUtil.v (smpp_database_util.c): SQL literals, conditions, the %XX code.
    - IpBlock.v (smpp_listener.c): the block list of addresses that fail to bind.
    - Dlr.v, PduUtil.v (smpp_pdu_util.c): receipts and times; messages from and to PDUs.
    - World.v, Callbacks.v: the state; smpp_queued_pdu.c, the dispatch of
      smpp_database.c, and the callbacks through which the parts call each other.
    - Esme.v (smpp_esme.c): authentication, bind limits, receivers, the cleanup thread.
    - Route.v (smpp_route.c), Http.v (smpp_http_client.c): routing.
    - Bearerbox.v (smpp_bearerbox.c): queue, writer, reader, requeue.
    - Queues.v, Requeue.v (smpp_queues.c, smpp_esme.c): handlers and threads; stored
      messages.
    - Listener.v (smpp_listener.c): connections and read events.
    - Mysql.v, Schema.v (smpp_database_mysql.c): the relational backend, an instance of
      the interface [DatabaseOps] the daemon is modelled against, and its tables.
    - Redis.v (smpp_database_redis.c): the queue backend, which takes over the queueing
      operations of the relational one; RedisStore.v: its theorems.
    - Admin.v (smpp_http_server.c, smpp_esme.c, smpp_route.c): the administration
      interface and its commands.
    - Config.v (smpp_server.c, smpp_server_cfg.c, smpp_plugin.c, ksmppd.c and the
      *_init functions): the start; Start.v: its theorems.
    - Stop.v (ksmppd.c and the shutdown functions of smpp_queues.c, smpp_esme.c,
      smpp_bearerbox.c, smpp_listener.c): signals, the end of the queues' threads as a
      step relation, and what is freed; Stopped.v: its theorems.
    - Threads.v (smpp_bearerbox.c): the reader and the writer of each bearerbox as a step
      relation, among all other actions of the daemon; Connections.v: its theorems.
    - Log.v (smpp_pdu_util.c): the lines of the accounting log.
    - Shutdown.v (smpp_server.c and the shutdown functions of smpp_database_mysql.c,
      smpp_route.c, smpp_http_client.c, smpp_http_server.c, smpp_plugin.c): what is
      closed after the event loop.
    - Run.v, Acks.v, Replies.v, Submissions.v, Boxes.v, Binds.v, Deliveries.v,
      Stores.v, Ledger.v, Daemon.v: theorems that involve several parts.
    - Examples.v, SqlExamples.v, RedisExamples.v, StartExamples.v, StopExamples.v: a
      small daemon, database, routing service, Redis server and configuration, on which
      the theorems' hypotheses are met.

    ** What the theorems show

    - Submissions. A request is answered by exactly one response, held in exactly one
      place until it is sent (Submissions.v); what follows routing is a function of
      account, database and bearerboxes (Replies.v); the writer, the acknowledgements
      and a reconnection of a bearerbox complete every response once (Boxes.v); the
      outbound thread sends them in order (Binds.v); requests over the throughput or
      without rights are refused without a side effect.
    - Deliveries. A message becomes one numbered deliver_sm per part, is acknowledged
      to its origin once, or is kept or given back (Acks.v, Deliveries.v).
    - Connections. What a bind grants and refuses (Binds.v, Esme.v), keep-alive, the
      choice of a receiver, blocked addresses, reading from a connection.
    - The daemon. In every run of all its threads nothing is sent to an ESME after its
      connection was closed, freed memory stays freed and the trace only grows
      (Daemon.v).
    - The database. Statements carry values safely, records are read back as they were
      stored (Stores.v); a record is handed out once before it is returned, credit is
      conserved, receipts reach their account (Ledger.v); the schema is brought up to
      date (Schema.v).
    - The Redis queue. A message survives its JSON text; handing out ends, gives only
      what is asked for and nothing behind a head that is not; over any sequence of
      operations no accepted message is lost or doubled while the server stays up
      (RedisStore.v).
    - The start. A daemon that reaches its event loop has everything its parts rely on,
      and exactly the configured threads; reading the configuration again is safe, and a
      plugin is loaded once (Start.v).
    - The stop. After the signal the queues' threads end, whatever the others do, and
      every request that was read has been handled; then every ESME, bearerbox and
      waiting PDU is freed once, and messages of a bearerbox that wait for their
      acknowledgement are given back to it (Stopped.v). The threads of the bearerboxes
      end (Connections.v), and the port, the connections and the plugins are closed once
      each when every thread has been waited for (Shutdown.v).
    - The threads of the bearerboxes. In every interleaving with the rest of the daemon a
      bearerbox is there as long as one of its threads runs and has a connection whenever
      something is written to it or read from it (Connections.v).
    - Administration. Nothing happens without the password; esme-unbind stops exactly
      its targets; the XML status is well formed (Admin.v).
    - Routing: the first applicable route, its cache (Route.v), the answers of an HTTP
      service and the window of its requests (Http.v).
    - Formats: conversions, bounds and totality of messages and PDUs (PduUtil.v),
      receipts (Dlr.v), SQL literals (DbUtil.v), address patterns (IpBlock.v).

    Some theorems state what the code does where it was hardly meant to: an early
    acknowledgement frees a queued PDU, a deliver_sm_resp before a bind stops the
    process, an identifier with an upper-case letter escapes its bind limit, the
    chosen receiver can be the busier one, a data_sm without a payload stops the
    process.

    ** Bounds

    One definition takes fuel: [get_stored_loop] (Redis.v), the loop over the batches a
    Redis queue hands out. A batch picks at least one of at most [limit] messages or is
    one of at most 32 empty ones in a row, so that limit * 32 + 32 turns are enough,
    which get_stored_ends proves for every server. The other loops of the C code are recursions over the list they
    consume (a queue, the rows of an answer, the columns, the binds of an account, the
    parts of a message). The loop over the reads of an event is a recursion over what
    the connection delivers.

    ** Not modelled

    Other threads that still run while the queues, ESMEs and bearerboxes are freed (the
    theorem about freeing is for the case that they are idle, and Threads.v follows
    those of the bearerboxes to their end); sleeping and the periods of the threads that
    wake up from time to time; libuuid (smpp_uuid.c); log messages other than those of
    accounting. The connections to the SQL and Redis servers are taken to be there once
    the daemon has started; the theorems about sequences of Redis operations are for a
    server that stays up. What a plugin does is its own: the model knows which functions
    it has. The HTTP routing client is modelled with one sending thread, its default. *)
From stdpp Require Export base tactics list gmap strings numbers option pretty.
From Stdlib Require Export ZArith Lia Ascii.
From Stdlib Require Strings.String.

(** ** Notations *)

Declare Scope ksmppd_scope.
Delimit Scope ksmppd_scope with ksmppd.
Open Scope ksmppd_scope.

(** Octet strings: gwlib's [Octstr] is a byte sequence that may hold any byte,
    NUL included. [$"text"] is the literal of a C string constant. *)
Abbreviation Octstr := (list ascii).
Definition lit (s : string) : Octstr := Stdlib.Strings.String.list_ascii_of_string s.
Notation "$ s" := (lit s%string) (at level 1, s at level 0, format "$ s") : ksmppd_scope.

(** ** The state-and-failure monad

    A C function that reads and writes the daemon's shared structures is a
    function from the state to a result and a new state; [None] is a run the C
    standard gives no meaning to (a NULL or a dangling pointer is dereferenced)
    or a call of [panic()], which ends the process. *)

Definition M (S A : Type) : Type := S → option (A * S).

#[export] Instance M_ret {S} : MRet (M S) := λ A a s, Some (a, s).
#[export] Instance M_bind {S} : MBind (M S) := λ A B f m s,
  match m s with
  | Some (a, s') => f a s'
  | None => None
  end.

Definition gets {S A} (f : S → A) : M S A := λ s, Some (f s, s).
Definition get {S} : M S S := λ s, Some (s, s).
Definition modify {S} (f : S → S) : M S unit := λ s, Some (tt, f s).
Definition crash {S A} : M S A := λ _, None.

(** A pointer that must not be NULL where it is used. *)
Definition deref {S A} (o : option A) : M S A :=
  match o with
  | Some a => mret a
  | None => crash
  end.

Definition when {S} (b : bool) (m : M S unit) : M S unit :=
  if b then m else mret tt.

Fixpoint for_each {S A} (body : A → M S unit) (l : list A) : M S unit :=
  match l with
  | [] => mret tt
  | x :: l => body x;; for_each body l
  end.

(** ** A Hoare logic for the monad

    [triple P m Q]: every run of [m] from a [P] state that C gives a meaning to
    ends in [Q]. [safe P m]: from a [P] state, [m] has such a run. *)

Definition triple {S A} (P : S → Prop) (m : M S A) (Q : A → S → Prop) : Prop :=
  ∀ s a s', P s → m s = Some (a, s') → Q a s'.
Definition preserves {S A} (I : S → Prop) (m : M S A) : Prop :=
  triple I m (λ _, I).
Definition safe {S A} (P : S → Prop) (m : M S A) : Prop :=
  ∀ s, P s → is_Some (m s).

Create HintDb ksmppd discriminated.

Section hoare.
Context {S : Type}.
Implicit Types (P I : S → Prop).

Lemma bind_unfold {A B} (m : M S A) (f : A → M S B) s :
  (m ≫= f) s = match m s with Some (a, s') => f a s' | None => None end.
Proof. reflexivity. Qed.

(** The primitive actions at the head of a run. *)
Lemma get_bind {B} (f : S → M S B) s : (get ≫= f) s = f s s.
Proof. reflexivity. Qed.
Lemma gets_bind {A B} (g : S → A) (f : A → M S B) s : (gets g ≫= f) s = f (g s) s.
Proof. reflexivity. Qed.
Lemma modify_bind {B} g (f : unit → M S B) s : (modify g ≫= f) s = f () (g s).
Proof. reflexivity. Qed.
Lemma ret_bind {A B} (a : A) (f : A → M S B) s : (mret a ≫= f) s = f a s.
Proof. reflexivity. Qed.

Lemma bind_bind {A B C} (m : M S A) (f : A → M S B) (g : B → M S C) s :
  ((m ≫= f) ≫= g) s = (m ≫= (λ a, f a ≫= g)) s.
Proof. rewrite !bind_unfold. by destruct (m s) as [[]|]. Qed.

Lemma bind_ext {A B} (m : M S A) (f g : A → M S B) s :
  (∀ a s, f a s = g a s) → (m ≫= f) s = (m ≫= g) s.
Proof. intros Hfg. rewrite !bind_unfold. by destruct (m s) as [[]|]. Qed.

Lemma ret_Some {A} (a b : A) (s s' : S) : (mret a : M S A) s = Some (b, s') ↔ a = b ∧ s = s'.
Proof. split; [by intros [= -> ->]|by intros [-> ->]]. Qed.

Lemma bind_Some {A B} (m : M S A) (f : A → M S B) s b s' :
  (m ≫= f) s = Some (b, s') ↔ ∃ a s1, m s = Some (a, s1) ∧ f a s1 = Some (b, s').
Proof.
  rewrite bind_unfold. split.
  - destruct (m s) as [[a s1]|]; [eauto|done].
  - intros (a & s1 & -> & ?). done.
Qed.

Lemma triple_ret {A} P (a : A) : triple P (mret a) (λ x s, x = a ∧ P s).
Proof. intros s x s' HP [= <- <-]. done. Qed.

Lemma triple_bind {A B} P (m : M S A) (f : A → M S B) Q R :
  triple P m Q → (∀ a, triple (Q a) (f a) R) → triple P (m ≫= f) R.
Proof.
  intros Hm Hf s b s' HP (a & s1 & Ha & Hb)%bind_Some.
  eapply Hf; [eapply Hm; eauto|done].
Qed.

Lemma triple_weaken {A} P P' (m : M S A) Q Q' :
  (∀ s, P' s → P s) → (∀ a s, Q a s → Q' a s) → triple P m Q → triple P' m Q'.
Proof. intros HP HQ Hm s a s' ??. eapply HQ, Hm; eauto. Qed.

Lemma preserves_ret {A} I (a : A) : preserves I (mret a).
Proof. intros s x s' HI [= <- <-]. done. Qed.

Lemma preserves_bind {A B} I (m : M S A) (f : A → M S B) :
  preserves I m → (∀ a, preserves I (f a)) → preserves I (m ≫= f).
Proof. intros Hm Hf. by eapply triple_bind. Qed.

Lemma preserves_crash {A} I : preserves I (crash : M S A).
Proof. intros s x s' HI [=]. Qed.

Lemma preserves_gets {A} I (f : S → A) : preserves I (gets f).
Proof. intros s x s' HI [= <- <-]. done. Qed.

Lemma preserves_get I : preserves I (get : M S S).
Proof. intros s x s' HI [= <- <-]. done. Qed.

Lemma preserves_modify I f : (∀ s, I s → I (f s)) → preserves I (modify f).
Proof. intros Hf s x s' HI [= <- <-]. auto. Qed.

Lemma preserves_deref {A} I (o : option A) : preserves I (deref o).
Proof. destruct o; [apply preserves_ret|apply preserves_crash]. Qed.

Lemma preserves_when I b m : preserves I m → preserves I (when b m).
Proof. destruct b; [done|intros _; apply preserves_ret]. Qed.

Lemma preserves_for_each {A} I (body : A → M S unit) l :
  (∀ x, x ∈ l → preserves I (body x)) → preserves I (for_each body l).
Proof.
  induction l as [|x l IH]; intros Hb; [apply preserves_ret|].
  apply preserves_bind; [apply Hb; left|intros _].
  apply IH. intros y Hy. apply Hb. by right.
Qed.

End hoare.

#[export] Hint Resolve preserves_ret preserves_crash preserves_gets preserves_get
  preserves_deref preserves_when : ksmppd.

(** [m_invert H] takes a successful run of a sequence of actions apart. *)
Ltac m_step H :=
  lazymatch type of H with
  | mret _ _ = Some _ => apply (inj Some) in H; simplify_eq
  | (_ ≫= _) _ = Some _ =>
      let a := fresh "a" in let s := fresh "s" in
      let H1 := fresh "Hrun" in
      apply bind_Some in H as (a & s & H1 & H)
  end.

(** [preserves_tac tac] decomposes [preserves I m] along [m]'s syntax, uses the
    [ksmppd] hints for the primitive actions, and [tac] for what is left. *)
Ltac preserves_step :=
  first
    [ apply preserves_ret | apply preserves_crash | apply preserves_gets | apply preserves_get
    | apply preserves_deref
    | apply preserves_when
    | apply preserves_for_each; intros ??
    | solve [auto with ksmppd nocore]
    | apply preserves_bind; [|intros ?]
    | match goal with
      | |- preserves _ (match ?x with _ => _ end) => destruct x eqn:?
      | |- preserves _ ((match ?x with _ => _ end)) => destruct x eqn:?
      | |- preserves _ (let '_ := ?x in _) => destruct x eqn:?
      end ].
Ltac preserves_auto := repeat preserves_step.

(** ** Lists, options and integers *)

Definition head_or {A} (d : A) (l : list A) : A := default d (head l).

Lemma Forall2_impl_in {A B} (P Q : A → B → Prop) (l : list A) (k : list B) :
  (∀ x y, x ∈ l → P x y → Q x y) → Forall2 P l k → Forall2 Q l k.
Proof.
  intros HPQ. induction 1 as [|x y l k Hxy _ IH]; constructor; [by apply HPQ; [left|]|].
  apply IH. intros x' y' Hx'. apply HPQ. by right.
Qed.

Lemma elem_of_filter_list {A} (P : A → Prop) `{∀ x, Decision (P x)} (l : list A) x :
  x ∈ filter P l ↔ P x ∧ x ∈ l.
Proof. apply list_elem_of_filter. Qed.

(** The number of the elements of a list a boolean test accepts. *)
Definition count {A} (f : A → bool) (l : list A) : Z :=
  Z.of_nat (length (filter (λ x, f x = true) l)).

Section count.
Context {A : Type}.
Implicit Types (f g : A → bool) (l : list A).

Lemma count_nil f : count f [] = 0%Z.
Proof. reflexivity. Qed.

Lemma count_cons f x l : count f (x :: l) = ((if f x then 1 else 0) + count f l)%Z.
Proof. unfold count. rewrite filter_cons. case_decide as Hx; destruct (f x); simpl in *; try done; lia. Qed.

Lemma count_app f l k : count f (l ++ k) = (count f l + count f k)%Z.
Proof. induction l as [|x l IH]; [done|]. rewrite <- app_comm_cons, !count_cons, IH. lia. Qed.

Lemma count_nonneg f l : (0 ≤ count f l)%Z.
Proof. unfold count. lia. Qed.

Lemma count_ext f g l : (∀ x, x ∈ l → f x = g x) → count f l = count g l.
Proof.
  induction l as [|x l IH]; intros Hfg; [done|].
  rewrite !count_cons, (Hfg x), IH; [done|intros; apply Hfg; by right|by left].
Qed.

Lemma count_zero f l : count f l = 0%Z ↔ ∀ x, x ∈ l → f x = false.
Proof.
  induction l as [|y l IH]; [split; [intros _ x Hx; by apply elem_of_nil in Hx|done]|].
  rewrite count_cons. pose proof (count_nonneg f l). split.
  - intros Hc x [->|Hx]%elem_of_cons; destruct (f y) eqn:?; try lia.
    apply IH; [lia|done].
  - intros Hf. rewrite (Hf y) by left. rewrite (proj2 IH); [done|]. intros x Hx. apply Hf. by right.
Qed.

End count.

