(* ===== verification/CLib.v ===== *)
(** The parts of the C standard library the daemon's code calls directly:
    character classes, [tolower], [strtol]/[atol]/[atoi], and the printf
    conversions [%ld], [%02X] and [%03x], on byte strings. Locale: "C". *)
From S2P Require Import Prelude.
Open Scope Z_scope.

(** ** Bytes as integers *)

Definition byte_val (c : ascii) : Z := Z.of_nat (nat_of_ascii c).
Definition byte_of (z : Z) : ascii := ascii_of_nat (Z.to_nat (z mod 256)).

(** ** <ctype.h> *)

Definition isdigit (c : ascii) : bool := (48 <=? byte_val c) && (byte_val c <=? 57).
Definition isupper (c : ascii) : bool := (65 <=? byte_val c) && (byte_val c <=? 90).
Definition isspace (c : ascii) : bool :=
  (byte_val c =? 32) || ((9 <=? byte_val c) && (byte_val c <=? 13)).
Definition tolower (c : ascii) : ascii :=
  if isupper c then byte_of (byte_val c + 32) else c.

(** ** <stdlib.h>: strtol and its wrappers *)

(** The value of a digit in the bases 10 and 16, [None] for another byte. *)
Definition digit_val (base : Z) (c : ascii) : option Z :=
  let b := byte_val c in
  let v := if isdigit c then b - 48
           else if (97 <=? b) && (b <=? 122) then b - 87
           else if (65 <=? b) && (b <=? 90) then b - 55
           else base in
  if v <? base then Some v else None.

Fixpoint strtol_digits (base acc : Z) (s : Octstr) : Z :=
  match s with
  | [] => acc
  | c :: s =>
      match digit_val base c with
      | Some v => strtol_digits base (acc * base + v) s
      | None => acc
      end
  end.

Fixpoint skip_space (s : Octstr) : Octstr :=
  match s with
  | c :: s' => if isspace c then skip_space s' else s
  | [] => []
  end.

(** The optional [0x] prefix [strtol] skips in base 16 when a digit follows. *)
Definition skip_0x (base : Z) (s : Octstr) : Octstr :=
  match s with
  | z :: x :: d :: s' =>
      if (base =? 16) && bool_decide (z = "0"%char)
         && (bool_decide (x = "x"%char) || bool_decide (x = "X"%char))
         && bool_decide (is_Some (digit_val 16 d))
      then d :: s' else s
  | _ => s
  end.

Definition LONG_MAX : Z := 2 ^ 63 - 1.
Definition LONG_MIN : Z := - 2 ^ 63.
Definition clamp_long (z : Z) : Z := Z.max LONG_MIN (Z.min LONG_MAX z).

Definition strtol (base : Z) (s : Octstr) : Z :=
  match skip_space s with
  | "-"%char :: s => clamp_long (- strtol_digits base 0 (skip_0x base s))
  | "+"%char :: s => clamp_long (strtol_digits base 0 (skip_0x base s))
  | s => clamp_long (strtol_digits base 0 (skip_0x base s))
  end.

(** Conversion to a 32-bit [int] and to [unsigned int]. *)
Definition to_int (z : Z) : Z := (z + 2 ^ 31) mod 2 ^ 32 - 2 ^ 31.
Definition to_uint (z : Z) : Z := z mod 2 ^ 32.

Definition atol (s : Octstr) : Z := strtol 10 s.
Definition atoi (s : Octstr) : Z := to_int (strtol 10 s).

(** ** <stdio.h>: conversions *)

Definition fmt_ld (z : Z) : Octstr := lit (pretty z).

Definition hex_digit (upper : bool) (v : Z) : ascii :=
  if v <? 10 then byte_of (48 + v)
  else byte_of ((if upper then 55 else 87) + v).

(** [%02X] of a byte. *)
Definition fmt_02X (b : Z) : Octstr := [hex_digit true (b / 16); hex_digit true (b mod 16)].

(** [%x] with the digits of [v], least significant last; eight digits hold an
    unsigned int. *)
Fixpoint hex_digits (n : nat) (v : Z) : Octstr :=
  match n with
  | O => []
  | S n => if v =? 0 then [] else hex_digits n (v / 16) ++ [hex_digit false (v mod 16)]
  end.
Definition fmt_03x (v : Z) : Octstr :=
  let d := hex_digits 8 v in replicate (3 - length d) "0"%char ++ d.

(** [%08lx] of an unsigned long. *)
Definition fmt_08lx (v : Z) : Octstr :=
  let d := hex_digits 16 (v mod 2 ^ 64) in replicate (8 - length d) "0"%char ++ d.

(** ** Lemmas *)

Lemma byte_val_range c : 0 ≤ byte_val c < 256.
Proof. unfold byte_val. pose proof (nat_ascii_bounded c). lia. Qed.

Lemma byte_of_val c : byte_of (byte_val c) = c.
Proof.
  unfold byte_of. pose proof (byte_val_range c). rewrite Z.mod_small by lia.
  unfold byte_val. rewrite Nat2Z.id. apply ascii_nat_embedding.
Qed.

Lemma byte_val_of z : byte_val (byte_of z) = z mod 256.
Proof.
  unfold byte_of, byte_val. pose proof (Z.mod_pos_bound z 256 ltac:(lia)).
  rewrite nat_ascii_embedding; lia.
Qed.

Lemma byte_val_inj c d : byte_val c = byte_val d → c = d.
Proof. intros H. by rewrite <- (byte_of_val c), H, byte_of_val. Qed.

(** A property of all bytes a test decides holds when the test accepts the 256
    of them. *)
Lemma all_bytes (P : ascii → bool) :
  forallb P (map ascii_of_nat (seq 0 256)) = true → ∀ c, P c = true.
Proof.
  intros H c. rewrite forallb_forall in H. apply H.
  apply in_map_iff. exists (nat_of_ascii c). split; [apply ascii_nat_embedding|].
  apply in_seq. pose proof (nat_ascii_bounded c). lia.
Qed.

Lemma tolower_idemp c : tolower (tolower c) = tolower c.
Proof.
  apply (bool_decide_eq_true_1 (tolower (tolower c) = tolower c)).
  revert c. apply all_bytes. by vm_compute.
Qed.

Lemma to_int_small z : - 2 ^ 31 ≤ z < 2 ^ 31 → to_int z = z.
Proof. intros. unfold to_int. rewrite Z.mod_small; lia. Qed.

Lemma length_hex_digits n v : (length (hex_digits n v) ≤ n)%nat.
Proof.
  revert v; induction n as [|n IH]; intros v; simpl; [lia|].
  destruct (v =? 0); simpl; [lia|]. rewrite length_app. simpl. specialize (IH (v / 16)). lia.
Qed.

(** The decimal notation of a number is not empty and holds digits and a sign
    only. *)
Lemma pretty_N_go_chars (c : ascii) x s :
  (∀ d, pretty_N_char d ≠ c) → c ∉ lit s → c ∉ lit (pretty_N_go x s).
Proof.
  intros Hd. revert s. induction (N.lt_wf_0 x) as [x _ IH]; intros s Hs.
  assert (x = 0 ∨ 0 < x)%N as [->|?] by lia; [by rewrite pretty_N_go_0|].
  rewrite pretty_N_go_step by done. apply IH; [by apply N.div_lt|].
  change (lit (String.String ?a ?b)) with (a :: lit b). apply not_elem_of_cons. split; [|done].
  by apply not_eq_sym.
Qed.

Lemma pretty_N_go_ne x s : lit s ≠ [] → lit (pretty_N_go x s) ≠ [].
Proof.
  revert s. induction (N.lt_wf_0 x) as [x _ IH]; intros s Hs.
  assert (x = 0 ∨ 0 < x)%N as [->|?] by lia; [by rewrite pretty_N_go_0|].
  rewrite pretty_N_go_step by done. apply IH; [by apply N.div_lt|done].
Qed.

Lemma pretty_pos p : pretty (N.pos p) = pretty_N_go (N.pos p) "".
Proof. unfold pretty, pretty_N. by rewrite decide_False. Qed.

Lemma fmt_ld_chars c z : (∀ d, pretty_N_char d ≠ c) → c ≠ "-"%char → c ∉ fmt_ld z.
Proof.
  intros Hd Hminus. unfold fmt_ld. destruct z as [|p|p].
  - change (c ∉ [pretty_N_char 0]). intros ->%list_elem_of_singleton. by apply (Hd 0%N).
  - change (c ∉ lit (pretty (N.pos p))). rewrite pretty_pos. by apply pretty_N_go_chars, not_elem_of_nil.
  - change (c ∉ "-"%char :: lit (pretty (N.pos p))). rewrite pretty_pos. apply not_elem_of_cons.
    split; [done|]. by apply pretty_N_go_chars, not_elem_of_nil.
Qed.

Lemma fmt_ld_bar z : "|"%char ∉ fmt_ld z.
Proof. apply fmt_ld_chars; [|done]. intros d. unfold pretty_N_char. by repeat case_match. Qed.

Lemma fmt_ld_ne z : fmt_ld z ≠ [].
Proof.
  unfold fmt_ld. destruct z as [|p|p]; [done| |done].
  change (lit (pretty (N.pos p)) ≠ []). rewrite pretty_pos, pretty_N_go_step by done. by apply pretty_N_go_ne.
Qed.

Lemma lit_inj s t : lit s = lit t → s = t.
Proof.
  intros Hst. rewrite <- (Stdlib.Strings.String.string_of_list_ascii_of_string s),
    <- (Stdlib.Strings.String.string_of_list_ascii_of_string t).
  unfold lit in Hst. by rewrite Hst.
Qed.

Lemma fmt_ld_inj y z : fmt_ld y = fmt_ld z → y = z.
Proof. intros H%lit_inj. by apply (inj pretty). Qed.

(** *** Printing and reading a number *)

Lemma digit_val_pretty d : (d < 10)%N → digit_val 10 (pretty_N_char d) = Some (Z.of_N d).
Proof.
  intros Hd. assert (d ∈ [0;1;2;3;4;5;6;7;8;9]%N) as Hin.
  { rewrite !elem_of_cons. lia. }
  repeat (apply elem_of_cons in Hin as [->|Hin]; [done|]). by apply elem_of_nil in Hin.
Qed.

Lemma strtol_digits_pretty x s :
  strtol_digits 10 0 (lit (pretty_N_go x s)) = strtol_digits 10 (Z.of_N x) (lit s).
Proof.
  revert s. induction (N.lt_wf_0 x) as [x _ IH]; intros s.
  assert (x = 0 ∨ 0 < x)%N as [->|Hx] by lia; [by rewrite pretty_N_go_0|].
  rewrite pretty_N_go_step, IH by (done || by apply N.div_lt).
  change (lit (String.String ?a ?b)) with (a :: lit b). cbn [strtol_digits].
  rewrite digit_val_pretty by (by apply N.mod_lt). f_equal.
  rewrite (N.div_mod x 10) at 3 by done. lia.
Qed.

Lemma pretty_N_go_digits x s :
  Forall (λ c, isdigit c = true) (lit s) → Forall (λ c, isdigit c = true) (lit (pretty_N_go x s)).
Proof.
  revert s. induction (N.lt_wf_0 x) as [x _ IH]; intros s Hs.
  assert (x = 0 ∨ 0 < x)%N as [->|Hx] by lia; [by rewrite pretty_N_go_0|].
  rewrite pretty_N_go_step by done. apply IH; [by apply N.div_lt|].
  change (lit (String.String ?a ?b)) with (a :: lit b). constructor; [|done].
  unfold pretty_N_char. by repeat case_match.
Qed.

Lemma skip_0x_10 s : skip_0x 10 s = s.
Proof. by destruct s as [|? [|? [|? ?]]]. Qed.

(** A number starts with a digit or a minus sign: no white space, no plus sign. *)
Lemma strtol_digit_first c s :
  isdigit c = true → strtol 10 (c :: s) = clamp_long (strtol_digits 10 0 (c :: s)).
Proof.
  intros Hc. unfold strtol. rewrite !skip_0x_10.
  assert (isspace c = false) as Hsp.
  { unfold isdigit, isspace in *. lia. }
  cbn [skip_space]. rewrite Hsp.
  repeat case_match; simplify_eq; rewrite ?skip_0x_10; done.
Qed.

Lemma atol_fmt_ld z : LONG_MIN ≤ z ≤ LONG_MAX → atol (fmt_ld z) = z.
Proof.
  intros Hz. assert (clamp_long z = z) as Hclamp by (unfold clamp_long; lia).
  unfold atol, fmt_ld. destruct z as [|p|p]; [done| |].
  - change (pretty (Z.pos p)) with (pretty (N.pos p)). rewrite pretty_pos.
    pose proof (pretty_N_go_digits (N.pos p) "" (Forall_nil_2 _)) as Hd.
    pose proof (strtol_digits_pretty (N.pos p) "") as Hv.
    assert (lit (pretty_N_go (N.pos p) "") ≠ []) as Hne.
    { rewrite pretty_N_go_step by done. by apply pretty_N_go_ne. }
    revert Hd Hv Hne. generalize (lit (pretty_N_go (N.pos p) "")). intros [|c s] Hd Hv Hne; [done|].
    apply Forall_cons in Hd as [Hc _]. rewrite strtol_digit_first, Hv by done. exact Hclamp.
  - change (lit (pretty (Z.neg p))) with ("-"%char :: lit (pretty (N.pos p))). rewrite pretty_pos.
    unfold strtol. cbn [skip_space isspace]. 
    change (isspace "-"%char) with false. cbv iota. rewrite skip_0x_10, strtol_digits_pretty. exact Hclamp.
Qed.

Lemma fmt_ld_nul z : ascii_of_nat 0 ∉ fmt_ld z.
Proof. apply fmt_ld_chars; [|done]. intros d. unfold pretty_N_char. by repeat case_match. Qed.
