(* ===== verification/Gwlib.v ===== *)
(** gwlib's octet strings as the daemon uses them. The data is a byte sequence
    ([Octstr], [option Octstr] where the C pointer may be NULL) and the accessors
    are the list operations gwlib documents them as. The searching functions,
    whose algorithms are gwlib's own, are the operations of the class
    [OctstrLib]; its laws are their documented results, and the client files are
    proved against the class. [octstr_ref] is one implementation of it. *)
From S2P Require Import Prelude CLib.
Open Scope Z_scope.

(** ** Accessors *)

Definition octlen (s : Octstr) : Z := Z.of_nat (length s).

(** [octstr_len] of a pointer: 0 for NULL. *)
Definition octstr_len (o : option Octstr) : Z := from_option octlen 0 o.

(** -1 outside the string. *)
Definition octstr_get_char (s : Octstr) (pos : Z) : Z :=
  if pos <? 0 then -1 else from_option byte_val (-1) (s !! Z.to_nat pos).

(** [octstr_copy(s, from, len)]: the bytes of the range that exist. *)
Definition octstr_copy (s : Octstr) (from len : Z) : Octstr :=
  take (Z.to_nat len) (drop (Z.to_nat from) s).

(** [octstr_delete(s, pos, len)]. *)
Definition octstr_delete (s : Octstr) (pos len : Z) : Octstr :=
  take (Z.to_nat pos) s ++ drop (Z.to_nat pos + Z.to_nat len) s.

(** [octstr_check_range(s, pos, len, filter)] on the part of the range that
    exists. *)
Definition octstr_check_range (s : Octstr) (pos len : Z) (f : ascii → bool) : bool :=
  forallb f (octstr_copy s pos len).

Definition octstr_tolower (s : Octstr) : Octstr := map tolower s.

(** [octstr_compare(a, b) == 0] and [octstr_case_compare(a, b) == 0]. *)
Definition octstr_eq (a b : Octstr) : bool := bool_decide (a = b).
Definition octstr_case_eq (a b : Octstr) : bool :=
  bool_decide (octstr_tolower a = octstr_tolower b).

(** ** Reference search: the first suffix, from a position on, a test accepts *)

Fixpoint find_suffix (P : Octstr → bool) (s : Octstr) (i : Z) : Z :=
  if P s then i
  else match s with
       | [] => -1
       | _ :: s => find_suffix P s (i + 1)
       end.

Fixpoint starts_with (needle s : Octstr) : bool :=
  match needle, s with
  | [], _ => true
  | c :: needle, d :: s => bool_decide (c = d) && starts_with needle s
  | _ :: _, [] => false
  end.

Fixpoint starts_with_case (needle s : Octstr) : bool :=
  match needle, s with
  | [], _ => true
  | c :: needle, d :: s => bool_decide (tolower c = tolower d) && starts_with_case needle s
  | _ :: _, [] => false
  end.

Definition find_from (P : Octstr → bool) (s : Octstr) (pos : Z) : Z :=
  find_suffix P (drop (Z.to_nat pos) s) pos.

(** Strings joined with a separator byte between them. *)
Fixpoint join (sep : ascii) (ps : list Octstr) : Octstr :=
  match ps with
  | [] => []
  | [p] => p
  | p :: ps => p ++ sep :: join sep ps
  end.

(** ** The interface *)

Class OctstrLib := {
  octstr_search_char : Octstr → ascii → Z → Z;
  octstr_search : Octstr → Octstr → Z → Z;
  octstr_case_search : Octstr → Octstr → Z → Z;
  octstr_split : Octstr → ascii → list Octstr;
  octstr_search_char_spec s c pos : 0 ≤ pos →
    octstr_search_char s c pos = find_from (starts_with [c]) s pos;
  octstr_search_spec s n pos : 0 ≤ pos → n ≠ [] →
    octstr_search s n pos = find_from (starts_with n) s pos;
  octstr_case_search_spec s n pos : 0 ≤ pos → n ≠ [] →
    octstr_case_search s n pos = find_from (starts_with_case n) s pos;
  octstr_split_join sep ps :
    Forall (λ p, p ≠ [] ∧ sep ∉ p) ps → octstr_split (join sep ps) sep = ps;
}.

(** ** A reference implementation *)

Fixpoint ref_split (acc : Octstr) (sep : ascii) (s : Octstr) : list Octstr :=
  match s with
  | [] => match acc with [] => [] | _ => [rev acc] end
  | c :: s => if bool_decide (c = sep) then rev acc :: ref_split [] sep s
              else ref_split (c :: acc) sep s
  end.

Lemma ref_split_piece sep p acc s :
  sep ∉ p → ref_split acc sep (p ++ s) = ref_split (rev p ++ acc) sep s.
Proof.
  revert acc. induction p as [|c p IH]; intros acc Hp; [done|].
  apply not_elem_of_cons in Hp as [Hc Hp]. simpl.
  rewrite bool_decide_false by done. rewrite IH by done. by rewrite <- app_assoc.
Qed.

Lemma ref_split_join sep ps :
  Forall (λ p, p ≠ [] ∧ sep ∉ p) ps → ref_split [] sep (join sep ps) = ps.
Proof.
  induction ps as [|p ps IH]; intros Hps; [done|].
  apply Forall_cons in Hps as [[Hne Hp] Hps].
  destruct ps as [|q ps].
  - simpl. rewrite <- (app_nil_r p) at 1. rewrite ref_split_piece by done.
    simpl. rewrite app_nil_r.
    destruct (rev p) eqn:Hr; [|by rewrite <- Hr, rev_involutive].
    destruct Hne. by rewrite <- (rev_involutive p), Hr.
  - change (join sep (p :: q :: ps)) with (p ++ sep :: join sep (q :: ps)).
    rewrite ref_split_piece by done. cbn [ref_split].
    rewrite bool_decide_true by done.
    by rewrite app_nil_r, rev_involutive, IH.
Qed.

#[local] Instance octstr_ref : OctstrLib := {
  octstr_search_char s c pos := find_from (starts_with [c]) s pos;
  octstr_search s n pos := find_from (starts_with n) s pos;
  octstr_case_search s n pos := find_from (starts_with_case n) s pos;
  octstr_split s sep := ref_split [] sep s;
  octstr_search_char_spec s c pos _ := eq_refl;
  octstr_search_spec s n pos _ _ := eq_refl;
  octstr_case_search_spec s n pos _ _ := eq_refl;
  octstr_split_join := ref_split_join;
}.

(** ** Lemmas *)

Lemma octlen_nonneg s : 0 ≤ octlen s.
Proof. unfold octlen. lia. Qed.

Lemma octstr_len_nonneg o : 0 ≤ octstr_len o.
Proof. destruct o; simpl; [apply octlen_nonneg|lia]. Qed.

Lemma octlen_app s t : octlen (s ++ t) = octlen s + octlen t.
Proof. unfold octlen. rewrite length_app. lia. Qed.

Lemma starts_with_spec n s : starts_with n s = true ↔ n `prefix_of` s.
Proof.
  revert s. induction n as [|c n IH]; intros [|d s]; simpl.
  - split; [intros _; apply prefix_nil|done].
  - split; [intros _; apply prefix_nil|done].
  - split; [done|]. intros H%prefix_nil_inv. done.
  - rewrite andb_true_iff, bool_decide_eq_true, IH. split.
    + intros [-> ?]. by apply prefix_cons.
    + intros H. split; [by eapply prefix_cons_inv_1|by eapply prefix_cons_inv_2].
Qed.

Lemma starts_with_app n s : starts_with n (n ++ s) = true.
Proof. apply starts_with_spec. by eexists. Qed.

Lemma find_suffix_range P s i :
  find_suffix P s i = -1 ∨ i ≤ find_suffix P s i ≤ i + octlen s.
Proof.
  revert i. induction s as [|c s IH]; intros i; simpl; destruct (P _).
  - right. unfold octlen. simpl. lia.
  - by left.
  - right. unfold octlen. simpl. lia.
  - destruct (IH (i + 1)) as [->|?]; [by left|right].
    unfold octlen in *. cbn [length]. lia.
Qed.

(** The position found is where the test first holds. *)
Lemma find_suffix_skip P p s i :
  (∀ p1 p2, p = p1 ++ p2 → p2 ≠ [] → P (p2 ++ s) = false) →
  find_suffix P (p ++ s) i = find_suffix P s (i + octlen p).
Proof.
  revert i. induction p as [|c p IH]; intros i HP; simpl.
  - f_equal. unfold octlen. simpl. lia.
  - assert (P (c :: p ++ s) = false) as -> by (by apply (HP [] (c :: p))).
    rewrite IH; [f_equal; unfold octlen; simpl; lia|].
    intros p1 p2 -> ?. by apply (HP (c :: p1) p2).
Qed.

Lemma find_suffix_char_notin c s i :
  c ∉ s → find_suffix (starts_with [c]) s i = -1.
Proof.
  revert i. induction s as [|d s IH]; intros i Hs; [done|].
  apply not_elem_of_cons in Hs as [? Hs]. simpl.
  rewrite bool_decide_false by done. by apply IH.
Qed.

Lemma find_suffix_char_app c p s i :
  c ∉ p → find_suffix (starts_with [c]) (p ++ c :: s) i = i + octlen p.
Proof.
  intros Hp. rewrite find_suffix_skip.
  - simpl. by rewrite bool_decide_true.
  - intros p1 [|d p2] -> ?; [done|]. simpl. rewrite bool_decide_false; [done|].
    intros ->. apply Hp, elem_of_app. right. left.
Qed.

Lemma find_suffix_neg P s i : 0 ≤ i → (find_suffix P s i <? 0) = (find_suffix P s i =? -1).
Proof. intros. destruct (find_suffix_range P s i); lia. Qed.

Lemma find_from_0 P s : find_from P s 0 = find_suffix P s 0.
Proof. reflexivity. Qed.

Section octstr.
Context `{OctstrLib}.

Lemma octstr_search_char_notin s c : c ∉ s → octstr_search_char s c 0 = -1.
Proof. intros. rewrite octstr_search_char_spec, find_from_0 by lia. by apply find_suffix_char_notin. Qed.

Lemma octstr_search_char_app p c s :
  c ∉ p → octstr_search_char (p ++ c :: s) c 0 = octlen p.
Proof.
  intros. rewrite octstr_search_char_spec, find_from_0 by lia.
  rewrite find_suffix_char_app by done. lia.
Qed.

Lemma octstr_search_char_in s c : c ∈ s → 0 ≤ octstr_search_char s c 0.
Proof.
  intros (p & q & -> & ?)%list_elem_of_split_l.
  rewrite octstr_search_char_app by done. apply octlen_nonneg.
Qed.

End octstr.

Lemma octstr_copy_prefix p s : octstr_copy (p ++ s) 0 (octlen p) = p.
Proof. unfold octstr_copy, octlen. rewrite Nat2Z.id. change (Z.to_nat 0) with 0%nat. by rewrite drop_0, take_app_length. Qed.
