(* ===== verification/DbUtil.v ===== *)
(** smpp_database_util.c: the SQL text helpers of the two dialects and the %XX
    codec the store tables and the Redis lists keep binary data in. *)
From S2P Require Import Prelude CLib Gwlib.
Open Scope Z_scope.

(** ** Dialects (gwlib's [enum db_type], the two the daemon sets) *)

Inductive db_type := DBPOOL_MYSQL | DBPOOL_PGSQL.

#[export] Instance db_type_eq_dec : EqDecision db_type.
Proof. solve_decision. Defined.

Definition smpp_db_sql_is_pgsql (db : db_type) : bool := bool_decide (db = DBPOOL_PGSQL).

(** ** SQL text *)

Definition squote : ascii := "'"%char.

Fixpoint sql_escape (value : Octstr) : Octstr :=
  match value with
  | [] => []
  | c :: value => if bool_decide (c = squote) then squote :: squote :: sql_escape value
                  else c :: sql_escape value
  end.

Definition smpp_db_sql_string_literal (value : option Octstr) : Octstr :=
  match value with
  | None => $"NULL"
  | Some value => $"'" ++ sql_escape value ++ $"'"
  end.

Definition smpp_db_sql_append_column (sql : Octstr) (db : db_type) (name : Octstr) : Octstr :=
  if smpp_db_sql_is_pgsql db then sql ++ name
  else sql ++ $"`" ++ name ++ $"`".

Definition smpp_db_sql_append_where_eq (sql : Octstr) (binds : list (option Octstr))
    (db : db_type) (col : Octstr) (val : option Octstr) : Octstr * list (option Octstr) :=
  let sql := smpp_db_sql_append_column sql db col in
  if smpp_db_sql_is_pgsql db then
    (sql ++ $" = " ++ smpp_db_sql_string_literal val, binds)
  else (sql ++ $" = ?", binds ++ [val]).

Definition smpp_db_sql_append_insert_value (values : Octstr) (binds : list (option Octstr))
    (db : db_type) (val : option Octstr) : Octstr * list (option Octstr) :=
  if smpp_db_sql_is_pgsql db then
    (values ++ smpp_db_sql_string_literal val ++ $",", binds)
  else (values ++ $"?,", binds ++ [val]).

Definition smpp_db_sql_append_insert_long (values : Octstr) (binds : list (option Octstr))
    (db : db_type) (val : Z) : Octstr * list (option Octstr) :=
  if smpp_db_sql_is_pgsql db then (values ++ fmt_ld val ++ $",", binds)
  else (values ++ $"?,", binds ++ [Some (fmt_ld val)]).

Definition smpp_db_sql_append_password_check (sql : Octstr) (binds : list (option Octstr))
    (db : db_type) (password : option Octstr) : Octstr * list (option Octstr) :=
  if smpp_db_sql_is_pgsql db then
    (sql ++ $" AND password = encode(digest(" ++ smpp_db_sql_string_literal password
         ++ $", 'sha256'), 'hex')", binds)
  else (sql ++ $" AND `password` = SHA2(?, 256)", binds ++ [password]).

Definition smpp_db_sql_union_keyword (db : db_type) : Octstr :=
  if smpp_db_sql_is_pgsql db then $"UNION" else $"UNION DISTINCT".

(** ** The %XX codec *)

Definition smpp_db_hex_nibble (c : Z) : Z :=
  if (48 <=? c) && (c <=? 57) then c - 48
  else if (65 <=? c) && (c <=? 70) then c - 65 + 10
  else if (97 <=? c) && (c <=? 102) then c - 97 + 10
  else -1.

(** Every byte is encoded, letters and digits too. *)
Definition smpp_db_url_encode_octstr (s : option Octstr) : Octstr :=
  match s with
  | None => []
  | Some s => concat (map (λ c, "%"%char :: fmt_02X (byte_val c)) s)
  end.

(** The loop over [i]; [None] is the early return of a copy of the input. *)
Fixpoint url_decode_loop (s out : Octstr) : option Octstr :=
  match s with
  | [] => Some out
  | p :: h :: l :: s =>
      if bool_decide (p = "%"%char) then
        let hi := smpp_db_hex_nibble (byte_val h) in
        let lo := smpp_db_hex_nibble (byte_val l) in
        if (hi <? 0) || (lo <? 0) then None
        else url_decode_loop s (out ++ [byte_of (Z.lor (Z.shiftl hi 4) lo)])
      else None
  | _ => None
  end.

Definition smpp_db_url_decode_octstr `{OctstrLib} (s : option Octstr) : Octstr :=
  match s with
  | None => []
  | Some s =>
      if octlen s =? 0 then []
      else if octstr_search_char s "%"%char 0 <? 0 then s
      else default s (url_decode_loop s [])
  end.

(** ** Specifications *)

(** The SQL lexer's rule for a string literal: after the opening quote, two
    quotes are one quote of the value and a single quote ends the literal. The
    result is the value and the text after the literal. *)
Fixpoint sql_lex_body (acc s : Octstr) : option (Octstr * Octstr) :=
  match s with
  | [] => None
  | c :: s =>
      if bool_decide (c = squote) then
        match s with
        | d :: s' => if bool_decide (d = squote) then sql_lex_body (acc ++ [squote]) s'
                     else Some (acc, s)
        | [] => Some (acc, [])
        end
      else sql_lex_body (acc ++ [c]) s
  end.
Definition sql_lex_literal (s : Octstr) : option (Octstr * Octstr) :=
  match s with
  | c :: s => if bool_decide (c = squote) then sql_lex_body [] s else None
  | [] => None
  end.

(** ** Lemmas *)

Lemma sql_lex_body_escape v acc rest :
  head rest ≠ Some squote →
  sql_lex_body acc (sql_escape v ++ squote :: rest) = Some (acc ++ v, rest).
Proof.
  intros Hrest. revert acc. induction v as [|c v IH]; intros acc; simpl.
  - rewrite app_nil_r. destruct rest as [|d rest]; [done|].
    rewrite bool_decide_false; [done|]. simpl in Hrest. congruence.
  - case_bool_decide as Hc; simpl.
    + subst c. rewrite IH, <- app_assoc. done.
    + rewrite bool_decide_false by done. rewrite IH, <- app_assoc. done.
Qed.

Lemma hex_nibble_digits c :
  smpp_db_hex_nibble (byte_val (hex_digit true (byte_val c / 16))) = byte_val c / 16 ∧
  smpp_db_hex_nibble (byte_val (hex_digit true (byte_val c mod 16))) = byte_val c mod 16 ∧
  byte_of (Z.lor (Z.shiftl (byte_val c / 16) 4) (byte_val c mod 16)) = c.
Proof.
  revert c.
  set (P := λ c, bool_decide
    (smpp_db_hex_nibble (byte_val (hex_digit true (byte_val c / 16))) = byte_val c / 16 ∧
     smpp_db_hex_nibble (byte_val (hex_digit true (byte_val c mod 16))) = byte_val c mod 16 ∧
     byte_of (Z.lor (Z.shiftl (byte_val c / 16) 4) (byte_val c mod 16)) = c)).
  enough (∀ c, P c = true) as HP by (intros c; apply (bool_decide_eq_true_1 _ (HP c))).
  apply all_bytes. by vm_compute.
Qed.

Lemma url_decode_loop_encode s out :
  url_decode_loop (smpp_db_url_encode_octstr (Some s)) out = Some (out ++ s).
Proof.
  revert out. induction s as [|c s IH]; intros out; [by rewrite app_nil_r|].
  destruct (hex_nibble_digits c) as (Hhi & Hlo & Hc).
  pose proof (byte_val_range c).
  assert (0 ≤ byte_val c / 16) by (apply Z.div_pos; lia).
  pose proof (Z.mod_pos_bound (byte_val c) 16 ltac:(lia)).
  change (smpp_db_url_encode_octstr (Some (c :: s)))
    with ("%"%char :: hex_digit true (byte_val c / 16) :: hex_digit true (byte_val c mod 16)
          :: smpp_db_url_encode_octstr (Some s)).
  cbn [url_decode_loop]. rewrite bool_decide_true by done.
  rewrite Hhi, Hlo, Hc.
  replace (_ || _) with false by (symmetry; apply orb_false_iff; lia).
  rewrite IH, <- app_assoc. done.
Qed.

(** A successful decoding shrinks three bytes to one. *)
Lemma url_decode_loop_length s out r :
  url_decode_loop s out = Some r → octlen s = 3 * (octlen r - octlen out).
Proof.
  remember (length s) as n eqn:Hn. revert s out Hn.
  induction n as [n IH] using lt_wf_ind; intros s out -> Hs.
  destruct s as [|p [|h [|l s]]]; simpl in Hs; try done.
  { simplify_eq. unfold octlen. simpl. lia. }
  case_bool_decide; [|done]. destruct (_ || _); [done|].
  apply (IH (length s)) in Hs; [|simpl; lia|done].
  rewrite octlen_app in Hs. unfold octlen in *. simpl in *. lia.
Qed.

(** What is encoded is read back. *)
Lemma url_decode_encoded `{OctstrLib} (s : Octstr) :
  smpp_db_url_decode_octstr (Some (smpp_db_url_encode_octstr (Some s))) = s.
Proof.
  unfold smpp_db_url_decode_octstr. destruct s as [|c s]; [done|].
  replace (octlen _ =? 0) with false by done.
  replace (_ <? 0) with false.
  - by rewrite url_decode_loop_encode.
  - symmetry. apply Z.ltb_ge, octstr_search_char_in. left.
Qed.

(** A literal is lexed as its value. *)
Lemma sql_literal_lexed (v rest : Octstr) :
  head rest ≠ Some squote →
  sql_lex_literal (smpp_db_sql_string_literal (Some v) ++ rest) = Some (v, rest).
Proof.
  intros Hrest. unfold smpp_db_sql_string_literal.
  change ($"'" ++ sql_escape v ++ $"'") with (squote :: (sql_escape v ++ [squote])).
  rewrite <- app_comm_cons, <- app_assoc. cbn [sql_lex_literal].
  rewrite bool_decide_true by done. by apply (sql_lex_body_escape v []).
Qed.

(** ** Properties *)

(** What the store tables and Redis lists keep can be read back: the encoding
    of any byte string (NUL, quotes, percent signs and bytes above 127 included)
    is three times as long, has only percent signs and hexadecimal digits, which no
    quoting of SQL touches, and decodes to the string. *)
Theorem url_decode_encode `{OctstrLib} (s : Octstr) :
  let e := smpp_db_url_encode_octstr (Some s) in
  smpp_db_url_decode_octstr (Some e) = s ∧ length e = (3 * length s)%nat ∧
  Forall (λ c, c = "%"%char ∨ 0 ≤ smpp_db_hex_nibble (byte_val c)) e.
Proof.
  intros e. split; [apply url_decode_encoded|]. subst e. induction s as [|c s [IHl IHs]]; [by split|].
  change (smpp_db_url_encode_octstr (Some (c :: s)))
    with ("%"%char :: hex_digit true (byte_val c / 16) :: hex_digit true (byte_val c mod 16)
          :: smpp_db_url_encode_octstr (Some s)).
  destruct (hex_nibble_digits c) as (Hhi & Hlo & _). pose proof (byte_val_range c).
  split; [cbn [length]; lia|].
  constructor; [by left|]. constructor; [right; rewrite Hhi; apply Z.div_pos; lia|].
  constructor; [right; rewrite Hlo; apply Z.mod_pos_bound; lia|done].
Qed.

(** The decoder is all or nothing: its result is its input unchanged, or the
    whole input was %XX groups and the result has a third of the length. *)
Theorem url_decode_all_or_nothing `{OctstrLib} (s : Octstr) :
  let r := smpp_db_url_decode_octstr (Some s) in
  r = s ∨ (url_decode_loop s [] = Some r ∧ octlen s = 3 * octlen r).
Proof.
  unfold smpp_db_url_decode_octstr. destruct (octlen s =? 0) eqn:Hlen.
  { left. destruct s; [done|]. unfold octlen in Hlen. simpl in Hlen. lia. }
  destruct (_ <? 0); [by left|].
  destruct (url_decode_loop s []) as [r|] eqn:Hs; simpl; [right|by left].
  split; [done|]. apply url_decode_loop_length in Hs. unfold octlen in *. simpl in *. lia.
Qed.

(** A PostgreSQL literal cannot be broken out of: a lexer that reads the text
    [smpp_db_sql_string_literal] made for a value, followed by any text that does
    not start with a quote, reads exactly the value and stops at that text. *)
Theorem sql_string_literal_roundtrip (v rest : Octstr) :
  head rest ≠ Some squote →
  sql_lex_literal (smpp_db_sql_string_literal (Some v) ++ rest) = Some (v, rest).
Proof. intros Hrest. by apply sql_literal_lexed. Qed.

Lemma sql_string_literal_roundtrip_witness :
  sql_lex_literal (smpp_db_sql_string_literal (Some ($"a' OR '1'='1")) ++ $" LIMIT 1")
  = Some ($"a' OR '1'='1", $" LIMIT 1").
Proof. apply sql_string_literal_roundtrip. done. Defined.

(** The values of a WHERE clause and of the password check never enter
    the MySQL statement's text: they are appended to the bind list, in order, and
    the text holds one placeholder for each. *)
Theorem mysql_values_are_bound (sql : Octstr) binds col (user password : option Octstr) :
  let '(sql1, binds1) := smpp_db_sql_append_where_eq sql binds DBPOOL_MYSQL col user in
  let '(sql2, binds2) := smpp_db_sql_append_password_check sql1 binds1 DBPOOL_MYSQL password in
  binds2 = binds ++ [user; password] ∧
  sql2 = sql ++ $"`" ++ col ++ $"` = ? AND `password` = SHA2(?, 256)".
Proof.
  cbn. split; [by rewrite <- app_assoc|].
  unfold smpp_db_sql_append_column, smpp_db_sql_is_pgsql.
  rewrite bool_decide_false by done. by rewrite <- !app_assoc.
Qed.
