(* ===== verification/Types.v ===== *)
(** The data of the daemon's headers: smpp_server.h, smpp_esme.h,
    smpp_queued_pdu.h, smpp_bearerbox.h, smpp_route.h and smpp_database.h, and
    the fields of Kannel's [Msg] (of type sms) and [SMPP_PDU] the daemon reads
    and writes. C [int] flags are [bool] where the code only tests them, [double]s
    are rationals (rounding is not modelled), gwlib counters are [Z], a gwlib
    [Load] is the list of the times it was increased at. Pointers to queued PDUs,
    ESMEs and bearerboxes are [nat] addresses of the stores in World.v. *)
From S2P Require Import Prelude CLib Gwlib.
From Stdlib Require Export QArith.QArith_base.
Open Scope Z_scope.

(** ** Constants of the SMPP 3.4 specification *)

Definition SMPP_ESME_ROK : Z := 0x0.
Definition SMPP_ESME_RINVBNDSTS : Z := 0x4.
Definition SMPP_ESME_RSYSERR : Z := 0x8.
Definition SMPP_ESME_RINVSRCADR : Z := 0xA.
Definition SMPP_ESME_RINVDSTADR : Z := 0xB.
Definition SMPP_ESME_RBINDFAIL : Z := 0xD.
Definition SMPP_ESME_RMSGQFUL : Z := 0x14.
Definition SMPP_ESME_RINVESMCLASS : Z := 0x43.
Definition SMPP_ESME_RSUBMITFAIL : Z := 0x45.
Definition SMPP_ESME_RTHROTTLED : Z := 0x58.
Definition SMPP_ESME_RINVTLVVAL : Z := 0xC4.
Definition SMPP_ESME_RDELIVERYFAILURE : Z := 0xFE.

Definition GSM_ADDR_TON_UNKNOWN : Z := 0.
Definition GSM_ADDR_TON_INTERNATIONAL : Z := 1.
Definition GSM_ADDR_TON_NATIONAL : Z := 2.
Definition GSM_ADDR_TON_ALPHANUMERIC : Z := 5.
Definition GSM_ADDR_NPI_UNKNOWN : Z := 0.
Definition GSM_ADDR_NPI_E164 : Z := 1.

Definition ESM_CLASS_DELIVER_SMSC_DELIVER_ACK : Z := 0x04.
Definition ESM_CLASS_SUBMIT_UDH_INDICATOR : Z := 0x40.
Definition ESM_CLASS_DELIVER_UDH_INDICATOR : Z := 0x40.
Definition ESM_CLASS_SUBMIT_RPI : Z := 0x80.

(** Kannel's documented dlr-mask bits. *)
Definition DLR_UNDEFINED : Z := -1.
Definition DLR_NOTHING : Z := 0.
Definition DLR_SUCCESS : Z := 0x01.
Definition DLR_FAIL : Z := 0x02.
Definition DLR_BUFFERED : Z := 0x04.
Definition DLR_SMSC_SUCCESS : Z := 0x08.
Definition DLR_SMSC_FAIL : Z := 0x10.

(** ** smpp_esme.h, smpp_server.h, smpp_bearerbox.h: constants *)

Definition SMPP_ESME_CLEANUP_INTERVAL : Z := 15.
Definition SMPP_ESME_CLEANUP_QUEUE_DELAY : Z := 10.
Definition SMPP_ESME_MAX_CONSECUTIVE_ERRORS : Z := 10.
Definition SMPP_ESME_WAIT_ACK_TIME : Z := 60.
Definition SMPP_ESME_COMMAND_STATUS_WAIT_ACK_TIMEOUT : Z := 0x0400.
Definition SMPP_ESME_COMMAND_STATUS_QUEUED : Z := 0x0401.
Definition SMPP_ESME_COMMAND_STATUS_QUEUE_ERROR : Z := 0x0402.
Definition SMPP_QUEUED_PDU_DESTROYED : Z := 0x04FE.
Definition SMPP_ESME_DEFAULT_ENQUIRE_LINK_INTERVAL : Z := 120.
Definition SMPP_ESME_DEFAULT_MAX_OPEN_ACKS : Z := 500.
Definition SMPP_AUTH_DATABASE_STORE_PRIMARY_INHERIT : Z := -1.
Definition SMPP_ESME_UNDEFINED : Z := 0.
Definition SMPP_ESME_TRANSMIT : Z := 1.
Definition SMPP_ESME_RECEIVE : Z := 2.
Definition SMPP_SERVER_AUTH_METHOD_DATABASE : Z := 1.
Definition SMPP_SERVER_AUTH_METHOD_HTTP : Z := 2.
Definition SMPP_SERVER_AUTH_METHOD_PLUGIN : Z := 4.
Definition SMPP_SERVER_STATUS_RUNNING : Z := 2.
Definition SMPP_SERVER_STATUS_SHUTDOWN : Z := 8.
Definition SMPP_WAITACK_DISCONNECT : Z := 0.
Definition SMPP_WAITACK_DROP : Z := 1.
Definition HEARTBEAT_INTERVAL : Z := 10.
Definition SMPP_ROUTE_DIRECTION_UNKNOWN : Z := 0.
Definition SMPP_ROUTE_DIRECTION_OUTBOUND : Z := 1.
Definition SMPP_ROUTE_DIRECTION_INBOUND : Z := 2.
Definition SMPP_DATABASE_BATCH_LIMIT : Z := 1000.
Definition SMPP_DATABASE_STORE_PRIMARY : Z := 0.
Definition SMPP_DATABASE_STORE_BEARERBOX_QUEUE : Z := 1.
Definition SMPP_DATABASE_STORE_BEARERBOX_MT_DRAIN : Z := 2.
Definition SMPP_DATABASE_STORE_AUTO : Z := -1.
Definition UUID_STR_LEN : Z := 36.

(** ** Kannel messages *)

(** The types of an sms message, in the order of Kannel's enumeration, and the
    acknowledgement codes of a bearerbox connection. *)
Inductive sms_type_t := mo | mt_reply | mt_push | report_mo | report_mt.
Inductive ack_status_t := ack_success | ack_failed | ack_failed_tmp | ack_buffered.
Inductive coding_t := DC_UNDEF | DC_7BIT | DC_8BIT | DC_UCS2.

#[export] Instance sms_type_eq_dec : EqDecision sms_type_t.
Proof. solve_decision. Defined.
#[export] Instance ack_status_eq_dec : EqDecision ack_status_t.
Proof. solve_decision. Defined.
#[export] Instance coding_eq_dec : EqDecision coding_t.
Proof. solve_decision. Defined.

Definition SMS_PARAM_UNDEFINED : Z := -1.

(** [msg->sms]. The uuid [id] is kept in its printed form. *)
Record Msg := {
  sender : option Octstr;
  receiver : option Octstr;
  udhdata : option Octstr;
  msgdata : option Octstr;
  time : Z;
  smsc_id : option Octstr;
  service : option Octstr;
  msg_id : Octstr;
  sms_type : sms_type_t;
  mclass : Z;
  mwi : Z;
  coding : coding_t;
  validity : Z;
  dlr_mask : Z;
  dlr_url : option Octstr;
  pid : Z;
  alt_dcs : Z;
  rpi : Z;
  binfo : option Octstr;
  priority : Z;
  meta_data : option Octstr;
  boxc_id : option Octstr;
}.

(** ** Kannel PDUs *)

Inductive pdu_type :=
  | bind_transmitter | bind_transmitter_resp | bind_receiver | bind_receiver_resp
  | bind_transceiver | bind_transceiver_resp | unbind | unbind_resp
  | enquire_link | enquire_link_resp | submit_sm | submit_sm_resp
  | deliver_sm | deliver_sm_resp | data_sm | data_sm_resp
  | unsupported_pdu.

#[export] Instance pdu_type_eq_dec : EqDecision pdu_type.
Proof. solve_decision. Defined.

(** The fields of submit_sm, data_sm and deliver_sm. *)
Record SM := {
  service_type : option Octstr;
  source_addr_ton : Z;
  source_addr_npi : Z;
  source_addr : option Octstr;
  dest_addr_ton : Z;
  dest_addr_npi : Z;
  destination_addr : option Octstr;
  esm_class : Z;
  protocol_id : Z;
  priority_flag : Z;
  validity_period : option Octstr;
  registered_delivery : Z;
  data_coding : Z;
  sm_length : Z;
  short_message : option Octstr;
  message_payload : option Octstr;
  sar_msg_ref_num : Z;
  sar_segment_seqnum : Z;
  sar_total_segments : Z;
  receipted_message_id : option Octstr;
  message_state : Z;
  network_error_code : option Octstr;
  tlv : list (Octstr * Octstr);
}.

(** [SMPP_PDU]: the type, the two header fields, the fields of the bind requests
    ([system_id] is also the one of the bind responses), the [message_id] of the
    submit_sm and data_sm responses, and the short-message fields. *)
Record SMPP_PDU := {
  type : pdu_type;
  sequence_number : Z;
  command_status : Z;
  pdu_system_id : option Octstr;
  password : option Octstr;
  interface_version : Z;
  message_id : option Octstr;
  sm : SM;
}.

(** ** smpp_server.h: the configuration of a server *)

Record SMPPServer := {
  server_id : option Octstr;
  database_enable_queue : bool;
  database_store_primary : bool;
  database_dlr_delete_processed : bool;
  database_user_table : option Octstr;
  database_store_table : option Octstr;
  database_queue_store_table : option Octstr;
  database_dlr_table : option Octstr;
  database_pdu_table : option Octstr;
  database_route_table : option Octstr;
  database_version_table : option Octstr;
  database_queue_type : option Octstr;
  authentication_method : Z;
  plugin_auth : bool;
  ip_blocklist_time : Z;
  ip_blocklist_attempts : Z;
  ip_blocklist_exempt_ips : option Octstr;
  default_max_open_acks : Z;
  wait_ack_action : Z;
  server_status : Z;
}.

(** ** smpp_esme.h *)

Record SMPPESMEAuthResult := {
  auth_throughput : Q;
  auth_default_smsc : option Octstr;
  auth_default_cost : Q;
  auth_max_binds : Z;
  auth_callback_url : option Octstr;
  auth_simulate : Z;
  auth_simulate_dlr_fail : Z;
  auth_simulate_deliver_every : Z;
  auth_simulate_mo_every : Z;
  auth_simulate_permanent_failure_every : Z;
  auth_simulate_temporary_failure_every : Z;
  auth_enable_prepaid_billing : Z;
  auth_database_store_primary : Z;
  auth_allowed_ips : option Octstr;
  auth_alt_charset : option Octstr;
}.

Definition smpp_esme_auth_result_create : SMPPESMEAuthResult := {|
  auth_throughput := 0;
  auth_default_smsc := None;
  auth_default_cost := 0;
  auth_max_binds := 0;
  auth_callback_url := None;
  auth_simulate := 0;
  auth_simulate_dlr_fail := 0;
  auth_simulate_deliver_every := 0;
  auth_simulate_mo_every := 0;
  auth_simulate_permanent_failure_every := 0;
  auth_simulate_temporary_failure_every := 0;
  auth_enable_prepaid_billing := 0;
  auth_database_store_primary := SMPP_AUTH_DATABASE_STORE_PRIMARY_INHERIT;
  auth_allowed_ips := None;
  auth_alt_charset := None;
|}.

Abbreviation Load := (list Z).

Record SMPPEsme := {
  system_id : option Octstr;
  conn : bool;
  authenticated : bool;
  connected : bool;
  pending_disconnect : bool;
  event_container : bool;
  time_connected : Z;
  time_last_pdu : Z;
  time_last_queue_process : Z;
  enquire_link_interval : Z;
  bind_type : Z;
  version : Z;
  inbound_load : Load;
  outbound_load : Load;
  inbound_queued : Z;
  outbound_queued : Z;
  pending_routing : Z;
  esme_sequence_number : Z;
  errors : Z;
  id : Z;
  inbound_processed : Z;
  outbound_processed : Z;
  simulate : Z;
  simulate_dlr_fail : Z;
  simulate_deliver_every : Z;
  simulate_mo_every : Z;
  simulate_permanent_failure_every : Z;
  simulate_temporary_failure_every : Z;
  alt_charset : option Octstr;
  default_smsc : option Octstr;
  default_cost : Q;
  open_acks : gmap Octstr nat;
  catenated_sms_counter : Z;
  wait_ack_time : Z;
  max_open_acks : Z;
  smpp_esme_global : option Octstr;
  ip : option Octstr;
  pending_len : Z;
  mt_counter : Z;
  mo_counter : Z;
  dlr_counter : Z;
  error_counter : Z;
}.

(** A global is never destroyed while the server runs, and the dictionary
    [esmes] holds one per key: the pointer [smpp_esme_global] is the key. *)
Record SMPPEsmeGlobal := {
  g_system_id : option Octstr;
  throughput : Q;
  g_inbound_load : Load;
  g_outbound_load : Load;
  binds : list nat;
  max_binds : Z;
  enable_prepaid_billing : Z;
  g_mt_counter : Z;
  g_mo_counter : Z;
  g_dlr_counter : Z;
  g_error_counter : Z;
  g_database_store_primary : Z;
}.

(** ** smpp_queued_pdu.h *)

(** The functions a queued PDU's [callback] points to. *)
Inductive pdu_callback :=
  | smpp_queues_callback_deliver_sm_resp_cb
  | smpp_esme_db_queue_callback_cb
  | database_queued_pdu_handler_cb.

#[export] Instance pdu_callback_eq_dec : EqDecision pdu_callback.
Proof. solve_decision. Defined.

Record SMPPQueuedPDU := {
  pdu : option SMPP_PDU;
  smpp_esme : option nat;
  disconnect : bool;
  pdu_id : option Octstr;
  q_system_id : option Octstr;
  callback : option pdu_callback;
  time_sent : Z;
  bearerbox : option nat;
  bearerbox_id : option Octstr;
  smpp_server : bool;
  sequence : Z;
  global_id : Z;
  msg : option Msg;
  from_dlr_table : bool;
}.

(** ** smpp_bearerbox.h *)

(** The functions a bearerbox message's [callback] points to, each with the
    context it is called with: a queued response PDU, or the database message a
    requeue works on. *)
Inductive bb_callback :=
  | smpp_queues_callback_submit_sm_cb (response : nat)
  | smpp_queues_callback_data_sm_cb (response : nat)
  | smpp_bearerbox_requeue_result_cb (global_id : Z).

Record SMPPBearerboxMsg := {
  bb_msg : Msg;
  bb_callback_of : bb_callback;
  bb_msg_id : Octstr;
}.

Record SMPPBearerbox := {
  bb_id : option Octstr;
  connection : bool;
  last_msg : Z;
  alive : bool;
  bb_open_acks : gmap Octstr SMPPBearerboxMsg;
}.

(** ** smpp_route.h *)

Record SMPPRouteStatus := {
  parts : Z;
  cost : Q;
  status : Z;
}.

(** ** smpp_database.h *)

Record SMPPDatabaseMsg := {
  db_msg : Msg;
  db_global_id : Z;
}.

(** [smpp_esme_log_label]. *)
Definition smpp_esme_log_label (e : option SMPPEsme) : Octstr :=
  match e with
  | None => $"?"
  | Some e =>
      if 0 <? octstr_len (system_id e) then default [] (system_id e)
      else if 0 <? octstr_len (ip e) then default [] (ip e)
      else $"unbound"
  end.
