(* ===== verification/IpBlock.v ===== *)
(** The IP block list of smpp_listener.c: the dictionary [ip_blocklist] of failed
    binds, the exemption patterns, and the two operations on them. The write lock
    each operation holds makes it one step; [now] is the value of [time(NULL)]. *)
From S2P Require Import Prelude CLib Gwlib Types.
Open Scope Z_scope.

(** ** State *)

(** The [ip] field of the C structure is never set. *)
Record SMPPBlockedIp := {
  time_blocked : Z;
  attempts : Z;
}.

Definition smpp_blocked_ip_create : SMPPBlockedIp := {| time_blocked := 0; attempts := 0 |}.

Abbreviation ip_blocklist := (gmap Octstr SMPPBlockedIp).

Section ops.
Context `{OctstrLib}.

(** ** Exemptions *)

Definition is_star (p : Octstr) : bool :=
  (octlen p =? 1) && (octstr_get_char p 0 =? byte_val "*"%char).

(** The loop over the four octets. *)
Fixpoint octets_match (pp ipp : list Octstr) : bool :=
  match pp, ipp with
  | p :: pp, o :: ipp =>
      if is_star p then octets_match pp ipp
      else if octstr_eq p o then octets_match pp ipp
      else false
  | _, _ => true
  end.

Definition smpp_listener_ipv4_wildcard_match (pattern ip : Octstr) : bool :=
  let pp := octstr_split pattern "."%char in
  let ipp := octstr_split ip "."%char in
  if negb (Nat.eqb (length pp) 4) || negb (Nat.eqb (length ipp) 4) then false
  else octets_match pp ipp.

(** The loop over the tokens of the exemption list. *)
Fixpoint tokens_match (tokens : list Octstr) (ip : Octstr) : bool :=
  match tokens with
  | [] => false
  | tok :: tokens =>
      if octlen tok =? 0 then tokens_match tokens ip
      else if (0 <=? octstr_search tok ($"*") 0)
              && smpp_listener_ipv4_wildcard_match tok ip then true
      else tokens_match tokens ip
  end.

Definition smpp_listener_ip_blocklist_exempt (server : SMPPServer) (ip : option Octstr) : bool :=
  match ip_blocklist_exempt_ips server, ip with
  | Some ex, Some ip =>
      if (octlen ex =? 0) || (octlen ip =? 0) then false
      else if octstr_case_eq ex ($"*") then true
      else if octstr_case_eq ex ($"*.*.*.*") then true
      else if -1 <? octstr_search ex ip 0 then true
      else if octstr_search ex ($"*") 0 <? 0 then false
      else tokens_match (octstr_split ex " "%char) ip
  | _, _ => false
  end.

(** ** Operations *)

Definition smpp_listener_auth_failed (server : SMPPServer) (now : Z) (ip : Octstr)
    (bl : ip_blocklist) : ip_blocklist :=
  if smpp_listener_ip_blocklist_exempt server (Some ip) then bl
  else
    let b := default smpp_blocked_ip_create (bl !! ip) in
    <[ip := {| attempts := attempts b + 1; time_blocked := now |}]> bl.

Definition smpp_listener_ip_is_blocked (server : SMPPServer) (now : Z) (ip : Octstr)
    (bl : ip_blocklist) : bool * ip_blocklist :=
  if smpp_listener_ip_blocklist_exempt server (Some ip) then (false, bl)
  else
    match bl !! ip with
    | Some b =>
        let diff := now - time_blocked b in
        if ip_blocklist_time server <? diff then
          (false, <[ip := {| time_blocked := 0; attempts := 0 |}]> bl)
        else if ip_blocklist_attempts server <=? attempts b then (true, bl)
        else (false, bl)
    | None => (false, bl)
    end.

(** Failed binds of one address at the times [ts], oldest first. *)
Fixpoint auth_failures (server : SMPPServer) (ip : Octstr) (ts : list Z)
    (bl : ip_blocklist) : ip_blocklist :=
  match ts with
  | [] => bl
  | t :: ts => auth_failures server ip ts (smpp_listener_auth_failed server t ip bl)
  end.

End ops.

(** ** Specification of the octet patterns *)

Definition octet_ok (p o : Octstr) : Prop := p = $"*" ∨ p = o.
#[export] Instance octet_ok_dec p o : Decision (octet_ok p o).
Proof. unfold octet_ok. apply _. Defined.

(** A dotted address: pieces that are not empty and hold no dot. *)
Definition octet_list (ps : list Octstr) : Prop :=
  length ps = 4%nat ∧ Forall (λ p, p ≠ [] ∧ "."%char ∉ p) ps.

(** ** Lemmas *)

Lemma is_star_spec p : is_star p = true ↔ p = $"*".
Proof.
  unfold is_star, octlen. destruct p as [|c [|d p]].
  - split; [intros [= ]|intros [= ]].
  - change (octstr_get_char [c] 0) with (byte_val c).
    change ((Z.of_nat (length [c]) =? 1)) with true. rewrite andb_true_l, Z.eqb_eq.
    split; [|by intros [= ->]]. intros ->%byte_val_inj. done.
  - split; [|intros [= ]]. rewrite andb_true_iff, Z.eqb_eq. cbn [length]. lia.
Qed.

Lemma octets_match_spec pp ipp :
  length pp = length ipp → octets_match pp ipp = true ↔ Forall2 octet_ok pp ipp.
Proof.
  revert ipp. induction pp as [|p pp IH]; intros [|o ipp] Hlen; simplify_eq/=.
  - split; [constructor|done].
  - rewrite Forall2_cons_iff, <- (IH ipp) by done. unfold octet_ok.
    pose proof (is_star_spec p) as Hs. destruct (is_star p).
    + split; [|by intros [_ ?]]. intros Ho. split; [left; by apply Hs|done].
    + unfold octstr_eq. case_bool_decide as Ho.
      * split; [|by intros [_ ?]]. intros Hi. by split; [right|].
      * split; [done|]. by intros [[?%Hs|?] _].
Qed.

Section lemmas.
Context `{OctstrLib} (server : SMPPServer).

Lemma auth_failed_lookup now ip bl :
  smpp_listener_ip_blocklist_exempt server (Some ip) = false →
  smpp_listener_auth_failed server now ip bl !! ip
  = Some {| attempts := attempts (default smpp_blocked_ip_create (bl !! ip)) + 1;
            time_blocked := now |}.
Proof. intros Hex. unfold smpp_listener_auth_failed. rewrite Hex. apply lookup_insert_eq. Qed.

Lemma auth_failed_other now ip ip' bl :
  ip ≠ ip' → smpp_listener_auth_failed server now ip bl !! ip' = bl !! ip'.
Proof.
  intros. unfold smpp_listener_auth_failed. destruct (smpp_listener_ip_blocklist_exempt _ _); [done|].
  by rewrite lookup_insert_ne.
Qed.

Lemma auth_failures_lookup ip ts t bl :
  smpp_listener_ip_blocklist_exempt server (Some ip) = false →
  auth_failures server ip (ts ++ [t]) bl !! ip
  = Some {| attempts := attempts (default smpp_blocked_ip_create (bl !! ip))
                        + Z.of_nat (length (ts ++ [t]));
            time_blocked := t |}.
Proof.
  intros Hex. revert bl. induction ts as [|t' ts IH]; intros bl; simpl.
  - by rewrite auth_failed_lookup.
  - rewrite IH, auth_failed_lookup by done. simpl. f_equal. f_equal.
    rewrite Nat2Z.inj_succ. lia.
Qed.

Lemma auth_failures_other ip ip' ts bl :
  ip ≠ ip' → auth_failures server ip ts bl !! ip' = bl !! ip'.
Proof.
  intros Hne. revert bl. induction ts as [|t ts IH]; intros bl; simpl; [done|].
  by rewrite IH, auth_failed_other.
Qed.

Lemma ip_is_blocked_other now ip ip' bl :
  ip ≠ ip' → (smpp_listener_ip_is_blocked server now ip bl).2 !! ip' = bl !! ip'.
Proof.
  intros. unfold smpp_listener_ip_is_blocked. destruct (smpp_listener_ip_blocklist_exempt _ _); [done|].
  destruct (bl !! ip); [|done]. destruct (_ <? _); [by apply lookup_insert_ne|].
  by destruct (_ <=? _).
Qed.

End lemmas.

(** ** Properties *)

(** C34. Banning is exact. After the failed binds [ts ++ [t]] of an address the
    list does not know and does not exempt, a connection at [now] is rejected
    exactly when at most [ip_blocklist_time] seconds passed since the last failure
    and there were at least [ip_blocklist_attempts] failures. *)
Theorem ip_is_blocked_exact `{OctstrLib} (server : SMPPServer) (ip : Octstr) (ts : list Z) (t now : Z)
    (bl : ip_blocklist) :
  smpp_listener_ip_blocklist_exempt server (Some ip) = false →
  bl !! ip = None →
  (smpp_listener_ip_is_blocked server now ip (auth_failures server ip (ts ++ [t]) bl)).1
  = bool_decide (now - t ≤ ip_blocklist_time server ∧
                 ip_blocklist_attempts server ≤ Z.of_nat (length (ts ++ [t]))).
Proof.
  intros Hex Hbl. unfold smpp_listener_ip_is_blocked.
  rewrite Hex, auth_failures_lookup, Hbl by done. simpl.
  destruct (Z.ltb_spec (ip_blocklist_time server) (now - t)).
  { symmetry. apply bool_decide_false. lia. }
  destruct (Z.leb_spec (ip_blocklist_attempts server) (0 + Z.of_nat (length (ts ++ [t])))); simpl;
    symmetry; [apply bool_decide_true|apply bool_decide_false]; lia.
Qed.

(** A ban ends and leaves no trace, and it is not extended by being tried:
    a rejected connection changes nothing, and the first connection more than
    [ip_blocklist_time] seconds after the last failure is accepted and forgets the
    failures, so that a failure after it counts as the first one. *)
Theorem ban_expires `{OctstrLib} (server : SMPPServer) (ip : Octstr) (b : SMPPBlockedIp)
    (now now' : Z) (bl : ip_blocklist) :
  smpp_listener_ip_blocklist_exempt server (Some ip) = false →
  bl !! ip = Some b →
  ip_blocklist_time server < now - time_blocked b →
  let '(blocked, bl') := smpp_listener_ip_is_blocked server now ip bl in
  blocked = false ∧
  smpp_listener_auth_failed server now' ip bl' !! ip
  = Some {| attempts := 1; time_blocked := now' |} ∧
  (∀ t, (smpp_listener_ip_is_blocked server t ip bl).1 = true →
        (smpp_listener_ip_is_blocked server t ip bl).2 = bl).
Proof.
  intros Hex Hb Ht. unfold smpp_listener_ip_is_blocked at 1. rewrite Hex, Hb.
  replace (_ <? _) with true by (symmetry; lia).
  split_and!; [done| |].
  - rewrite auth_failed_lookup by done. by rewrite lookup_insert_eq.
  - intros t. unfold smpp_listener_ip_is_blocked. rewrite Hex, Hb.
    destruct (_ <? _); [done|]. by destruct (_ <=? _).
Qed.

(** An exempt address is never recorded and never rejected; and no operation
    on one address changes what is recorded of another. *)
Theorem exempt_and_isolated `{OctstrLib} (server : SMPPServer) (ip : Octstr) (now : Z)
    (bl : ip_blocklist) :
  (smpp_listener_ip_blocklist_exempt server (Some ip) = true →
   ∀ ts, auth_failures server ip ts bl = bl ∧
         smpp_listener_ip_is_blocked server now ip bl = (false, bl)) ∧
  (∀ ip' ts, ip ≠ ip' →
     auth_failures server ip ts bl !! ip' = bl !! ip' ∧
     (smpp_listener_ip_is_blocked server now ip bl).2 !! ip' = bl !! ip').
Proof.
  split.
  - intros Hex ts. split.
    + induction ts as [|t ts IH]; simpl; [done|].
      unfold smpp_listener_auth_failed. by rewrite Hex.
    + unfold smpp_listener_ip_is_blocked. by rewrite Hex.
  - intros ip' ts Hne. split; [by apply auth_failures_other|by apply ip_is_blocked_other].
Qed.

(** C35. An IPv4 pattern means what the comment says: for two dotted quadruples,
    the match succeeds exactly when each octet of the pattern is [*] or is the
    octet of the address. *)
Theorem ipv4_wildcard_match_spec `{OctstrLib} (ps os : list Octstr) :
  octet_list ps → octet_list os →
  smpp_listener_ipv4_wildcard_match (join "."%char ps) (join "."%char os) = true
  ↔ Forall2 octet_ok ps os.
Proof.
  intros [Hps Hps'] [Hos Hos']. unfold smpp_listener_ipv4_wildcard_match.
  rewrite !octstr_split_join by done. rewrite Hps, Hos. simpl.
  apply octets_match_spec. congruence.
Qed.

(** ** Witnesses *)

Definition example_server : SMPPServer := {|
  server_id := Some ($"ksmppd");
  database_enable_queue := true;
  database_store_primary := false;
  database_dlr_delete_processed := false;
  database_user_table := Some ($"smpp_user");
  database_store_table := Some ($"smpp_store");
  database_queue_store_table := Some ($"smpp_store_queue");
  database_dlr_table := Some ($"smpp_dlr");
  database_pdu_table := Some ($"smpp_queued_pdu");
  database_route_table := Some ($"smpp_route");
  database_version_table := Some ($"smpp_version");
  database_queue_type := None;
  authentication_method := SMPP_SERVER_AUTH_METHOD_DATABASE;
  plugin_auth := false;
  ip_blocklist_time := 300;
  ip_blocklist_attempts := 5;
  ip_blocklist_exempt_ips := Some ($"172.31.*.* 127.0.0.1");
  default_max_open_acks := SMPP_ESME_DEFAULT_MAX_OPEN_ACKS;
  wait_ack_action := SMPP_WAITACK_DISCONNECT;
  server_status := SMPP_SERVER_STATUS_RUNNING;
|}.

Lemma ip_is_blocked_exact_witness :
  (smpp_listener_ip_is_blocked (H:=octstr_ref) example_server 310 ($"10.0.0.9")
     (auth_failures (H:=octstr_ref) example_server ($"10.0.0.9") ([1; 2; 3; 4] ++ [10]) ∅)).1 = true.
Proof. rewrite (ip_is_blocked_exact (H:=octstr_ref)); by vm_compute. Defined.

Lemma ban_expires_witness :
  let bl := auth_failures (H:=octstr_ref) example_server ($"10.0.0.9") [1; 2; 3; 4; 10] ∅ in
  (smpp_listener_ip_is_blocked (H:=octstr_ref) example_server 311 ($"10.0.0.9") bl).1 = false.
Proof.
  intros bl.
  generalize (ban_expires (H:=octstr_ref) example_server ($"10.0.0.9")
    {| attempts := 5; time_blocked := 10 |} 311 320 bl
    ltac:(by vm_compute) ltac:(by vm_compute) ltac:(simpl; lia)).
  destruct (smpp_listener_ip_is_blocked example_server 311 ($"10.0.0.9") bl) as [blocked bl'].
  by intros [-> _].
Defined.

Lemma exempt_and_isolated_witness :
  auth_failures (H:=octstr_ref) example_server ($"172.31.7.9") [1; 2; 3; 4; 5; 6] ∅ = ∅.
Proof.
  apply (exempt_and_isolated (H:=octstr_ref) example_server ($"172.31.7.9") 6 ∅).
  by vm_compute.
Defined.

Lemma ipv4_wildcard_match_spec_witness :
  smpp_listener_ipv4_wildcard_match (H:=octstr_ref)
    (join "."%char [$"172"; $"31"; $"*"; $"*"]) (join "."%char [$"172"; $"31"; $"7"; $"9"]) = true.
Proof.
  apply (ipv4_wildcard_match_spec (H:=octstr_ref) [$"172"; $"31"; $"*"; $"*"]
           [$"172"; $"31"; $"7"; $"9"]).
  1-2: split; [done|]; apply (bool_decide_unpack _); by vm_compute.
  eapply Forall2_impl with (P := λ p o, bool_decide (octet_ok p o) = true); [by vm_compute; repeat constructor|]. intros ? ? ?%bool_decide_eq_true_1. done.
Defined.
