(* ===== verification/Kannel.v ===== *)
(** The interfaces of the Kannel libraries the daemon links against and whose
    sources are not in the repository: SMS charset, data-coding and splitting
    helpers, message meta-data, PDU construction and the time functions. Each is
    a class; the daemon's definitions take an instance as an argument and use only
    the documented results, stated as the class's laws. *)
From S2P Require Import Prelude CLib Gwlib Types.
Open Scope Z_scope.

(** ** Time: [struct tm] and the gw_* wrappers *)

Record tm := {
  tm_sec : Z;
  tm_min : Z;
  tm_hour : Z;
  tm_mday : Z;
  tm_mon : Z;
  tm_year : Z;
  tm_isdst : Z;
}.

Class TimeLib := {
  gw_mktime : tm → Z;
  gw_localtime : Z → tm;
  gw_gmtime : Z → tm;
}.

(** The two decimal digits of a [%y], [%m], ... conversion of strftime. *)
Definition fmt_2d (z : Z) : Octstr := [byte_of (48 + z / 10); byte_of (48 + z mod 10)].

(** [gw_strftime(buf, 13, "%y%m%d%H%M%S", &t)]: every field has two digits. *)
Definition strftime_ymdhms (t : tm) : Octstr :=
  fmt_2d (tm_year t mod 100) ++ fmt_2d (tm_mon t + 1) ++ fmt_2d (tm_mday t)
  ++ fmt_2d (tm_hour t) ++ fmt_2d (tm_min t) ++ fmt_2d (tm_sec t).

(** ** SMS helpers *)

Abbreviation Tlvs := (list (Octstr * Octstr)).

(** The fields [dcs_to_fields] decodes the data coding into. *)
Definition same_but_coding (m m' : Msg) : Prop :=
  m' = {| m with mclass := mclass m'; mwi := mwi m'; coding := coding m'; alt_dcs := alt_dcs m' |}.

Class KannelLib := {
  (** the converted text; [None] is a failed conversion, which changes nothing *)
  charset_convert : Octstr → Octstr → Octstr → option Octstr;
  charset_gsm_to_utf8 : Octstr → Octstr;
  charset_utf8_to_gsm : Octstr → Octstr;
  dcs_to_fields : Msg → Z → Msg;
  fields_to_dcs : Msg → Z → Z;
  meta_data_get_values : option Octstr → Octstr → option Tlvs;
  meta_data_set_values : Octstr → Tlvs → Octstr → Octstr;
  prepend_catenation_udh : Msg → Z → Z → Z → Msg;
  (** message, catenation number, maximum number of parts *)
  sms_split : Msg → Z → Z → list Msg;
  smpp_pdu_create : pdu_type → Z → SMPP_PDU;
  dcs_to_fields_frame m dcs : same_but_coding m (dcs_to_fields m dcs);
  prepend_catenation_udh_frame m a b c :
    prepend_catenation_udh m a b c
    = {| m with udhdata := udhdata (prepend_catenation_udh m a b c) |};
  smpp_pdu_create_type t n : type (smpp_pdu_create t n) = t;
  smpp_pdu_create_seq t n : sequence_number (smpp_pdu_create t n) = n;
  smpp_pdu_create_message_id t n : message_id (smpp_pdu_create t n) = None;
}.

(** [dict_get] of a dictionary that may be NULL at the caller's. *)
Definition dict_get (d : Tlvs) (key : Octstr) : option Octstr :=
  snd <$> find (λ kv, octstr_eq (fst kv) key) d.

(** [msg_create(sms)]: strings NULL, numbers undefined, a fresh identifier. *)
Definition msg_create (uuid : Octstr) : Msg := {|
  sender := None;
  receiver := None;
  udhdata := None;
  msgdata := None;
  time := SMS_PARAM_UNDEFINED;
  smsc_id := None;
  service := None;
  msg_id := uuid;
  sms_type := mo;
  mclass := SMS_PARAM_UNDEFINED;
  mwi := SMS_PARAM_UNDEFINED;
  coding := DC_UNDEF;
  validity := SMS_PARAM_UNDEFINED;
  dlr_mask := SMS_PARAM_UNDEFINED;
  dlr_url := None;
  pid := SMS_PARAM_UNDEFINED;
  alt_dcs := SMS_PARAM_UNDEFINED;
  rpi := SMS_PARAM_UNDEFINED;
  binfo := None;
  priority := SMS_PARAM_UNDEFINED;
  meta_data := None;
  boxc_id := None;
|}.

Definition MWI_UNDEF : Z := -1.
Definition MC_UNDEF : Z := -1.

Definition empty_sm : SM := {|
  service_type := None;
  source_addr_ton := 0;
  source_addr_npi := 0;
  source_addr := None;
  dest_addr_ton := 0;
  dest_addr_npi := 0;
  destination_addr := None;
  esm_class := 0;
  protocol_id := 0;
  priority_flag := 0;
  validity_period := None;
  registered_delivery := 0;
  data_coding := 0;
  sm_length := 0;
  short_message := None;
  message_payload := None;
  sar_msg_ref_num := -1;
  sar_segment_seqnum := -1;
  sar_total_segments := -1;
  receipted_message_id := None;
  message_state := -1;
  network_error_code := None;
  tlv := [];
|}.

(** ** Reference instances, for concrete runs *)

(** Text is kept as it is, a message is one part, the meta-data holds no
    values. *)
#[local] Instance kannel_ref : KannelLib := {
  charset_convert s _ _ := Some s;
  charset_gsm_to_utf8 s := s;
  charset_utf8_to_gsm s := s;
  dcs_to_fields m dcs :=
    {| m with coding := if dcs =? 8 then DC_UCS2 else if dcs =? 4 then DC_8BIT else DC_7BIT |};
  fields_to_dcs m _ := match coding m with DC_UCS2 => 8 | DC_8BIT => 4 | _ => 0 end;
  meta_data_get_values _ _ := None;
  meta_data_set_values m _ _ := m;
  prepend_catenation_udh m seg total ref :=
    {| m with udhdata := Some (map byte_of [5; 0; 3; ref; total; seg]) |};
  sms_split m _ _ := [m];
  smpp_pdu_create t n := {|
    type := t; sequence_number := n; command_status := 0; pdu_system_id := None;
    password := None; interface_version := 0; message_id := None; sm := empty_sm |};
  dcs_to_fields_frame _ _ := eq_refl;
  prepend_catenation_udh_frame _ _ _ _ := eq_refl;
  smpp_pdu_create_type _ _ := eq_refl;
  smpp_pdu_create_seq _ _ := eq_refl;
  smpp_pdu_create_message_id _ _ := eq_refl;
}.

(** A calendar of 360-day years of 12 equal months that starts at 1970. *)
#[local] Instance time_ref : TimeLib := {
  gw_mktime t :=
    ((((tm_year t - 70) * 12 + tm_mon t) * 30 + tm_mday t - 1) * 24 + tm_hour t) * 3600
    + tm_min t * 60 + tm_sec t;
  gw_localtime z := {|
    tm_sec := z mod 60; tm_min := z / 60 mod 60; tm_hour := z / 3600 mod 24;
    tm_mday := z / 86400 mod 30 + 1; tm_mon := z / 2592000 mod 12;
    tm_year := 70 + z / 31104000; tm_isdst := 0 |};
  gw_gmtime z := {|
    tm_sec := z mod 60; tm_min := z / 60 mod 60; tm_hour := z / 3600 mod 24;
    tm_mday := z / 86400 mod 30 + 1; tm_mon := z / 2592000 mod 12;
    tm_year := 70 + z / 31104000; tm_isdst := 0 |};
}.
