(* ===== verification/Dlr.v ===== *)
(** The text and time formats of smpp_pdu_util.c: the sscanf conversions it uses,
    [smpp_time_to_c_time], [timestamp_to_minutes], the text of a delivery receipt
    and its parser [parse_dlr_short_message]. *)
From S2P Require Import Prelude CLib Gwlib Types Kannel.
Open Scope Z_scope.

(** ** sscanf *)

(** The C string an octet string's buffer holds: the bytes before the first NUL. *)
Definition NUL : ascii := byte_of 0.
Fixpoint cstr (s : Octstr) : Octstr :=
  match s with
  | [] => []
  | c :: s => if bool_decide (c = NUL) then [] else c :: cstr s
  end.

Inductive directive :=
  | DSpace                              (* white space in the format *)
  | DLit (c : ascii)
  | DSet (width : nat) (f : ascii → bool)   (* %<width>[set] *)
  | DStr (width : nat)                  (* %<width>s *)
  | DInt (width : nat)                  (* %<width>d *)
  | DChar.                              (* %1c *)

Inductive conv := CStr (s : Octstr) | CInt (z : Z).

(** The longest prefix of at most [n] bytes a class accepts, and the rest. *)
Fixpoint span (n : nat) (f : ascii → bool) (s : Octstr) : Octstr * Octstr :=
  match n, s with
  | S n, c :: s' =>
      if f c then let '(p, r) := span n f s' in (c :: p, r) else ([], s)
  | _, _ => ([], s)
  end.

(** The conversions made before the first mismatch or the end of the input: the
    length of the result is what [sscanf] returns (or it returns EOF for 0). *)
Fixpoint sscanf (fmt : list directive) (s : Octstr) : list conv :=
  match fmt with
  | [] => []
  | DSpace :: fmt => sscanf fmt (skip_space s)
  | DLit c :: fmt =>
      match s with
      | d :: s => if bool_decide (c = d) then sscanf fmt s else []
      | [] => []
      end
  | DSet w f :: fmt =>
      let '(p, r) := span w f s in
      if bool_decide (p = []) then [] else CStr p :: sscanf fmt r
  | DStr w :: fmt =>
      let '(p, r) := span w (λ c, negb (isspace c)) (skip_space s) in
      if bool_decide (p = []) then [] else CStr p :: sscanf fmt r
  | DInt w :: fmt =>
      let s := skip_space s in
      let '(sign, w', s) :=
        match s, w with
        | c :: s', S w' => if bool_decide (c = "-"%char) then (-1, w', s')
                           else if bool_decide (c = "+"%char) then (1, w', s')
                           else (1, w, s)
        | _, _ => (1, w, s)
        end in
      let '(p, r) := span w' isdigit s in
      if bool_decide (p = []) then [] else CInt (to_int (sign * strtol_digits 10 0 p)) :: sscanf fmt r
  | DChar :: fmt =>
      match s with
      | c :: s => CStr [c] :: sscanf fmt s
      | [] => []
      end
  end.

(** The literal characters of a format. *)
Definition lits (s : Octstr) : list directive :=
  map (λ c, if isspace c then DSpace else DLit c) s.

(** A [char] array a conversion or [octstr_get_many_chars] writes into: the first
    writes the text and a NUL, the second writes no NUL. *)
Abbreviation cbuf := (list ascii).
Definition buf_init (size : nat) : cbuf := replicate size NUL.
Definition buf_write (b : cbuf) (data : Octstr) : cbuf := data ++ drop (length data) b.
Definition buf_scan (b : cbuf) (c : option conv) : cbuf :=
  match c with
  | Some (CStr s) => buf_write b (s ++ [NUL])
  | _ => b
  end.

(** [octstr_get_many_chars(buf, s, pos, len)]. *)
Definition octstr_get_many_chars (b : cbuf) (s : Octstr) (pos len : Z) : cbuf :=
  if octlen s <=? pos then b else buf_write b (octstr_copy s pos len).

(** ** Times *)

Section times.
Context `{TimeLib}.

(** [now] is [time()]. *)
Definition smpp_time_to_c_time (now : Z) (smpp_time_cstr : Octstr) : Z :=
  let r := sscanf (repeat (DStr 2) 6) (cstr smpp_time_cstr) in
  let field i := match r !! i with Some (CStr s) => atoi s | _ => atoi [] end in
  let timeinfo := gw_localtime now in
  gw_mktime {|
    tm_year := if 0 <? field 0%nat then field 0%nat + 2000 - 1900 else tm_year timeinfo;
    tm_mon := if 0 <? field 1%nat then field 1%nat - 1 else tm_mon timeinfo;
    tm_mday := if 0 <? field 2%nat then field 2%nat else tm_mday timeinfo;
    tm_hour := if 0 <? field 3%nat then field 3%nat else tm_hour timeinfo;
    tm_min := if 0 <? field 4%nat then field 4%nat else tm_min timeinfo;
    tm_sec := if 0 <? field 5%nat then field 5%nat else tm_sec timeinfo;
    tm_isdst := tm_isdst timeinfo |}.

(** [ceil(difftime(a, b) / 60)]. *)
Definition ceil_minutes (d : Z) : Z := - ((- d) / 60).

Definition timestamp_to_minutes (utc : Z) (timestamp : option Octstr) : Z :=
  if octstr_len timestamp =? 0 then 0
  else if negb (octstr_len timestamp =? 16) then -1
  else
    match sscanf [DInt 2; DInt 2; DInt 2; DInt 2; DInt 2; DInt 2; DInt 1; DInt 2; DChar]
                 (cstr (default [] timestamp)) with
    | [CInt year; CInt mon; CInt mday; CInt hour; CInt min; CInt sec;
       CInt _; CInt diff; CStr relation] =>
        if utc =? -1 then 0
        else if octstr_eq relation ($"+") || octstr_eq relation ($"-") then
          let t := {| tm_year := year + 100; tm_mon := mon - 1; tm_mday := mday;
                      tm_hour := hour; tm_min := min; tm_sec := sec; tm_isdst := -1 |} in
          let valutc := gw_mktime t in
          if valutc =? -1 then -1
          else
            let local := {| (gw_localtime utc) with tm_isdst := -1 |} in
            let gmt := {| (gw_gmtime utc) with tm_isdst := -1 |} in
            let localdiff := to_int (gw_mktime local - gw_mktime gmt) in
            let valutc := valutc + localdiff in
            let diff := diff * 15 * 60 in
            let valutc := if octstr_eq relation ($"+") then valutc - diff else valutc + diff in
            to_int (ceil_minutes (valutc - utc))
        else if octstr_eq relation ($"R") then
          let local := gw_localtime utc in
          let valutc := gw_mktime {|
            tm_year := tm_year local + year; tm_mon := tm_mon local + mon;
            tm_mday := tm_mday local + mday; tm_hour := tm_hour local + hour;
            tm_min := tm_min local + min; tm_sec := tm_sec local + sec;
            tm_isdst := tm_isdst local |} in
          if valutc =? -1 then -1 else to_int (ceil_minutes (valutc - utc))
        else -1
    | _ => -1
    end.

End times.

(** ** Delivery receipts *)

Record DlrInfo := {
  dlr_id : Octstr;
  dlr_sub : Z;
  dlr_dlvrd : Z;
  dlr_submit_date : Z;
  dlr_done_date : Z;
  dlr_stat : Octstr;
  dlr_err : Z;
  dlr_text : Octstr;
}.

(** [octstr_format("id:%S sub:001 dlvrd:%S submit date:%s done date:%s stat:%S
    err:%03x text:%S", ...)]. *)
Definition dlr_short_message (id dlvrd submit_date done_date stat : Octstr) (err : Z)
    (text : Octstr) : Octstr :=
  $"id:" ++ id ++ $" sub:" ++ $"001" ++ $" dlvrd:" ++ dlvrd
  ++ $" submit date:" ++ submit_date ++ $" done date:" ++ done_date
  ++ $" stat:" ++ stat ++ $" err:" ++ fmt_03x err ++ $" text:" ++ text.

Definition not_space (c : ascii) : bool := negb (bool_decide (c = " "%char)).

(** The format of the [sscanf] call. *)
Definition dlr_format : list directive :=
  lits ($"id:") ++ [DSet 64 not_space] ++ lits ($" sub:") ++ [DSet 3 not_space]
  ++ lits ($" dlvrd:") ++ [DSet 3 not_space]
  ++ lits ($" submit date:") ++ [DSet 14 isdigit] ++ lits ($" done date:") ++ [DSet 14 isdigit]
  ++ lits ($" stat:") ++ [DSet 15 not_space] ++ lits ($" err:") ++ [DSet 3 not_space].

Section parse.
Context `{TimeLib} `{OctstrLib}.

(** One block of the fallback: [curr] is the position of the key, the value goes
    to the byte [sep] or to the end. *)
Definition dlr_copy_field (s : Octstr) (curr : Z) (keylen : Z) (sep : ascii) (b : cbuf) : cbuf :=
  if curr =? -1 then b
  else
    let vpos := octstr_search_char s sep curr in
    let vpos := if vpos =? -1 then octlen s else vpos in
    if 0 <? vpos - curr then
      let copy_len := vpos - curr - keylen in
      let copy_len := if octlen b - 1 <? copy_len then octlen b - 1 else copy_len in
      octstr_get_many_chars b s (curr + keylen) copy_len
    else b.

Definition dlr_fallback (s : Octstr) (key : Octstr) (b : cbuf) : cbuf :=
  dlr_copy_field s (octstr_search s key 0) (octlen key) " "%char b.

(** What is read of a text that is not empty. *)
Definition read_dlr_fields (now : Z) (s : Octstr) : DlrInfo :=
  let ret := sscanf dlr_format (cstr s) in
  let fb key b := if negb (length ret =? 7)%nat then dlr_fallback s key b else b in
  let id_cstr := fb ($"id:") (buf_scan (buf_init 65) (ret !! 0%nat)) in
  let sub_cstr := fb ($"sub:") (buf_scan (buf_init 4) (ret !! 1%nat)) in
  let dlvrd_cstr := fb ($"dlvrd:") (buf_scan (buf_init 4) (ret !! 2%nat)) in
  let sub_d_cstr := fb ($"submit date:") (buf_scan (buf_init 15) (ret !! 3%nat)) in
  let done_d_cstr := fb ($"done date:") (buf_scan (buf_init 15) (ret !! 4%nat)) in
  let stat_cstr := fb ($"stat:") (buf_scan (buf_init 16) (ret !! 5%nat)) in
  let err_cstr := fb ($"err:") (buf_scan (buf_init 4) (ret !! 6%nat)) in
  let text_cstr := dlr_copy_field s (octstr_case_search s ($"text:") 0) 5 NUL (buf_init 65) in
  {| dlr_id := cstr id_cstr;
     dlr_sub := to_uint (strtol 16 (cstr sub_cstr));
     dlr_dlvrd := to_uint (strtol 16 (cstr dlvrd_cstr));
     dlr_submit_date := smpp_time_to_c_time now sub_d_cstr;
     dlr_done_date := smpp_time_to_c_time now done_d_cstr;
     dlr_stat := cstr stat_cstr;
     dlr_err := to_uint (strtol 16 (cstr err_cstr));
     dlr_text := cstr text_cstr |}.

(** [None] is the result -1; the pointers to the results are not NULL in any
    call. *)
Definition parse_dlr_short_message (now : Z) (short_message : option Octstr) : option DlrInfo :=
  match short_message with
  | None => None
  | Some s =>
      if octlen s =? 0 then None
      else
        let r := read_dlr_fields now s in
        if (octlen (dlr_id r) =? 0) && (octlen (dlr_stat r) =? 0) then None else Some r
  end.

(** smpp_database_util.c. *)
Definition smpp_database_format_dlr_date (now : Z) (date_os : option Octstr) : Octstr :=
  match date_os with
  | None => $"000000000000"
  | Some date =>
      if octlen date =? 0 then $"000000000000"
      else
        let t := smpp_time_to_c_time now date in
        if 0 <? t then strftime_ymdhms (gw_localtime t) else date
  end.

End parse.

(** ** Lemmas *)

Lemma cstr_app p s : NUL ∉ p → cstr (p ++ s) = p ++ cstr s.
Proof.
  induction p as [|c p IH]; intros Hp; [done|]. apply not_elem_of_cons in Hp as [? Hp].
  simpl. rewrite bool_decide_false by done. by rewrite IH.
Qed.

Lemma cstr_id s : NUL ∉ s → cstr s = s.
Proof. intros. rewrite <- (app_nil_r s) at 1. rewrite cstr_app by done. apply app_nil_r. Qed.

Lemma cstr_buf s n : NUL ∉ s → cstr (s ++ NUL :: n) = s.
Proof. intros. rewrite cstr_app by done. apply app_nil_r. Qed.

Lemma span_app n f p r :
  Forall (λ c, f c = true) p → (length p ≤ n)%nat →
  (∀ c, head r = Some c → f c = false) → span n f (p ++ r) = (p, r).
Proof.
  revert n. induction p as [|c p IH]; intros n Hp Hlen Hr; simpl in *.
  - destruct n, r as [|d r]; [done|done|done|]. simpl. by rewrite (Hr d).
  - apply Forall_cons in Hp as [Hc Hp]. destruct n as [|n]; [lia|].
    simpl. rewrite Hc, IH; [done|done|lia|done].
Qed.

(** A conversion followed by a byte outside its class, for the two classes of
    the receipt format. *)
Lemma sscanf_set w f p c r fmt :
  Forall (λ c, f c = true) p → p ≠ [] → (length p ≤ w)%nat → f c = false →
  sscanf (DSet w f :: fmt) (p ++ c :: r) = CStr p :: sscanf fmt (c :: r).
Proof.
  intros Hp Hne Hlen Hc. cbn [sscanf]. rewrite span_app; [|done|done|by intros ? [= <-]].
  by rewrite bool_decide_false.
Qed.

Lemma buf_scan_read n s :
  NUL ∉ s → (length s < n)%nat → cstr (buf_scan (buf_init n) (Some (CStr s))) = s.
Proof.
  intros Hs Hn. simpl. unfold buf_write. rewrite <- app_assoc. by apply cstr_buf.
Qed.

Definition not_space_text (n : nat) (s : Octstr) : Prop :=
  s ≠ [] ∧ (length s ≤ n)%nat ∧ (" "%char ∉ s) ∧ (NUL ∉ s) ∧ (":"%char ∉ s).
Definition digits_text (n : nat) (s : Octstr) : Prop :=
  s ≠ [] ∧ (length s ≤ n)%nat ∧ Forall (λ c, isdigit c = true) s.

#[export] Instance not_space_text_dec n s : Decision (not_space_text n s).
Proof. unfold not_space_text. apply _. Defined.
#[export] Instance digits_text_dec n s : Decision (digits_text n s).
Proof. unfold digits_text. apply _. Defined.

Lemma not_space_Forall s : " "%char ∉ s → Forall (λ c, not_space c = true) s.
Proof.
  intros Hs. apply Forall_forall. intros c Hc. unfold not_space.
  rewrite bool_decide_false; [done|]. by intros ->.
Qed.

Lemma digits_not (c : ascii) s :
  isdigit c = false → Forall (λ c, isdigit c = true) s → c ∉ s.
Proof. intros Hc Hs Hin. rewrite Forall_forall in Hs. apply Hs in Hin. congruence. Qed.

(** The first ["text:"] of a receipt is its last field: after text without a
    colon, a match would have to end at the next colon. *)
Lemma tolower_colon c : tolower c = ":"%char → c = ":"%char.
Proof.
  apply (bool_decide_eq_true_1 (tolower c = ":"%char → c = ":"%char)).
  revert c. apply all_bytes. by vm_compute.
Qed.

Definition text_key : Octstr := $"text:".

Lemma starts_with_text_colon p s :
  ":"%char ∉ p → starts_with_case text_key (p ++ ":"%char :: s) = true →
  octstr_tolower p = $"text".
Proof.
  intros Hp. unfold text_key.
  destruct p as [|c1 [|c2 [|c3 [|c4 [|c5 p]]]]]; simpl;
    rewrite ?andb_true_iff, ?bool_decide_eq_true; intros Hs; destruct_and?; try done.
  - change (octstr_tolower [c1; c2; c3; c4])
      with [tolower c1; tolower c2; tolower c3; tolower c4]. by repeat f_equal.
  - repeat match goal with H : tolower ":" = tolower _ |- _ => symmetry in H; apply tolower_colon in H end.
    subst. destruct Hp. do 4 right. left.
Qed.

Lemma find_text_skip p s i :
  ":"%char ∉ p →
  (∀ p1 p2, p = p1 ++ p2 → octstr_tolower p2 ≠ $"text") →
  find_suffix (starts_with_case text_key) (p ++ ":"%char :: s) i
  = find_suffix (starts_with_case text_key) s (i + octlen p + 1).
Proof.
  intros Hp Htext. change (p ++ ":"%char :: s) with (p ++ [":"%char] ++ s).
  rewrite app_assoc, find_suffix_skip.
  - f_equal. rewrite octlen_app. unfold octlen. simpl. lia.
  - intros p1 p2 Hsplit Hne. destruct (starts_with_case text_key (p2 ++ s)) eqn:Hs; [|done].
    exfalso. destruct p2 as [|d p2 _] using rev_ind; [done|].
    rewrite app_assoc in Hsplit. apply app_inj_tail in Hsplit as [-> <-].
    rewrite <- app_assoc in Hs. apply starts_with_text_colon in Hs.
    + by apply (Htext p1 p2).
    + intros Hin. apply Hp, elem_of_app. by right.
Qed.

(** A value followed by the name of the next field. *)
Lemma lower_suffix v k p1 p2 :
  (length k = 4)%nat → octstr_tolower k ≠ $"text" → v ++ k = p1 ++ p2 →
  octstr_tolower p2 ≠ $"text".
Proof.
  intros Hk Htext Hsplit Hp2.
  assert (length p2 = 4%nat) as Hlen.
  { apply (f_equal length) in Hp2. unfold octstr_tolower in Hp2. by rewrite length_map in Hp2. }
  apply app_inj_2 in Hsplit as [_ ->]; [done|congruence].
Qed.

Lemma find_text_field v k s i :
  ":"%char ∉ v → ":"%char ∉ k → (length k = 4)%nat → octstr_tolower k ≠ $"text" →
  find_suffix (starts_with_case text_key) (v ++ k ++ ":"%char :: s) i
  = find_suffix (starts_with_case text_key) s (i + octlen v + 5).
Proof.
  intros. rewrite app_assoc, find_text_skip.
  - rewrite octlen_app. f_equal. unfold octlen. lia.
  - by apply not_elem_of_app.
  - intros p1 p2. by apply lower_suffix.
Qed.

(** The three hexadecimal digits of an error code. *)
Definition err_digits_ok (e : Z) : bool :=
  let s := fmt_03x e in
  bool_decide (not_space_text 3 s) && (strtol 16 s =? e).

Lemma err_digits e : 0 ≤ e < 4096 → err_digits_ok e = true.
Proof.
  intros He.
  assert (forallb (λ n, err_digits_ok (Z.of_nat n)) (seq 0 4096) = true) as Hall by by vm_compute.
  rewrite forallb_forall in Hall. specialize (Hall (Z.to_nat e)).
  rewrite Z2Nat.id in Hall by lia. apply Hall, in_seq. lia.
Qed.

Lemma find_text_last p text i :
  ":"%char ∉ p →
  find_suffix (starts_with_case text_key) (p ++ $"text:" ++ text) i = i + octlen p.
Proof.
  intros Hp. rewrite find_suffix_skip; [done|].
  intros p1 p2 -> Hne. destruct (starts_with_case _ _) eqn:Hs; [|done]. exfalso.
  change ($"text:" ++ text) with ($"text" ++ ":"%char :: text) in Hs.
  rewrite app_assoc in Hs. apply starts_with_text_colon in Hs.
  - apply (f_equal length) in Hs. unfold octstr_tolower in Hs.
    rewrite length_map, length_app in Hs. destruct p2; [done|]. simpl in Hs. lia.
  - apply not_elem_of_app in Hp as [_ Hp]. apply not_elem_of_app. split; [done|].
    apply (bool_decide_unpack _). by vm_compute.
Qed.

(** The receipt up to the name of its last field. *)
Definition dlr_prefix (id dlvrd sd dd stat : Octstr) (err : Z) : Octstr :=
  $"id:" ++ id ++ $" sub:" ++ $"001" ++ $" dlvrd:" ++ dlvrd ++ $" submit date:" ++ sd
  ++ $" done date:" ++ dd ++ $" stat:" ++ stat ++ $" err:" ++ fmt_03x err ++ $" ".

Lemma dlr_short_message_split id dlvrd sd dd stat err text :
  dlr_short_message id dlvrd sd dd stat err text
  = dlr_prefix id dlvrd sd dd stat err ++ $"text:" ++ text.
Proof. unfold dlr_short_message, dlr_prefix. by repeat rewrite <- ?app_assoc, <- ?app_comm_cons. Qed.

Ltac no_char := by apply (bool_decide_unpack _); vm_compute.
Ltac no_colon :=
  rewrite ?not_elem_of_app; split_and?; first [done | no_char].

Lemma find_text_dlr id dlvrd sd dd stat err text :
  ":"%char ∉ id → ":"%char ∉ dlvrd → ":"%char ∉ sd → ":"%char ∉ dd → ":"%char ∉ stat →
  ":"%char ∉ fmt_03x err →
  find_suffix (starts_with_case text_key) (dlr_short_message id dlvrd sd dd stat err text) 0
  = octlen (dlr_prefix id dlvrd sd dd stat err).
Proof.
  intros Hid Hdl Hsd Hdd Hst He.
  transitivity (find_suffix (starts_with_case text_key)
    ($"id" ++ ":"%char :: id ++ $" sub" ++ ":"%char :: ($"001" ++ $" d") ++ $"lvrd" ++ ":"%char ::
     (dlvrd ++ $" submit ") ++ $"date" ++ ":"%char :: (sd ++ $" done ") ++ $"date" ++ ":"%char ::
     (dd ++ $" ") ++ $"stat" ++ ":"%char :: stat ++ $" err" ++ ":"%char ::
     (fmt_03x err ++ $" ") ++ $"text:" ++ text) 0).
  { f_equal. unfold dlr_short_message. by rewrite <- !app_assoc. }
  rewrite find_text_skip; [|no_char|].
  2:{ intros p1 p2 Hp Hl. apply (f_equal length) in Hp, Hl. unfold octstr_tolower in Hl.
      rewrite length_map in Hl. rewrite length_app in Hp. simpl in *. lia. }
  do 6 (rewrite find_text_field; [|no_colon..|done|by vm_compute]).
  rewrite find_text_last by no_colon.
  unfold dlr_prefix. rewrite !octlen_app. unfold octlen. simpl. lia.
Qed.

(** Literal text of a format, where every space is followed by another byte. *)
Fixpoint lits_ok (k : Octstr) : bool :=
  match k with
  | [] => true
  | c :: k =>
      (negb (isspace c) || match k with d :: _ => negb (isspace d) | [] => false end) && lits_ok k
  end.

Lemma sscanf_lits k fmt s :
  lits_ok k = true → sscanf (lits k ++ fmt) (k ++ s) = sscanf fmt s.
Proof.
  induction k as [|c k IH]; [done|]. cbn [lits_ok].
  intros [Hc Hk]%andb_true_iff. specialize (IH Hk).
  cbn [lits map app]. destruct (isspace c) eqn:Hsp; cbn [sscanf].
  - destruct k as [|d k]; [done|]. simpl in Hc. apply negb_true_iff in Hc.
    cbn [skip_space]. rewrite Hsp. cbn [app skip_space]. by rewrite Hc.
  - by rewrite bool_decide_true.
Qed.

Lemma sscanf_field k w f p r fmt :
  lits_ok k = true → Forall (λ c, f c = true) p → p ≠ [] → (length p ≤ w)%nat →
  (∀ c, head r = Some c → f c = false) →
  sscanf (lits k ++ DSet w f :: fmt) (k ++ p ++ r) = CStr p :: sscanf fmt r.
Proof.
  intros. rewrite sscanf_lits by done. cbn [sscanf]. rewrite span_app by done.
  by rewrite bool_decide_false.
Qed.

(** What the [sscanf] call makes of a receipt. *)
Lemma sscanf_dlr id dlvrd sd dd stat err text :
  not_space_text 64 id → not_space_text 3 dlvrd → digits_text 14 sd → digits_text 14 dd →
  not_space_text 15 stat → not_space_text 3 (fmt_03x err) →
  sscanf dlr_format (cstr (dlr_short_message id dlvrd sd dd stat err text))
  = map CStr [id; $"001"; dlvrd; sd; dd; stat; fmt_03x err].
Proof.
  intros (?&?&?%not_space_Forall&?&?) (?&?&?%not_space_Forall&?&?) (?&?&?) (?&?&?)
    (?&?&?%not_space_Forall&?&?) (?&?&?%not_space_Forall&?&?).
  assert (NUL ∉ sd) by (by apply digits_not).
  assert (NUL ∉ dd) by (by apply digits_not).
  assert (Forall (λ c, not_space c = true) ($"001")) by (by repeat constructor).
  unfold dlr_short_message.
  do 15 (rewrite cstr_app by (done || no_char)).
  generalize (cstr text) as rest. intros rest. unfold dlr_format.
  do 7 (cbn [app]; rewrite sscanf_field; [cbn [map]; f_equal | done | done | done | done | by intros c [= <-]]).
Qed.

(** The copy of the text: at most 64 bytes of it. *)
Lemma dlr_copy_text `{OctstrLib} p text :
  NUL ∉ text →
  cstr (dlr_copy_field (p ++ $"text:" ++ text) (octlen p) 5 NUL (buf_init 65)) = take 64 text.
Proof.
  intros Hnul. unfold dlr_copy_field. pose proof (octlen_nonneg p).
  replace (octlen p =? -1) with false by (symmetry; lia).
  assert (drop (Z.to_nat (octlen p)) (p ++ $"text:" ++ text) = $"text:" ++ text) as Hdrop.
  { unfold octlen. by rewrite Nat2Z.id, drop_app_length. }
  assert (octstr_search_char (p ++ $"text:" ++ text) NUL (octlen p) = -1) as ->.
  { rewrite octstr_search_char_spec by lia. unfold find_from. rewrite Hdrop.
    apply find_suffix_char_notin, not_elem_of_app. split; [no_char|done]. }
  rewrite Z.eqb_refl, !octlen_app. change (octlen ($"text:")) with 5.
  change (octlen (buf_init 65)) with 65. pose proof (octlen_nonneg text).
  replace (0 <? _) with true by (symmetry; lia).
  set (n := if _ <? _ then _ else _).
  assert (Z.to_nat n = Nat.min 64 (length text)) as Hn.
  { unfold n. destruct (Z.ltb_spec (65 - 1) (octlen p + (5 + octlen text) - octlen p - 5));
      unfold octlen in *; lia. }
  unfold octstr_get_many_chars. rewrite !octlen_app. change (octlen ($"text:")) with 5.
  destruct (Z.leb_spec (octlen p + (5 + octlen text)) (octlen p + 5)).
  { destruct text; [done|]. unfold octlen in *. simpl in *. lia. }
  unfold octstr_copy.
  replace (Z.to_nat (octlen p + 5)) with (length p + 5)%nat by (unfold octlen; lia).
  rewrite <- drop_drop, drop_app_length. change (drop 5 ($"text:" ++ text)) with text.
  rewrite Hn. replace (take (Nat.min 64 (length text)) text) with (take 64 text)
    by (rewrite <- (firstn_all text) at 1; by rewrite take_take).
  unfold buf_write. change (buf_init 65) with (replicate 65 NUL). rewrite drop_replicate.
  destruct (65 - length (take 64 text))%nat eqn:Hr; [rewrite length_take in Hr; lia|].
  apply cstr_buf. intros Hin. apply Hnul.
  rewrite <- (take_drop 64 text). apply elem_of_app. by left.
Qed.

(** The parser reads the fields of a receipt. *)
Lemma parse_dlr_fields `{TimeLib} `{OctstrLib} (now : Z)
    (id dlvrd sd dd stat : Octstr) (err : Z) (text : Octstr) :
  not_space_text 64 id → not_space_text 3 dlvrd → digits_text 14 sd → digits_text 14 dd →
  not_space_text 15 stat → 0 ≤ err < 4096 → NUL ∉ text →
  parse_dlr_short_message now (Some (dlr_short_message id dlvrd sd dd stat err text))
  = Some {| dlr_id := id; dlr_sub := 1; dlr_dlvrd := to_uint (strtol 16 dlvrd);
            dlr_submit_date := smpp_time_to_c_time now sd;
            dlr_done_date := smpp_time_to_c_time now dd;
            dlr_stat := stat; dlr_err := err; dlr_text := take 64 text |}.
Proof.
  intros Hid Hdl Hsd Hdd Hst Herr Htext.
  pose proof (err_digits err Herr) as [He%bool_decide_eq_true_1 Hev%Z.eqb_eq]%andb_true_iff.
  unfold parse_dlr_short_message.
  replace (octlen _ =? 0) with false by done. unfold read_dlr_fields.
  rewrite sscanf_dlr by done.
  destruct Hid as (?&?&?&?&?), Hdl as (?&?&?&?&?), Hst as (?&?&?&?&?), He as (?&?&?&?&?).
  destruct Hsd as (?&?&Hsd), Hdd as (?&?&Hdd).
  pose proof (digits_not NUL sd eq_refl Hsd). pose proof (digits_not NUL dd eq_refl Hdd).
  pose proof (digits_not ":"%char sd eq_refl Hsd). pose proof (digits_not ":"%char dd eq_refl Hdd).
  rewrite octstr_case_search_spec by (done || lia). rewrite find_from_0.
  change ($"text:") with text_key. rewrite find_text_dlr by done.
  rewrite dlr_short_message_split, dlr_copy_text by done.
  cbn [map length Nat.eqb negb lookup list_lookup].
  rewrite !buf_scan_read by (done || lia || no_char).
  assert (∀ d, digits_text 14 d →
    smpp_time_to_c_time now (buf_scan (buf_init 15) (Some (CStr d))) = smpp_time_to_c_time now d) as Hd.
  { intros d (?&?&Hd). pose proof (digits_not NUL d eq_refl Hd). unfold smpp_time_to_c_time.
    by rewrite buf_scan_read, cstr_id by (done || lia). }
  rewrite Hev, !Hd by (by split_and!). cbn [dlr_id dlr_stat].
  replace (octlen id =? 0) with false.
  2:{ symmetry. unfold octlen. destruct id; [done|]. simpl. lia. }
  cbn [andb]. do 2 f_equal. unfold to_uint. by rewrite Z.mod_small by lia.
Qed.

(** ** Properties *)

(** What the daemon writes into a delivery receipt it can read back: the
    parser, which also feeds the accounting log, returns the identifier, the
    delivered count, the two dates, the status, the error code and the (first 64
    bytes of the) text of every receipt made of fields that fit its buffers. *)
Theorem parse_dlr_format `{TimeLib} `{OctstrLib} (now : Z)
    (id dlvrd sd dd stat : Octstr) (err : Z) (text : Octstr) :
  not_space_text 64 id → not_space_text 3 dlvrd → digits_text 14 sd → digits_text 14 dd →
  not_space_text 15 stat → 0 ≤ err < 4096 → NUL ∉ text →
  parse_dlr_short_message now (Some (dlr_short_message id dlvrd sd dd stat err text))
  = Some {| dlr_id := id; dlr_sub := 1; dlr_dlvrd := to_uint (strtol 16 dlvrd);
            dlr_submit_date := smpp_time_to_c_time now sd;
            dlr_done_date := smpp_time_to_c_time now dd;
            dlr_stat := stat; dlr_err := err; dlr_text := take 64 text |}.
Proof. intros. by apply parse_dlr_fields. Qed.

Lemma parse_dlr_format_witness :
  parse_dlr_short_message (H:=time_ref) (H0:=octstr_ref) 1700000000
    (Some (dlr_short_message ($"2f1c0de4") ($"001") ($"231114221320") ($"231114221325")
             ($"DELIVRD") 0 ($"hello")))
  = Some {| dlr_id := $"2f1c0de4"; dlr_sub := 1; dlr_dlvrd := 1;
            dlr_submit_date := smpp_time_to_c_time (H:=time_ref) 1700000000 ($"231114221320");
            dlr_done_date := smpp_time_to_c_time (H:=time_ref) 1700000000 ($"231114221325");
            dlr_stat := $"DELIVRD"; dlr_err := 0; dlr_text := $"hello" |}.
Proof.
  rewrite (parse_dlr_format (H:=time_ref) (H0:=octstr_ref));
    first [done | lia | apply (bool_decide_unpack _); by vm_compute].
Defined.
