(* ===== verification/PduUtil.v ===== *)
(** smpp_pdu_util.c: the conversions between Kannel messages and SMPP PDUs. The
    PDU a submit handler converts is changed in place (its addresses are
    normalised; data_sm fields are moved out), so it is the state of the
    converting functions; for messages to an ESME the state is the ESME, whose
    counters number the PDUs. *)
From S2P Require Import Prelude CLib Gwlib Types Kannel Dlr.
Open Scope Z_scope.

Definition BEARERBOX_DEFAULT_CHARSET : Octstr := $"UTF-8".

(** [a & b] as a C condition. *)
Definition bit_set (a b : Z) : bool := negb (Z.land a b =? 0).

Section defs.
Context `{TimeLib} `{OctstrLib} `{KannelLib}.

(** ** Addresses *)

(** The result is the reason and the address the string is changed to. *)
Definition smpp_pdu_util_convert_addr (addr : option Octstr) (ton : Z) : Z * option Octstr :=
  match addr with
  | None => (SMPP_ESME_ROK, None)
  | Some addr =>
      if ton =? GSM_ADDR_TON_INTERNATIONAL then
        if negb (octlen addr <? 7) && (octstr_get_char addr 0 =? byte_val "+"%char)
           && negb (octstr_check_range addr 1 256 isdigit)
        then (SMPP_ESME_RINVSRCADR, Some addr)
        else if negb (octlen addr <? 7) && negb (octstr_get_char addr 0 =? byte_val "+"%char)
           && negb (octstr_check_range addr 0 256 isdigit)
        then (SMPP_ESME_RINVSRCADR, Some addr)
        else
          let addr := if octstr_search addr ($"00") 0 =? 0 then octstr_delete addr 0 2 else addr in
          let addr := if negb (octstr_get_char addr 0 =? byte_val "+"%char)
                      then "+"%char :: addr else addr in
          (SMPP_ESME_ROK, Some addr)
      else (SMPP_ESME_ROK, Some addr)
  end.

(** ** Character sets *)

Definition convert_msgdata (from : Octstr) (m : Msg) : Msg :=
  match msgdata m with
  | Some d =>
      match charset_convert d from BEARERBOX_DEFAULT_CHARSET with
      | Some d' => {| m with msgdata := Some d' |}
      | None => m
      end
  | None => m
  end.

Definition gsm_msgdata (m : Msg) : Msg :=
  {| m with msgdata := charset_gsm_to_utf8 <$> msgdata m |}.

(** [KSC_5601], and [KSC5636] when that fails. *)
Definition convert_korean (m : Msg) : Msg :=
  match msgdata m with
  | Some d =>
      match charset_convert d ($"KSC_5601") BEARERBOX_DEFAULT_CHARSET with
      | Some d' => {| m with msgdata := Some d' |}
      | None => convert_msgdata ($"KSC5636") m
      end
  | None => m
  end.

Definition smpp_pdu_util_compute_inbound_dcs (m : Msg) (alt_charset : option Octstr)
    (data_coding esm_class : Z) : Msg :=
  match data_coding with
  | 0x00 =>
      match alt_charset with
      | Some cs =>
          if negb (bool_decide (coding m = DC_8BIT))
          then {| (convert_msgdata cs m) with coding := DC_7BIT |}
          else {| (gsm_msgdata m) with coding := DC_7BIT |}
      | None => {| (gsm_msgdata m) with coding := DC_7BIT |}
      end
  | 0x01 => {| m with coding := DC_7BIT |}
  | 0x03 => {| (convert_msgdata ($"ISO-8859-1") m) with coding := DC_7BIT |}
  | 0x02 | 0x04 => {| m with coding := DC_8BIT |}
  | 0x05 => {| (convert_msgdata ($"JIS_X0208-1990") m) with coding := DC_7BIT |}
  | 0x06 => {| (convert_msgdata ($"ISO-8859-5") m) with coding := DC_7BIT |}
  | 0x07 => {| (convert_msgdata ($"ISO-8859-8") m) with coding := DC_7BIT |}
  | 0x08 => {| m with coding := DC_UCS2 |}
  | 0x0D => {| (convert_msgdata ($"JIS_X0212-1990") m) with coding := DC_7BIT |}
  | 0x0E => {| (convert_korean m) with coding := DC_7BIT |}
  | _ =>
      if bool_decide (coding m = DC_UNDEF) && bit_set esm_class ESM_CLASS_SUBMIT_UDH_INDICATOR
      then {| m with coding := DC_8BIT |}
      else if bool_decide (coding m = DC_7BIT) || bool_decide (coding m = DC_UNDEF)
      then gsm_msgdata {| m with coding := DC_7BIT |}
      else m
  end.

(** ** Submitted messages *)

(** The UDH of a message with the UDH indicator: [inl] is the reason of an error.
    A NULL message text stops the process in [octstr_get_char]. *)
Definition decode_udh {S} (m : Msg) : M S (Z + Msg) :=
  d ← deref (msgdata m);
  let udhl := octstr_get_char d 0 + 1 in
  if octlen d <? udhl then mret (inl SMPP_ESME_RINVESMCLASS)
  else mret (inr {| m with udhdata := Some (octstr_copy d 0 udhl);
                           msgdata := Some (octstr_delete d 0 udhl) |}).

(** The concatenation TLVs, then the UDH: [esm_class] and the three TLVs are the
    PDU's. *)
Definition decode_sar_udh {S} (version : Z) (p : SM) (m : Msg) : M S (Z + Msg) :=
  let sar := (0x33 <? version) && (0 <=? sar_msg_ref_num p) && (0 <? sar_segment_seqnum p)
             && (0 <? sar_total_segments p) in
  if sar && bit_set (esm_class p) ESM_CLASS_SUBMIT_UDH_INDICATOR
  then mret (inl SMPP_ESME_RINVTLVVAL)
  else
    let m := if sar then prepend_catenation_udh m (sar_segment_seqnum p) (sar_total_segments p)
                           (sar_msg_ref_num p)
             else m in
    if bit_set (esm_class p) ESM_CLASS_SUBMIT_UDH_INDICATOR then decode_udh m else mret (inr m).

Definition registered_delivery_mask (p : SM) : Z :=
  match Z.land (registered_delivery p) 0x03 with
  | 1 => Z.lor DLR_SUCCESS (Z.lor DLR_FAIL DLR_SMSC_FAIL)
  | 2 => Z.lor DLR_FAIL DLR_SMSC_FAIL
  | _ => 0
  end.

(** [set_tlvs]: the meta-data is created empty when there is none. *)
Definition set_tlvs (m : Msg) (t : Tlvs) : Msg :=
  {| m with meta_data := Some (meta_data_set_values (default [] (meta_data m)) t ($"smpp")) |}.

(** The message up to its text; [uuid] is the identifier [msg_create] draws. *)
Definition submitted_msg (uuid : Octstr) (e : SMPPEsme) (src dst : option Octstr) (s : SM)
    (text : option Octstr) : Msg :=
  {| (msg_create uuid) with
     sms_type := mt_push; service := system_id e; sender := src; receiver := dst;
     binfo := service_type s; msgdata := text;
     rpi := if bit_set (esm_class s) ESM_CLASS_SUBMIT_RPI then 1 else SMS_PARAM_UNDEFINED |}.

(** The text: the payload TLV for a version 3.4 client that sent no short
    message. *)
Definition submitted_text (v : Z) (s : SM) : option Octstr :=
  if (0x33 <? v) && (sm_length s =? 0) && bool_decide (is_Some (message_payload s))
  then message_payload s else short_message s.

(** The DLR mask: what [registered_delivery] asks for is overwritten. *)
Definition submitted_dlr_mask (s : SM) : Z :=
  let mask := registered_delivery_mask s in
  let mask := Z.lor DLR_SUCCESS (Z.lor DLR_FAIL DLR_SMSC_FAIL) in
  mask.

(** The data coding, and the character set of the text. *)
Definition decode_dcs (e : SMPPEsme) (s : SM) (m : Msg) : Msg :=
  smpp_pdu_util_compute_inbound_dcs (dcs_to_fields m (data_coding s)) (alt_charset e)
    (data_coding s) (esm_class s).

Definition finish_submit_sm (now : Z) (s : SM) (m : Msg) : Msg :=
  {| (set_tlvs m (tlv s)) with
     pid := protocol_id s; time := now;
     validity := match validity_period s with
                 | Some v => now + timestamp_to_minutes now (Some v) * 60
                 | None => validity m
                 end;
     priority := priority_flag s;
     dlr_mask := submitted_dlr_mask s |}.

Definition finish_data_sm (now : Z) (s : SM) (m : Msg) : Msg :=
  {| (set_tlvs m (tlv s)) with time := now; dlr_mask := submitted_dlr_mask s |}.

(** Changes of the PDU in place. *)
Definition set_sm (f : SM → SM) : M SMPP_PDU unit := modify (λ p, {| p with sm := f (sm p) |}).

Definition smpp_submit_sm_to_msg (now : Z) (uuid : Octstr) (e : SMPPEsme)
    : M SMPP_PDU (option Msg * Z) :=
  p ← get;
  if negb (bool_decide (type p = submit_sm)) then crash
  else
    let s := sm p in
    let '(reason, src) := smpp_pdu_util_convert_addr (source_addr s) (source_addr_ton s) in
    set_sm (λ s, {| s with source_addr := src |});;
    if negb (reason =? SMPP_ESME_ROK) then mret (None, reason)
    else
      match destination_addr s with
      | None => mret (None, SMPP_ESME_RINVDSTADR)
      | Some dst =>
          let '(reason, dst) := smpp_pdu_util_convert_addr (Some dst) (dest_addr_ton s) in
          set_sm (λ s, {| s with destination_addr := dst |});;
          if negb (reason =? SMPP_ESME_ROK) then mret (None, reason)
          else
            r ← decode_sar_udh (version e) s
                  (submitted_msg uuid e src dst s (submitted_text (version e) s));
            match r with
            | inl reason => mret (None, reason)
            | inr m => mret (Some (finish_submit_sm now s (decode_dcs e s m)), SMPP_ESME_ROK)
            end
      end.

(** Here the fields of the message are moved out of the PDU. *)
Definition smpp_data_sm_to_msg (now : Z) (uuid : Octstr) (e : SMPPEsme)
    : M SMPP_PDU (option Msg * Z) :=
  p ← get;
  if negb (bool_decide (type p = data_sm)) then crash
  else
    let s := sm p in
    let '(reason, src) := smpp_pdu_util_convert_addr (source_addr s) (source_addr_ton s) in
    set_sm (λ s, {| s with source_addr := src |});;
    if negb (reason =? SMPP_ESME_ROK) then mret (None, reason)
    else
      set_sm (λ s, {| s with source_addr := None |});;
      match destination_addr s with
      | None => mret (None, SMPP_ESME_RINVDSTADR)
      | Some dst =>
          let '(reason, dst) := smpp_pdu_util_convert_addr (Some dst) (dest_addr_ton s) in
          set_sm (λ s, {| s with destination_addr := dst |});;
          if negb (reason =? SMPP_ESME_ROK) then mret (None, reason)
          else
            set_sm (λ s, {| s with destination_addr := None; service_type := None;
                                   message_payload := None |});;
            r ← decode_sar_udh (version e) s
                  (submitted_msg uuid e src dst s (message_payload s));
            match r with
            | inl reason => mret (None, reason)
            | inr m => mret (Some (finish_data_sm now s (decode_dcs e s m)), SMPP_ESME_ROK)
            end
      end.

(** ** Messages to an ESME *)

(** What the callback URL of a DLR starts with. *)
Definition smpp_pdu_get_system_id_from_dlr_url (received_dlr_url : Octstr) : option Octstr :=
  let pos := octstr_search_char received_dlr_url "|"%char 0 in
  if negb (pos =? -1) then Some (octstr_copy received_dlr_url 0 pos) else None.

(** The source address with its type of number and its numbering plan. *)
Definition source_address (a : option Octstr) : option Octstr * Z * Z :=
  let national := (a, GSM_ADDR_TON_NATIONAL, GSM_ADDR_NPI_E164) in
  match a with
  | None => national
  | Some s =>
      if octlen s =? 0 then national
      else if octstr_get_char s 0 =? byte_val "+"%char then
        if negb (octstr_check_range s 1 256 isdigit)
        then (a, GSM_ADDR_TON_ALPHANUMERIC, GSM_ADDR_NPI_UNKNOWN)
        else (Some (octstr_delete s 0 1), GSM_ADDR_TON_INTERNATIONAL, GSM_ADDR_NPI_E164)
      else if negb (octstr_check_range s 0 256 isdigit)
      then (a, GSM_ADDR_TON_ALPHANUMERIC, GSM_ADDR_NPI_UNKNOWN)
      else national
  end.

Definition destination_address (a : option Octstr) : option Octstr * Z * Z :=
  match a with
  | None => (a, GSM_ADDR_TON_NATIONAL, GSM_ADDR_NPI_E164)
  | Some s =>
      if negb (octlen s =? 0) && (octstr_get_char s 0 =? byte_val "+"%char)
      then (Some (octstr_delete s 0 1), GSM_ADDR_TON_INTERNATIONAL, GSM_ADDR_NPI_E164)
      else (a, GSM_ADDR_TON_NATIONAL, GSM_ADDR_NPI_E164)
  end.

(** The template PDU; [None] where the addresses do not fit. *)
Definition pdu_template (m : Msg) : option SMPP_PDU :=
  let p := smpp_pdu_create deliver_sm 0 in
  let '(src, ston, snpi) := source_address (sender m) in
  let '(dst, dton, dnpi) := destination_address (receiver m) in
  if (octstr_len dst <=? 0) || (20 <? octstr_len dst) || (20 <? octstr_len src) then None
  else
    let dcs := if (mwi m =? MWI_UNDEF) && negb (mclass m =? MC_UNDEF)
               then fields_to_dcs m 1 else fields_to_dcs m (alt_dcs m) in
    let esm := if 0 <? octstr_len (udhdata m) then ESM_CLASS_SUBMIT_UDH_INDICATOR else 0 in
    let esm := if 0 <? rpi m then Z.lor esm ESM_CLASS_SUBMIT_RPI else esm in
    Some {| p with sm := {| (sm p) with
      source_addr := src; source_addr_ton := ston; source_addr_npi := snpi;
      destination_addr := dst; dest_addr_ton := dton; dest_addr_npi := dnpi;
      service_type := binfo m; data_coding := dcs;
      protocol_id := if negb (pid m =? SMS_PARAM_UNDEFINED) then pid m else protocol_id (sm p);
      esm_class := esm |} |}.

(** The state and the delivered count a DLR type stands for: the status text of
    the C code is only logged. *)
Definition dlr_state_of (dlrtype : Z) : Z * Octstr :=
  if (dlrtype =? DLR_UNDEFINED) || (dlrtype =? DLR_NOTHING) then (8, $"000")
  else if dlrtype =? DLR_SUCCESS then (2, $"001")
  else if dlrtype =? DLR_BUFFERED then (6, $"000")
  else if dlrtype =? DLR_SMSC_SUCCESS then (0, $"000")
  else if (dlrtype =? DLR_FAIL) || (dlrtype =? DLR_SMSC_FAIL) then (5, $"000")
  else (7, $"000").

(** One receipt: the addresses of the message swapped. *)
Definition dlr_pdu (e : SMPPEsme) (m : Msg) (metadata : option Tlvs) (tpl : SMPP_PDU)
    (dlr_state : Z) (text : Octstr) (msgid2 : Octstr) : SMPP_PDU :=
  let p := smpp_pdu_create deliver_sm 0 in
  let t := sm tpl in
  let s := {| (sm p) with
    esm_class := Z.lor (esm_class t) ESM_CLASS_DELIVER_SMSC_DELIVER_ACK;
    source_addr_ton := dest_addr_ton t; source_addr_npi := dest_addr_npi t;
    dest_addr_ton := source_addr_ton t; dest_addr_npi := source_addr_npi t;
    data_coding := data_coding t; protocol_id := protocol_id t;
    source_addr := destination_addr t; destination_addr := source_addr t;
    service_type := service_type t |} in
  let s := if 0x33 <? version e
           then {| s with receipted_message_id := Some msgid2; message_state := dlr_state;
                          tlv := default [] (meta_data_get_values (meta_data m) ($"smpp"));
                          network_error_code := match metadata with
                            | Some d => dict_get d ($"network_error_code")
                            | None => network_error_code s
                            end |}
           else s in
  {| p with sm := {| s with short_message := Some text; sm_length := octlen text |} |}.

(** The [report_mo] branch. *)
Definition report_to_pdus (now : Z) (e : SMPPEsme) (m : Msg) (tpl : SMPP_PDU)
    : option (list SMPP_PDU) :=
  let metadata := meta_data_get_values (meta_data m) ($"smpp") in
  let dlrtype := dlr_mask m in
  if octstr_len (dlr_url m) <=? UUID_STR_LEN then None
  else
    match octstr_split (default [] (dlr_url m)) "|"%char with
    | [_; dlr_submit; dlr_url] =>
        let dlr_time := atol (cstr dlr_submit) in
        let '(dlr_state, dlvrd) := dlr_state_of dlrtype in
        let dlr_state :=
          match metadata with
          | Some d => match dict_get d ($"dlr_stat") with
                      | Some s => if octstr_eq s ($"EXPIRED") then 3 else dlr_state
                      | None => dlr_state
                      end
          | None => dlr_state
          end in
        match parse_dlr_short_message now (msgdata m) with
        | None => None
        | Some r =>
            let submit_ts := if 0 <? dlr_submit_date r then dlr_submit_date r else dlr_time in
            let done_ts := if 0 <? dlr_done_date r then dlr_done_date r else time m in
            let err := if ((dlrtype =? DLR_FAIL) || (dlrtype =? DLR_SMSC_FAIL)) && (dlr_err r =? 0)
                       then 1 else dlr_err r in
            let text msgid2 :=
              dlr_short_message msgid2 dlvrd (strftime_ymdhms (gw_localtime submit_ts))
                (strftime_ymdhms (gw_localtime done_ts)) (dlr_stat r) err (dlr_text r) in
            Some (map (λ msgid2, dlr_pdu e m metadata tpl dlr_state (text msgid2) msgid2)
                      (octstr_split dlr_url ";"%char))
        end
    | _ => None
    end.

(** The re-encoding of a text part without UDH. *)
Definition encode_part (e : SMPPEsme) (m : Msg) (dcs : Z) (text : option Octstr) : option Octstr :=
  if bool_decide (coding m = DC_7BIT)
     || (bool_decide (coding m = DC_UNDEF) && negb (octstr_len (udhdata m) =? 0)) then
    if bit_set dcs 0xF0 || (bool_decide (alt_charset e = None) && (dcs =? 0))
    then charset_utf8_to_gsm <$> text
    else match alt_charset e, text with
         | Some cs, Some t =>
             if dcs =? 0 then Some (default t (charset_convert t BEARERBOX_DEFAULT_CHARSET cs))
             else text
         | _, _ => text
         end
  else text.

(** One part of a message; a UDH without text stops the process in
    [octstr_cat]. *)
Definition part_pdu (m : Msg) (tpl : SMPP_PDU) (m2 : Msg) : M SMPPEsme SMPP_PDU :=
  e ← get;
  modify (λ e, {| e with esme_sequence_number := esme_sequence_number e + 1 |});;
  let p := smpp_pdu_create deliver_sm (esme_sequence_number e) in
  let t := sm tpl in
  body ← (if 0 <? octstr_len (udhdata m2) then
            u ← deref (udhdata m2);
            d ← deref (msgdata m2);
            mret (Z.lor (esm_class t) ESM_CLASS_DELIVER_UDH_INDICATOR, Some (u ++ d))
          else mret (esm_class (sm p), encode_part e m (data_coding t) (msgdata m2)));
  mret {| p with sm := {| (sm p) with
    source_addr_ton := source_addr_ton t; source_addr_npi := source_addr_npi t;
    dest_addr_ton := dest_addr_ton t; dest_addr_npi := dest_addr_npi t;
    data_coding := data_coding t; protocol_id := protocol_id t;
    source_addr := source_addr t; destination_addr := destination_addr t;
    service_type := service_type t;
    esm_class := body.1; short_message := body.2; sm_length := octstr_len body.2;
    tlv := if 0x33 <? version e
           then default [] (meta_data_get_values (meta_data m) ($"smpp")) else tlv (sm p) |} |}.

Fixpoint part_pdus (m : Msg) (tpl : SMPP_PDU) (parts : list Msg) : M SMPPEsme (list SMPP_PDU) :=
  match parts with
  | [] => mret []
  | m2 :: parts =>
      p ← part_pdu m tpl m2;
      ps ← part_pdus m tpl parts;
      mret (p :: ps)
  end.

Definition smpp_pdu_msg_to_pdu (now : Z) (m : Msg) : M SMPPEsme (option (list SMPP_PDU)) :=
  match pdu_template m with
  | None => mret None
  | Some tpl =>
      if bool_decide (sms_type m = report_mo) then
        e ← get;
        mret (report_to_pdus now e m tpl)
      else
        (* [octstr_insert] of the UDH into the template's text *)
        (if negb (octstr_len (udhdata m) =? 0) then _ ← deref (msgdata m); mret tt else mret tt);;
        e ← get;
        modify (λ e, {| e with catenated_sms_counter := catenated_sms_counter e + 1 |});;
        let parts := sms_split m (Z.land (catenated_sms_counter e) 0xFF) 255 in
        ps ← part_pdus m tpl parts;
        mret (Some ps)
  end.

End defs.

(** ** Specifications *)

(** An international address of at least 7 bytes that is not digits after an
    optional plus sign (the code looks at 256 bytes). *)
Definition digits_after_plus (s : Octstr) : bool :=
  forallb isdigit (take 256 (if octstr_get_char s 0 =? byte_val "+"%char then drop 1 s else s)).
Definition malformed_addr (a : option Octstr) (ton : Z) : Prop :=
  ton = GSM_ADDR_TON_INTERNATIONAL ∧
  ∃ s, a = Some s ∧ 7 ≤ octlen s ∧ digits_after_plus s = false.

Definition has_sar (v : Z) (p : SM) : bool :=
  (0x33 <? v) && (0 <=? sar_msg_ref_num p) && (0 <? sar_segment_seqnum p)
  && (0 <? sar_total_segments p).
Definition has_udh (p : SM) : bool := bit_set (esm_class p) ESM_CLASS_SUBMIT_UDH_INDICATOR.

(** A UDH longer than the text: the first byte counts the bytes after it. *)
Definition udh_too_long (t : Octstr) : bool := octlen t <? octstr_get_char t 0 + 1.

(** ** Lemmas *)

Section lemmas.
Context `{TimeLib} `{OctstrLib} `{KannelLib}.

Lemma convert_addr_reason a ton :
  let r := (smpp_pdu_util_convert_addr a ton).1 in
  (r = SMPP_ESME_ROK ∧ ¬ malformed_addr a ton) ∨ (r = SMPP_ESME_RINVSRCADR ∧ malformed_addr a ton).
Proof.
  unfold smpp_pdu_util_convert_addr, malformed_addr, digits_after_plus, octstr_check_range, octstr_copy.
  destruct a as [s|]; [|left; split; [done|by intros (_&?&?&_)]].
  change (Z.to_nat 1) with 1%nat. change (Z.to_nat 0) with 0%nat. rewrite drop_0.
  change (Z.to_nat 256) with 256%nat.
  destruct (Z.eqb_spec ton GSM_ADDR_TON_INTERNATIONAL) as [->|Hton].
  2:{ left. split; [done|]. by intros (?&_). }
  destruct (Z.ltb_spec (octlen s) 7) as [Hlen|Hlen]; simpl.
  { left. split; [done|]. intros (_&?&[= <-]&?&_). lia. }
  destruct (_ =? byte_val _) eqn:Hplus; simpl; destruct (forallb _ _) eqn:Hd; simpl;
    (right; split; [done|]; split; [done|]; exists s; by rewrite Hplus) ||
    (left; split; [done|]; intros (_&?&[= <-]&_&Hm); rewrite Hplus in Hm; congruence).
Qed.

Lemma convert_addr_ok a ton :
  (smpp_pdu_util_convert_addr a ton).1 = SMPP_ESME_ROK ↔ ¬ malformed_addr a ton.
Proof. destruct (convert_addr_reason a ton) as [[-> ?]|[-> ?]]; naive_solver. Qed.

Lemma convert_addr_None a ton : (smpp_pdu_util_convert_addr a ton).2 = None ↔ a = None.
Proof.
  unfold smpp_pdu_util_convert_addr. destruct a; [|done].
  split; [|done]. repeat case_match; done.
Qed.

(** The UDH steps keep all but the text and the UDH. *)
Lemma decode_sar_udh_run {S} v p m (s : S) :
  is_Some (msgdata m) →
  ∃ r, decode_sar_udh v p m s = Some (r, s) ∧
  match r with
  | inl reason =>
      (reason = SMPP_ESME_RINVTLVVAL ∧ has_sar v p = true ∧ has_udh p = true) ∨
      (reason = SMPP_ESME_RINVESMCLASS ∧ has_sar v p = false ∧ has_udh p = true ∧
       udh_too_long (default [] (msgdata m)) = true)
  | inr m' =>
      m' = {| m with udhdata := udhdata m'; msgdata := msgdata m' |} ∧
      (has_sar v p = true → has_udh p = false) ∧
      (has_sar v p = false → has_udh p = false → udhdata m' = udhdata m) ∧
      (has_udh p = false → msgdata m' = msgdata m) ∧
      (has_udh p = true → udh_too_long (default [] (msgdata m)) = false ∧
         ∃ u d, udhdata m' = Some u ∧ msgdata m' = Some d ∧ msgdata m = Some (u ++ d) ∧
                octlen u = octstr_get_char (u ++ d) 0 + 1)
  end.
Proof.
  intros [d Hd]. unfold decode_sar_udh. fold (has_sar v p) (has_udh p).
  destruct (has_sar v p) eqn:Hsar, (has_udh p) eqn:Hudh; simpl.
  - eexists. split; [done|]. by left.
  - eexists. split; [done|]. rewrite prepend_catenation_udh_frame. destruct m; simpl. by split_and!.
  - unfold decode_udh. rewrite Hd, bind_unfold.
    cbn [deref mret M_ret]. cbv beta zeta. unfold udh_too_long. simpl default.
    destruct (Z.ltb_spec (octlen d) (octstr_get_char d 0 + 1)) as [Hl|Hl].
    + eexists. split; [done|]. right. split_and!; try done.
    + eexists. split; [done|]. destruct m; simpl in *. simplify_eq. split_and!; try done.
      intros _. split; [lia|]. unfold octstr_copy, octstr_delete.
      change (Z.to_nat 0) with 0%nat. rewrite drop_0, take_0, Nat.add_0_l. simpl.
      set (n := octstr_get_char d 0 + 1) in *.
      exists (take (Z.to_nat n) d), (drop (Z.to_nat n) d). rewrite take_drop. split_and!; try done.
      unfold octlen in *. rewrite length_take.
      assert (0 ≤ n). { unfold n, octstr_get_char. destruct (_ <? _); [lia|].
        destruct (d !! _); simpl; [pose proof (byte_val_range a)|]; lia. }
      lia.
  - eexists. split; [done|]. destruct m; simpl. by split_and!.
Qed.

(** The conversions always give a message or a reason; only the UDH of a missing
    text stops the process. *)
Lemma decode_sar_udh_total {S} v p m (s : S) :
  (has_udh p = true → is_Some (msgdata m)) →
  ∃ r, decode_sar_udh v p m s = Some (r, s) ∧ ∀ reason, r = inl reason → reason ≠ SMPP_ESME_ROK.
Proof.
  intros Htext. destruct (has_udh p) eqn:Hudh.
  - destruct (decode_sar_udh_run v p m s (Htext eq_refl)) as (r & Hrun & Hr).
    exists r. split; [done|]. intros reason ->. by destruct Hr as [(->&_)|(->&_)].
  - unfold decode_sar_udh. fold (has_udh p). rewrite Hudh, andb_false_r.
    destruct (_ && _); by eexists.
Qed.

Definition concludes (m : M SMPP_PDU (option Msg * Z)) : Prop :=
  ∀ p, ∃ res reason p', m p = Some ((res, reason), p') ∧ (res = None → reason ≠ SMPP_ESME_ROK).

Lemma concludes_modify f m : concludes m → concludes (modify f;; m).
Proof. intros Hm p. apply Hm. Qed.
Lemma concludes_refusal reason : reason ≠ SMPP_ESME_ROK → concludes (mret (None, reason)).
Proof. intros Hr p. by exists None, reason, p. Qed.
Lemma concludes_decode v s m (f : Msg → Msg) :
  (has_udh s = true → is_Some (msgdata m)) →
  concludes (r ← decode_sar_udh v s m;
             match r with
             | inl reason => mret (None, reason)
             | inr m => mret (Some (f m), SMPP_ESME_ROK)
             end).
Proof.
  intros Htext p. destruct (decode_sar_udh_total v s m p Htext) as (r & Hrun & Hr). rewrite bind_unfold, Hrun.
  destruct r as [reason|m']; do 3 eexists; (split; [done|]); [|done]. intros _. by apply Hr.
Qed.

Ltac conversion_total :=
  repeat match goal with
  | |- context [smpp_pdu_util_convert_addr ?a ?t] => destruct (smpp_pdu_util_convert_addr a t)
  | |- context [?r =? SMPP_ESME_ROK] => destruct (Z.eqb_spec r SMPP_ESME_ROK); cbn [negb]
  | |- context [match destination_addr ?x with _ => _ end] => destruct (destination_addr x)
  | |- concludes (_;; _) => apply concludes_modify
  | |- concludes (mret _) => by apply concludes_refusal
  end.

Lemma submit_sm_to_msg_total now uuid e p :
  type p = submit_sm → (has_udh (sm p) = true → is_Some (submitted_text (version e) (sm p))) →
  ∃ res reason p', smpp_submit_sm_to_msg now uuid e p = Some ((res, reason), p') ∧
    (res = None → reason ≠ SMPP_ESME_ROK).
Proof.
  intros Htype Htext. unfold smpp_submit_sm_to_msg, set_sm.
  rewrite get_bind, bool_decide_true by done. cbn [negb]. cbv zeta.
  match goal with |- ∃ res reason p', ?m p = _ ∧ _ => enough (concludes m) as Hm by apply Hm end.
  conversion_total. by apply concludes_decode.
Qed.

Lemma data_sm_to_msg_total now uuid e p :
  type p = data_sm → (has_udh (sm p) = true → is_Some (message_payload (sm p))) →
  ∃ res reason p', smpp_data_sm_to_msg now uuid e p = Some ((res, reason), p') ∧
    (res = None → reason ≠ SMPP_ESME_ROK).
Proof.
  intros Htype Htext. unfold smpp_data_sm_to_msg, set_sm.
  rewrite get_bind, bool_decide_true by done. cbn [negb]. cbv zeta.
  match goal with |- ∃ res reason p', ?m p = _ ∧ _ => enough (concludes m) as Hm by apply Hm end.
  conversion_total. by apply concludes_decode.
Qed.

(** Character sets change the text and the coding only. *)
Lemma inbound_dcs_frame m cs dcs esm :
  let m' := smpp_pdu_util_compute_inbound_dcs m cs dcs esm in
  m' = {| m with msgdata := msgdata m'; coding := coding m' |} ∧
  (is_Some (msgdata m) → is_Some (msgdata m')) ∧
  (dcs = 0x04 ∨ dcs = 0x02 ∨ dcs = 0x08 → msgdata m' = msgdata m).
Proof.
  destruct m as [???[d|] ??????????????????].
  all: unfold smpp_pdu_util_compute_inbound_dcs, convert_korean, convert_msgdata, gsm_msgdata; simpl.
  all: repeat case_match; simplify_eq/=; split_and!; eauto; intros; lia.
Qed.

Lemma decode_dcs_frame e s m :
  let m' := decode_dcs e s m in
  m' = {| m with msgdata := msgdata m'; coding := coding m'; mclass := mclass m'; mwi := mwi m';
                 alt_dcs := alt_dcs m' |} ∧
  (data_coding s = 0x04 ∨ data_coding s = 0x02 ∨ data_coding s = 0x08 → msgdata m' = msgdata m).
Proof.
  unfold decode_dcs. pose proof (dcs_to_fields_frame m (data_coding s)) as Hm2.
  unfold same_but_coding in Hm2. set (m2 := dcs_to_fields m (data_coding s)) in *.
  destruct (inbound_dcs_frame m2 (alt_charset e) (data_coding s) (esm_class s)) as (Hm3&_&Hd).
  set (m3 := smpp_pdu_util_compute_inbound_dcs _ _ _ _) in *. clearbody m3 m2.
  split; [rewrite Hm3, Hm2; by destruct m|]. intros Hdc. rewrite (Hd Hdc), Hm2. by destruct m.
Qed.

(** The account of a callback URL is what precedes its first bar. *)
Lemma dlr_url_account p rest :
  "|"%char ∉ p → smpp_pdu_get_system_id_from_dlr_url (p ++ "|"%char :: rest) = Some p.
Proof.
  intros Hp. unfold smpp_pdu_get_system_id_from_dlr_url. rewrite octstr_search_char_app by done.
  cbv zeta. pose proof (octlen_nonneg p). replace (octlen p =? -1) with false by lia.
  by rewrite octstr_copy_prefix.
Qed.

End lemmas.

Section address_lemmas.
Context `{TimeLib} `{OctstrLib} `{KannelLib}.

Lemma isdigit_plus : isdigit "+"%char = false.
Proof. reflexivity. Qed.

Lemma forallb_Forall (f : ascii → bool) s : forallb f s = true ↔ Forall (λ c, f c = true) s.
Proof. rewrite forallb_forall, Forall_forall. by setoid_rewrite list_elem_of_In. Qed.

Lemma get_char_plus s :
  (octstr_get_char s 0 =? byte_val "+"%char) = bool_decide (head s = Some "+"%char).
Proof.
  destruct s as [|c s]; [done|]. change (octstr_get_char (c :: s) 0) with (byte_val c).
  destruct (Z.eqb_spec (byte_val c) (byte_val "+"%char)) as [->%byte_val_inj|Hc]; [done|].
  symmetry. apply bool_decide_false. simpl. by intros [= ->].
Qed.

Lemma search_00 s : (octstr_search s ($"00") 0 =? 0) = starts_with ($"00") s.
Proof.
  rewrite octstr_search_spec, find_from_0 by done.
  destruct s as [|c s]; [done|]. cbn [find_suffix]. destruct (starts_with ($"00") (c :: s)); [done|].
  destruct (find_suffix_range (starts_with ($"00")) s (0 + 1)); lia.
Qed.

(** What an accepted international address becomes. *)
Lemma international_form s a :
  smpp_pdu_util_convert_addr (Some s) GSM_ADDR_TON_INTERNATIONAL = (SMPP_ESME_ROK, a) →
  ∃ d, a = Some ("+"%char :: d) ∧ octlen d ≤ octlen s ∧
       (octlen s ≤ 256 → digits_after_plus s = true → Forall (λ c, isdigit c = true) d).
Proof.
  unfold smpp_pdu_util_convert_addr, digits_after_plus. rewrite Z.eqb_refl.
  destruct (_ && negb (octstr_check_range s 1 256 isdigit)); [done|].
  destruct (_ && negb (octstr_check_range s 0 256 isdigit)); [done|].
  rewrite search_00, !get_char_plus. intros Hrun.
  apply (f_equal snd) in Hrun. cbn [snd] in Hrun. subst a.
  assert (∀ n x : Octstr, octlen x ≤ 256 → (n = x ∨ n = drop 1 x) →
    forallb isdigit (take 256 n) = true → Forall (λ c, isdigit c = true) n) as Htake.
  { intros n x Hx Hn Hf. rewrite take_ge in Hf; [by apply forallb_Forall|].
    destruct Hn as [->| ->]; rewrite ?length_drop; unfold octlen in *; lia. }
  destruct (starts_with ($"00") s) eqn:H00.
  - apply starts_with_spec in H00 as [t ->].
    change (octstr_delete ($"00" ++ t) 0 2) with ([] ++ t). simpl ([] ++ t).
    replace (bool_decide (head ($"00" ++ t) = Some "+"%char)) with false by done.
    case_bool_decide as Hh; simpl.
    + destruct t as [|c t]; [done|]. simpl in Hh. simplify_eq. exists t.
      split; [done|]. split; [unfold octlen; simpl; lia|].
      intros Hlen Hf. apply (Htake _ _ Hlen (or_introl eq_refl)) in Hf.
      by rewrite !Forall_cons in Hf; destruct Hf as (_&_&_&?).
    + exists t. split; [done|]. split; [unfold octlen; simpl; lia|].
      intros Hlen Hf. apply (Htake _ _ Hlen (or_introl eq_refl)) in Hf.
      by apply (Forall_app _ ($"00")) in Hf as [_ ?].
  - case_bool_decide as Hh; simpl.
    + destruct s as [|c s]; [done|]. simpl in Hh. simplify_eq. exists s.
      split; [done|]. split; [unfold octlen; simpl; lia|].
      intros Hlen Hf. by apply (Htake _ _ Hlen (or_intror eq_refl)) in Hf.
    + exists s. split; [done|]. split; [unfold octlen; simpl; lia|].
      intros Hlen Hf. by apply (Htake _ _ Hlen (or_introl eq_refl)) in Hf.
Qed.

(** A plus sign and digits are left alone. *)
Lemma plus_digits_fixed d :
  Forall (λ c, isdigit c = true) d →
  smpp_pdu_util_convert_addr (Some ("+"%char :: d)) GSM_ADDR_TON_INTERNATIONAL
  = (SMPP_ESME_ROK, Some ("+"%char :: d)).
Proof.
  intros Hd. unfold smpp_pdu_util_convert_addr. rewrite Z.eqb_refl, search_00, !get_char_plus.
  rewrite bool_decide_true by done. cbn [negb]. rewrite andb_false_r, andb_true_r.
  unfold octstr_check_range, octstr_copy. change (drop (Z.to_nat 1) ("+"%char :: d)) with (drop 0 d).
  rewrite drop_0. replace (forallb isdigit _) with true; [by rewrite andb_false_r|].
  symmetry. apply forallb_Forall. by apply Forall_take.
Qed.

End address_lemmas.

(** ** Properties *)

(** Why a submit_sm is refused; [None] when it is not. *)
Inductive refused (v : Z) (s : SM) : Z → Prop :=
  | refused_addr : malformed_addr (source_addr s) (source_addr_ton s)
                   ∨ malformed_addr (destination_addr s) (dest_addr_ton s) →
                   refused v s SMPP_ESME_RINVSRCADR
  | refused_dest : destination_addr s = None → refused v s SMPP_ESME_RINVDSTADR
  | refused_sar : has_sar v s = true → has_udh s = true → refused v s SMPP_ESME_RINVTLVVAL
  | refused_udh t : has_udh s = true → submitted_text v s = Some t → udh_too_long t = true →
                    refused v s SMPP_ESME_RINVESMCLASS.

(** C36. A submit_sm with a text always gets an answer. It is refused only for a
    malformed international address, a missing destination, concatenation TLVs
    together with a UDH, or a UDH longer than the text, each with its code (a bad
    destination with the source's); otherwise the message handed to Kannel carries
    the normalised addresses, the account's identifier and, where no character set
    conversion applies, exactly the bytes submitted, split into UDH and text. It
    always asks for a DLR, whatever [registered_delivery] says. *)
Theorem submit_sm_to_msg_spec `{TimeLib} `{OctstrLib} `{KannelLib}
    (now : Z) (uuid : Octstr) (e : SMPPEsme) (p : SMPP_PDU) :
  type p = submit_sm → is_Some (submitted_text (version e) (sm p)) →
  ∃ res reason p', smpp_submit_sm_to_msg now uuid e p = Some ((res, reason), p') ∧
  match res with
  | None => refused (version e) (sm p) reason
  | Some m =>
      reason = SMPP_ESME_ROK ∧ (∀ r, ¬ refused (version e) (sm p) r) ∧
      (sms_type m = mt_push ∧ service m = system_id e ∧ msg_id m = uuid ∧ time m = now) ∧
      sender m = (smpp_pdu_util_convert_addr (source_addr (sm p)) (source_addr_ton (sm p))).2 ∧
      receiver m = (smpp_pdu_util_convert_addr (destination_addr (sm p)) (dest_addr_ton (sm p))).2 ∧
      is_Some (receiver m) ∧
      dlr_mask m = Z.lor DLR_SUCCESS (Z.lor DLR_FAIL DLR_SMSC_FAIL) ∧
      (data_coding (sm p) = 0x04 ∨ data_coding (sm p) = 0x02 ∨ data_coding (sm p) = 0x08 →
       if has_udh (sm p)
       then submitted_text (version e) (sm p) = Some (default [] (udhdata m) ++ default [] (msgdata m))
       else msgdata m = submitted_text (version e) (sm p))
  end.
Proof.
  intros Htype Htext. unfold smpp_submit_sm_to_msg, set_sm.
  rewrite get_bind, bool_decide_true by done. cbn [negb]. cbv zeta.
  pose proof (convert_addr_reason (source_addr (sm p)) (source_addr_ton (sm p))) as Hsrc.
  destruct (smpp_pdu_util_convert_addr (source_addr (sm p)) (source_addr_ton (sm p))) as [r1 src].
  rewrite modify_bind. cbn [fst snd] in *. destruct Hsrc as [[-> Hsrc]|[-> Hsrc]].
  2:{ do 3 eexists. split; [done|]. by constructor; left. }
  rewrite Z.eqb_refl. cbn [negb].
  destruct (destination_addr (sm p)) as [da|] eqn:Hda.
  2:{ do 3 eexists. split; [done|]. by constructor. }
  pose proof (convert_addr_reason (Some da) (dest_addr_ton (sm p))) as Hdst.
  pose proof (convert_addr_None (Some da) (dest_addr_ton (sm p))) as Hdn.
  destruct (smpp_pdu_util_convert_addr (Some da) (dest_addr_ton (sm p))) as [r2 dst].
  rewrite modify_bind. cbn [fst snd] in *. destruct Hdst as [[-> Hdst]|[-> Hdst]].
  2:{ do 3 eexists. split; [done|]. constructor. right. by rewrite Hda. }
  rewrite Z.eqb_refl. cbn [negb]. rewrite bind_unfold.
  set (m0 := submitted_msg uuid e src dst (sm p) (submitted_text (version e) (sm p))).
  match goal with |- context [decode_sar_udh _ _ m0 ?s] =>
    destruct (decode_sar_udh_run (version e) (sm p) m0 s Htext) as (r & -> & Hr) end.
  destruct r as [reason|m1].
  { do 3 eexists. split; [done|]. destruct Htext as [t Ht].
    change (msgdata m0) with (submitted_text (version e) (sm p)) in Hr. rewrite Ht in Hr.
    destruct Hr as [(->&?&?)|(->&?&?&?)]; by econstructor. }
  do 3 eexists. split; [done|]. split; [done|].
  destruct Hr as (Hm1&Hsar&_&Hmd&Hudh). split.
  { intros r Href. inversion Href as [Ha|Ha|Ha Hb|t Ha Hb Hc]; subst.
    - rewrite Hda in Ha. tauto.
    - congruence.
    - rewrite Hsar in Hb; done.
    - destruct (Hudh Ha) as [Hl _]. simpl in Hl. rewrite Hb in Hl. simpl in Hl. congruence. }
  destruct (decode_dcs_frame e (sm p) m1) as (Hm3 & Hdata).
  set (m3 := decode_dcs e (sm p) m1) in *. clearbody m3.
  rewrite Hm3, Hm1. cbn. split_and!; try done.
  - destruct dst; [done|]. by destruct Hdn as [Hdn _]; specialize (Hdn eq_refl).
  - intros Hdc. rewrite (Hdata Hdc). destruct (has_udh (sm p)); [|by apply Hmd].
    destruct (Hudh eq_refl) as (_&u&d&Hu&Hd&Ht&_). rewrite Hu, Hd. exact Ht.
Qed.

(** International addresses are put in one form: an accepted one starts with
    a plus sign, has digits after it when it had at least 7 bytes, is not changed
    again when it is converted a second time, and is at most one byte longer; an
    address of another type of number is kept. *)
Theorem convert_addr_normal `{TimeLib} `{OctstrLib} `{KannelLib} (s : Octstr) (ton : Z) :
  octlen s ≤ 256 →
  let '(r, a) := smpp_pdu_util_convert_addr (Some s) ton in
  r = SMPP_ESME_ROK →
  if ton =? GSM_ADDR_TON_INTERNATIONAL then
    ∃ d, a = Some ("+"%char :: d) ∧ octlen d ≤ octlen s ∧
         (7 ≤ octlen s → Forall (λ c, isdigit c = true) d ∧
            smpp_pdu_util_convert_addr a ton = (SMPP_ESME_ROK, a))
  else a = Some s.
Proof.
  intros Hlen. pose proof (convert_addr_reason (Some s) ton) as Hr.
  destruct (smpp_pdu_util_convert_addr (Some s) ton) as [r a] eqn:Hrun. cbn [fst] in Hr.
  intros ->. destruct Hr as [[_ Hok]|[[=] _]].
  destruct (Z.eqb_spec ton GSM_ADDR_TON_INTERNATIONAL) as [->|Hton].
  2:{ unfold smpp_pdu_util_convert_addr in Hrun.
      apply Z.eqb_neq in Hton. rewrite Hton in Hrun. by simplify_eq. }
  destruct (international_form s a Hrun) as (d & -> & Hd & Hdig).
  exists d. split; [done|]. split; [done|]. intros H7.
  assert (Forall (λ c, isdigit c = true) d) as Hall.
  { apply Hdig; [done|]. apply not_false_is_true. intros Hbad. apply Hok.
    split; [done|]. by exists s. }
  split; [done|]. by apply plus_digits_fixed.
Qed.

(** ** Messages to an ESME: lemmas *)

Section pdu_lemmas.
Context `{TimeLib} `{OctstrLib} `{KannelLib}.

(** What all PDUs of a message have in common: the addresses [src] and [dst], and
    a length field that is the length of the text. *)
Definition pdu_ok (src dst : option Octstr) (p : SMPP_PDU) : Prop :=
  type p = deliver_sm ∧ source_addr (sm p) = src ∧ destination_addr (sm p) = dst ∧
  sm_length (sm p) = octstr_len (short_message (sm p)).

Lemma pdu_template_addrs m tpl :
  pdu_template m = Some tpl →
  octstr_len (source_addr (sm tpl)) ≤ 20 ∧ 0 < octstr_len (destination_addr (sm tpl)) ≤ 20.
Proof.
  unfold pdu_template. destruct (source_address (sender m)) as [[src ?] ?].
  destruct (destination_address (receiver m)) as [[dst ?] ?].
  destruct (_ || _) eqn:Hlen; [done|]. intros [= <-]. simpl.
  rewrite !orb_false_iff in Hlen. lia.
Qed.

Lemma part_pdu_run m tpl m2 e p e' :
  part_pdu m tpl m2 e = Some (p, e') →
  e' = {| e with esme_sequence_number := esme_sequence_number e + 1 |} ∧
  sequence_number p = esme_sequence_number e ∧
  pdu_ok (source_addr (sm tpl)) (destination_addr (sm tpl)) p.
Proof.
  unfold part_pdu. rewrite get_bind, modify_bind. cbv zeta.
  intros (body & e1 & Hbody & [<- <-]%ret_Some)%bind_Some.
  assert (e1 = {| e with esme_sequence_number := esme_sequence_number e + 1 |}) as ->.
  { destruct (0 <? _); [|by apply ret_Some in Hbody as [_ <-]].
    destruct (udhdata m2), (msgdata m2); try done. by apply ret_Some in Hbody as [_ <-]. }
  split; [done|]. cbn [sequence_number]. rewrite smpp_pdu_create_seq. split; [done|].
  unfold pdu_ok. cbn [type]. by rewrite smpp_pdu_create_type.
Qed.

Lemma part_pdus_run m tpl parts e ps e' :
  part_pdus m tpl parts e = Some (ps, e') →
  e' = {| e with esme_sequence_number := esme_sequence_number e + Z.of_nat (length parts) |} ∧
  map sequence_number ps = map (λ i, esme_sequence_number e + Z.of_nat i) (seq 0 (length parts)) ∧
  Forall (pdu_ok (source_addr (sm tpl)) (destination_addr (sm tpl))) ps.
Proof.
  revert e ps. induction parts as [|m2 parts IH]; intros e ps; cbn [part_pdus].
  { intros [<- <-]%ret_Some. destruct e; simpl. rewrite Z.add_0_r. by split_and!. }
  intros (p & e1 & (-> & Hseq & Hp)%part_pdu_run & (ps' & e2 & Hrun & [<- <-]%ret_Some)%bind_Some)%bind_Some.
  apply IH in Hrun as (-> & Hseqs & Hps). split_and!; [..|by constructor].
  - destruct e; simpl. f_equal. lia.
  - cbn [map length seq]. f_equal; [lia|]. rewrite Hseqs, <- seq_shift, map_map.
    apply map_ext. intros i. simpl. lia.
Qed.

Lemma part_pdu_safe m tpl m2 e : is_Some (msgdata m2) → is_Some (part_pdu m tpl m2 e).
Proof.
  intros [d Hd]. unfold part_pdu. rewrite get_bind, modify_bind. cbv zeta. rewrite bind_unfold, Hd.
  destruct (udhdata m2) as [u|]; [|by eexists].
  destruct (0 <? octstr_len (Some u)); by eexists.
Qed.

Lemma part_pdus_safe m tpl parts e :
  Forall (λ m2, is_Some (msgdata m2)) parts → is_Some (part_pdus m tpl parts e).
Proof.
  intros Hparts. revert e. induction Hparts as [|m2 parts Hd _ IH]; intros e; [by eexists|].
  cbn [part_pdus]. rewrite bind_unfold. destruct (part_pdu_safe m tpl m2 e Hd) as [[p e1] ->].
  rewrite bind_unfold. destruct (IH e1) as [[ps e2] ->]. by eexists.
Qed.

Lemma dlr_pdu_ok e m md tpl st text id :
  pdu_ok (destination_addr (sm tpl)) (source_addr (sm tpl)) (dlr_pdu e m md tpl st text id) ∧
  sequence_number (dlr_pdu e m md tpl st text id) = 0.
Proof.
  unfold pdu_ok, dlr_pdu. cbn [type sequence_number].
  rewrite smpp_pdu_create_type, smpp_pdu_create_seq. by destruct (0x33 <? version e).
Qed.

End pdu_lemmas.

(** C37. The PDUs made of a message for an ESME. Their addresses fit the SMPP
    fields (at most 20 bytes, a destination that is not empty), their length field
    is the length of their text, and: a delivery report gives one PDU for each
    identifier of its URL, with the addresses swapped and no sequence number taken;
    any other message gives one PDU for each part the splitter makes, numbered
    consecutively from the ESME's counter, which ends just after the last. *)
Theorem msg_to_pdu_shape `{TimeLib} `{OctstrLib} `{KannelLib}
    (now : Z) (m : Msg) (e e' : SMPPEsme) (ps : list SMPP_PDU) :
  smpp_pdu_msg_to_pdu now m e = Some (Some ps, e') →
  ∃ src dst, octstr_len src ≤ 20 ∧ 0 < octstr_len dst ≤ 20 ∧
  if bool_decide (sms_type m = report_mo) then
    Forall (pdu_ok dst src) ps ∧ Forall (λ p, sequence_number p = 0) ps ∧ e' = e ∧
    ∃ service submit url, octstr_split (default [] (dlr_url m)) "|"%char = [service; submit; url] ∧
      length ps = length (octstr_split url ";"%char)
  else
    let parts := sms_split m (Z.land (catenated_sms_counter e) 0xFF) 255 in
    Forall (pdu_ok src dst) ps ∧
    map sequence_number ps = map (λ i, esme_sequence_number e + Z.of_nat i) (seq 0 (length parts)) ∧
    esme_sequence_number e' = esme_sequence_number e + Z.of_nat (length parts).
Proof.
  unfold smpp_pdu_msg_to_pdu. destruct (pdu_template m) as [tpl|] eqn:Htpl; [|by intros [=]].
  destruct (pdu_template_addrs _ _ Htpl) as [Hsrc Hdst].
  intros Hrun. exists (source_addr (sm tpl)), (destination_addr (sm tpl)).
  split; [done|]. split; [done|]. case_bool_decide as Ht.
  - rewrite get_bind in Hrun. apply ret_Some in Hrun as [Hps <-].
    unfold report_to_pdus in Hps. destruct (_ <=? _); [done|].
    destruct (octstr_split _ _) as [|service [|submit [|url [|]]]]; try done.
    destruct (dlr_state_of _) as [st dlvrd]. destruct (parse_dlr_short_message _ _); [|done].
    injection Hps as <-. split_and!; [| |done|].
    + apply Forall_map, Forall_true. intros id. apply dlr_pdu_ok.
    + apply Forall_map, Forall_true. intros id. apply dlr_pdu_ok.
    + exists service, submit, url. by rewrite length_map.
  - apply bind_Some in Hrun as (? & e1 & Hu & Hrun).
    assert (e1 = e) as ->.
    { destruct (negb _); [|by apply ret_Some in Hu as [_ <-]].
      destruct (msgdata m); [by apply ret_Some in Hu as [_ <-]|done]. }
    rewrite get_bind, modify_bind in Hrun.
    apply bind_Some in Hrun as (ps' & e2 & Hp & [Hps <-]%ret_Some). injection Hps as ->.
    apply part_pdus_run in Hp as (-> & Hseq & Hok). by split_and!.
Qed.

(** Converting a message for an ESME never fails half-way: when the message
    and the parts the splitter makes of it have a text, the conversion ends, and
    when it refuses, because of the addresses or because a delivery report has no
    usable URL or text, it has taken no number from the ESME's counters. *)
Theorem msg_to_pdu_total `{TimeLib} `{OctstrLib} `{KannelLib}
    (now : Z) (m : Msg) (e : SMPPEsme) :
  is_Some (msgdata m) →
  (∀ seq, Forall (λ m2, is_Some (msgdata m2)) (sms_split m seq 255)) →
  ∃ r e', smpp_pdu_msg_to_pdu now m e = Some (r, e') ∧
  (r = None → e' = e ∧
     (pdu_template m = None ∨
      sms_type m = report_mo ∧
      (octstr_len (dlr_url m) ≤ UUID_STR_LEN ∨
       length (octstr_split (default [] (dlr_url m)) "|"%char) ≠ 3%nat ∨
       parse_dlr_short_message now (msgdata m) = None))).
Proof.
  intros [d Hd] Hparts. unfold smpp_pdu_msg_to_pdu.
  destruct (pdu_template m) as [tpl|]; [|by do 2 eexists; split; [|auto]].
  case_bool_decide as Ht.
  - do 2 eexists. split; [done|]. unfold report_to_pdus. cbv zeta.
    destruct (Z.leb_spec (octstr_len (dlr_url m)) UUID_STR_LEN); [by auto|].
    destruct (octstr_split _ _) as [|? [|? [|? [|]]]];
      try (intros _; split; [done|]; right; split; [done|]; right; left; simpl; lia).
    destruct (dlr_state_of _). destruct (parse_dlr_short_message _ _) eqn:Hp; [done|].
    intros _. split; [done|]. right. split; [done|]. by do 2 right.
  - rewrite bind_unfold.
    assert (((if negb (octstr_len (udhdata m) =? 0) then _ ← deref (msgdata m); mret () else mret ()) : M SMPPEsme unit) e
      = Some ((), e)) as -> by (rewrite Hd; by destruct (negb _)).
    rewrite get_bind, modify_bind.
    destruct (part_pdus_safe m tpl (sms_split m (Z.land (catenated_sms_counter e) 0xFF) 255)
      {| e with catenated_sms_counter := catenated_sms_counter e + 1 |}) as [[ps e2] Hps]; [done|].
    rewrite bind_unfold, Hps. by do 2 eexists.
Qed.

Lemma stops_modify {S A} (f : S → S) (m : M S A) : (∀ s, m s = None) → ∀ s, (modify f;; m) s = None.
Proof. intros Hm s. apply Hm. Qed.

(** A data_sm whose [esm_class] has the UDH indicator but which brings no
    [message_payload] stops the process: the first byte of a NULL string is read. *)
Theorem data_sm_udh_without_payload_stops `{TimeLib} `{OctstrLib} `{KannelLib}
    (now : Z) (uuid : Octstr) (e : SMPPEsme) (p : SMPP_PDU) :
  type p = data_sm →
  ¬ malformed_addr (source_addr (sm p)) (source_addr_ton (sm p)) →
  is_Some (destination_addr (sm p)) →
  ¬ malformed_addr (destination_addr (sm p)) (dest_addr_ton (sm p)) →
  has_udh (sm p) = true → has_sar (version e) (sm p) = false →
  message_payload (sm p) = None →
  smpp_data_sm_to_msg now uuid e p = None.
Proof.
  intros Ht Hsrc%convert_addr_ok [da Hda] Hdst%convert_addr_ok Hudh Hsar Hpay.
  unfold smpp_data_sm_to_msg, set_sm. rewrite get_bind, bool_decide_true by done. cbn [negb]. cbv zeta.
  destruct (smpp_pdu_util_convert_addr (source_addr _) _) as [r1 src].
  cbn [fst] in Hsrc. subst r1. rewrite Z.eqb_refl. cbn [negb]. do 2 apply stops_modify.
  rewrite Hda in *. destruct (smpp_pdu_util_convert_addr (Some da) _) as [r2 dst].
  cbn [fst] in Hdst. subst r2. rewrite Z.eqb_refl. cbn [negb]. do 2 apply stops_modify.
  intros p'. rewrite bind_unfold.
  unfold decode_sar_udh. fold (has_sar (version e) (sm p)) (has_udh (sm p)).
  rewrite Hsar, Hudh. cbn [andb]. cbv zeta iota. unfold decode_udh, submitted_msg. cbn [msgdata].
  by rewrite Hpay.
Qed.

(** ** Witnesses *)

Definition example_esme : SMPPEsme := {|
  system_id := Some ($"acme"); conn := true; authenticated := true; connected := true;
  pending_disconnect := false; event_container := true; time_connected := 1700000000;
  time_last_pdu := 1700000000; time_last_queue_process := 0; enquire_link_interval := 120;
  bind_type := 3; version := 0x34; inbound_load := []; outbound_load := []; inbound_queued := 0;
  outbound_queued := 0; pending_routing := 0; esme_sequence_number := 7; errors := 0; id := 1;
  inbound_processed := 0; outbound_processed := 0; simulate := 0; simulate_dlr_fail := 0;
  simulate_deliver_every := 0; simulate_mo_every := 0; simulate_permanent_failure_every := 0;
  simulate_temporary_failure_every := 0; alt_charset := None; default_smsc := None;
  default_cost := 0%Q; open_acks := ∅; catenated_sms_counter := 0; wait_ack_time := 60;
  max_open_acks := 500; smpp_esme_global := Some ($"acme"); ip := Some ($"10.0.0.9");
  pending_len := 0; mt_counter := 0; mo_counter := 0; dlr_counter := 0; error_counter := 0 |}.

Definition example_submit : SMPP_PDU := {|
  type := submit_sm; sequence_number := 1; command_status := 0; pdu_system_id := None;
  password := None; interface_version := 0; message_id := None;
  sm := {| empty_sm with source_addr := Some ($"acme"); source_addr_ton := 5;
           destination_addr := Some ($"0049170123456"); dest_addr_ton := 1;
           esm_class := 0x40; data_coding := 4; sm_length := 4;
           short_message := Some (map byte_of [1; 7; 65; 66]) |} |}.

Definition example_data : SMPP_PDU := {|
  example_submit with type := data_sm; sm := {| (sm example_submit) with short_message := None |} |}.

Definition example_mo : Msg := {|
  (msg_create ($"uuid")) with sender := Some ($"+49170123456"); receiver := Some ($"12345");
  msgdata := Some ($"hello"); time := 1700000000 |}.

Lemma submit_sm_to_msg_spec_witness :
  ∃ m p', smpp_submit_sm_to_msg (H:=time_ref) (H0:=octstr_ref) (H1:=kannel_ref)
    1700000000 ($"uuid") example_esme example_submit = Some ((Some m, 0), p') ∧
    receiver m = Some ($"+49170123456") ∧ udhdata m = Some (map byte_of [1; 7]) ∧
    msgdata m = Some ($"AB").
Proof.
  destruct (submit_sm_to_msg_spec (H:=time_ref) (H0:=octstr_ref) (H1:=kannel_ref)
    1700000000 ($"uuid") example_esme example_submit eq_refl) as (res & reason & p' & Hrun & Hres).
  { by eexists. }
  vm_compute in Hrun. injection Hrun as <- <- <-. do 2 eexists. split; [by vm_compute|]. by vm_compute.
Defined.

Lemma convert_addr_normal_witness :
  ∃ d, smpp_pdu_util_convert_addr (H0:=octstr_ref) (Some ($"0049170123456")) 1
       = (0, Some ("+"%char :: d)) ∧ octlen d ≤ 13.
Proof.
  generalize (convert_addr_normal (H:=time_ref) (H0:=octstr_ref) (H1:=kannel_ref)
    ($"0049170123456") 1 ltac:(vm_compute; congruence)).
  destruct (smpp_pdu_util_convert_addr (Some ($"0049170123456")) 1) as [r a] eqn:Hr.
  intros Hc. assert (r = 0) as -> by (vm_compute in Hr; congruence).
  destruct (Hc eq_refl) as (d & -> & Hd & _). by exists d.
Defined.

Lemma msg_to_pdu_shape_witness :
  match smpp_pdu_msg_to_pdu (H:=time_ref) (H0:=octstr_ref) (H1:=kannel_ref) 0 example_mo example_esme with
  | Some (Some ps, e') => map sequence_number ps = [7] ∧ esme_sequence_number e' = 8
  | _ => False
  end.
Proof.
  destruct (smpp_pdu_msg_to_pdu (H:=time_ref) (H0:=octstr_ref) (H1:=kannel_ref) 0 example_mo example_esme)
    as [[[ps|] e']|] eqn:Hrun; [|by vm_compute in Hrun..].
  apply (msg_to_pdu_shape (H:=time_ref) (H0:=octstr_ref) (H1:=kannel_ref) 0 example_mo example_esme e' ps)
    in Hrun as (src & dst & _ & _ & _ & Hseq & He). split; [exact Hseq|exact He].
Defined.

Lemma msg_to_pdu_total_witness :
  is_Some (smpp_pdu_msg_to_pdu (H:=time_ref) (H0:=octstr_ref) (H1:=kannel_ref) 0 example_mo example_esme).
Proof.
  destruct (msg_to_pdu_total (H:=time_ref) (H0:=octstr_ref) (H1:=kannel_ref) 0 example_mo example_esme)
    as (r & e' & Hrun & _); [by eexists|intros; by repeat constructor; eexists|].
  rewrite Hrun. by eexists.
Defined.

Lemma data_sm_udh_without_payload_stops_witness :
  smpp_data_sm_to_msg (H0:=octstr_ref) (H1:=kannel_ref) 0 ($"uuid") example_esme example_data
  = None.
Proof.
  apply (data_sm_udh_without_payload_stops (H:=time_ref) (H0:=octstr_ref) (H1:=kannel_ref)).
  all: first [done | by eexists | apply (convert_addr_ok (H0:=octstr_ref)); by vm_compute].
Defined.
