(* ===== verification/World.v ===== *)
(** The running daemon: the heap of queued PDUs and ESMEs (a freed object stays in
    the heap as [Freed], so that a use after free is a run without a meaning), the
    dictionaries and queues the threads share, the state of the database behind the
    interface of smpp_database.h, and the actions the components are written
    with. Locks are not in the state: each critical section is one action. *)
From S2P Require Import Prelude CLib Gwlib Types Kannel IpBlock.
From Stdlib Require Export QArith.QArith_base.
Open Scope Z_scope.

(** ** Routes (smpp_route.h) *)

Record SMPPRoute := {
  rt_direction : Z;
  rt_regex : Octstr;
  rt_cost : Q;
  rt_system_id : option Octstr;
  rt_smsc_id : option Octstr;
  rt_source_regex : option Octstr;
}.

(** A routing callback with the context it is called with: a queued response, a
    message from bearerbox [bb] that waits for its acknowledgement, or a message
    from the database. *)
Inductive route_callback :=
  | smpp_queues_submit_routing_done_cb (response : nat)
  | smpp_queues_data_sm_routing_done_cb (response : nat)
  | smpp_bearerbox_routing_done_cb (bb : nat) (m : Msg)
  | smpp_bearerbox_requeue_routing_done_cb (dbm : SMPPDatabaseMsg).

(** What the rest of the system sees. *)
Inductive event :=
  | EvSent (esme : nat) (p : SMPP_PDU)                          (* written to an ESME *)
  | EvAck (bb : nat) (ack_id : Octstr) (st : ack_status_t)      (* acknowledged to a bearerbox *)
  | EvAckLost (ack_id : Octstr)                                 (* bearerbox offline or write error *)
  | EvDelivered (bb : nat) (m : Msg)                            (* message written to a bearerbox *)
  | EvClosed (esme : nat).                                      (* connection closed *)

(** ** The database interface (smpp_database.h)

    The function pointers of [SMPPDatabase]; [None] is a NULL pointer, which
    smpp_database_create starts with. [pdu_handler] is the callback the backend
    gives the stored PDUs it hands out. The booleans are the C results. *)
Class DatabaseOps (DB : Type) := {
  authenticate : option (option Octstr → option Octstr → DB → option SMPPESMEAuthResult);
  add_message : option (Msg → Z → DB → bool * DB);
  add_pdu : option (SMPPQueuedPDU → DB → bool * DB);
  get_stored : option (sms_type_t → option Octstr → Z → Z → DB → list SMPPDatabaseMsg * DB);
  get_dlrs : option (option Octstr → Z → DB → list SMPPDatabaseMsg * DB);
  get_stored_pdu : option (option Octstr → Z → DB → list (Octstr * (Z * option SMPP_PDU)) * DB);
  get_routes : option (Z → option Octstr → DB → list SMPPRoute);
  deduct_credit : option (option Octstr → Q → DB → bool * DB);
  delete : option (Z → Z → DB → bool * DB);
  delete_dlr : option (Z → DB → bool * DB);
  get_esmes_with_queued : option (DB → list Octstr);
  pdu_handler : option Octstr → Z → DB → DB;
}.

(** ** The state *)

Inductive cell (A : Type) := Live (a : A) | Freed.
Arguments Live {A} a.
Arguments Freed {A}.

Record World {DB : Type} := {
  w_now : Z;
  server : SMPPServer;
  pdus : gmap nat (cell SMPPQueuedPDU);
  esme_heap : gmap nat (cell SMPPEsme);
  esmes : gmap Octstr SMPPEsmeGlobal;
  cleanup_queue : list nat;
  inbound_queue : list nat;
  outbound_queue : list nat;
  simulation_queue : list nat;
  bearerboxes : gmap nat SMPPBearerbox;
  bb_order : list nat;
  bb_outbound_queue : list SMPPBearerboxMsg;
  route_requests : list route_callback;
  inbound_routes : list SMPPRoute;
  outbound_routes : gmap Octstr (list SMPPRoute);
  blocklist : ip_blocklist;
  db : DB;
  next_ptr : nat;
  next_uuid : nat;
  bb_writes : list bool;
  trace : list event;
}.
Arguments World : clear implicits.

Section actions.
Context {DB : Type}.
Abbreviation W := (M (World DB)).

Definition now : W Z := gets w_now.
Definition the_server : W SMPPServer := gets server.

Definition emit (e : event) : W unit := modify (λ w, {| w with trace := trace w ++ [e] |}).

(** *** The heap *)

Definition lookup_pdu (w : World DB) (p : nat) : option SMPPQueuedPDU :=
  match pdus w !! p with Some (Live q) => Some q | _ => None end.
Definition lookup_esme (w : World DB) (e : nat) : option SMPPEsme :=
  match esme_heap w !! e with Some (Live c) => Some c | _ => None end.

Definition set_pdus (f : gmap nat (cell SMPPQueuedPDU) → gmap nat (cell SMPPQueuedPDU))
    (w : World DB) : World DB := {| w with pdus := f (pdus w) |}.
Definition set_esme_heap (f : gmap nat (cell SMPPEsme) → gmap nat (cell SMPPEsme))
    (w : World DB) : World DB := {| w with esme_heap := f (esme_heap w) |}.

Definition read_pdu (p : nat) : W SMPPQueuedPDU :=
  o ← gets (λ w, lookup_pdu w p); deref o.
Definition write_pdu (p : nat) (q : SMPPQueuedPDU) : W unit :=
  _ ← read_pdu p; modify (set_pdus <[p := Live q]>).
Definition alloc_pdu (q : SMPPQueuedPDU) : W nat :=
  p ← gets next_ptr;
  modify (λ w, {| w with next_ptr := S p; pdus := <[p := Live q]> (pdus w) |});;
  mret p.

Definition read_esme (e : nat) : W SMPPEsme :=
  o ← gets (λ w, lookup_esme w e); deref o.
Definition write_esme (e : nat) (c : SMPPEsme) : W unit :=
  _ ← read_esme e; modify (set_esme_heap <[e := Live c]>).
Definition update_esme (e : nat) (f : SMPPEsme → SMPPEsme) : W unit :=
  c ← read_esme e; write_esme e (f c).

(** A pointer field that must not be NULL. *)
Definition esme_of (q : SMPPQueuedPDU) : W nat := deref (smpp_esme q).
Definition pdu_of (q : SMPPQueuedPDU) : W SMPP_PDU := deref (pdu q).

(** The global of an ESME: before a successful bind the field is not initialised. *)
Definition read_global (e : nat) : W (Octstr * SMPPEsmeGlobal) :=
  c ← read_esme e;
  key ← deref (smpp_esme_global c);
  o ← gets (λ w, esmes w !! key);
  g ← deref o;
  mret (key, g).
Definition update_global (e : nat) (f : SMPPEsmeGlobal → SMPPEsmeGlobal) : W unit :=
  '(key, g) ← read_global e;
  modify (λ w, {| w with esmes := <[key := f g]> (esmes w) |}).

(** *** The database *)

Definition db_call {A} (f : DB → A * DB) : W A :=
  w ← get;
  let '(a, d) := f (db w) in
  modify (λ w, {| w with db := d |});;
  mret a.

(** *** Bearerboxes *)

(** The result of the next write to a bearerbox connection. *)
Definition next_write : W bool :=
  w ← get;
  match bb_writes w with
  | [] => mret true
  | b :: bs => modify (λ w, {| w with bb_writes := bs |});; mret b
  end.

Definition read_bb (b : nat) : W SMPPBearerbox :=
  o ← gets (λ w, bearerboxes w !! b); deref o.
Definition update_bb (b : nat) (f : SMPPBearerbox → SMPPBearerbox) : W unit :=
  c ← read_bb b; modify (λ w, {| w with bearerboxes := <[b := f c]> (bearerboxes w) |}).

End actions.

Abbreviation W DB := (M (World DB)).

(** *** Counters of an ESME and of its global *)

Definition inc_inbound_queued (c : SMPPEsme) : SMPPEsme :=
  {| c with inbound_queued := inbound_queued c + 1 |}.
Definition inc_outbound_queued (c : SMPPEsme) : SMPPEsme :=
  {| c with outbound_queued := outbound_queued c + 1 |}.
Definition inc_pending_routing (n : Z) (c : SMPPEsme) : SMPPEsme :=
  {| c with pending_routing := pending_routing c + n |}.

Section counters.
Context {DB : Type}.

Definition count_mt (e : nat) : W DB unit :=
  update_esme e (λ c, {| c with mt_counter := mt_counter c + 1 |});;
  update_global e (λ g, {| g with g_mt_counter := g_mt_counter g + 1 |}).
Definition count_mo (e : nat) : W DB unit :=
  update_esme e (λ c, {| c with mo_counter := mo_counter c + 1 |});;
  update_global e (λ g, {| g with g_mo_counter := g_mo_counter g + 1 |}).
Definition count_dlr (e : nat) : W DB unit :=
  update_esme e (λ c, {| c with dlr_counter := dlr_counter c + 1 |});;
  update_global e (λ g, {| g with g_dlr_counter := g_dlr_counter g + 1 |}).
Definition count_error (e : nat) : W DB unit :=
  update_esme e (λ c, {| c with error_counter := error_counter c + 1 |});;
  update_global e (λ g, {| g with g_error_counter := g_error_counter g + 1 |}).

End counters.
