(* ===== verification/Callbacks.v ===== *)
(** What the queues are made of: smpp_queued_pdu.c, the dispatch of
    smpp_database.c, the enqueueing and the completion callbacks of smpp_queues.c,
    the acknowledgement of smpp_bearerbox.c and the disconnection of smpp_esme.c. A
    callback pointer is a value of [pdu_callback] or [bb_callback]; running it is a
    match on it. *)
From S2P Require Import Prelude CLib Gwlib Types Kannel World.
Open Scope Z_scope.

(** ** smpp_queued_pdu.c *)

Definition smpp_queued_pdu_create : SMPPQueuedPDU := {|
  pdu := None;
  smpp_esme := None;
  disconnect := false;
  pdu_id := None;
  q_system_id := None;
  callback := None;
  time_sent := 0;
  bearerbox := None;
  bearerbox_id := None;
  smpp_server := false;
  sequence := 0;
  global_id := 0;
  msg := None;
  from_dlr_table := false;
|}.

(** ** smpp_database.c: which table a store is *)

Definition smpp_database_store_table_name (s : SMPPServer) (store_kind : Z) : option Octstr :=
  if (store_kind =? SMPP_DATABASE_STORE_BEARERBOX_QUEUE)
     && negb (octstr_len (database_queue_store_table s) =? 0)
  then database_queue_store_table s else database_store_table s.

Definition smpp_database_get_stored_table_name (s : SMPPServer) (t : sms_type_t) : option Octstr :=
  if bool_decide (t = mt_push) && negb (database_store_primary s)
  then smpp_database_store_table_name s SMPP_DATABASE_STORE_BEARERBOX_QUEUE
  else smpp_database_store_table_name s SMPP_DATABASE_STORE_PRIMARY.

(** A DLR: the message type bits of [esm_class]. *)
Definition is_dlr_pdu (p : SMPP_PDU) : bool :=
  negb (Z.land (esm_class (sm p)) (Z.lor 0x04 (Z.lor 0x08 0x20)) =? 0).

(** An ESME nothing is read from any more. *)
Definition silence (c : SMPPEsme) : SMPPEsme :=
  {| c with connected := false; event_container := false |}.

Section callbacks.
Context {DB : Type} `{KannelLib} `{DatabaseOps DB}.
Abbreviation W := (M (World DB)).

Definition smpp_queued_pdu_create_quick (e : nat) (t : pdu_type) (seq_no : Z) : W nat :=
  c ← read_esme e;
  alloc_pdu {| smpp_queued_pdu_create with
    smpp_esme := Some e; pdu := Some (smpp_pdu_create t seq_no);
    q_system_id := system_id c; smpp_server := true |}.

Definition smpp_queued_pdu_destroy (p : nat) : W unit :=
  _ ← read_pdu p;
  modify (set_pdus <[p := Freed]>).

(** ** smpp_database.c: dispatch *)

Definition smpp_database_auth (user pass : option Octstr) : W (option SMPPESMEAuthResult) :=
  f ← deref authenticate;
  gets (λ w, f user pass (db w)).

Definition smpp_database_add_message (m : Msg) : W bool :=
  match add_message with
  | Some f => db_call (f m SMPP_DATABASE_STORE_PRIMARY)
  | None => mret false
  end.

Definition smpp_database_add_queue_message (m : Msg) : W bool :=
  match add_message with
  | Some f => db_call (f m SMPP_DATABASE_STORE_BEARERBOX_QUEUE)
  | None => mret false
  end.

Definition smpp_database_add_pdu (p : nat) : W bool :=
  match add_pdu with
  | Some f => q ← read_pdu p; db_call (f q)
  | None => mret false
  end.

Definition smpp_database_get_routes (direction : Z) (service : option Octstr) : W (list SMPPRoute) :=
  match get_routes with
  | Some f => gets (λ w, f direction service (db w))
  | None => mret []
  end.

Definition smpp_database_get_stored (t : sms_type_t) (service : option Octstr) (limit : Z)
    : W (list SMPPDatabaseMsg) :=
  match get_stored with
  | Some f => db_call (f t service limit SMPP_DATABASE_STORE_AUTO)
  | None => mret []
  end.

Definition smpp_database_get_queue_stored (t : sms_type_t) (service : option Octstr) (limit : Z)
    : W (list SMPPDatabaseMsg) :=
  match get_stored with
  | Some f => db_call (f t service limit SMPP_DATABASE_STORE_BEARERBOX_QUEUE)
  | None => mret []
  end.

Definition smpp_database_get_bearerbox_mt_stored (t : sms_type_t) (service : option Octstr)
    (limit : Z) : W (list SMPPDatabaseMsg) :=
  match get_stored with
  | Some f => db_call (f t service limit SMPP_DATABASE_STORE_BEARERBOX_MT_DRAIN)
  | None => mret []
  end.

Definition smpp_database_get_dlrs (service : option Octstr) (limit : Z) : W (list SMPPDatabaseMsg) :=
  match get_dlrs with
  | Some f => db_call (f service limit)
  | None => mret []
  end.

Definition smpp_database_get_stored_pdu (service : option Octstr) (limit : Z)
    : W (list (Octstr * (Z * option SMPP_PDU))) :=
  match get_stored_pdu with
  | Some f => db_call (f service limit)
  | None => mret []
  end.

Definition smpp_database_remove (gid temporary : Z) : W unit :=
  match delete with
  | Some f => _ ← db_call (f gid temporary); mret tt
  | None => mret tt
  end.

Definition smpp_database_remove_dlr (gid : Z) : W unit :=
  match delete_dlr with
  | Some f => _ ← db_call (f gid); mret tt
  | None => mret tt
  end.

Definition smpp_database_deduct_credit (service : option Octstr) (cost : Q) : W bool :=
  match deduct_credit with
  | Some f => db_call (f service cost)
  | None => mret false
  end.

Definition smpp_database_get_esmes_with_queued : W (list Octstr) :=
  match get_esmes_with_queued with
  | Some f => gets (λ w, f (db w))
  | None => mret []
  end.

(** ** smpp_esme.c: the end of a connection *)

Definition smpp_esme_stop_listening (e : nat) : W unit := update_esme e silence.

Definition smpp_esme_disconnect (e : nat) : W unit :=
  smpp_esme_stop_listening e;;
  c ← read_esme e;
  when (conn c) (update_esme e (λ c, {| c with conn := false |});; emit (EvClosed e)).

(** ** smpp_queues.c: enqueueing *)

(** [dict_put] of [open_acks] destroys the value it replaces. *)
Definition put_open_ack (e : nat) (key : Octstr) (p : nat) : W unit :=
  c ← read_esme e;
  match open_acks c !! key with
  | Some old => smpp_queued_pdu_destroy old
  | None => mret tt
  end;;
  update_esme e (λ c, {| c with open_acks := <[key := p]> (open_acks c) |}).

Definition produce_outbound (p : nat) : W unit :=
  modify (λ w, {| w with outbound_queue := outbound_queue w ++ [p] |}).
Definition produce_inbound (p : nat) : W unit :=
  modify (λ w, {| w with inbound_queue := inbound_queue w ++ [p] |}).

Definition smpp_queues_add_outbound (p : nat) : W unit :=
  q ← read_pdu p;
  e ← esme_of q;
  match callback q with
  | Some _ => key ← deref (pdu_id q); put_open_ack e key p
  | None => mret tt
  end;;
  update_esme e inc_outbound_queued;;
  produce_outbound p.

Definition smpp_queues_add_inbound (p : nat) : W unit :=
  q ← read_pdu p;
  e ← esme_of q;
  update_esme e inc_inbound_queued;;
  produce_inbound p.

(** ** smpp_bearerbox.c: acknowledging *)

Definition smpp_bearerbox_set_state (b : nat) (state : bool) : W unit :=
  update_bb b (λ c, {| c with alive := state |}).

Definition smpp_bearerbox_acknowledge (bb : option nat) (ack_id : option Octstr)
    (st : ack_status_t) : W unit :=
  match ack_id with
  | None => mret tt
  | Some i =>
      if octlen i =? 0 then mret tt
      else
        b ← deref bb;
        box ← read_bb b;
        t ← now;
        if alive box then
          ok ← next_write;
          if ok : bool then update_bb b (λ c, {| c with last_msg := t |});; emit (EvAck b i st)
          else smpp_bearerbox_set_state b false;; emit (EvAckLost i)
        else emit (EvAckLost i)
  end.

(** ** smpp_queues.c: the completion callbacks *)

(** What the callbacks do where the message is accepted for good: acknowledge it
    to the bearerbox it came from, or remove it from the database. *)
Definition settle (q : SMPPQueuedPDU) : W unit :=
  match bearerbox q, bearerbox_id q with
  | Some b, Some i => smpp_bearerbox_acknowledge (Some b) (Some i) ack_success
  | _, _ =>
      when (0 <? global_id q)
        (if smpp_server q then smpp_database_remove (global_id q) 0 else crash)
  end.

Definition count_delivery (e : nat) (p : SMPP_PDU) : W unit :=
  if is_dlr_pdu p then count_dlr e else count_mo e.

Definition smpp_queues_callback_deliver_sm_resp (p : nat) (status : Z) : W unit :=
  q ← read_pdu p;
  (if status =? SMPP_ESME_ROK then
     match pdu q with
     | Some pd => when (bool_decide (type pd = deliver_sm)) (e ← esme_of q; count_delivery e pd)
     | None => mret tt
     end;;
     settle q
   else if status =? SMPP_ESME_COMMAND_STATUS_QUEUED then settle q
   else if status =? SMPP_ESME_COMMAND_STATUS_WAIT_ACK_TIMEOUT then
     if negb (smpp_server q) then crash
     else
       s ← the_server;
       if wait_ack_action s =? SMPP_WAITACK_DISCONNECT then
         match bearerbox q, bearerbox_id q with
         | Some b, Some i => smpp_bearerbox_acknowledge (Some b) (Some i) ack_failed_tmp
         | _, _ => mret tt
         end;;
         _ ← pdu_of q;
         e ← esme_of q; smpp_esme_disconnect e
       else when (wait_ack_action s =? SMPP_WAITACK_DROP) (_ ← pdu_of q; settle q)
   else when (status =? SMPP_QUEUED_PDU_DESTROYED)
          (smpp_bearerbox_acknowledge (bearerbox q) (bearerbox_id q) ack_failed_tmp));;
  smpp_queued_pdu_destroy p.

(** smpp_esme.c. *)
Definition smpp_esme_db_queue_callback (p : nat) (status : Z) : W unit :=
  q ← read_pdu p;
  let remove := if from_dlr_table q then smpp_database_remove_dlr (sequence q)
                else smpp_database_remove (sequence q) 0 in
  (if (status =? SMPP_ESME_ROK) || (status =? SMPP_ESME_COMMAND_STATUS_QUEUED) then
     when (status =? SMPP_ESME_ROK)
       (match smpp_esme q, pdu q with
        | Some e, Some pd => when (bool_decide (type pd = deliver_sm)) (count_delivery e pd)
        | _, _ => mret tt
        end);;
     remove
   else _ ← smpp_database_add_pdu p; remove);;
  smpp_queued_pdu_destroy p.

(** The handler of the backend's stored PDUs. *)
Definition database_queued_pdu_handler (p : nat) (status : Z) : W unit :=
  q ← read_pdu p;
  if negb (smpp_server q) then mret tt
  else
    modify (λ w, {| w with db := pdu_handler (bearerbox_id q) status (db w) |});;
    smpp_queued_pdu_destroy p.

Definition run_callback (cb : pdu_callback) (p : nat) (status : Z) : W unit :=
  match cb with
  | smpp_queues_callback_deliver_sm_resp_cb => smpp_queues_callback_deliver_sm_resp p status
  | smpp_esme_db_queue_callback_cb => smpp_esme_db_queue_callback p status
  | database_queued_pdu_handler_cb => database_queued_pdu_handler p status
  end.

(** The fields of a response PDU the callbacks set. *)
Definition set_response (f : SMPP_PDU → SMPP_PDU) (q : SMPPQueuedPDU) : SMPPQueuedPDU :=
  {| q with pdu := f <$> pdu q |}.
Definition refuse_response (status : Z) (p : SMPP_PDU) : SMPP_PDU :=
  {| p with message_id := None; command_status := status |}.
Definition accept_response (p : SMPP_PDU) : SMPP_PDU :=
  {| p with command_status := SMPP_ESME_ROK |}.

Definition smpp_queues_callback_submit_sm (p : nat) (status : Z) : W unit :=
  q ← read_pdu p;
  e ← esme_of q;
  (if negb (status =? SMPP_ESME_ROK) then
     count_error e;;
     _ ← pdu_of q;
     write_pdu p (set_response (refuse_response status) q)
   else
     count_mt e;;
     _ ← pdu_of q;
     write_pdu p (set_response accept_response q));;
  smpp_queues_add_outbound p.

Definition smpp_queues_callback_data_sm (p : nat) (status : Z) : W unit :=
  q ← read_pdu p;
  e ← esme_of q;
  (if negb (status =? SMPP_ESME_ROK) then
     count_error e;;
     _ ← pdu_of q;
     write_pdu p (set_response (refuse_response status) q)
   else
     count_mt e;;
     _ ← pdu_of q;
     write_pdu p (set_response accept_response q));;
  smpp_queues_add_outbound p.

(** smpp_bearerbox.c. *)
Definition smpp_bearerbox_requeue_result (gid : Z) (status : Z) : W unit :=
  if status =? 0 then smpp_database_remove gid 0
  else when (status =? SMPP_ESME_RSUBMITFAIL) (smpp_database_remove gid 0).

Definition run_bb_callback (cb : bb_callback) (status : Z) : W unit :=
  match cb with
  | smpp_queues_callback_submit_sm_cb r => smpp_queues_callback_submit_sm r status
  | smpp_queues_callback_data_sm_cb r => smpp_queues_callback_data_sm r status
  | smpp_bearerbox_requeue_result_cb gid => smpp_bearerbox_requeue_result gid status
  end.

End callbacks.
