(* ===== verification/Run.v ===== *)
(** Running the actions of World.v and Callbacks.v from a known state: an equation
    for each, used by the proofs about handlers. *)
From S2P Require Import Prelude CLib Gwlib Types Kannel IpBlock World Callbacks.
Open Scope Z_scope.

Create HintDb run discriminated.

Section run.
Context {DB : Type}.
Implicit Types (w : World DB).

Lemma read_pdu_bind {B} p q w (f : SMPPQueuedPDU → W DB B) :
  lookup_pdu w p = Some q → (read_pdu p ≫= f) w = f q w.
Proof. intros Hq. unfold read_pdu. rewrite bind_unfold, gets_bind, Hq. done. Qed.

Lemma read_pdu_run p q w : lookup_pdu w p = Some q → read_pdu p w = Some (q, w).
Proof. intros Hq. unfold read_pdu. rewrite gets_bind, Hq. done. Qed.

Lemma read_esme_bind {B} e c w (f : SMPPEsme → W DB B) :
  lookup_esme w e = Some c → (read_esme e ≫= f) w = f c w.
Proof. intros Hc. unfold read_esme. rewrite bind_unfold, gets_bind, Hc. done. Qed.

Lemma deref_bind {A B} (a : A) w (f : A → W DB B) : (deref (Some a) ≫= f) w = f a w.
Proof. done. Qed.

Lemma esme_of_bind {B} q e w (f : nat → W DB B) :
  smpp_esme q = Some e → (esme_of q ≫= f) w = f e w.
Proof. intros Hq. unfold esme_of. by rewrite Hq. Qed.

Lemma pdu_of_bind {B} q pd w (f : SMPP_PDU → W DB B) :
  pdu q = Some pd → (pdu_of q ≫= f) w = f pd w.
Proof. intros Hq. unfold pdu_of. by rewrite Hq. Qed.

(** The state after an ESME changed. *)
Definition with_esme (w : World DB) (e : nat) (c : SMPPEsme) : World DB :=
  set_esme_heap <[e := Live c]> w.
Definition with_pdu (w : World DB) (p : nat) (q : SMPPQueuedPDU) : World DB :=
  set_pdus <[p := Live q]> w.

Lemma update_esme_run e c f w :
  lookup_esme w e = Some c → update_esme e f w = Some (tt, with_esme w e (f c)).
Proof. intros Hc. unfold update_esme, write_esme. by rewrite !(read_esme_bind _ c). Qed.

Lemma update_esme_bind {B} e c f w (k : unit → W DB B) :
  lookup_esme w e = Some c → (update_esme e f ≫= k) w = k tt (with_esme w e (f c)).
Proof. intros Hc. by rewrite bind_unfold, (update_esme_run _ c). Qed.

Lemma write_pdu_run p q0 q w :
  lookup_pdu w p = Some q0 → write_pdu p q w = Some (tt, with_pdu w p q).
Proof. intros Hq. unfold write_pdu. by rewrite (read_pdu_bind _ q0). Qed.
Lemma write_pdu_bind {B} p q0 q w (k : unit → W DB B) :
  lookup_pdu w p = Some q0 → (write_pdu p q ≫= k) w = k tt (with_pdu w p q).
Proof. intros Hq. by rewrite bind_unfold, (write_pdu_run _ q0). Qed.

Lemma lookup_with_esme w e c e' :
  lookup_esme (with_esme w e c) e' = if bool_decide (e = e') then Some c else lookup_esme w e'.
Proof.
  unfold lookup_esme, with_esme. simpl. case_bool_decide as He.
  - subst. by rewrite lookup_insert_eq.
  - by rewrite lookup_insert_ne.
Qed.
Lemma lookup_with_esme_eq w e c : lookup_esme (with_esme w e c) e = Some c.
Proof. rewrite lookup_with_esme. by rewrite bool_decide_true. Qed.

Lemma lookup_with_pdu w p q p' :
  lookup_pdu (with_pdu w p q) p' = if bool_decide (p = p') then Some q else lookup_pdu w p'.
Proof.
  unfold lookup_pdu, with_pdu. simpl. case_bool_decide as Hp.
  - subst. by rewrite lookup_insert_eq.
  - by rewrite lookup_insert_ne.
Qed.
Lemma lookup_with_pdu_eq w p q : lookup_pdu (with_pdu w p q) p = Some q.
Proof. rewrite lookup_with_pdu. by rewrite bool_decide_true. Qed.

Lemma lookup_freed_ne w p p' :
  p' ≠ p → lookup_pdu (set_pdus <[p := Freed]> w) p' = lookup_pdu w p'.
Proof. intros Hp. unfold lookup_pdu. cbn. by rewrite lookup_insert_ne. Qed.

Lemma lookup_esme_with_pdu w p q e : lookup_esme (with_pdu w p q) e = lookup_esme w e.
Proof. done. Qed.
Lemma lookup_pdu_with_esme w e c p : lookup_pdu (with_esme w e c) p = lookup_pdu w p.
Proof. done. Qed.

(** A new PDU at the next free address. *)
Definition with_alloc (w : World DB) (q : SMPPQueuedPDU) : World DB :=
  {| w with next_ptr := S (next_ptr w); pdus := <[next_ptr w := Live q]> (pdus w) |}.

Lemma alloc_bind {B} q w (k : nat → W DB B) : (alloc_pdu q ≫= k) w = k (next_ptr w) (with_alloc w q).
Proof. done. Qed.

Lemma lookup_with_alloc w q p :
  lookup_pdu (with_alloc w q) p = if bool_decide (p = next_ptr w) then Some q else lookup_pdu w p.
Proof.
  unfold lookup_pdu, with_alloc. cbn. case_bool_decide as Hp; subst.
  - by rewrite lookup_insert_eq.
  - by rewrite lookup_insert_ne.
Qed.
Lemma lookup_with_alloc_eq w q : lookup_pdu (with_alloc w q) (next_ptr w) = Some q.
Proof. rewrite lookup_with_alloc. by rewrite bool_decide_true. Qed.

Lemma destroy_run p q w :
  lookup_pdu w p = Some q →
  smpp_queued_pdu_destroy p w = Some (tt, set_pdus <[p := Freed]> w).
Proof. intros Hq. unfold smpp_queued_pdu_destroy. by rewrite (read_pdu_bind _ q). Qed.

(** A response on its way: the outbound queue ends in it. *)
Lemma add_outbound_run p q e c w :
  lookup_pdu w p = Some q → callback q = None → smpp_esme q = Some e → lookup_esme w e = Some c →
  smpp_queues_add_outbound p w
  = Some (tt, let w' := with_esme w e (inc_outbound_queued c) in
              {| w' with outbound_queue := outbound_queue w' ++ [p] |}).
Proof.
  intros Hq Hcb He Hc. unfold smpp_queues_add_outbound.
  rewrite (read_pdu_bind _ q), (esme_of_bind _ e), Hcb, ret_bind by done.
  by rewrite (update_esme_bind _ c).
Qed.

Lemma add_inbound_run p q e c w :
  lookup_pdu w p = Some q → smpp_esme q = Some e → lookup_esme w e = Some c →
  smpp_queues_add_inbound p w
  = Some (tt, let w' := with_esme w e (inc_inbound_queued c) in
              {| w' with inbound_queue := inbound_queue w' ++ [p] |}).
Proof.
  intros Hq He Hc. unfold smpp_queues_add_inbound.
  rewrite (read_pdu_bind _ q), (esme_of_bind _ e) by done. by rewrite (update_esme_bind _ c).
Qed.

Lemma next_write_bind {B} w (k : bool → W DB B) :
  (next_write ≫= k) w
  = k (default true (head (bb_writes w))) {| w with bb_writes := tail (bb_writes w) |}.
Proof.
  unfold next_write. rewrite bind_unfold, get_bind.
  destruct (bb_writes w) as [|b bs] eqn:Hw; [|done]. cbn. f_equal. destruct w. simpl in *. by subst.
Qed.

Definition with_bb (w : World DB) (b : nat) (c : SMPPBearerbox) : World DB :=
  {| w with bearerboxes := <[b := c]> (bearerboxes w) |}.

Lemma read_bb_bind {B} b c w (k : SMPPBearerbox → W DB B) :
  bearerboxes w !! b = Some c → (read_bb b ≫= k) w = k c w.
Proof. intros Hc. unfold read_bb. rewrite bind_unfold, gets_bind, Hc. done. Qed.

Lemma update_bb_bind {B} b c f w (k : unit → W DB B) :
  bearerboxes w !! b = Some c → (update_bb b f ≫= k) w = k tt (with_bb w b (f c)).
Proof. intros Hc. unfold update_bb. by rewrite bind_unfold, (read_bb_bind _ c). Qed.

Lemma update_bb_run b c f w :
  bearerboxes w !! b = Some c → update_bb b f w = Some (tt, with_bb w b (f c)).
Proof. intros Hc. unfold update_bb. by rewrite (read_bb_bind _ c). Qed.

(** Closing a connection. *)
Definition hang_up (c : SMPPEsme) : SMPPEsme :=
  {| c with connected := false; event_container := false; conn := false |}.

Lemma disconnect_run e c w :
  lookup_esme w e = Some c →
  smpp_esme_disconnect e w
  = Some (tt, {| (with_esme w e (hang_up c)) with
                 trace := trace w ++ if conn c then [EvClosed e] else [] |}).
Proof.
  intros Hc. unfold smpp_esme_disconnect, smpp_esme_stop_listening.
  rewrite (update_esme_bind _ c) by done.
  rewrite (read_esme_bind _ _ _ _ (lookup_with_esme_eq _ _ _)).
  change (conn (silence c)) with (conn c). destruct (conn c) eqn:Hconn; cbn [when].
  - rewrite (update_esme_bind _ _ _ _ _ (lookup_with_esme_eq _ _ _)).
    unfold emit, modify, with_esme, set_esme_heap. cbn. by rewrite insert_insert_eq.
  - rewrite app_nil_r. unfold with_esme, set_esme_heap, mret, M_ret. destruct w, c; simpl in *.
    by subst.
Qed.

End run.

(** ** Acknowledgements *)

(** The part of the state an acknowledgement leaves alone. *)
Definition same_core {DB} (w w' : World DB) : Prop :=
  pdus w' = pdus w ∧ esme_heap w' = esme_heap w ∧ esmes w' = esmes w ∧ server w' = server w ∧
  inbound_queue w' = inbound_queue w ∧ outbound_queue w' = outbound_queue w ∧ db w' = db w.

(** What an acknowledgement adds to the trace. *)
Definition ack_event {DB} (w : World DB) (b : nat) (i : Octstr) (st : ack_status_t) : event :=
  match bearerboxes w !! b with
  | Some box => if alive box && default true (head (bb_writes w)) then EvAck b i st else EvAckLost i
  | None => EvAckLost i
  end.

(** The acknowledgements of a trace. *)
Definition is_ack (ev : event) : bool :=
  match ev with EvAck _ _ _ | EvAckLost _ => true | _ => false end.
Definition acks (t : list event) : list event := filter (λ ev, is_ack ev = true) t.

Lemma acks_app t1 t2 : acks (t1 ++ t2) = acks t1 ++ acks t2.
Proof. apply filter_app. Qed.

Lemma acks_ack_event {DB} (w : World DB) b i st : acks [ack_event w b i st] = [ack_event w b i st].
Proof. unfold ack_event. destruct (bearerboxes w !! b); [destruct (_ && _)|]; done. Qed.

Section acks.
Context {DB : Type} `{KannelLib} `{DatabaseOps DB}.
Implicit Types (w : World DB).

Lemma acknowledge_run b i st w :
  i ≠ [] → is_Some (bearerboxes w !! b) →
  ∃ w', smpp_bearerbox_acknowledge (Some b) (Some i) st w = Some (tt, w') ∧
    trace w' = trace w ++ [ack_event w b i st] ∧ same_core w w'.
Proof.
  intros Hi [box Hbox]. unfold smpp_bearerbox_acknowledge, ack_event, now.
  replace (octlen i =? 0) with false by (by destruct i).
  rewrite deref_bind, (read_bb_bind _ box), gets_bind, Hbox by done.
  destruct (alive box); cbn [andb]; [|by eexists].
  rewrite next_write_bind. unfold smpp_bearerbox_set_state.
  destruct (default true (head (bb_writes w))); rewrite (update_bb_bind _ box) by done;
    (eexists; split; [reflexivity|]; by split).
Qed.

(** The ESME and its global an ESME's counters need. *)
Definition bound (w : World DB) (e : nat) : Prop :=
  ∃ c key g, lookup_esme w e = Some c ∧ smpp_esme_global c = Some key ∧ esmes w !! key = Some g.

Lemma update_global_run e c key g f w :
  lookup_esme w e = Some c → smpp_esme_global c = Some key → esmes w !! key = Some g →
  update_global e f w = Some (tt, {| w with esmes := <[key := f g]> (esmes w) |}).
Proof.
  intros Hc Hkey Hg. unfold update_global, read_global.
  rewrite bind_unfold, (read_esme_bind _ c), Hkey, deref_bind, gets_bind, Hg by done. done.
Qed.

Lemma read_global_bind {B} e c key g w (k : Octstr * SMPPEsmeGlobal → W DB B) :
  lookup_esme w e = Some c → smpp_esme_global c = Some key → esmes w !! key = Some g →
  (read_global e ≫= k) w = k (key, g) w.
Proof.
  intros Hc Hkey Hg. unfold read_global.
  rewrite bind_unfold, (read_esme_bind _ c), Hkey, deref_bind, gets_bind, Hg by done. done.
Qed.

(** A pair of counters. *)
Lemma count_run (fe : SMPPEsme → SMPPEsme) (fg : SMPPEsmeGlobal → SMPPEsmeGlobal) e c key g w :
  lookup_esme w e = Some c → smpp_esme_global c = Some key → esmes w !! key = Some g →
  smpp_esme_global (fe c) = smpp_esme_global c →
  (update_esme e fe;; update_global e fg) w
  = Some (tt, {| (with_esme w e (fe c)) with esmes := <[key := fg g]> (esmes w) |}).
Proof.
  intros Hc Hkey Hg Hfe. rewrite (update_esme_bind _ c) by done.
  rewrite (update_global_run _ (fe c) key g); [done|apply lookup_with_esme_eq|congruence|done].
Qed.

Lemma count_delivery_run e pd w :
  bound w e →
  ∃ w', count_delivery e pd w = Some (tt, w') ∧ trace w' = trace w ∧ pdus w' = pdus w ∧
    bearerboxes w' = bearerboxes w ∧ bb_writes w' = bb_writes w ∧ outbound_queue w' = outbound_queue w.
Proof.
  intros (c & key & g & Hc & Hkey & Hg). unfold count_delivery, count_dlr, count_mo.
  destruct (is_dlr_pdu pd); rewrite (count_run _ _ e c key g) by done; eexists; by split.
Qed.

(** The status the callback acknowledges a message from a bearerbox with. *)
Definition deliver_sm_ack (s : SMPPServer) (status : Z) : option ack_status_t :=
  if (status =? SMPP_ESME_ROK) || (status =? SMPP_ESME_COMMAND_STATUS_QUEUED) then Some ack_success
  else if status =? SMPP_ESME_COMMAND_STATUS_WAIT_ACK_TIMEOUT then
    if wait_ack_action s =? SMPP_WAITACK_DISCONNECT then Some ack_failed_tmp
    else if wait_ack_action s =? SMPP_WAITACK_DROP then Some ack_success else None
  else if status =? SMPP_QUEUED_PDU_DESTROYED then Some ack_failed_tmp
  else None.

Lemma destroy_ok p q w :
  lookup_pdu w p = Some q →
  ∃ w', smpp_queued_pdu_destroy p w = Some (tt, w') ∧ pdus w' !! p = Some Freed ∧ trace w' = trace w ∧
    outbound_queue w' = outbound_queue w.
Proof.
  intros Hq. rewrite (destroy_run _ q) by done. eexists. split; [done|]. cbn. by rewrite lookup_insert_eq.
Qed.

Lemma settle_bearerbox q b i w :
  bearerbox q = Some b → bearerbox_id q = Some i →
  settle q w = smpp_bearerbox_acknowledge (Some b) (Some i) ack_success w.
Proof. intros Hb Hi. unfold settle. by rewrite Hb, Hi. Qed.

(** An action that adds [evs] to the trace and keeps the heap of PDUs, followed by
    the PDU's destruction. *)
Lemma then_destroy (m : W DB unit) p q w w1 evs :
  lookup_pdu w p = Some q → m w = Some (tt, w1) → pdus w1 = pdus w →
  outbound_queue w1 = outbound_queue w → acks (trace w1) = acks (trace w) ++ evs →
  ∃ w', (m;; smpp_queued_pdu_destroy p) w = Some (tt, w') ∧ pdus w' !! p = Some Freed ∧
        outbound_queue w' = outbound_queue w ∧ acks (trace w') = acks (trace w) ++ evs.
Proof.
  intros Hq Hm Hpdus Hout Htr. rewrite bind_unfold, Hm.
  destruct (destroy_ok p q w1) as (w' & Hd & Hp & Ht & Ho).
  { unfold lookup_pdu in *. by rewrite Hpdus. }
  exists w'. by rewrite Ht, Htr, Ho.
Qed.

End acks.
