(* ===== verification/Esme.v ===== *)
(** smpp_esme.c and the connection handling of smpp_listener.c: authentication and
    bind limits, the choice of a receiver, the passes of the cleanup thread, the
    collection of queued messages, and the reaction to data on a connection. The
    dictionaries' iteration order, which gwlib leaves open, is the order of
    [map_to_list]. *)
From S2P Require Import Prelude CLib Gwlib Types Kannel Dlr PduUtil IpBlock World Callbacks Run.
From Stdlib Require Import QArith.QArith_base.
Open Scope Z_scope.

(** ** Interfaces *)

(** Authentication services outside the daemon, Kannel's address check, gwlib's
    load averages (of the interval with the given index) and the list operation
    that appends an item that is not in the list yet. *)
Class EsmeEnv := {
  smpp_http_client_auth : option Octstr → option Octstr → option Octstr → option SMPPESMEAuthResult;
  plugin_authenticate : option Octstr → option Octstr → option SMPPESMEAuthResult;
  connect_denied : Octstr → option Octstr → bool;
  load_get : Load → Z → Z → Q;
  gwlist_append_unique : list nat → nat → list nat;
  gwlist_append_unique_spec l x :
    gwlist_append_unique l x = if bool_decide (x ∈ l) then l else l ++ [x];
}.

#[local] Instance esme_env_ref : EsmeEnv := {
  smpp_http_client_auth _ _ _ := None;
  plugin_authenticate _ _ := None;
  connect_denied _ _ := false;
  load_get _ _ _ := 0%Q;
  gwlist_append_unique l x := if bool_decide (x ∈ l) then l else l ++ [x];
  gwlist_append_unique_spec _ _ := eq_refl;
}.

(** gwlib's [counter_decrease] stops at 0. *)
Definition counter_dec (n : Z) : Z := Z.max 0 (n - 1).

Definition smpp_esme_create : SMPPEsme := {|
  system_id := None; conn := false; authenticated := false; connected := false;
  pending_disconnect := false; event_container := false; time_connected := 0;
  time_last_pdu := 0; time_last_queue_process := 0;
  enquire_link_interval := SMPP_ESME_DEFAULT_ENQUIRE_LINK_INTERVAL;
  bind_type := SMPP_ESME_UNDEFINED; version := 0; inbound_load := []; outbound_load := [];
  inbound_queued := 0; outbound_queued := 0; pending_routing := 0; esme_sequence_number := 1;
  errors := 0; id := 0; inbound_processed := 0; outbound_processed := 0; simulate := 0;
  simulate_dlr_fail := 0; simulate_deliver_every := 0; simulate_mo_every := 0;
  simulate_permanent_failure_every := 0; simulate_temporary_failure_every := 0;
  alt_charset := None; default_smsc := None; default_cost := 0%Q; open_acks := ∅;
  catenated_sms_counter := 0; wait_ack_time := SMPP_ESME_WAIT_ACK_TIME;
  max_open_acks := SMPP_ESME_DEFAULT_MAX_OPEN_ACKS; smpp_esme_global := None; ip := None;
  pending_len := 0; mt_counter := 0; mo_counter := 0; dlr_counter := 0; error_counter := 0 |}.

Definition smpp_esme_global_create : SMPPEsmeGlobal := {|
  g_system_id := None; throughput := 0%Q; g_inbound_load := []; g_outbound_load := [];
  binds := []; max_binds := 0; enable_prepaid_billing := 0; g_mt_counter := 0;
  g_mo_counter := 0; g_dlr_counter := 0; g_error_counter := 0; g_database_store_primary := 0 |}.

Definition bool_int (b : bool) : Z := if b then 1 else 0.

Definition smpp_esme_effective_database_store_primary (s : SMPPServer)
    (auth_result : option SMPPESMEAuthResult) : Z :=
  match auth_result with
  | Some a =>
      if negb (auth_database_store_primary a =? SMPP_AUTH_DATABASE_STORE_PRIMARY_INHERIT)
      then bool_int (negb (auth_database_store_primary a =? 0))
      else bool_int (database_store_primary s)
  | None => bool_int (database_store_primary s)
  end.

(** ** Which bind can take a message *)

Definition open_ack_count (c : SMPPEsme) : Z := Z.of_nat (size (open_acks c)).

Definition is_receiver (c : SMPPEsme) : bool :=
  connected c && bit_set (bind_type c) SMPP_ESME_RECEIVE.

(** The limit [smpp_esme_global_get_readers] looks at. *)
Definition ack_space (c : SMPPEsme) : Z := max_open_acks c - open_ack_count c.

(** The two limits [smpp_esme_find_best_receiver] looks at. *)
Definition can_receive (c : SMPPEsme) : bool :=
  is_receiver c && (0 <? max_open_acks c - outbound_queued c) && (0 <? ack_space c).

(** One round of the loop over the options. *)
Definition better (c best : SMPPEsme) : bool :=
  (open_ack_count c <? open_ack_count best) || (outbound_queued c <? outbound_queued best).

Definition pick (best : option (nat * SMPPEsme)) (o : nat * SMPPEsme) : option (nat * SMPPEsme) :=
  match best with
  | None => Some o
  | Some b => if better o.2 b.2 then Some o else Some b
  end.

Section esme.
Context {DB : Type} `{TimeLib} `{OctstrLib} `{KannelLib} `{DatabaseOps DB} `{EsmeEnv}.
Abbreviation W := (M (World DB)).

Fixpoint read_esmes (es : list nat) : W (list (nat * SMPPEsme)) :=
  match es with
  | [] => mret []
  | e :: es => c ← read_esme e; cs ← read_esmes es; mret ((e, c) :: cs)
  end.

Definition smpp_esme_find_best_receiver (sid : option Octstr) : W (option nat) :=
  match sid with
  | None => mret None
  | Some s =>
      if octlen s =? 0 then mret None
      else
        g ← gets (λ w, esmes w !! octstr_tolower s);
        match g with
        | None => mret None
        | Some g =>
            cs ← read_esmes (binds g);
            let options := filter (λ o, can_receive o.2 = true) cs in
            mret (fst <$> foldl pick None options)
        end
  end.

(** ** Loads *)

Definition smpp_esme_inbound_load_increase (e : nat) : W unit :=
  t ← now;
  update_esme e (λ c, {| c with inbound_load := inbound_load c ++ [t] |});;
  update_global e (λ g, {| g with g_inbound_load := g_inbound_load g ++ [t] |}).

Definition smpp_esme_outbound_load_increase (e : nat) : W unit :=
  t ← now;
  update_esme e (λ c, {| c with outbound_load := outbound_load c ++ [t] |});;
  update_global e (λ g, {| g with g_outbound_load := g_outbound_load g ++ [t] |}).

(** ** Binding *)

Definition new_global (s : SMPPServer) (key : Octstr) : SMPPEsmeGlobal :=
  {| smpp_esme_global_create with g_system_id := Some key;
     g_database_store_primary := bool_int (database_store_primary s) |}.
Definition add_bind (e : nat) (g : SMPPEsmeGlobal) : SMPPEsmeGlobal :=
  {| g with binds := binds g ++ [e] |}.

Definition smpp_esme_global_add (e : nat) : W unit :=
  c ← read_esme e;
  key ← deref (system_id c);
  s ← the_server;
  o ← gets (λ w, esmes w !! key);
  update_esme e (λ c, {| c with smpp_esme_global := Some key |});;
  modify (λ w, {| w with
    esmes := <[key := add_bind e (default (new_global s key) o)]> (esmes w) |}).

(** The authenticated account, or NULL. *)
Definition authenticate_by_method (sid pass ip : option Octstr) : W (option SMPPESMEAuthResult) :=
  s ← the_server;
  if authentication_method s =? SMPP_SERVER_AUTH_METHOD_DATABASE then smpp_database_auth sid pass
  else if authentication_method s =? SMPP_SERVER_AUTH_METHOD_HTTP
  then mret (smpp_http_client_auth sid pass ip)
  else if authentication_method s =? SMPP_SERVER_AUTH_METHOD_PLUGIN
  then mret (if plugin_auth s then plugin_authenticate sid pass else None)
  else smpp_database_auth sid pass.

Definition ip_allowed (a : SMPPESMEAuthResult) (ip : option Octstr) : bool :=
  match auth_allowed_ips a with
  | Some ips => if negb (octlen ips =? 0) then negb (connect_denied ips ip) else true
  | None => true
  end.

(** The bind limit: the dictionary is searched for the identifier in lower case. *)
Definition within_max_binds (a : SMPPESMEAuthResult) (sid : option Octstr)
    (es : gmap Octstr SMPPEsmeGlobal) : bool :=
  if 0 <? auth_max_binds a then
    match es !! octstr_tolower (default [] sid) with
    | Some g => negb (auth_max_binds a <=? Z.of_nat (length (binds g)))
    | None => true
    end
  else true.

(** The listener's list of failed binds: [smpp_listener_auth_failed] with the
    ESME's address, which is NULL for a connection that is not IPv4. *)
Definition note_auth_failed (peer : option Octstr) : W unit :=
  s ← the_server; t ← now;
  i ← deref peer;
  modify (λ w, {| w with blocklist := smpp_listener_auth_failed s t i (blocklist w) |}).

Definition smpp_esme_auth (sid pass : option Octstr) (e : nat) : W (option SMPPESMEAuthResult) :=
  c ← read_esme e;
  r ← authenticate_by_method sid pass (ip c);
  es ← gets esmes;
  let r := match r with Some a => if ip_allowed a (ip c) then Some a else None | None => None end in
  let r := match r with Some a => if within_max_binds a sid es then Some a else None | None => None end in
  match r with
  | None => note_auth_failed (ip c)
  | Some _ => mret tt
  end;;
  mret r.

(** ** The end of an ESME *)

Definition smpp_esme_cleanup (e : nat) : W unit :=
  smpp_esme_stop_listening e;;
  modify (λ w, {| w with cleanup_queue := gwlist_append_unique (cleanup_queue w) e |}).

Definition smpp_esme_destroy_open_acks (e : nat) : W unit :=
  c ← read_esme e;
  for_each (λ kp : Octstr * nat,
    update_esme e (λ c, {| c with open_acks := base.delete kp.1 (open_acks c) |});;
    q ← read_pdu kp.2;
    match callback q with
    | Some cb => run_callback cb kp.2 SMPP_QUEUED_PDU_DESTROYED
    | None => mret tt
    end) (map_to_list (open_acks c)).

Definition smpp_esme_destroy (e : nat) : W unit :=
  smpp_esme_destroy_open_acks e;;
  smpp_esme_disconnect e;;
  modify (set_esme_heap <[e := Freed]>).

(** ** The cleanup thread *)

(** smpp_queues.c. *)
Definition smpp_queues_send_enquire_link (e : nat) : W unit :=
  c ← read_esme e;
  update_esme e (λ c, {| c with esme_sequence_number := esme_sequence_number c + 1 |});;
  p ← alloc_pdu {| smpp_queued_pdu_create with
         smpp_esme := Some e; pdu := Some (smpp_pdu_create enquire_link (esme_sequence_number c)) |};
  smpp_queues_add_outbound p.

(** An open ack: it has expired when it was sent more than [wait_ack_time]
    seconds ago. *)
Definition expire_ack (e : nat) (key : Octstr) : W unit :=
  c ← read_esme e;
  match open_acks c !! key with
  | None => mret tt
  | Some p =>
      q ← read_pdu p;
      t ← now;
      when ((0 <? time_sent q) && (wait_ack_time c <? t - time_sent q))
        (update_esme e (λ c, {| c with open_acks := base.delete key (open_acks c) |});;
         write_pdu p {| q with smpp_server := true |};;
         cb ← deref (callback q);
         run_callback cb p SMPP_ESME_COMMAND_STATUS_WAIT_ACK_TIMEOUT)
  end.

(** One bind of a global: whether it stays in the list. *)
Definition cleanup_bind (e : nat) : W bool :=
  c ← read_esme e;
  if negb (connected c) then smpp_esme_cleanup e;; mret false
  else
    t ← now;
    let diff := t - time_last_pdu c in
    for_each (expire_ack e) (map_to_list (open_acks c)).*1;;
    if enquire_link_interval c <? diff then
      if 2 <? Z.quot diff (enquire_link_interval c) then smpp_esme_cleanup e;; mret false
      else smpp_queues_send_enquire_link e;; mret true
    else mret true.

Fixpoint cleanup_binds (es : list nat) : W (list nat) :=
  match es with
  | [] => mret []
  | e :: es =>
      keep ← cleanup_bind e;
      rest ← cleanup_binds es;
      mret (if keep : bool then e :: rest else rest)
  end.

Definition cleanup_global (key : Octstr) : W unit :=
  o ← gets (λ w, esmes w !! key);
  g ← deref o;
  replace ← cleanup_binds (binds g);
  o ← gets (λ w, esmes w !! key);
  g ← deref o;
  modify (λ w, {| w with esmes := <[key := {| g with binds := replace |}]> (esmes w) |}).

Definition queue_depth (c : SMPPEsme) : Z :=
  inbound_queued c + outbound_queued c + pending_routing c.

(** An ESME of the cleanup queue: whether it stays there. *)
Definition cleanup_queued (e : nat) : W bool :=
  c ← read_esme e;
  if queue_depth c <=? 0 then
    t ← now;
    if SMPP_ESME_CLEANUP_QUEUE_DELAY <? t - time_last_queue_process c
    then smpp_esme_destroy e;; mret false
    else mret true
  else mret true.

Fixpoint cleanup_queue_pass (es : list nat) : W (list nat) :=
  match es with
  | [] => mret []
  | e :: es =>
      keep ← cleanup_queued e;
      rest ← cleanup_queue_pass es;
      mret (if keep : bool then e :: rest else rest)
  end.

(** One round of the cleanup thread, which holds the write lock. *)
Definition smpp_esme_cleanup_pass : W unit :=
  es ← gets esmes;
  for_each cleanup_global (map_to_list es).*1;;
  q ← gets cleanup_queue;
  replace ← cleanup_queue_pass q;
  modify (λ w, {| w with cleanup_queue := replace |}).

End esme.

(** ** Lemmas *)

Section lemmas.
Context {DB : Type} `{TimeLib} `{OctstrLib} `{KannelLib} `{DatabaseOps DB} `{EsmeEnv}.
Implicit Types (w : World DB).

Definition live (w : World DB) (e : nat) : Prop := is_Some (lookup_esme w e).

Lemma read_esmes_run es w :
  Forall (live w) es →
  ∃ cs, read_esmes es w = Some (cs, w) ∧ cs.*1 = es ∧
        Forall (λ o, lookup_esme w o.1 = Some o.2) cs.
Proof.
  induction 1 as [|e es [c Hc] _ (cs & Hrun & Hes & Hcs)]; [by exists []|].
  exists ((e, c) :: cs). cbn [read_esmes]. rewrite (read_esme_bind _ c), bind_unfold, Hrun by done.
  split_and!; [done|by f_equal/=|by constructor].
Qed.

Lemma authenticate_state sid pass peer w r w' :
  authenticate_by_method sid pass peer w = Some (r, w') → w' = w.
Proof.
  unfold authenticate_by_method, the_server, smpp_database_auth. rewrite gets_bind.
  intros Hauth. repeat case_match; try (by apply ret_Some in Hauth as [_ ->]);
    apply bind_Some in Hauth as (f & w1 & Hf & Hg); injection Hg as _ <-;
    (destruct authenticate; [by apply ret_Some in Hf as [_ <-]|done]).
Qed.

(** Authentication changes the block list only. *)
Lemma auth_state sid pass e w r w' :
  smpp_esme_auth sid pass e w = Some (r, w') → ∃ bl, w' = {| w with blocklist := bl |}.
Proof.
  unfold smpp_esme_auth, note_auth_failed, the_server, now.
  intros (c & w0 & Hc & Hrun)%bind_Some. unfold read_esme in Hc. rewrite gets_bind in Hc.
  destruct (lookup_esme w e) as [c'|]; [|done]. apply ret_Some in Hc as [_ <-].
  apply bind_Some in Hrun as (r0 & w1 & Hauth%authenticate_state & Hrun). subst w1.
  rewrite gets_bind in Hrun. cbv zeta in Hrun. apply bind_Some in Hrun as ([] & w2 & Hnote & Hr).
  apply ret_Some in Hr as [_ <-]. exists (blocklist w2).
  repeat case_match; simplify_eq; try (apply ret_Some in Hnote as [_ <-]; by destruct w).
  all: rewrite !gets_bind in Hnote; destruct (ip c); [|done]; by injection Hnote as <-.
Qed.

Lemma pick_in best os r :
  foldl pick best os = Some r → best = Some r ∨ r ∈ os.
Proof.
  revert best. induction os as [|o os IH]; intros best Hr; simpl in Hr; [by left|].
  apply IH in Hr as [Hr|Hr]; [|right; by right].
  destruct best as [b|]; simpl in Hr; [destruct (better o.2 b.2)|]; simplify_eq; auto; right; left.
Qed.

Lemma pick_some best os : os ≠ [] ∨ is_Some best → is_Some (foldl pick best os).
Proof.
  revert best. induction os as [|o os IH]; intros best Hb; [by destruct Hb|].
  simpl. apply IH. right. destruct best as [b|]; simpl; [destruct (better o.2 b.2)|]; eauto.
Qed.

End lemmas.

(** An ESME with so many open acknowledgements and queued PDUs. *)
Definition with_load (acks queued : nat) : SMPPEsme :=
  {| smpp_esme_create with connected := true; bind_type := SMPP_ESME_RECEIVE;
     outbound_queued := Z.of_nat queued;
     open_acks := list_to_map (imap (λ i _, (fmt_ld (Z.of_nat i), i)) (replicate acks tt)) |}.

(** ** Properties *)

(** The receiver chosen for an account is one of its connected receiver
    binds with room both in its outbound queue and among its open
    acknowledgements, and there is none only when no bind of the account qualifies.
    The state is not changed. *)
Theorem find_best_receiver_spec {DB} `{TimeLib} `{OctstrLib} `{KannelLib} `{DatabaseOps DB} `{EsmeEnv}
    (w : World DB) (s : Octstr) (g : SMPPEsmeGlobal) :
  s ≠ [] → esmes w !! octstr_tolower s = Some g → Forall (live w) (binds g) →
  ∃ r, smpp_esme_find_best_receiver (Some s) w = Some (r, w) ∧
  match r with
  | Some e => e ∈ binds g ∧ ∃ c, lookup_esme w e = Some c ∧ can_receive c = true
  | None => ∀ e c, e ∈ binds g → lookup_esme w e = Some c → can_receive c = false
  end.
Proof.
  intros Hs Hg Hlive. unfold smpp_esme_find_best_receiver.
  replace (octlen s =? 0) with false by (by destruct s). rewrite gets_bind, Hg.
  destruct (read_esmes_run (binds g) w Hlive) as (cs & Hrun & Hes & Hcs).
  rewrite bind_unfold, Hrun. eexists. split; [done|].
  destruct (foldl pick None (filter (λ o, can_receive o.2 = true) cs)) as [[e c]|] eqn:Hp; simpl.
  - apply pick_in in Hp as [|Hin]; [done|]. apply list_elem_of_filter in Hin as [Hc Hin].
    rewrite Forall_forall in Hcs. split; [|exists c; split; [apply (Hcs _ Hin)|done]].
    rewrite <- Hes. apply list_elem_of_fmap. by exists (e, c).
  - intros e c He Hc. destruct (can_receive c) eqn:Hrec; [|done]. exfalso.
    rewrite <- Hes in He. apply list_elem_of_fmap in He as ([e' c'] & -> & Hin).
    rewrite Forall_forall in Hcs. pose proof (Hcs _ Hin) as Hc'. simpl in *. simplify_eq.
    destruct (pick_some None (filter (λ o, can_receive o.2 = true) cs)) as [r Hr]; [left|congruence].
    intros Hnil. apply (not_elem_of_nil (e', c)). rewrite <- Hnil. by apply list_elem_of_filter.
Qed.

(** The choice is not the best: the loop replaces its candidate when the next
    bind has fewer open acknowledgements or a shorter queue, not when it is better
    on the whole, so that a bind can be chosen although another eligible one has
    strictly fewer open acknowledgements and a strictly shorter queue. *)
Theorem best_receiver_can_be_dominated :
  ∃ (os : list (nat * SMPPEsme)) (o r : nat * SMPPEsme),
    Forall (λ o, can_receive o.2 = true) os ∧ o ∈ os ∧ foldl pick None os = Some r ∧
    open_ack_count o.2 < open_ack_count r.2 ∧ outbound_queued o.2 < outbound_queued r.2.
Proof.
  exists [(1%nat, with_load 1 1); (2%nat, with_load 0 9); (3%nat, with_load 5 5)],
    (1%nat, with_load 1 1), (3%nat, with_load 5 5).
  split_and!; [by repeat constructor|by left|by vm_compute..].
Qed.

(** C21. Authentication: an account is granted only when the backend knows it, the
    address is allowed for it and its bind limit is not reached, and granting it
    changes nothing; every refusal is recorded against the address in the block
    list. *)
Theorem auth_outcome {DB} `{OctstrLib} `{DatabaseOps DB} `{EsmeEnv}
    (w w' : World DB) (sid pass : option Octstr) (e : nat) (c : SMPPEsme) (r : option SMPPESMEAuthResult) :
  lookup_esme w e = Some c → smpp_esme_auth sid pass e w = Some (r, w') →
  match r with
  | Some a => authenticate_by_method sid pass (ip c) w = Some (Some a, w) ∧
      ip_allowed a (ip c) = true ∧ within_max_binds a sid (esmes w) = true ∧ w' = w
  | None => ∃ i, ip c = Some i ∧
      w' = {| w with blocklist := smpp_listener_auth_failed (server w) (w_now w) i (blocklist w) |}
  end.
Proof.
  intros Hc. unfold smpp_esme_auth. rewrite (read_esme_bind _ c) by done.
  intros (r0 & w0 & Hauth & Hrun)%bind_Some.
  assert (w0 = w) as -> by by eapply authenticate_state.
  rewrite gets_bind in Hrun. cbv zeta in Hrun.
  destruct r0 as [a|]; [destruct (ip_allowed a (ip c)) eqn:Hip;
    [destruct (within_max_binds a sid (esmes w)) eqn:Hmax|]|].
  1: by rewrite ret_bind in Hrun; apply ret_Some in Hrun as [<- <-].
  all: apply bind_Some in Hrun as (u & w1 & Hnote & [<- <-]%ret_Some);
    unfold note_auth_failed, the_server, now in Hnote; rewrite !gets_bind in Hnote;
    destruct (ip c) as [i|]; [|done]; exists i; split; [done|]; by injection Hnote as _ <-.
Qed.

(** Bind limits: an account whose identifier has no upper-case letter gets a
    further bind exactly when it has fewer than its limit. *)
Theorem max_binds_enforced (a : SMPPESMEAuthResult) (s : Octstr) (es : gmap Octstr SMPPEsmeGlobal)
    (g : SMPPEsmeGlobal) :
  octstr_tolower s = s → 0 < auth_max_binds a → es !! s = Some g →
  within_max_binds a (Some s) es = bool_decide (Z.of_nat (length (binds g)) < auth_max_binds a).
Proof.
  intros Hs Hmax Hg. unfold within_max_binds. simpl. rewrite Hs, Hg.
  replace (0 <? auth_max_binds a) with true by lia.
  destruct (Z.leb_spec (auth_max_binds a) (Z.of_nat (length (binds g)))); simpl; symmetry;
    [apply bool_decide_false|apply bool_decide_true]; lia.
Qed.

(** Identifiers with an upper-case letter escape the limit and get nothing:
    the global is filed under the identifier as it was sent, while the limit and
    the search for a receiver look it up in lower case. However many binds are
    added, the next one is within every limit, and no receiver is found. *)
Theorem upper_case_account_unlimited {DB} `{TimeLib} `{OctstrLib} `{KannelLib} `{DatabaseOps DB}
    `{EsmeEnv} (w : World DB) (e : nat) (c : SMPPEsme) (s : Octstr) :
  lookup_esme w e = Some c → system_id c = Some s → octstr_tolower s ≠ s →
  esmes w !! octstr_tolower s = None →
  ∃ w', smpp_esme_global_add e w = Some (tt, w') ∧
    esmes w' !! octstr_tolower s = None ∧
    (∀ a, within_max_binds a (Some s) (esmes w') = true) ∧
    smpp_esme_find_best_receiver (Some s) w' = Some (None, w').
Proof.
  intros Hc Hs Hlow Hnone. unfold smpp_esme_global_add, the_server.
  rewrite (read_esme_bind _ c), Hs, deref_bind, !gets_bind by done. cbv zeta.
  rewrite (update_esme_bind _ c) by done.
  eexists. split; [reflexivity|].
  assert (∀ (x : SMPPEsmeGlobal) (m : gmap Octstr SMPPEsmeGlobal),
    <[s := x]> m !! octstr_tolower s = m !! octstr_tolower s) as Hins
    by (intros; by rewrite lookup_insert_ne).
  split; [|split]; cbn [esmes].
  - exact (eq_trans (Hins _ _) Hnone).
  - intros a. unfold within_max_binds. change (default [] (Some s)) with s. rewrite Hins.
    cbn [esmes with_esme set_esme_heap]. rewrite Hnone. by destruct (0 <? auth_max_binds a).
  - unfold smpp_esme_find_best_receiver. destruct (octlen s =? 0); [done|].
    rewrite gets_bind. cbn [esmes]. rewrite Hins. cbn [esmes with_esme set_esme_heap]. by rewrite Hnone.
Qed.

(** The cleanup thread spares an ESME that still has queued PDUs or pending
    routings, or was served within the last seconds; an idle one without open
    acknowledgements is disconnected and freed, and leaves the cleanup queue. *)
Theorem cleanup_destroys_idle_only {DB} `{KannelLib} `{DatabaseOps DB} `{EsmeEnv}
    (w : World DB) (e : nat) (c : SMPPEsme) :
  lookup_esme w e = Some c →
  let idle := (queue_depth c ≤ 0) ∧ SMPP_ESME_CLEANUP_QUEUE_DELAY < w_now w - time_last_queue_process c in
  (¬ idle → cleanup_queued e w = Some (true, w)) ∧
  (idle → open_acks c = ∅ → ∃ w',
     cleanup_queued e w = Some (false, w') ∧ esme_heap w' !! e = Some Freed ∧
     (∀ e', e' ≠ e → esme_heap w' !! e' = esme_heap w !! e') ∧ pdus w' = pdus w ∧
     trace w' = trace w ++ (if conn c then [EvClosed e] else [])).
Proof.
  intros Hc idle. unfold cleanup_queued, now. rewrite (read_esme_bind _ c) by done. split.
  - intros Hbusy. destruct (Z.leb_spec (queue_depth c) 0); [|done]. rewrite gets_bind.
    destruct (Z.ltb_spec SMPP_ESME_CLEANUP_QUEUE_DELAY (w_now w - time_last_queue_process c)); [|done].
    by destruct Hbusy.
  - intros [Hd Ht] Hacks. replace (queue_depth c <=? 0) with true by lia. rewrite gets_bind.
    replace (_ <? _) with true by lia.
    unfold smpp_esme_destroy, smpp_esme_destroy_open_acks.
    eexists. split.
    { rewrite bind_unfold, bind_unfold, (read_esme_bind _ c), Hacks, map_to_list_empty by done.
      cbn [for_each mret M_ret]. rewrite bind_unfold, (disconnect_run _ c) by done. reflexivity. }
    cbn. split_and!; [by rewrite lookup_insert_eq| |done|done].
    intros e' He. by rewrite !lookup_insert_ne.
Qed.

