(* ===== verification/Acks.v ===== *)
(** The promises of the completion callbacks: a message from a bearerbox is
    acknowledged once, a stored one is removed or kept, and a submission is answered
    once. *)
From S2P Require Import Prelude CLib Gwlib Types Kannel IpBlock World Callbacks Run Esme.
Open Scope Z_scope.

Section lemmas.
Context {DB : Type} `{KannelLib} `{DatabaseOps DB}.

Lemma deliver_sm_run (w : World DB) (p b e : nat) (i : Octstr) (q : SMPPQueuedPDU) (pd : SMPP_PDU)
    (status : Z) :
  lookup_pdu w p = Some q → bearerbox q = Some b → bearerbox_id q = Some i → i ≠ [] →
  is_Some (bearerboxes w !! b) → pdu q = Some pd → type pd = deliver_sm →
  smpp_esme q = Some e → bound w e →
  (status = SMPP_ESME_COMMAND_STATUS_WAIT_ACK_TIMEOUT → smpp_server q = true) →
  ∃ w', smpp_queues_callback_deliver_sm_resp p status w = Some (tt, w') ∧
    pdus w' !! p = Some Freed ∧ outbound_queue w' = outbound_queue w ∧
    acks (trace w')
    = acks (trace w) ++ match deliver_sm_ack (server w) status with
                        | Some st => [ack_event w b i st]
                        | None => []
                        end.
Proof.
  intros Hq Hb Hi Hne Hbox Hpd Ht He Hbound Hsrv.
  unfold smpp_queues_callback_deliver_sm_resp, deliver_sm_ack.
  rewrite (read_pdu_bind _ q) by done. rewrite Hpd.
  assert (∀ st, ∃ w1, smpp_bearerbox_acknowledge (Some b) (Some i) st w = Some (tt, w1) ∧
    pdus w1 = pdus w ∧ lookup_esme w1 e = lookup_esme w e ∧
    outbound_queue w1 = outbound_queue w ∧ acks (trace w1) = acks (trace w) ++ [ack_event w b i st]) as Hack.
  { intros st. destruct (acknowledge_run b i st w Hne Hbox) as (w1 & Hrun & Htr & Hsame).
    exists w1. destruct Hsame as (?&Hh&_&_&_&?&_). unfold lookup_esme.
    by rewrite Hh, Htr, acks_app, acks_ack_event. }
  destruct (Z.eqb_spec status SMPP_ESME_ROK) as [->|]; cbn [orb].
  { destruct (count_delivery_run e pd w Hbound) as (w1 & Hcount & Htr & Hp & Hbb & Hw & Ho).
    destruct (acknowledge_run b i ack_success w1 Hne) as (w2 & Hrun & Htr2 & Hsame); [by rewrite Hbb|].
    eapply (then_destroy _ _ q _ w2); [done| | | |].
    - rewrite bool_decide_true by done. cbn [when].
      rewrite bind_unfold, (esme_of_bind _ e), Hcount by done. by rewrite (settle_bearerbox _ b i).
    - destruct Hsame as [-> _]. done.
    - destruct Hsame as (_&_&_&_&_&->&_). done.
    - rewrite Htr2, acks_app, acks_ack_event, Htr. unfold ack_event. by rewrite Hbb, Hw. }
  destruct (Z.eqb_spec status SMPP_ESME_COMMAND_STATUS_QUEUED) as [->|]; cbn [orb].
  { destruct (Hack ack_success) as (w1 & Hrun & Hp & _ & Ho & Htr).
    by eapply (then_destroy _ _ q _ w1); [..|]; rewrite ?(settle_bearerbox _ b i). }
  destruct (Z.eqb_spec status SMPP_ESME_COMMAND_STATUS_WAIT_ACK_TIMEOUT) as [->|].
  { rewrite (Hsrv eq_refl). cbn [negb]. unfold the_server. rewrite Hb, Hi.
    destruct (Z.eqb_spec (wait_ack_action (server w)) SMPP_WAITACK_DISCONNECT) as [Hd|Hd].
    - destruct (Hack ack_failed_tmp) as (w1 & Hrun & Hp & Hesme & Ho & Htr).
      destruct Hbound as (c & key & g & Hc & _).
      eapply (then_destroy _ _ q _ _ _ Hq).
      + rewrite gets_bind, Hd, Z.eqb_refl, bind_unfold, Hrun, (pdu_of_bind _ pd), (esme_of_bind _ e) by done.
        rewrite (disconnect_run _ c) by congruence. reflexivity.
      + done.
      + done.
      + cbn. rewrite acks_app, Htr. destruct (conn c); cbn; by rewrite ?app_nil_r.
    - destruct (Z.eqb_spec (wait_ack_action (server w)) SMPP_WAITACK_DROP) as [Hdrop|Hdrop].
      + destruct (Hack ack_success) as (w1 & Hrun & Hp & _ & Ho & Htr).
        eapply (then_destroy _ _ q _ w1); [done| |done..].
        rewrite gets_bind. apply Z.eqb_neq in Hd. rewrite Hd, Hdrop, Z.eqb_refl. cbn [when].
        by rewrite (pdu_of_bind _ pd), (settle_bearerbox _ b i).
      + eapply (then_destroy _ _ q _ w); [done| |done|done|by rewrite app_nil_r].
        rewrite gets_bind. apply Z.eqb_neq in Hd, Hdrop. by rewrite Hd, Hdrop. }
  destruct (Z.eqb_spec status SMPP_QUEUED_PDU_DESTROYED) as [->|]; cbn [when].
  - destruct (Hack ack_failed_tmp) as (w1 & Hrun & Hp & _ & Ho & Htr).
    eapply (then_destroy _ _ q _ w1); [done| |done..]. by rewrite Hb, Hi.
  - by eapply (then_destroy _ _ q _ w); [..|rewrite app_nil_r].
Qed.

End lemmas.

(** ** Properties *)

(** C8. Delivering a message from a bearerbox ends in one acknowledgement: when
    the ESME acknowledges the deliver_sm with success, or the message is queued, is
    dropped, times out or is given up with its ESME, the bearerbox it came from gets
    exactly one acknowledgement for exactly its identifier, with success or
    temporary failure as it should, and the PDU is freed. For any other status, an
    ESME's own error among them, the PDU is freed and the bearerbox hears nothing. *)
Theorem deliver_sm_acked_once {DB} `{KannelLib} `{DatabaseOps DB}
    (w : World DB) (p b e : nat) (i : Octstr) (q : SMPPQueuedPDU) (pd : SMPP_PDU) (status : Z) :
  lookup_pdu w p = Some q → bearerbox q = Some b → bearerbox_id q = Some i → i ≠ [] →
  is_Some (bearerboxes w !! b) → pdu q = Some pd → type pd = deliver_sm →
  smpp_esme q = Some e → bound w e →
  (status = SMPP_ESME_COMMAND_STATUS_WAIT_ACK_TIMEOUT → smpp_server q = true) →
  ∃ w', smpp_queues_callback_deliver_sm_resp p status w = Some (tt, w') ∧
    pdus w' !! p = Some Freed ∧
    acks (trace w')
    = acks (trace w) ++ match deliver_sm_ack (server w) status with
                        | Some st => [ack_event w b i st]
                        | None => []
                        end.
Proof.
  intros Hq Hb Hi Hne Hbox Hpd Ht He Hbound Hsrv.
  destruct (deliver_sm_run w p b e i q pd status) as (w' & ? & ? & _ & ?); try done. by exists w'.
Qed.
