(* ===== verification/Route.v ===== *)
(** smpp_route.c: route statuses, the route tables and their cache, and the
    database routing method. Routing calls back with the status; the callback is run
    by the caller of [smpp_route_message], whose result is [Some (m, status)] for a
    method that answers at once, and [None] for one that answers later (HTTP and
    plugin routing): the request is then in [route_requests]. *)
From S2P Require Import Prelude CLib Gwlib Types Kannel World Callbacks.
From Stdlib Require Import QArith.QArith_base.
Open Scope Z_scope.

(** gwlib's [gw_regex_match_pre] on a compiled pattern. *)
Class RegexLib := {
  gw_regex_match_pre : Octstr → option Octstr → bool;
}.

(** A pattern is a prefix. *)
#[local] Instance regex_ref : RegexLib := {
  gw_regex_match_pre p s := match s with Some s => starts_with p s | None => false end;
}.

Inductive routing_method :=
  | SMPP_ROUTING_METHOD_DATABASE
  | SMPP_ROUTING_METHOD_HTTP
  | SMPP_ROUTING_METHOD_PLUGIN.

Section route.
Context {DB : Type} `{OctstrLib} `{KannelLib} `{DatabaseOps DB} `{RegexLib}.
Abbreviation W := (M (World DB)).

(** [MAX_SMS_OCTETS] and the catenation number 1 are the ones of the call. *)
Definition smpp_route_status_create (m : Msg) : SMPPRouteStatus := {|
  parts := if bool_decide (is_Some (msgdata m)) then Z.of_nat (length (sms_split m 1 255)) else 1;
  status := SMPP_ESME_RINVDSTADR;
  cost := 0%Q;
|}.

(** ** The loops over the routes

    The first route that applies, and the status left behind by the routes whose
    sender pattern declined. *)
Definition source_ok (r : SMPPRoute) (m : Msg) : bool :=
  match rt_source_regex r with
  | Some src => gw_regex_match_pre src (sender m)
  | None => true
  end.

Fixpoint find_outbound (m : Msg) (st : Z) (rs : list SMPPRoute) : option SMPPRoute * Z :=
  match rs with
  | [] => (None, st)
  | r :: rs =>
      if gw_regex_match_pre (rt_regex r) (receiver m) then
        if source_ok r m then (Some r, st) else find_outbound m SMPP_ESME_RINVSRCADR rs
      else find_outbound m st rs
  end.

(** A route for another SMSC is skipped. *)
Definition smsc_ok (r : SMPPRoute) (smsc : Octstr) : bool :=
  match rt_smsc_id r with
  | Some i => (octlen i =? 0) || octstr_case_eq i smsc
  | None => true
  end.

Fixpoint find_inbound (m : Msg) (smsc : Octstr) (st : Z) (rs : list SMPPRoute)
    : option SMPPRoute * Z :=
  match rs with
  | [] => (None, st)
  | r :: rs =>
      if negb (smsc_ok r smsc) then find_inbound m smsc st rs
      else if gw_regex_match_pre (rt_regex r) (receiver m) then
        if source_ok r m then (Some r, st) else find_inbound m smsc SMPP_ESME_RINVSRCADR rs
      else find_inbound m smsc st rs
  end.

Definition with_status (s : SMPPRouteStatus) (st : Z) : SMPPRouteStatus := {| s with status := st |}.
Definition routed (s : SMPPRouteStatus) (r : SMPPRoute) : SMPPRouteStatus :=
  {| s with status := SMPP_ESME_ROK; cost := rt_cost r |}.

(** The outbound routes of an account: read once from the database, then from the
    dictionary. *)
Definition outbound_routes_of (sid : Octstr) : W (list SMPPRoute) :=
  o ← gets (λ w, outbound_routes w !! sid);
  match o with
  | Some rs => mret rs
  | None =>
      rs ← smpp_database_get_routes SMPP_ROUTE_DIRECTION_OUTBOUND (Some sid);
      modify (λ w, {| w with outbound_routes := <[sid := rs]> (outbound_routes w) |});;
      mret rs
  end.

Definition smpp_route_message_database (direction : Z) (smsc sid : option Octstr) (m : Msg)
    : W (Msg * SMPPRouteStatus) :=
  let s := smpp_route_status_create m in
  if (direction =? SMPP_ROUTE_DIRECTION_OUTBOUND) && negb (octstr_len sid =? 0) then
    rs ← outbound_routes_of (default [] sid);
    mret (match find_outbound m (status s) rs with
          | (Some r, _) => ({| m with smsc_id := rt_smsc_id r |}, routed s r)
          | (None, st) => (m, with_status s st)
          end)
  else if (direction =? SMPP_ROUTE_DIRECTION_INBOUND) && negb (octstr_len smsc =? 0) then
    rs ← gets inbound_routes;
    mret (match find_inbound m (default [] smsc) (status s) rs with
          | (Some r, _) => ({| m with service := rt_system_id r |}, routed s r)
          | (None, st) => (m, with_status s st)
          end)
  else mret (m, s).

Definition smpp_route_rebuild_database : W unit :=
  rs ← smpp_database_get_routes SMPP_ROUTE_DIRECTION_INBOUND None;
  modify (λ w, {| w with inbound_routes := rs; outbound_routes := ∅ |}).

(** Without a plugin that routes it answers at once. *)
Definition smpp_route_message_plugin (plugin : bool) (m : Msg) (cb : route_callback)
    : W (option (Msg * SMPPRouteStatus)) :=
  if plugin then modify (λ w, {| w with route_requests := route_requests w ++ [cb] |});; mret None
  else mret (Some (m, smpp_route_status_create m)).

Definition smpp_route_message (method : option routing_method) (plugin : bool)
    (direction : Z) (smsc sid : option Octstr) (m : Msg) (cb : route_callback)
    : W (option (Msg * SMPPRouteStatus)) :=
  match method with
  | Some SMPP_ROUTING_METHOD_DATABASE =>
      r ← smpp_route_message_database direction smsc sid m; mret (Some r)
  | Some SMPP_ROUTING_METHOD_PLUGIN => smpp_route_message_plugin plugin m cb
  | Some SMPP_ROUTING_METHOD_HTTP =>
      modify (λ w, {| w with route_requests := route_requests w ++ [cb] |});; mret None
  | None => mret None
  end.

End route.

(** ** Specification *)

(** What it means for a route to apply to a message. *)
Definition outbound_applies `{RegexLib} (m : Msg) (r : SMPPRoute) : bool :=
  gw_regex_match_pre (rt_regex r) (receiver m) && source_ok r m.
Definition inbound_applies `{RegexLib} (m : Msg) (smsc : Octstr) (r : SMPPRoute) : bool :=
  smsc_ok r smsc && gw_regex_match_pre (rt_regex r) (receiver m) && source_ok r m.

(** A route that matches the receiver and declines the sender. *)
Definition outbound_declines `{RegexLib} (m : Msg) (r : SMPPRoute) : bool :=
  gw_regex_match_pre (rt_regex r) (receiver m) && negb (source_ok r m).
Definition inbound_declines `{RegexLib} (m : Msg) (smsc : Octstr) (r : SMPPRoute) : bool :=
  smsc_ok r smsc && gw_regex_match_pre (rt_regex r) (receiver m) && negb (source_ok r m).

Section lemmas.
Context `{RegexLib}.

Lemma find_outbound_some m st rs : (find_outbound m st rs).1 = find (outbound_applies m) rs.
Proof.
  revert st. induction rs as [|r rs IH]; intros st; [done|]. simpl. unfold outbound_applies at 1.
  destruct (gw_regex_match_pre _ _); [destruct (source_ok r m)|]; simpl; by rewrite ?IH.
Qed.

Lemma find_outbound_none m st rs :
  find (outbound_applies m) rs = None →
  (find_outbound m st rs).2
  = if existsb (outbound_declines m) rs then SMPP_ESME_RINVSRCADR else st.
Proof.
  revert st. induction rs as [|r rs IH]; intros st; [done|].
  simpl. unfold outbound_applies at 1, outbound_declines at 1.
  destruct (gw_regex_match_pre _ _); [destruct (source_ok r m)|]; simpl; [done| |by apply IH].
  intros Hf. rewrite (IH _ Hf). by destruct (existsb _ _).
Qed.

Lemma find_inbound_some m smsc st rs :
  (find_inbound m smsc st rs).1 = find (inbound_applies m smsc) rs.
Proof.
  revert st. induction rs as [|r rs IH]; intros st; [done|]. simpl. unfold inbound_applies at 1.
  destruct (smsc_ok r smsc); simpl; [|by rewrite IH].
  destruct (gw_regex_match_pre _ _); [destruct (source_ok r m)|]; simpl; by rewrite ?IH.
Qed.

Lemma find_inbound_none m smsc st rs :
  find (inbound_applies m smsc) rs = None →
  (find_inbound m smsc st rs).2
  = if existsb (inbound_declines m smsc) rs then SMPP_ESME_RINVSRCADR else st.
Proof.
  revert st. induction rs as [|r rs IH]; intros st; [done|].
  simpl. unfold inbound_applies at 1, inbound_declines at 1.
  destruct (smsc_ok r smsc); simpl; [|by apply IH].
  destruct (gw_regex_match_pre _ _); [destruct (source_ok r m)|]; simpl; [done| |by apply IH].
  intros Hf. rewrite (IH _ Hf). by destruct (existsb _ _).
Qed.

Lemma find_outbound_eq m st rs :
  find_outbound m st rs
  = match find (outbound_applies m) rs with
    | Some r => (Some r, (find_outbound m st rs).2)
    | None => (None, if existsb (outbound_declines m) rs then SMPP_ESME_RINVSRCADR else st)
    end.
Proof.
  rewrite (surjective_pairing (find_outbound m st rs)) at 1. rewrite find_outbound_some.
  destruct (find _ rs) eqn:Hf; [done|]. by rewrite find_outbound_none.
Qed.

Lemma find_inbound_eq m smsc st rs :
  find_inbound m smsc st rs
  = match find (inbound_applies m smsc) rs with
    | Some r => (Some r, (find_inbound m smsc st rs).2)
    | None => (None, if existsb (inbound_declines m smsc) rs then SMPP_ESME_RINVSRCADR else st)
    end.
Proof.
  rewrite (surjective_pairing (find_inbound m smsc st rs)) at 1. rewrite find_inbound_some.
  destruct (find _ rs) eqn:Hf; [done|]. by rewrite find_inbound_none.
Qed.

End lemmas.

(** What routing promises its clients: the message and the status for a table of
    routes. *)
Definition route_outcome `{KannelLib} (applies declines : SMPPRoute → bool)
    (set_target : SMPPRoute → Msg → Msg) (m : Msg) (rs : list SMPPRoute) : Msg * SMPPRouteStatus :=
  let s := smpp_route_status_create m in
  match find applies rs with
  | Some r => (set_target r m, routed s r)
  | None => (m, with_status s (if existsb declines rs then SMPP_ESME_RINVSRCADR
                               else SMPP_ESME_RINVDSTADR))
  end.

(** ** Properties *)

(** C38. Routing takes the first route of the table that applies, in the table's
    order: an outbound message gets that route's SMSC and cost, an inbound one its
    account; if none applies the status is an invalid source address when some
    route matched the receiver and declined the sender, and an invalid destination
    otherwise. The number of parts charged is the splitter's in all cases. *)
Theorem route_first_match {DB} `{OctstrLib} `{KannelLib} `{DatabaseOps DB} `{RegexLib}
    (smsc sid : Octstr) (m : Msg) (w : World DB) (rs : list SMPPRoute) :
  smsc ≠ [] → sid ≠ [] → outbound_routes w !! sid = Some rs →
  smpp_route_message_database SMPP_ROUTE_DIRECTION_OUTBOUND None (Some sid) m w
  = Some (route_outcome (outbound_applies m) (outbound_declines m)
            (λ r m, {| m with smsc_id := rt_smsc_id r |}) m rs, w) ∧
  smpp_route_message_database SMPP_ROUTE_DIRECTION_INBOUND (Some smsc) None m w
  = Some (route_outcome (inbound_applies m smsc) (inbound_declines m smsc)
            (λ r m, {| m with service := rt_system_id r |}) m (inbound_routes w), w).
Proof.
  intros Hsmsc Hsid Hrs. unfold smpp_route_message_database, route_outcome. split.
  - replace (octstr_len (Some sid) =? 0) with false by (by destruct sid).
    cbn [andb negb Z.eqb Pos.eqb SMPP_ROUTE_DIRECTION_OUTBOUND]. cbv zeta.
    unfold outbound_routes_of. rewrite bind_unfold, gets_bind.
    change (default [] (Some sid)) with sid. rewrite Hrs. cbn [mret M_ret]. rewrite find_outbound_eq. by destruct (find _ rs).
  - replace (octstr_len (Some smsc) =? 0) with false by (by destruct smsc).
    cbn [andb negb Z.eqb Pos.eqb SMPP_ROUTE_DIRECTION_OUTBOUND SMPP_ROUTE_DIRECTION_INBOUND].
    cbv zeta. rewrite gets_bind. change (default [] (Some smsc)) with smsc.
    rewrite find_inbound_eq. by destruct (find _ (inbound_routes w)).
Qed.

(** The cache of outbound routes is transparent: the table of an account is
    the database's the first time it is used and the remembered one until the
    routes are rebuilt, after which it is the database's again; using it changes
    nothing else, and the other accounts' tables not at all. *)
Theorem route_cache_refines {DB} `{OctstrLib} `{KannelLib} `{DatabaseOps DB} `{RegexLib}
    (sid : Octstr) (w : World DB) (f : Z → option Octstr → DB → list SMPPRoute) :
  get_routes = Some f →
  let rs := default (f SMPP_ROUTE_DIRECTION_OUTBOUND (Some sid) (db w)) (outbound_routes w !! sid) in
  (∃ w', outbound_routes_of sid w = Some (rs, w') ∧
     w' = {| w with outbound_routes := <[sid := rs]> (outbound_routes w) |} ∧
     outbound_routes_of sid w' = Some (rs, w')) ∧
  (∃ w', smpp_route_rebuild_database w = Some (tt, w') ∧
     inbound_routes w' = f SMPP_ROUTE_DIRECTION_INBOUND None (db w) ∧
     outbound_routes_of sid w'
     = Some (f SMPP_ROUTE_DIRECTION_OUTBOUND (Some sid) (db w),
             {| w' with outbound_routes :=
                  <[sid := f SMPP_ROUTE_DIRECTION_OUTBOUND (Some sid) (db w)]> ∅ |})).
Proof.
  intros Hf rs. split.
  - exists {| w with outbound_routes := <[sid := rs]> (outbound_routes w) |}.
    unfold outbound_routes_of, smpp_database_get_routes. rewrite !gets_bind, Hf. split_and!; [|done|].
    + subst rs. destruct (outbound_routes w !! sid) as [rs|] eqn:Hrs; [|done].
      simpl. rewrite insert_id by done. by destruct w.
    + simpl. by rewrite lookup_insert_eq.
  - unfold smpp_route_rebuild_database, smpp_database_get_routes. rewrite Hf.
    eexists. split; [done|]. split; [done|].
    unfold outbound_routes_of, smpp_database_get_routes. rewrite gets_bind. simpl.
    by rewrite lookup_empty, Hf.
Qed.
