(* ===== verification/Bearerbox.v ===== *)
(** smpp_bearerbox.c: the outbound queue with its database fallback, the writer's
    step, the reader's steps (reconnection, acknowledgements, messages) and the
    passes of the requeue thread. The queue is gwlib's priority queue: the message
    of the highest priority first, equal ones in the order of their arrival. *)
From S2P Require Import Prelude CLib Gwlib Types Kannel Dlr PduUtil IpBlock World Callbacks Esme Route.
Open Scope Z_scope.

(** Kannel's order on messages. *)
Class BoxEnv := {
  sms_priority_compare : Msg → Msg → Z;
}.

#[local] Instance box_env_ref : BoxEnv := { sms_priority_compare _ _ := 0 }.

Section bearerbox.
Context {DB : Type} `{TimeLib} `{OctstrLib} `{KannelLib} `{DatabaseOps DB} `{EsmeEnv} `{RegexLib}
  `{BoxEnv}.
(** The routing method of the server, and whether a routing plugin is loaded. *)
Context (method : option routing_method) (plugin : bool).
Abbreviation W := (M (World DB)).

Definition smpp_bearerbox_create : SMPPBearerbox :=
  {| bb_id := None; connection := false; last_msg := 0; alive := false; bb_open_acks := ∅ |}.

(** ** The outbound queue *)

Fixpoint prio_insert (m : SMPPBearerboxMsg) (q : list SMPPBearerboxMsg) : list SMPPBearerboxMsg :=
  match q with
  | [] => [m]
  | m' :: q => if sms_priority_compare (bb_msg m') (bb_msg m) <? 0 then m :: m' :: q
               else m' :: prio_insert m q
  end.

Definition produce_bb (m : SMPPBearerboxMsg) : W unit :=
  modify (λ w, {| w with bb_outbound_queue := prio_insert m (bb_outbound_queue w) |}).

(** [gwlist_search] with [smpp_bearerbox_online]. *)
Definition any_online (w : World DB) : bool :=
  existsb (λ b, match bearerboxes w !! b with Some c => alive c | None => false end) (bb_order w).

Definition smpp_bearerbox_add_to_queue (m : SMPPBearerboxMsg) : W unit :=
  online ← gets any_online;
  if online : bool then produce_bb m
  else
    s ← the_server;
    ok ← (if database_enable_queue s then smpp_database_add_queue_message (bb_msg m) else mret false);
    run_bb_callback (bb_callback_of m) (if ok : bool then 0 else SMPP_ESME_RSYSERR).

Definition smpp_bearerbox_msg_create (m : Msg) (cb : bb_callback) : SMPPBearerboxMsg :=
  {| bb_msg := m; bb_callback_of := cb; bb_msg_id := msg_id m |}.

Definition smpp_bearerbox_add_message (m : Msg) (cb : bb_callback) : W unit :=
  smpp_bearerbox_add_to_queue (smpp_bearerbox_msg_create m cb).

(** ** The writer: one message consumed from the queue *)

Definition smpp_bearerbox_outbound_step (b : nat) : W unit :=
  q ← gets bb_outbound_queue;
  match q with
  | [] => mret tt
  | m :: q =>
      modify (λ w, {| w with bb_outbound_queue := q |});;
      box ← read_bb b;
      if alive box && connection box then
        let m := {| m with bb_msg := {| (bb_msg m) with boxc_id := bb_id box |} |} in
        update_bb b (λ c, {| c with bb_open_acks := <[bb_msg_id m := m]> (bb_open_acks c) |});;
        ok ← next_write;
        if ok : bool then emit (EvDelivered b (bb_msg m))
        else
          update_bb b (λ c, {| c with bb_open_acks := base.delete (bb_msg_id m) (bb_open_acks c);
                                      alive := false |});;
          smpp_bearerbox_add_to_queue m
      else smpp_bearerbox_add_to_queue m
  end.

(** ** The reader *)

(** Kannel's [deliver_to_bearerbox_real] is [next_write]. *)
Definition smpp_bearerbox_deliver (b : nat) : W bool :=
  ok ← next_write;
  t ← now;
  (if ok : bool then update_bb b (λ c, {| c with last_msg := t |})
   else smpp_bearerbox_set_state b false);;
  mret ok.

Definition smpp_bearerbox_identify (b : nat) : W bool :=
  ok ← next_write;
  t ← now;
  when ok (update_bb b (λ c, {| c with last_msg := t |}));;
  mret ok.

(** The connection is dead: fail what waits for an acknowledgement, connect and
    identify. *)
Definition smpp_bearerbox_reconnect (b : nat) (connected : bool) : W unit :=
  box ← read_bb b;
  for_each (λ kv : Octstr * SMPPBearerboxMsg,
    update_bb b (λ c, {| c with bb_open_acks := base.delete kv.1 (bb_open_acks c) |});;
    run_bb_callback (bb_callback_of kv.2) SMPP_ESME_RSYSERR) (map_to_list (bb_open_acks box));;
  update_bb b (λ c, {| c with bb_open_acks := ∅; connection := connected |});;
  when connected
    (ok ← smpp_bearerbox_identify b;
     when ok (smpp_bearerbox_set_state b true)).

(** The status an acknowledgement stands for; [None] is an unknown code. *)
Definition ack_result (nack : option ack_status_t) : Z :=
  match nack with
  | Some ack_success | Some ack_buffered => 0
  | Some ack_failed => SMPP_ESME_RSUBMITFAIL
  | Some ack_failed_tmp | None => SMPP_ESME_RSYSERR
  end.

Definition smpp_bearerbox_handle_ack (b : nat) (ack_id : Octstr) (nack : option ack_status_t) : W unit :=
  box ← read_bb b;
  match bb_open_acks box !! ack_id with
  | Some m =>
      update_bb b (λ c, {| c with bb_open_acks := base.delete ack_id (bb_open_acks c) |});;
      run_bb_callback (bb_callback_of m) (ack_result nack)
  | None => mret tt
  end.

(** A conversion runs on the ESME's counters. *)
Definition msg_to_pdus (e : nat) (m : Msg) : W (option (list SMPP_PDU)) :=
  t ← now;
  c ← read_esme e;
  '(ps, c) ← deref (smpp_pdu_msg_to_pdu t m c);
  write_esme e c;;
  mret ps.

(** One deliver_sm, numbered by the ESME; [q] holds the fields that depend on
    where the message comes from. *)
Definition queue_deliver (e : nat) (q : SMPPQueuedPDU) (pd : SMPP_PDU) : W unit :=
  c ← read_esme e;
  update_esme e (λ c, {| c with esme_sequence_number := esme_sequence_number c + 1 |});;
  let n := esme_sequence_number c in
  p ← alloc_pdu {| q with pdu := Some {| pd with sequence_number := n |};
                          q_system_id := system_id c; smpp_esme := Some e;
                          callback := Some smpp_queues_callback_deliver_sm_resp_cb;
                          pdu_id := Some (fmt_ld n) |};
  smpp_queues_add_outbound p.

Definition from_bearerbox (b : nat) (ack_id : Octstr) : SMPPQueuedPDU :=
  {| smpp_queued_pdu_create with bearerbox := Some b; bearerbox_id := Some ack_id |}.
Definition from_database (gid : Z) : SMPPQueuedPDU :=
  {| smpp_queued_pdu_create with smpp_server := true; global_id := gid |}.

Definition smpp_bearerbox_routing_done (b : nat) (m : Msg) (r : SMPPRouteStatus) : W unit :=
  let ack_id := msg_id m in
  if status r =? SMPP_ESME_ROK then
    e ← smpp_esme_find_best_receiver (service m);
    match e with
    | Some e =>
        ps ← msg_to_pdus e m;
        for_each (queue_deliver e (from_bearerbox b ack_id)) (default [] ps)
    | None =>
        s ← the_server;
        if database_enable_queue s then
          ok ← smpp_database_add_message m;
          smpp_bearerbox_acknowledge (Some b) (Some ack_id) (if ok : bool then ack_success else ack_failed)
        else smpp_bearerbox_acknowledge (Some b) (Some ack_id) ack_failed_tmp
    end
  else smpp_bearerbox_acknowledge (Some b) (Some ack_id) ack_failed.

(** A NULL list of PDUs stops the process in [gwlist_consume]. *)
Definition smpp_bearerbox_requeue_routing_done (d : SMPPDatabaseMsg) (m : Msg) (r : SMPPRouteStatus)
    : W unit :=
  if status r =? SMPP_ESME_ROK then
    e ← smpp_esme_find_best_receiver (service m);
    match e with
    | Some e =>
        ps ← msg_to_pdus e m;
        ps ← deref ps;
        for_each (queue_deliver e (from_database (db_global_id d))) ps
    | None => smpp_database_remove (db_global_id d) 1
    end
  else smpp_database_remove (db_global_id d) 0.

(** A message of type sms from the bearerbox. *)
Definition smpp_bearerbox_handle_report (b : nat) (m : Msg) : W unit :=
  let ack_id := msg_id m in
  let sid := smpp_pdu_get_system_id_from_dlr_url (default [] (dlr_url m)) in
  e ← smpp_esme_find_best_receiver sid;
  match e with
  | Some e =>
      ps ← msg_to_pdus e m;
      match ps with
      | Some ps => for_each (queue_deliver e (from_bearerbox b ack_id)) ps
      | None => smpp_bearerbox_acknowledge (Some b) (Some ack_id) ack_success
      end
  | None =>
      s ← the_server;
      if database_enable_queue s then
        ok ← (if negb (octstr_len sid =? 0) then smpp_database_add_message m else mret false);
        smpp_bearerbox_acknowledge (Some b) (Some ack_id) (if ok : bool then ack_success else ack_failed)
      else smpp_bearerbox_acknowledge (Some b) (Some ack_id) ack_failed_tmp
  end.

Definition smpp_bearerbox_handle_sms (b : nat) (m : Msg) : W unit :=
  if bool_decide (sms_type m = report_mo) && negb (octstr_len (dlr_url m) =? 0)
  then smpp_bearerbox_handle_report b m
  else if bool_decide (sms_type m = mo) then
    r ← smpp_route_message method plugin SMPP_ROUTE_DIRECTION_INBOUND (smsc_id m) None m
          (smpp_bearerbox_routing_done_cb b m);
    match r with
    | Some (m, st) => smpp_bearerbox_routing_done b m st
    | None => mret tt
    end
  else smpp_bearerbox_acknowledge (Some b) (Some (msg_id m)) ack_failed.

(** No message within the read timeout: a heartbeat when the connection was
    quiet. *)
Definition smpp_bearerbox_heartbeat (b : nat) : W unit :=
  box ← read_bb b;
  t ← now;
  when (HEARTBEAT_INTERVAL <? t - last_msg box) (_ ← smpp_bearerbox_deliver b; mret tt).

(** What a message from the bearerbox asks for. *)
Inductive admin_command := cmd_shutdown | cmd_suspend | cmd_resume | cmd_identify | cmd_restart.

Definition smpp_bearerbox_handle_admin (b : nat) (command : admin_command) : W unit :=
  match command with
  | cmd_shutdown | cmd_restart => smpp_bearerbox_set_state b false
  | cmd_suspend | cmd_resume | cmd_identify => mret tt
  end.

(** ** The requeue thread *)

Definition requeue_mt (d : SMPPDatabaseMsg) : W unit :=
  if bool_decide (sms_type (db_msg d) = mt_push)
  then produce_bb (smpp_bearerbox_msg_create (db_msg d) (smpp_bearerbox_requeue_result_cb (db_global_id d)))
  else smpp_database_remove (db_global_id d) 0.

Definition requeue_mo (d : SMPPDatabaseMsg) : W unit :=
  if bool_decide (sms_type (db_msg d) = mo) then
    r ← smpp_route_message method plugin SMPP_ROUTE_DIRECTION_INBOUND (smsc_id (db_msg d)) None
          (db_msg d) (smpp_bearerbox_requeue_routing_done_cb d);
    match r with
    | Some (m, st) => smpp_bearerbox_requeue_routing_done d m st
    | None => mret tt
    end
  else smpp_database_remove (db_global_id d) 0.

Definition smpp_bearerbox_requeue_pass : W unit :=
  online ← gets any_online;
  s ← the_server;
  when (online && (negb (database_store_primary s) || database_enable_queue s))
    (ds ← smpp_database_get_bearerbox_mt_stored mt_push None 0; for_each requeue_mt ds);;
  when (online || database_store_primary s)
    (ds ← smpp_database_get_stored mo None 0; for_each requeue_mo ds).

End bearerbox.
