(* ===== verification/Queues.v ===== *)
(** smpp_queues.c: the handlers of the PDUs an ESME sends, the completion of
    routing, the steps of the inbound and outbound threads, and the passes of the
    simulation and requeue threads. *)
From S2P Require Import Prelude CLib Gwlib Types Kannel Dlr PduUtil IpBlock World Callbacks Esme.
From S2P Require Import Route Bearerbox.
From Stdlib Require Import QArith.QArith_base.
Open Scope Z_scope.

Definition smpp_queues_msg_set_dlr_url (now : Z) (sid : Octstr) (m : Msg) : Msg :=
  {| m with dlr_url := Some (sid ++ $"|" ++ fmt_ld now ++ $"|" ++ msg_id m) |}.

(** [every && (count % every) == 0] on unsigned longs. *)
Definition every_nth (every count : Z) : bool :=
  negb (every =? 0) && (count mod (every mod 2 ^ 64) =? 0).

(** The response to a request and the bind type it stands for. *)
Definition bind_kind (t : pdu_type) : option (pdu_type * Z) :=
  match t with
  | bind_transmitter => Some (bind_transmitter_resp, SMPP_ESME_TRANSMIT)
  | bind_transceiver => Some (bind_transceiver_resp, Z.lor SMPP_ESME_TRANSMIT SMPP_ESME_RECEIVE)
  | bind_receiver => Some (bind_receiver_resp, SMPP_ESME_RECEIVE)
  | _ => None
  end.

Section queues.
Context {DB : Type} `{TimeLib} `{OctstrLib} `{KannelLib} `{DatabaseOps DB} `{EsmeEnv} `{RegexLib}
  `{BoxEnv}.
Context (method : option routing_method) (plugin : bool).
(** The identifiers [msg_create] draws. *)
Context (uuid : nat → Octstr).
Abbreviation W := (M (World DB)).

Definition update_pdu (p : nat) (f : SMPPQueuedPDU → SMPPQueuedPDU) : W unit :=
  q ← read_pdu p; write_pdu p (f q).

Definition fresh_uuid : W Octstr :=
  n ← gets next_uuid;
  modify (λ w, {| w with next_uuid := S n |});;
  mret (uuid n).

(** A conversion of the PDU of a request, which is changed in place. *)
Definition convert_request (p : nat) (conv : M SMPP_PDU (option Msg * Z)) : W (option Msg * Z) :=
  q ← read_pdu p;
  pd ← pdu_of q;
  '(r, pd) ← deref (conv pd);
  write_pdu p {| q with pdu := Some pd |};;
  mret r.

(** A response with a status and without a message. *)
Definition respond (e : nat) (t : pdu_type) (seq st : Z) : W unit :=
  r ← smpp_queued_pdu_create_quick e t seq;
  update_pdu r (set_response (λ p, {| p with command_status := st |}));;
  smpp_queues_add_outbound r.

(** ** Routing of a submitted message is done *)

(** [!enable_prepaid_billing || smpp_database_deduct_credit(...)]. *)
Definition charge (e : nat) (cost : Q) : W bool :=
  '(_, g) ← read_global e;
  c ← read_esme e;
  if enable_prepaid_billing g =? 0 then mret true
  else smpp_database_deduct_credit (system_id c) cost.

Definition reject_submit (p e : nat) (st : Z) : W unit :=
  count_error e;;
  update_pdu p (λ q, {| (set_response (refuse_response st) q) with msg := None |});;
  smpp_queues_add_outbound p.

(** Hand the message over: to the database of accounts that are stored there, or
    to the bearerboxes. *)
Definition hand_over (p e : nat) (m : Msg) (finish : Z → W unit) (cb : bb_callback) : W unit :=
  '(_, g) ← read_global e;
  if negb (g_database_store_primary g =? 0) then
    ok ← smpp_database_add_message m;
    update_pdu p (λ q, {| q with msg := None |});;
    finish (if ok : bool then 0 else SMPP_ESME_RSYSERR)
  else smpp_bearerbox_add_message m cb.

Definition accept_submit (p e : nat) (m : Msg) : W unit :=
  t ← now;
  c ← read_esme e;
  sid ← deref (system_id c);
  let m := smpp_queues_msg_set_dlr_url t sid m in
  update_pdu p (λ q, {| (set_response (λ pd, {| pd with message_id := Some (msg_id m) |}) q)
                        with msg := Some m |});;
  hand_over p e m (smpp_queues_callback_submit_sm p) (smpp_queues_callback_submit_sm_cb p).

Definition accept_data (p e : nat) (m : Msg) : W unit :=
  hand_over p e m (smpp_queues_callback_data_sm p) (smpp_queues_callback_data_sm_cb p).

Definition routing_done (accept : nat → nat → Msg → W unit) (p : nat) (r : SMPPRouteStatus) : W unit :=
  q ← read_pdu p;
  e ← esme_of q;
  update_esme e (λ c, {| c with pending_routing := counter_dec (pending_routing c) |});;
  m ← deref (msg q);
  c ← read_esme e;
  let part_cost x := (inject_Z (parts r) * x)%Q in
  if status r =? SMPP_ESME_ROK then
    ok ← charge e (part_cost (cost r));
    if ok : bool then accept p e m else reject_submit p e SMPP_ESME_RSUBMITFAIL
  else if negb (octstr_len (smsc_id m) =? 0) then
    ok ← charge e (part_cost (default_cost c));
    if ok : bool then accept p e m else reject_submit p e SMPP_ESME_RSUBMITFAIL
  else reject_submit p e (status r).

Definition smpp_queues_submit_routing_done : nat → SMPPRouteStatus → W unit :=
  routing_done accept_submit.
Definition smpp_queues_data_sm_routing_done : nat → SMPPRouteStatus → W unit :=
  routing_done accept_data.

(** A routing callback with the message as the router left it. *)
Definition run_route_callback (cb : route_callback) (m : Msg) (st : SMPPRouteStatus) : W unit :=
  match cb with
  | smpp_queues_submit_routing_done_cb r =>
      update_pdu r (λ q, {| q with msg := Some m |});; smpp_queues_submit_routing_done r st
  | smpp_queues_data_sm_routing_done_cb r =>
      update_pdu r (λ q, {| q with msg := Some m |});; smpp_queues_data_sm_routing_done r st
  | smpp_bearerbox_routing_done_cb b _ => smpp_bearerbox_routing_done b m st
  | smpp_bearerbox_requeue_routing_done_cb d => smpp_bearerbox_requeue_routing_done d m st
  end.

(** The queued response and the routing of a converted message. *)
Definition route_submission (e : nat) (resp : pdu_type) (seq : Z) (m : Msg)
    (cb : nat → route_callback) : W unit :=
  c ← read_esme e;
  t ← now;
  sid ← deref (system_id c);
  let m := if negb (octstr_len (default_smsc c) =? 0) then {| m with smsc_id := default_smsc c |} else m in
  let m := smpp_queues_msg_set_dlr_url t sid m in
  r ← smpp_queued_pdu_create_quick e resp seq;
  update_pdu r (λ q, {| (set_response (λ pd, {| pd with message_id := Some (msg_id m) |}) q)
                        with msg := Some m |});;
  update_esme e (inc_pending_routing 1);;
  o ← smpp_route_message method plugin SMPP_ROUTE_DIRECTION_OUTBOUND None (system_id c) m (cb r);
  match o with
  | Some (m, st) => run_route_callback (cb r) m st
  | None => mret tt
  end.

(** ** Simulation *)

Definition produce_simulation (e : nat) (pd : SMPP_PDU) : W unit :=
  c ← read_esme e;
  p ← alloc_pdu {| smpp_queued_pdu_create with pdu := Some pd; q_system_id := system_id c |};
  modify (λ w, {| w with simulation_queue := simulation_queue w ++ [p] |}).

(** A NULL list of PDUs stops the process in [gwlist_consume]. *)
Definition simulate_message (e : nat) (m : Msg) : W unit :=
  ps ← msg_to_pdus e m;
  ps ← deref ps;
  for_each (produce_simulation e) ps.

(** The receipt of a simulated delivery. *)
Definition simulated_dlr (t : Z) (c : SMPPEsme) (sid : Octstr) (m : Msg) : Msg :=
  let fail := negb (simulate_dlr_fail c =? 0) in
  let m := smpp_queues_msg_set_dlr_url t sid
             {| m with sms_type := report_mo; dlr_mask := if fail then DLR_FAIL else DLR_SUCCESS |} in
  {| m with msgdata := Some (dlr_short_message (msg_id m) (if fail then $"000" else $"001")
       (strftime_ymdhms (gw_localtime (time m))) (strftime_ymdhms (gw_localtime t))
       (if fail then $"UNDELIV" else $"DELIVRD") (if fail then 1 else 0) (default [] (msgdata m))) |}.

Definition handle_simulated (p e : nat) (seq : Z) : W unit :=
  r ← smpp_queued_pdu_create_quick e submit_sm_resp seq;
  c ← read_esme e;
  let n := inbound_processed c in
  let answer st := update_pdu r (set_response (λ pd, {| pd with command_status := st |}));;
                   smpp_queues_add_outbound r in
  if every_nth (simulate_temporary_failure_every c) n then
    count_error e;; answer SMPP_ESME_RMSGQFUL
  else if every_nth (simulate_permanent_failure_every c) n then
    count_error e;; answer SMPP_ESME_RSUBMITFAIL
  else
    t ← now;
    u ← fresh_uuid;
    o ← convert_request p (smpp_submit_sm_to_msg t u c);
    match o with
    | (None, reason) => answer reason
    | (Some m, _) =>
        count_mt e;;
        update_pdu r (set_response (λ pd, {| pd with command_status := SMPP_ESME_ROK;
                                                     message_id := Some (msg_id m) |}));;
        let deliver := every_nth (simulate_deliver_every c) n in
        when deliver
          (sid ← deref (system_id c);
           smpp_queues_add_outbound r;;
           simulate_message e (simulated_dlr t c sid m));;
        when (every_nth (simulate_mo_every c) n)
          (simulate_message e
             (if deliver then {| (simulated_dlr t c (default [] (system_id c)) m) with
                                 sms_type := mo; msgdata := msgdata m;
                                 receiver := sender m; sender := receiver m |}
              else {| m with sms_type := mo; receiver := sender m; sender := receiver m |}));;
        when (negb deliver) (smpp_queues_add_outbound r)
    end.

(** ** Handlers of the inbound queue *)

(** The account's throughput is used up. *)
Definition throttled (t : Z) (g : SMPPEsmeGlobal) : bool :=
  negb (Qle_bool (throughput g) 0) && negb (Qle_bool (load_get (g_inbound_load g) t 1) (throughput g)).

Definition smpp_queues_handle_submit_sm (p : nat) : W unit :=
  q ← read_pdu p;
  e ← esme_of q;
  pd ← pdu_of q;
  c ← read_esme e;
  if negb (bit_set (bind_type c) SMPP_ESME_TRANSMIT) then
    respond e submit_sm_resp (sequence_number pd) SMPP_ESME_RINVBNDSTS;;
    smpp_queued_pdu_destroy p
  else
    '(_, g) ← read_global e;
    t ← now;
    if throttled t g then
      respond e submit_sm_resp (sequence_number pd) SMPP_ESME_RTHROTTLED;;
      smpp_queued_pdu_destroy p
    else
      smpp_esme_inbound_load_increase e;;
      (if negb (simulate c =? 0) then handle_simulated p e (sequence_number pd)
       else
         u ← fresh_uuid;
         o ← convert_request p (smpp_submit_sm_to_msg t u c);
         match o with
         | (None, reason) => respond e submit_sm_resp (sequence_number pd) reason
         | (Some m, _) => route_submission e submit_sm_resp (sequence_number pd) m
                            smpp_queues_submit_routing_done_cb
         end);;
      smpp_queued_pdu_destroy p.

Definition smpp_queues_handle_data_sm (p : nat) : W unit :=
  q ← read_pdu p;
  e ← esme_of q;
  pd ← pdu_of q;
  c ← read_esme e;
  if negb (bit_set (bind_type c) SMPP_ESME_TRANSMIT) then
    respond e data_sm_resp (sequence_number pd) SMPP_ESME_RINVBNDSTS;;
    smpp_queued_pdu_destroy p
  else
    '(_, g) ← read_global e;
    t ← now;
    if throttled t g then
      respond e data_sm_resp (sequence_number pd) SMPP_ESME_RTHROTTLED;;
      smpp_queued_pdu_destroy p
    else
      smpp_esme_inbound_load_increase e;;
      u ← fresh_uuid;
      o ← convert_request p (smpp_data_sm_to_msg t u c);
      match o with
      | (None, reason) => respond e data_sm_resp (sequence_number pd) reason
      | (Some m, _) => route_submission e data_sm_resp (sequence_number pd) m
                         smpp_queues_data_sm_routing_done_cb
      end;;
      smpp_queued_pdu_destroy p.

(** The answer to enquire_link and unbind. *)
Definition reply (e : nat) (t : pdu_type) (seq : Z) (disc : bool) : W unit :=
  r ← alloc_pdu {| smpp_queued_pdu_create with
         smpp_esme := Some e; pdu := Some (smpp_pdu_create t seq); disconnect := disc |};
  smpp_queues_add_outbound r.

Definition smpp_queues_handle_enquire_link (p : nat) : W unit :=
  q ← read_pdu p;
  pd ← pdu_of q;
  when (bool_decide (type pd = enquire_link))
    (e ← esme_of q; reply e enquire_link_resp (sequence_number pd) false);;
  smpp_queued_pdu_destroy p.

Definition smpp_queues_handle_unbind (p : nat) : W unit :=
  q ← read_pdu p;
  pd ← pdu_of q;
  when (bool_decide (type pd = unbind))
    (e ← esme_of q; reply e unbind_resp (sequence_number pd) true);;
  smpp_queued_pdu_destroy p.

(** What a successful bind copies from the account. *)
Definition apply_account (a : SMPPESMEAuthResult) (c : SMPPEsme) : SMPPEsme :=
  let sim {A} (x y : A) : A := if auth_simulate a =? 0 then y else x in
  {| c with
     default_smsc := if 0 <? octstr_len (auth_default_smsc a) then auth_default_smsc a else default_smsc c;
     alt_charset := if 0 <? octstr_len (auth_alt_charset a) then auth_alt_charset a else alt_charset c;
     default_cost := auth_default_cost a;
     simulate := sim (auth_simulate a) (simulate c);
     simulate_dlr_fail := sim (auth_simulate_dlr_fail a) (simulate_dlr_fail c);
     simulate_deliver_every := sim (auth_simulate_deliver_every a) (simulate_deliver_every c);
     simulate_permanent_failure_every :=
       sim (auth_simulate_permanent_failure_every a) (simulate_permanent_failure_every c);
     simulate_temporary_failure_every :=
       sim (auth_simulate_temporary_failure_every a) (simulate_temporary_failure_every c);
     simulate_mo_every := sim (auth_simulate_mo_every a) (simulate_mo_every c) |}.

(** The account's limits. *)
Definition apply_limits (s : SMPPServer) (a : SMPPESMEAuthResult) (g : SMPPEsmeGlobal) : SMPPEsmeGlobal :=
  {| g with throughput := auth_throughput a; max_binds := auth_max_binds a;
            enable_prepaid_billing := auth_enable_prepaid_billing a;
            g_database_store_primary := smpp_esme_effective_database_store_primary s (Some a) |}.

(** The bound ESME, and the two answers. *)
Definition bind_esme (kind : Z) (pd : SMPP_PDU) (c : SMPPEsme) : SMPPEsme :=
  {| c with bind_type := kind; authenticated := true; system_id := pdu_system_id pd;
            version := interface_version pd |}.
Definition accept_bind (s : SMPPServer) (pd : SMPP_PDU) : SMPP_PDU :=
  {| pd with command_status := SMPP_ESME_ROK; pdu_system_id := server_id s |}.
Definition refuse_bind (pd : SMPP_PDU) : SMPP_PDU := {| pd with command_status := SMPP_ESME_RBINDFAIL |}.

Definition smpp_queues_handle_bind_pdu (p : nat) : W unit :=
  q ← read_pdu p;
  e ← esme_of q;
  pd ← pdu_of q;
  match bind_kind (type pd) with
  | None => mret tt
  | Some (resp, kind) =>
      a ← smpp_esme_auth (pdu_system_id pd) (password pd) e;
      r ← alloc_pdu {| smpp_queued_pdu_create with
             smpp_esme := Some e; pdu := Some (smpp_pdu_create resp (sequence_number pd)) |};
      match a with
      | None =>
          update_pdu r (λ q, {| (set_response refuse_bind q) with disconnect := true |});;
          update_esme e (λ c, {| c with pending_disconnect := true |})
      | Some _ =>
          s ← the_server;
          update_esme e (bind_esme kind pd);;
          update_pdu r (set_response (accept_bind s));;
          smpp_esme_global_add e
      end;;
      smpp_queues_add_outbound r;;
      match a with
      | None => mret tt
      | Some a =>
          s ← the_server;
          update_esme e (apply_account a);;
          update_global e (apply_limits s a)
      end
  end;;
  smpp_queued_pdu_destroy p.

Definition smpp_queues_process_ack (e : nat) (seq st : Z) : W unit :=
  smpp_esme_outbound_load_increase e;;
  c ← read_esme e;
  let key := fmt_ld seq in
  match open_acks c !! key with
  | None => mret tt
  | Some p =>
      update_esme e (λ c, {| c with open_acks := base.delete key (open_acks c) |});;
      q ← read_pdu p;
      match callback q with
      | Some cb => run_callback cb p st
      | None => mret tt
      end
  end.

(** The ESME's side of taking a PDU from a queue. *)
Definition processed_inbound (t : Z) (c : SMPPEsme) : SMPPEsme :=
  {| c with time_last_pdu := t; time_last_queue_process := t;
            inbound_queued := counter_dec (inbound_queued c);
            inbound_processed := inbound_processed c + 1 |}.
Definition processed_outbound (t : Z) (c : SMPPEsme) : SMPPEsme :=
  {| c with time_last_queue_process := t; outbound_queued := counter_dec (outbound_queued c);
            outbound_processed := outbound_processed c + 1 |}.

(** One PDU of the inbound queue. *)
Definition smpp_queues_inbound_step : W unit :=
  iq ← gets inbound_queue;
  match iq with
  | [] => mret tt
  | p :: iq =>
      modify (λ w, {| w with inbound_queue := iq |});;
      q ← read_pdu p;
      e ← esme_of q;
      pd ← pdu_of q;
      t ← now;
      update_esme e (processed_inbound t);;
      match type pd with
      | bind_transmitter | bind_transceiver | bind_receiver => smpp_queues_handle_bind_pdu p
      | enquire_link => smpp_queues_handle_enquire_link p
      | unbind => smpp_queues_handle_unbind p
      | submit_sm => smpp_queues_handle_submit_sm p
      | data_sm => smpp_queues_handle_data_sm p
      | deliver_sm_resp =>
          smpp_queues_process_ack e (sequence_number pd) (command_status pd);;
          smpp_queued_pdu_destroy p
      | _ => smpp_queued_pdu_destroy p
      end
  end.

(** Packing and writing; what cannot be packed or written is not noticed. *)
Definition smpp_queues_send_pdu (e : nat) (pd : SMPP_PDU) : W unit := emit (EvSent e pd).

(** One PDU of the outbound queue. *)
Definition smpp_queues_outbound_step : W unit :=
  oq ← gets outbound_queue;
  match oq with
  | [] => mret tt
  | p :: oq =>
      modify (λ w, {| w with outbound_queue := oq |});;
      q ← read_pdu p;
      e ← esme_of q;
      t ← now;
      update_esme e (processed_outbound t);;
      c ← read_esme e;
      if connected c then
        when (disconnect q) (smpp_esme_stop_listening e);;
        when (bool_decide (is_Some (callback q))) (write_pdu p {| q with time_sent := t |});;
        pd ← pdu_of q;
        smpp_queues_send_pdu e pd;;
        when (disconnect q && negb (authenticated c)) (smpp_esme_cleanup e);;
        when (bool_decide (callback q = None)) (smpp_queued_pdu_destroy p)
      else when (bool_decide (callback q = None)) (smpp_queued_pdu_destroy p)
  end.

(** ** The simulation thread: one PDU of its queue *)

Definition smpp_queues_simulation_step : W unit :=
  sq ← gets simulation_queue;
  match sq with
  | [] => mret tt
  | p :: sq =>
      modify (λ w, {| w with simulation_queue := sq |});;
      q ← read_pdu p;
      pd ← pdu_of q;
      when (bool_decide (type pd = deliver_sm))
        (e ← smpp_esme_find_best_receiver (q_system_id q);
         match e with
         | Some e =>
             c ← read_esme e;
             update_esme e (λ c, {| c with esme_sequence_number := esme_sequence_number c + 1 |});;
             let n := esme_sequence_number c in
             write_pdu p {| q with callback := Some smpp_queues_callback_deliver_sm_resp_cb;
                                   pdu := Some {| pd with sequence_number := n |}; sequence := n;
                                   smpp_esme := Some e; pdu_id := Some (fmt_ld n) |};;
             smpp_queues_add_outbound p
         | None =>
             write_pdu p {| q with callback := Some smpp_queues_callback_deliver_sm_resp_cb |};;
             s ← the_server;
             if database_enable_queue s then
               ok ← smpp_database_add_pdu p;
               smpp_queues_callback_deliver_sm_resp p
                 (if ok : bool then SMPP_ESME_COMMAND_STATUS_QUEUED
                  else SMPP_ESME_COMMAND_STATUS_QUEUE_ERROR)
             else smpp_queues_callback_deliver_sm_resp p SMPP_ESME_RDELIVERYFAILURE
         end)
  end.

End queues.
