(* ===== verification/Requeue.v ===== *)
(** The delivery of stored messages: [smpp_esme_global_get_readers] and
    [smpp_esme_global_get_queued] of smpp_esme.c and the pass of the requeue thread
    of smpp_queues.c; and the unbind command of the HTTP interface. *)
From S2P Require Import Prelude CLib Gwlib Types Kannel Dlr PduUtil IpBlock World Callbacks Esme.
From S2P Require Import Route Bearerbox Queues.
Open Scope Z_scope.

(** The status codes of the HTTP answers used here. *)
Definition HTTP_OK : Z := 200.
Definition HTTP_NOT_FOUND : Z := 404.
Definition HTTP_NOT_ACCEPTABLE : Z := 406.

Section requeue.
Context {DB : Type} `{TimeLib} `{OctstrLib} `{KannelLib} `{DatabaseOps DB} `{EsmeEnv} `{RegexLib}
  `{BoxEnv}.
Abbreviation W := (M (World DB)).

(** ** Readers *)

Definition has_space (c : SMPPEsme) : bool := is_receiver c && (0 <? ack_space c).

(** The binds of a global that can take a stored message: the first, or all. *)
Definition readers_of (best_only : bool) (cs : list (nat * SMPPEsme)) : list nat :=
  let ok := filter (λ o, has_space o.2 = true) cs in
  (if best_only then take 1 ok else ok).*1.

(** The keys of the accounts the database has messages for and that have a
    receiver; the search is by the exact identifier. *)
Fixpoint capable_keys (queued : list Octstr) : W (list Octstr) :=
  match queued with
  | [] => mret []
  | k :: queued =>
      g ← gets (λ w, esmes w !! k);
      found ← match g with
              | Some g => cs ← read_esmes (binds g); mret (existsb (λ o, has_space o.2) cs)
              | None => mret false
              end;
      ks ← capable_keys queued;
      mret (if found : bool then k :: ks else ks)
  end.

Fixpoint readers (best_only : bool) (keys : list Octstr) : W (list nat) :=
  match keys with
  | [] => mret []
  | k :: keys =>
      o ← gets (λ w, esmes w !! k);
      g ← deref o;
      cs ← read_esmes (binds g);
      es ← readers best_only keys;
      mret (readers_of best_only cs ++ es)
  end.

Definition smpp_esme_global_get_readers (best_only : bool) : W (list nat) :=
  s ← the_server;
  keys ← (if database_enable_queue s then
            queued ← smpp_database_get_esmes_with_queued; capable_keys queued
          else es ← gets esmes; mret (map_to_list es).*1);
  readers best_only keys.

(** ** Queued messages *)

Fixpoint alloc_pdus (qs : list SMPPQueuedPDU) : W (list nat) :=
  match qs with
  | [] => mret []
  | q :: qs => p ← alloc_pdu q; ps ← alloc_pdus qs; mret (p :: ps)
  end.

(** A stored PDU the backend hands out: its key, the time the backend restored
    (0 where it keeps none) and the PDU. *)
Definition stored_pdu (service : option Octstr) (r : Octstr * (Z * option SMPP_PDU)) : SMPPQueuedPDU :=
  {| smpp_queued_pdu_create with bearerbox_id := Some r.1; time_sent := r.2.1; pdu := r.2.2;
     callback := Some database_queued_pdu_handler_cb; q_system_id := service; smpp_server := true |}.

(** A PDU made of a stored message. *)
Definition message_pdu (e : nat) (c : SMPPEsme) (from_dlr : bool) (gid : Z) (pd : SMPP_PDU)
    : SMPPQueuedPDU :=
  {| smpp_queued_pdu_create with
     pdu := Some pd; smpp_server := true; sequence := gid; from_dlr_table := from_dlr;
     q_system_id := system_id c; bearerbox_id := Some (fmt_ld gid); smpp_esme := Some e;
     callback := Some smpp_esme_db_queue_callback_cb |}.

(** The stored messages turned into PDUs. For a message without PDUs the code
    reads the identifier of the message it has just freed. *)
Fixpoint messages_to_pdus (e : nat) (from_dlr : bool) (ds : list SMPPDatabaseMsg) : W (list nat) :=
  match ds with
  | [] => mret []
  | d :: ds =>
      ps ← msg_to_pdus e (db_msg d);
      c ← read_esme e;
      match ps with
      | None => crash
      | Some ps =>
          qs ← alloc_pdus (map (message_pdu e c from_dlr (db_global_id d)) ps);
          rest ← messages_to_pdus e from_dlr ds;
          mret (qs ++ rest)
      end
  end.

Definition queued_for (e : nat) : W (list nat) :=
  c ← read_esme e;
  let limit := ack_space c in
  if 0 <? limit then
    stored ← smpp_database_get_stored_pdu (system_id c) limit;
    qs ← alloc_pdus (map (stored_pdu (system_id c)) stored);
    let limit := limit - Z.of_nat (length stored) in
    if 0 <? limit then
      dlrs ← smpp_database_get_dlrs (system_id c) limit;
      msgs ← smpp_database_get_stored report_mo (system_id c) (limit - Z.of_nat (length dlrs));
      q1 ← messages_to_pdus e true dlrs;
      q2 ← messages_to_pdus e false msgs;
      mret (qs ++ q1 ++ q2)
    else mret qs
  else mret [].

Fixpoint queued_for_all (es : list nat) : W (list nat) :=
  match es with
  | [] => mret []
  | e :: es => qs ← queued_for e; rest ← queued_for_all es; mret (qs ++ rest)
  end.

Definition smpp_esme_global_get_queued : W (list nat) :=
  es ← smpp_esme_global_get_readers true;
  queued_for_all es.

(** ** The requeue thread *)

Definition requeue_pdu (p : nat) : W unit :=
  q ← read_pdu p;
  best ← smpp_esme_find_best_receiver (q_system_id q);
  match best with
  | Some e =>
      pd ← pdu_of q;
      (if bool_decide (type pd = deliver_sm) then
         c ← read_esme e;
         update_esme e (λ c, {| c with esme_sequence_number := esme_sequence_number c + 1 |});;
         let n := esme_sequence_number c in
         write_pdu p {| q with smpp_esme := Some e; pdu := Some {| pd with sequence_number := n |};
                               pdu_id := Some (fmt_ld n) |}
       else write_pdu p {| q with smpp_esme := Some e |});;
      smpp_queues_add_outbound p
  | None =>
      cb ← deref (callback q);
      run_callback cb p SMPP_ESME_RMSGQFUL
  end.

Definition smpp_queues_requeue_pass : W unit :=
  ps ← smpp_esme_global_get_queued;
  for_each requeue_pdu ps.

(** ** The unbind command *)

Definition send_unbind (e : nat) : W unit :=
  c ← read_esme e;
  update_esme e (λ c, {| c with esme_sequence_number := esme_sequence_number c + 1 |});;
  p ← smpp_queued_pdu_create_quick e unbind (esme_sequence_number c);
  update_pdu p (λ q, {| q with disconnect := true |});;
  smpp_queues_add_outbound p.

(** The binds the command is for: the first with the number, or all. *)
Definition unbind_targets (bind_id : option Octstr) (cs : list (nat * SMPPEsme)) : list nat :=
  match bind_id with
  | Some b => if octlen b =? 0 then cs.*1
              else (take 1 (filter (λ o, id o.2 = atol (cstr b)) cs)).*1
  | None => cs.*1
  end.

(** The status and the message of the answer. *)
Definition smpp_esme_unbind_command (sid bind_id : option Octstr) : W (Z * Octstr) :=
  match sid with
  | None => mret (HTTP_NOT_ACCEPTABLE, $"You must specify a 'system-id' parameter")
  | Some s =>
      if octlen s =? 0
      then mret (HTTP_NOT_ACCEPTABLE, $"You must specify a 'system-id' parameter")
      else
        let key := octstr_tolower s in
        g ← gets (λ w, esmes w !! key);
        match g with
        | Some g =>
            cs ← read_esmes (binds g);
            let targets := unbind_targets bind_id cs in
            for_each send_unbind targets;;
            mret (HTTP_OK, fmt_ld (Z.of_nat (length targets)) ++ $" binds disconnected")
        | None => mret (HTTP_NOT_FOUND, $"No such system-id '" ++ key ++ $"' found")
        end
  end.

End requeue.
