(* ===== verification/Listener.v ===== *)
(** smpp_listener.c: the reaction to data on an ESME's connection and to a new
    connection. What the connection delivers is the argument of the step: a list of
    the results of the successive reads. *)
From S2P Require Import Prelude CLib Gwlib Types Kannel Dlr PduUtil IpBlock World Callbacks Run Esme.
Open Scope Z_scope.

(** One look at the connection: the length field ([smpp_pdu_read_len]: -1 for an
    impossible length, 0 when there are not enough bytes), the data of a PDU of that
    length when it has arrived, the unpacked PDU, and the end-of-file or error
    state. *)
Record conn_view := {
  cv_len : Z;
  cv_data : bool;
  cv_pdu : option SMPP_PDU;
  cv_closed : bool;
}.

(** The result code, the length that is remembered, and the PDU. *)
Definition smpp_listener_read_pdu (has_conn : bool) (len : Z) (v : conn_view)
    : Z * Z * option SMPP_PDU :=
  if negb has_conn then (-1, len, None)
  else
    let read len :=
      if cv_data v then
        match cv_pdu v with
        | Some p => (1, 0, Some p)
        | None => (-2, 0, None)
        end
      else ((if cv_closed v then -1 else 0), len, None) in
    if len =? 0 then
      if cv_len v =? -1 then (-2, 0, None)
      else if cv_len v =? 0 then ((if cv_closed v then -1 else 0), 0, None)
      else read (cv_len v)
    else read len.

Definition set_pending_len (n : Z) (c : SMPPEsme) : SMPPEsme := {| c with pending_len := n |}.
Definition set_errors (n : Z) (c : SMPPEsme) : SMPPEsme := {| c with errors := n |}.

Section listener.
Context {DB : Type} `{OctstrLib} `{KannelLib} `{DatabaseOps DB} `{EsmeEnv}.
Abbreviation W := (M (World DB)).

(** The while loop: PDUs are queued until a read gives none; without further data
    the read gives 0. *)
Fixpoint read_loop (e : nat) (vs : list conn_view) : W Z :=
  match vs with
  | [] => mret 0
  | v :: vs =>
      c ← read_esme e;
      let '(r, len, p) := smpp_listener_read_pdu (conn c) (pending_len c) v in
      update_esme e (set_pending_len len);;
      match p with
      | Some pd =>
          update_esme e (set_errors 0);;
          q ← alloc_pdu {| smpp_queued_pdu_create with pdu := Some pd; smpp_esme := Some e |};
          smpp_queues_add_inbound q;;
          read_loop e vs
      | None => mret r
      end
  end.

(** The connection of an ESME that is not bound is given up. *)
Definition too_many_errors (e : nat) : W unit :=
  smpp_esme_stop_listening e;;
  c ← read_esme e;
  when (negb (authenticated c)) (note_auth_failed (ip c);; smpp_esme_cleanup e).

Definition smpp_listener_event (e : nat) (vs : list conn_view) : W unit :=
  r ← read_loop e vs;
  if r =? 0 then mret tt
  else if r =? -1 then too_many_errors e
  else when (r =? -2)
    (update_esme e (λ c, set_errors (errors c + 1) c);;
     c ← read_esme e;
     when (SMPP_ESME_MAX_CONSECUTIVE_ERRORS <=? errors c) (too_many_errors e)).

(** A new connection; [ip] is NULL for an address that is not IPv4, [n] the value
    of the ESME counter. The result is the new ESME, none when the address is
    banned. *)
Definition smpp_listener_connection_callback (peer : option Octstr) (n : Z) : W (option nat) :=
  s ← the_server;
  t ← now;
  blocked ← match peer with
            | Some i =>
                if negb (octlen i =? 0) then
                  w ← get;
                  let '(b, bl) := smpp_listener_ip_is_blocked s t i (blocklist w) in
                  modify (λ w, {| w with blocklist := bl |});;
                  mret b
                else mret false
            | None => mret false
            end;
  if blocked : bool then mret None
  else
    e ← gets next_ptr;
    modify (λ w, {| w with next_ptr := S e;
      esme_heap := <[e := Live {| smpp_esme_create with
        conn := true; connected := true; time_connected := t; id := n; ip := peer;
        max_open_acks := default_max_open_acks s; event_container := true |}]> (esme_heap w) |});;
    mret (Some e).

End listener.

(** ** Lemmas *)

(** A PDU has arrived, whether or not its length was read before. *)
Definition arrives (v : conn_view) (pd : SMPP_PDU) : Prop :=
  0 < cv_len v ∧ cv_data v = true ∧ cv_pdu v = Some pd.

(** Bytes that are no PDU: an impossible length, or data that cannot be unpacked. *)
Definition garbage (v : conn_view) : Prop :=
  cv_len v = -1 ∨ (0 < cv_len v ∧ cv_data v = true ∧ cv_pdu v = None).

(** What the listener makes of a PDU. *)
Definition heard (e : nat) (pd : SMPP_PDU) : SMPPQueuedPDU :=
  {| smpp_queued_pdu_create with pdu := Some pd; smpp_esme := Some e |}.

Section lemmas.
Context {DB : Type} `{OctstrLib} `{KannelLib} `{DatabaseOps DB} `{EsmeEnv}.
Implicit Types (w : World DB).

Lemma read_arrived len v pd :
  arrives v pd → smpp_listener_read_pdu true len v = (1, 0, Some pd).
Proof.
  intros (Hl & Hd & Hp). unfold smpp_listener_read_pdu. cbn [negb].
  destruct (Z.eqb_spec len 0) as [->|]; [|by rewrite Hd, Hp].
  destruct (Z.eqb_spec (cv_len v) (-1)); [lia|]. destruct (Z.eqb_spec (cv_len v) 0); [lia|].
  by rewrite Hd, Hp.
Qed.

Lemma read_garbage v : garbage v → smpp_listener_read_pdu true 0 v = (-2, 0, None).
Proof.
  unfold smpp_listener_read_pdu. cbn [negb]. rewrite Z.eqb_refl.
  intros [->|(Hl & Hd & Hp)]; [done|].
  destruct (Z.eqb_spec (cv_len v) (-1)); [lia|]. destruct (Z.eqb_spec (cv_len v) 0); [lia|].
  by rewrite Hd, Hp.
Qed.

(** One PDU more in the inbound queue. *)
Lemma read_loop_arrived e c v pd vs w :
  lookup_esme w e = Some c → conn c = true → arrives v pd →
  ∃ w', read_loop e (v :: vs) w = read_loop e vs w' ∧
    lookup_esme w' e = Some (inc_inbound_queued (set_errors 0 (set_pending_len 0 c))) ∧
    inbound_queue w' = inbound_queue w ++ [next_ptr w] ∧ next_ptr w' = S (next_ptr w) ∧
    pdus w' = <[next_ptr w := Live (heard e pd)]> (pdus w).
Proof.
  intros Hc Hconn Hv. cbn [read_loop]. rewrite (read_esme_bind _ c) by done.
  rewrite Hconn, (read_arrived _ _ pd), (update_esme_bind _ c) by done.
  rewrite (update_esme_bind _ _ _ _ _ (lookup_with_esme_eq _ _ _)), alloc_bind.
  rewrite bind_unfold.
  rewrite (add_inbound_run _ (heard e pd) e (set_errors 0 (set_pending_len 0 c)));
    [|exact (lookup_with_alloc_eq _ _)|done|exact (lookup_with_esme_eq _ _ _)].
  eexists. split; [reflexivity|]. split; [exact (lookup_with_esme_eq _ _ _)|]. done.
Qed.

Lemma read_loop_all e vs pds rest c w :
  lookup_esme w e = Some c → conn c = true → Forall2 arrives vs pds →
  ∃ w' c', read_loop e (vs ++ rest) w = read_loop e rest w' ∧ lookup_esme w' e = Some c' ∧
    conn c' = true ∧ inbound_queued c' = inbound_queued c + Z.of_nat (length pds) ∧
    errors c' = (if decide (pds = []) then errors c else 0) ∧
    pending_len c' = (if decide (pds = []) then pending_len c else 0) ∧
    inbound_queue w' = inbound_queue w ++ seq (next_ptr w) (length pds) ∧
    next_ptr w' = (next_ptr w + length pds)%nat ∧
    (∀ k pd, pds !! k = Some pd → lookup_pdu w' (next_ptr w + k) = Some (heard e pd)) ∧
    (∀ p, (p < next_ptr w)%nat → lookup_pdu w' p = lookup_pdu w p).
Proof.
  intros Hc Hconn Hvs. revert c w Hc Hconn.
  induction Hvs as [|v pd vs pds Hv _ IH]; intros c w Hc Hconn.
  { exists w, c. split_and!; try done; try (simpl; lia). by rewrite app_nil_r. }
  destruct (read_loop_arrived e c v pd (vs ++ rest) w) as (w1 & Hrun & Hc1 & Hq1 & Hn1 & Hp1); try done.
  destruct (IH _ w1 Hc1 Hconn) as (w' & c' & Hrun' & Hc' & Hcn & Hin & He & Hpl & Hq & Hn & Hps & Hold).
  exists w', c'. rewrite <- app_comm_cons, Hrun, Hrun'. split_and!; try done.
  - rewrite Hin. cbn [length inc_inbound_queued inbound_queued set_errors set_pending_len]. lia.
  - rewrite He. by destruct (decide (pds = [])).
  - rewrite Hpl. by destruct (decide (pds = [])).
  - rewrite Hq, Hq1, Hn1, <- app_assoc. done.
  - rewrite Hn, Hn1. cbn. lia.
  - intros [|k] pd' Hk; cbn in Hk; simplify_eq.
    + rewrite Hold by lia. unfold lookup_pdu. by rewrite Hp1, Nat.add_0_r, lookup_insert_eq.
    + rewrite <- (Hps k pd' Hk), Hn1. f_equal. lia.
  - intros p Hp. rewrite Hold by lia. unfold lookup_pdu. rewrite Hp1, lookup_insert_ne by lia. done.
Qed.

End lemmas.

(** ** Properties *)

(** C30. Nothing a client sends is lost or reordered: a read event that finds any
    number of complete PDUs queues each of them once, in the order they came, under
    fresh addresses and for this ESME, counts them, and clears the error counter; no
    PDU queued before changes. *)
Theorem listener_queues_in_order {DB} `{OctstrLib} `{KannelLib} `{DatabaseOps DB} `{EsmeEnv}
    (w : World DB) (e : nat) (c : SMPPEsme) (vs : list conn_view) (pds : list SMPP_PDU) :
  lookup_esme w e = Some c → conn c = true → Forall2 arrives vs pds → pds ≠ [] →
  ∃ w' c', smpp_listener_event e vs w = Some (tt, w') ∧
    inbound_queue w' = inbound_queue w ++ seq (next_ptr w) (length pds) ∧
    (∀ k pd, pds !! k = Some pd → lookup_pdu w' (next_ptr w + k) = Some (heard e pd)) ∧
    (∀ p, (p < next_ptr w)%nat → lookup_pdu w' p = lookup_pdu w p) ∧
    lookup_esme w' e = Some c' ∧ errors c' = 0 ∧
    inbound_queued c' = inbound_queued c + Z.of_nat (length pds).
Proof.
  intros Hc Hconn Hvs Hne.
  destruct (read_loop_all e vs pds [] c w) as (w' & c' & Hrun & Hc' & _ & Hin & He & _ & Hq & _ & Hps & Hold);
    try done.
  rewrite app_nil_r in Hrun. exists w', c'. unfold smpp_listener_event. rewrite bind_unfold, Hrun.
  rewrite decide_False in He by done. by split_and!.
Qed.

(** C31. Ten bad reads in a row close a bound connection, and not one fewer: every
    read event with garbage adds one to the error counter and queues nothing; the
    ESME is listened to as before until the counter reaches
    [SMPP_ESME_MAX_CONSECUTIVE_ERRORS], and not any more from then on. *)
Theorem garbage_closes_after_ten {DB} `{OctstrLib} `{KannelLib} `{DatabaseOps DB} `{EsmeEnv}
    (w : World DB) (e : nat) (c : SMPPEsme) (vs : list conn_view) :
  lookup_esme w e = Some c → conn c = true → pending_len c = 0 → authenticated c = true →
  Forall garbage vs → errors c < SMPP_ESME_MAX_CONSECUTIVE_ERRORS →
  errors c + Z.of_nat (length vs) ≤ SMPP_ESME_MAX_CONSECUTIVE_ERRORS →
  ∃ w' c', for_each (λ v, smpp_listener_event e [v]) vs w = Some (tt, w') ∧
    lookup_esme w' e = Some c' ∧ errors c' = errors c + Z.of_nat (length vs) ∧
    inbound_queue w' = inbound_queue w ∧ blocklist w' = blocklist w ∧
    if errors c' =? SMPP_ESME_MAX_CONSECUTIVE_ERRORS
    then connected c' = false ∧ event_container c' = false
    else connected c' = connected c ∧ event_container c' = event_container c.
Proof.
  intros Hc Hconn Hpl Hauth Hvs. revert c w Hc Hconn Hpl Hauth.
  induction Hvs as [|v vs Hv _ IH]; intros c w Hc Hconn Hpl Hauth Hlt Hle.
  { exists w, c. split_and!; try done; [cbn; lia|].
    by destruct (Z.eqb_spec (errors c) SMPP_ESME_MAX_CONSECUTIVE_ERRORS); [lia|]. }
  set (c1 := set_errors (errors c + 1) (set_pending_len 0 c)).
  assert (∃ w1, smpp_listener_event e [v] w = Some (tt, w1) ∧ inbound_queue w1 = inbound_queue w ∧
    blocklist w1 = blocklist w ∧
    lookup_esme w1 e = Some (if SMPP_ESME_MAX_CONSECUTIVE_ERRORS <=? errors c1 then silence c1 else c1))
    as (w1 & Hrun & Hq & Hbl & Hc1).
  { unfold smpp_listener_event. cbn [read_loop].
    rewrite bind_bind, (read_esme_bind _ c), Hconn, Hpl, (read_garbage v) by done.
    rewrite bind_bind, (update_esme_bind _ c), ret_bind by done. cbn [Z.eqb Z.opp Pos.eqb].
    cbn [when]. rewrite (update_esme_bind _ _ _ _ _ (lookup_with_esme_eq _ _ _)).
    rewrite (read_esme_bind _ _ _ _ (lookup_with_esme_eq _ _ _)).
    change (set_errors _ (set_pending_len 0 c)) with c1.
    destruct (SMPP_ESME_MAX_CONSECUTIVE_ERRORS <=? errors c1); cbn [when].
    - unfold too_many_errors, smpp_esme_stop_listening.
      rewrite (update_esme_bind _ _ _ _ _ (lookup_with_esme_eq _ _ _)).
      rewrite (read_esme_bind _ _ _ _ (lookup_with_esme_eq _ _ _)).
      change (authenticated (silence _)) with (authenticated c). rewrite Hauth. cbn [negb when].
      eexists. split; [reflexivity|]. split; [done|]. split; [done|]. exact (lookup_with_esme_eq _ _ _).
    - eexists. split; [reflexivity|]. split; [done|]. split; [done|]. exact (lookup_with_esme_eq _ _ _). }
  cbn [for_each length] in *. rewrite bind_unfold, Hrun.
  change (errors c1) with (errors c + 1) in Hc1. rewrite Nat2Z.inj_succ in *.
  destruct (Z.leb_spec SMPP_ESME_MAX_CONSECUTIVE_ERRORS (errors c + 1)) as [Hmax|Hmax].
  - destruct vs as [|v' vs]; [|cbn [length] in Hle; lia].
    exists w1, (silence c1). split_and!; try done. cbn [silence errors c1 set_errors connected event_container].
    by destruct (Z.eqb_spec (errors c + 1) SMPP_ESME_MAX_CONSECUTIVE_ERRORS); [|lia].
  - destruct (IH c1 w1) as (w' & c' & Hrun' & Hc' & He & Hq' & Hbl' & Hend); try done.
    { cbn. lia. }
    exists w', c'. cbn [c1 set_errors errors set_pending_len connected event_container] in *.
    split_and!; try done; [lia|congruence..].
Qed.
