(* ===== verification/Replies.v ===== *)
(** What becomes of a submission: the decision that follows routing as a function
    of the account, the database and the bearerboxes, and the theorems that the
    handlers of smpp_queues.c implement it, answer every request once and with the
    request's sequence number, and translate a bearerbox's acknowledgement. *)
From S2P Require Import Prelude CLib Gwlib Types Kannel Dlr PduUtil IpBlock World Callbacks Run Esme.
From S2P Require Import Route Bearerbox Queues.
Open Scope Z_scope.

(** ** Specification *)

(** A response that waits to be completed, the ESME it is for and its account. *)
Record awaiting {DB} (w : World DB) (p : nat) (q : SMPPQueuedPDU) (pd : SMPP_PDU) (e : nat)
    (c : SMPPEsme) (key : Octstr) (g : SMPPEsmeGlobal) : Prop := {
  aw_pdu : lookup_pdu w p = Some q;
  aw_body : pdu q = Some pd;
  aw_callback : callback q = None;
  aw_esme : smpp_esme q = Some e;
  aw_live : lookup_esme w e = Some c;
  aw_global : smpp_esme_global c = Some key;
  aw_account : esmes w !! key = Some g;
}.

(** From [w] to [w'] the response [p], of the type and with the sequence number it
    had, got the status [st], kept its message identifier if the status is success
    and lost it otherwise, and was put on its way; nothing else was. *)
Record answered {DB} (w w' : World DB) (p : nat) (pd : SMPP_PDU) (st : Z) : Prop := {
  an_queue : outbound_queue w' = outbound_queue w ++ [p];
  an_pdu : ∃ q' pd', lookup_pdu w' p = Some q' ∧ pdu q' = Some pd' ∧ callback q' = None ∧
           type pd' = type pd ∧ sequence_number pd' = sequence_number pd ∧
           command_status pd' = st ∧
           message_id pd' = if st =? SMPP_ESME_ROK then message_id pd else None;
  an_others : ∀ p', p' ≠ p → lookup_pdu w' p' = lookup_pdu w p';
  an_inbound : inbound_queue w' = inbound_queue w;
  an_bearerbox : bb_outbound_queue w' = bb_outbound_queue w;
  an_routing : route_requests w' = route_requests w;
  an_boxes : bearerboxes w' = bearerboxes w;
}.

(** What follows routing: the answer, or the message handed to the bearerboxes. *)
Inductive verdict :=
  | Answer (st : Z)
  | HandOver (m : Msg).

Section verdict.
Context {DB : Type} `{KannelLib} `{DatabaseOps DB} `{BoxEnv}.

(** The price of a part, none when the message is not accepted at all. *)
Definition price (c : SMPPEsme) (m : Msg) (r : SMPPRouteStatus) : option Q :=
  if status r =? SMPP_ESME_ROK then Some (cost r)
  else if negb (octstr_len (smsc_id m) =? 0) then Some (default_cost c) else None.

Definition charged (c : SMPPEsme) (g : SMPPEsmeGlobal) (x : Q) (d : DB) : bool * DB :=
  if enable_prepaid_billing g =? 0 then (true, d)
  else match deduct_credit with Some f => f (system_id c) x d | None => (false, d) end.

Definition stored (m : Msg) (kind : Z) (d : DB) : bool * DB :=
  match add_message with Some f => f m kind d | None => (false, d) end.

Definition store_answer (r : bool * DB) : verdict * DB :=
  (Answer (if r.1 then SMPP_ESME_ROK else SMPP_ESME_RSYSERR), r.2).

(** Where an accepted message goes: to the database for accounts that are stored
    there, else to the bearerboxes, else to the database if queueing is enabled. *)
Definition placed (w : World DB) (g : SMPPEsmeGlobal) (m : Msg) (d : DB) : verdict * DB :=
  if negb (g_database_store_primary g =? 0) then store_answer (stored m SMPP_DATABASE_STORE_PRIMARY d)
  else if any_online w then (HandOver m, d)
  else if database_enable_queue (server w)
  then store_answer (stored m SMPP_DATABASE_STORE_BEARERBOX_QUEUE d)
  else (Answer SMPP_ESME_RSYSERR, d).

Definition decide_submission (w : World DB) (c : SMPPEsme) (g : SMPPEsmeGlobal) (m m' : Msg)
    (r : SMPPRouteStatus) : verdict * DB :=
  match price c m r with
  | None => (Answer (status r), db w)
  | Some x =>
      let (ok, d) := charged c g (inject_Z (parts r) * x) (db w) in
      if ok : bool then placed w g m' d else (Answer SMPP_ESME_RSUBMITFAIL, d)
  end.

(** The decision's effect on the queues; a response whose message was handed over
    still waits. *)
Definition carried_out (w w' : World DB) (p : nat) (pd : SMPP_PDU) (e : nat) (key : Octstr)
    (cb : bb_callback) (v : verdict) : Prop :=
  match v with
  | Answer st => answered w w' p pd st
  | HandOver m =>
      bb_outbound_queue w'
      = prio_insert {| bb_msg := m; bb_callback_of := cb; bb_msg_id := msg_id m |} (bb_outbound_queue w) ∧
      outbound_queue w' = outbound_queue w ∧ inbound_queue w' = inbound_queue w ∧
      route_requests w' = route_requests w ∧ bearerboxes w' = bearerboxes w ∧
      (∀ p', p' ≠ p → lookup_pdu w' p' = lookup_pdu w p') ∧
      ∃ q' pd' c' g', awaiting w' p q' pd' e c' key g' ∧
        type pd' = type pd ∧ sequence_number pd' = sequence_number pd ∧ message_id pd' = message_id pd
  end.

End verdict.

(** ** Lemmas *)

(** Named states. *)
Definition with_db {DB} (w : World DB) (d : DB) : World DB := {| w with db := d |}.
Definition with_global {DB} (w : World DB) (key : Octstr) (g : SMPPEsmeGlobal) : World DB :=
  {| w with esmes := <[key := g]> (esmes w) |}.
Definition enqueued {DB} (w : World DB) (p : nat) : World DB :=
  {| w with outbound_queue := outbound_queue w ++ [p] |}.

(** Between two states only the response [p], ESMEs, accounts and the database
    may differ. *)
Record same_except {DB} (p : nat) (w w' : World DB) : Prop := {
  se_outbound : outbound_queue w' = outbound_queue w;
  se_inbound : inbound_queue w' = inbound_queue w;
  se_bearerbox : bb_outbound_queue w' = bb_outbound_queue w;
  se_routing : route_requests w' = route_requests w;
  se_boxes : bearerboxes w' = bearerboxes w ∧ bb_order w' = bb_order w;
  se_now : w_now w' = w_now w ∧ server w' = server w;
  se_others : ∀ p', p' ≠ p → lookup_pdu w' p' = lookup_pdu w p';
}.

#[export] Instance same_except_preorder {DB} p : PreOrder (same_except (DB := DB) p).
Proof.
  split; [by split|]. intros w1 w2 w3 [] []. split; try congruence.
  1,2: split; destruct_and!; congruence.
  intros p' Hp. by rewrite se_others1, se_others0.
Qed.

Lemma same_with_pdu {DB} p (w : World DB) q : same_except p w (with_pdu w p q).
Proof. split; try done. intros p' Hp. rewrite lookup_with_pdu. by case_bool_decide. Qed.

Lemma same_with_esme {DB} p (w : World DB) e c : same_except p w (with_esme w e c).
Proof. by split. Qed.
Lemma same_with_global {DB} p (w : World DB) key g : same_except p w (with_global w key g).
Proof. by split. Qed.
Lemma same_with_db {DB} p (w : World DB) d : same_except p w (with_db w d).
Proof. by split. Qed.

(** Everything but a response, along a chain of named states. *)
Ltac same :=
  repeat (etransitivity;
    [|first [apply same_with_pdu|apply same_with_esme|apply same_with_global|apply same_with_db]]);
  reflexivity || eassumption.

Section lemmas.
Context {DB : Type} `{TimeLib} `{OctstrLib} `{KannelLib} `{DatabaseOps DB} `{EsmeEnv} `{RegexLib}
  `{BoxEnv}.
Implicit Types (w : World DB).

Lemma with_db_id w : with_db w (db w) = w.
Proof. by destruct w. Qed.

Lemma db_call_run {A} (f : DB → A * DB) w :
  db_call f w = Some ((f (db w)).1, with_db w (f (db w)).2).
Proof. unfold db_call. rewrite get_bind. by destruct (f (db w)). Qed.

Lemma update_pdu_run p q f w :
  lookup_pdu w p = Some q → update_pdu p f w = Some (tt, with_pdu w p (f q)).
Proof. intros Hq. unfold update_pdu. rewrite (read_pdu_bind _ q) by done. by apply (write_pdu_run _ q). Qed.

(** The parts of [awaiting] no action on other parts of the state touches. *)
Lemma awaiting_with_db w d p q pd e c key g :
  awaiting w p q pd e c key g → awaiting (with_db w d) p q pd e c key g.
Proof. by intros []. Qed.

Lemma awaiting_with_esme w p q pd e c c' key g :
  awaiting w p q pd e c key g → smpp_esme_global c' = smpp_esme_global c →
  awaiting (with_esme w e c') p q pd e c' key g.
Proof. intros [] Hg. split; try done; [apply lookup_with_esme_eq|congruence]. Qed.

Lemma awaiting_with_pdu w p q q' pd pd' e c key g :
  awaiting w p q pd e c key g → pdu q' = Some pd' → callback q' = None → smpp_esme q' = Some e →
  awaiting (with_pdu w p q') p q' pd' e c key g.
Proof. intros [] ???. split; try done. apply lookup_with_pdu_eq. Qed.

Lemma awaiting_with_global w p q pd e c key g g' :
  awaiting w p q pd e c key g → awaiting (with_global w key g') p q pd e c key g'.
Proof. intros []. split; try done. cbn. by rewrite lookup_insert_eq. Qed.

(** A pair of counters. *)
Lemma count_awaiting (fe : SMPPEsme → SMPPEsme) (fg : SMPPEsmeGlobal → SMPPEsmeGlobal)
    w p q pd e c key g :
  awaiting w p q pd e c key g → smpp_esme_global (fe c) = smpp_esme_global c →
  (update_esme e fe;; update_global e fg) w
  = Some (tt, with_global (with_esme w e (fe c)) key (fg g)) ∧
  awaiting (with_global (with_esme w e (fe c)) key (fg g)) p q pd e (fe c) key (fg g).
Proof.
  intros Haw Hfe. split; [|by eapply awaiting_with_global, awaiting_with_esme].
  destruct Haw. by rewrite (count_run _ _ e c key g).
Qed.

(** A response put on its way. *)
Lemma add_outbound_awaiting w p q pd e c key g :
  awaiting w p q pd e c key g →
  smpp_queues_add_outbound p w = Some (tt, enqueued (with_esme w e (inc_outbound_queued c)) p).
Proof. intros []. by rewrite (add_outbound_run p q e c). Qed.

Lemma answered_intro w wk p q pd pd' e c c' key g st :
  same_except p w wk → awaiting wk p q pd' e c key g →
  type pd' = type pd → sequence_number pd' = sequence_number pd → command_status pd' = st →
  message_id pd' = (if st =? SMPP_ESME_ROK then message_id pd else None) →
  answered w (enqueued (with_esme wk e c') p) p pd st.
Proof.
  intros [] []. intros. split; cbn; try congruence; [|done|by destruct_and!]. by exists q, pd'.
Qed.

(** What a finished submission counts for. *)
Definition book_esme (st : Z) (c : SMPPEsme) : SMPPEsme :=
  if st =? SMPP_ESME_ROK then {| c with mt_counter := mt_counter c + 1 |}
  else {| c with error_counter := error_counter c + 1 |}.
Definition book_account (st : Z) (g : SMPPEsmeGlobal) : SMPPEsmeGlobal :=
  if st =? SMPP_ESME_ROK then {| g with g_mt_counter := g_mt_counter g + 1 |}
  else {| g with g_error_counter := g_error_counter g + 1 |}.

(** Count, complete the response, send it. *)
Lemma finish_run (fe : SMPPEsme → SMPPEsme) (fg : SMPPEsmeGlobal → SMPPEsmeGlobal)
    (f : SMPPQueuedPDU → SMPPQueuedPDU) w p q pd pd' e c key g st :
  awaiting w p q pd e c key g → smpp_esme_global (fe c) = smpp_esme_global c →
  pdu (f q) = Some pd' → callback (f q) = None → smpp_esme (f q) = Some e →
  type pd' = type pd → sequence_number pd' = sequence_number pd → command_status pd' = st →
  message_id pd' = (if st =? SMPP_ESME_ROK then message_id pd else None) →
  ∃ w', (((update_esme e fe;; update_global e fg);; _ ← pdu_of q; write_pdu p (f q));;
         smpp_queues_add_outbound p) w = Some (tt, w') ∧
    answered w w' p pd st ∧ db w' = db w ∧ lookup_esme w' e = Some (inc_outbound_queued (fe c)) ∧
    esmes w' = <[key := fg g]> (esmes w).
Proof.
  intros Haw Hfe Hpd Hcb He Hty Hseq Hst Hmid.
  destruct (count_awaiting fe fg _ _ _ _ _ _ _ _ Haw Hfe) as [Hcount Haw1].
  pose proof (awaiting_with_pdu _ _ _ (f q) _ pd' _ _ _ _ Haw1 Hpd Hcb He) as Haw2.
  eexists. split.
  { rewrite bind_bind, bind_unfold, Hcount, bind_bind, (pdu_of_bind _ pd), (write_pdu_bind _ q)
      by (apply Haw || apply Haw1).
    by rewrite (add_outbound_awaiting _ _ _ _ _ _ _ _ Haw2). }
  split; [|split; [done|split; [apply lookup_with_esme_eq|done]]].
  eapply answered_intro; [|exact Haw2|done..]. same.
Qed.

Lemma callback_run w p q pd e c key g st :
  awaiting w p q pd e c key g →
  ∃ w', smpp_queues_callback_submit_sm p st w = Some (tt, w') ∧ answered w w' p pd st ∧ db w' = db w ∧
    lookup_esme w' e = Some (inc_outbound_queued (book_esme st c)) ∧
    esmes w' = <[key := book_account st g]> (esmes w).
Proof.
  intros Haw. unfold smpp_queues_callback_submit_sm, book_esme, book_account.
  rewrite (read_pdu_bind _ q), (esme_of_bind _ e) by apply Haw.
  unfold count_mt, count_error.
  destruct (Z.eqb_spec st SMPP_ESME_ROK) as [->|Hst]; cbn [negb].
  - refine (finish_run _ _ (set_response accept_response) _ _ _ _ (accept_response pd) _ _ _ _ _ Haw
              _ _ _ _ _ _ _ _); try done; [|by destruct Haw..].
    cbn. by rewrite (aw_body _ _ _ _ _ _ _ _ Haw).
  - refine (finish_run _ _ (set_response (refuse_response st)) _ _ _ _ (refuse_response st pd) _ _ _ _
              _ Haw _ _ _ _ _ _ _ _); try done; [|by destruct Haw..|].
    + cbn. by rewrite (aw_body _ _ _ _ _ _ _ _ Haw).
    + by destruct (Z.eqb_spec st SMPP_ESME_ROK).
Qed.


(** ** Routing is done *)

Lemma charge_run w p q pd e c key g x :
  awaiting w p q pd e c key g →
  charge e x w = Some ((charged c g x (db w)).1, with_db w (charged c g x (db w)).2).
Proof.
  intros Haw. unfold charge, charged.
  rewrite (read_global_bind _ c key g), (read_esme_bind _ c) by apply Haw.
  destruct (enable_prepaid_billing g =? 0); [by rewrite with_db_id|].
  unfold smpp_database_deduct_credit. destruct deduct_credit as [f|]; [|by rewrite with_db_id].
  apply db_call_run.
Qed.

Lemma add_message_run w m :
  smpp_database_add_message m w
  = Some ((stored m SMPP_DATABASE_STORE_PRIMARY (db w)).1,
          with_db w (stored m SMPP_DATABASE_STORE_PRIMARY (db w)).2).
Proof.
  unfold smpp_database_add_message, stored.
  destruct add_message as [f|]; [apply db_call_run|by rewrite with_db_id].
Qed.

Lemma add_queue_message_run w m :
  smpp_database_add_queue_message m w
  = Some ((stored m SMPP_DATABASE_STORE_BEARERBOX_QUEUE (db w)).1,
          with_db w (stored m SMPP_DATABASE_STORE_BEARERBOX_QUEUE (db w)).2).
Proof.
  unfold smpp_database_add_queue_message, stored.
  destruct add_message as [f|]; [apply db_call_run|by rewrite with_db_id].
Qed.

Lemma answered_from p pd st w w1 w' :
  same_except p w w1 → answered w1 w' p pd st → answered w w' p pd st.
Proof.
  intros [] []. split; try congruence; [|destruct_and!; congruence].
  intros p' Hp. by rewrite an_others0, se_others0.
Qed.

Lemma reject_run w p q pd e c key g st :
  awaiting w p q pd e c key g → st ≠ SMPP_ESME_ROK →
  ∃ w', reject_submit p e st w = Some (tt, w') ∧ db w' = db w ∧ answered w w' p pd st ∧
    pending_routing <$> lookup_esme w' e = Some (pending_routing c).
Proof.
  intros Haw Hst. unfold reject_submit, count_error.
  match goal with |- context [(update_esme e ?fe;; update_global e ?fg)] =>
    destruct (count_awaiting fe fg _ _ _ _ _ _ _ _ Haw eq_refl) as [Hcount Haw1] end.
  rewrite bind_unfold, Hcount, bind_unfold, (update_pdu_run _ q) by apply Haw1.
  eassert (Haw2 : awaiting (with_pdu _ p {| (set_response (refuse_response st) q) with msg := None |})
    p _ (refuse_response st pd) e _ key _).
  { eapply (awaiting_with_pdu _ _ _ _ _ _ _ _ _ _ Haw1); [|apply Haw..].
    cbn. by rewrite (aw_body _ _ _ _ _ _ _ _ Haw). }
  rewrite (add_outbound_awaiting _ _ _ _ _ _ _ _ Haw2). eexists. split; [done|]. split; [done|]. split; [|exact (f_equal _ (lookup_with_esme_eq _ _ _))].
  eapply answered_intro; [|exact Haw2|done..|by destruct (Z.eqb_spec st SMPP_ESME_ROK)]. same.
Qed.

(** The two callbacks a message is handed over with. *)
Definition response_callback (cb : bb_callback) (p : nat) : Prop :=
  cb = smpp_queues_callback_submit_sm_cb p ∨ cb = smpp_queues_callback_data_sm_cb p.

Lemma response_callback_run cb p w q pd e c key g st :
  response_callback cb p → awaiting w p q pd e c key g →
  ∃ w', run_bb_callback cb st w = Some (tt, w') ∧ answered w w' p pd st ∧ db w' = db w ∧
    lookup_esme w' e = Some (inc_outbound_queued (book_esme st c)) ∧
    esmes w' = <[key := book_account st g]> (esmes w).
Proof. intros [->| ->] Haw; exact (callback_run _ _ _ _ _ _ _ _ st Haw). Qed.

Lemma pending_booked st c :
  pending_routing <$> Some (inc_outbound_queued (book_esme st c)) = Some (pending_routing c).
Proof. unfold book_esme. by destruct (st =? SMPP_ESME_ROK). Qed.

(** An accepted message is placed as the specification says; [f] is the callback
    it is handed over with, run at once when it is stored. *)
Lemma hand_over_run f cb w p q pd e c key g m :
  response_callback cb p → (∀ st, f st = run_bb_callback cb st) → awaiting w p q pd e c key g →
  ∃ w', hand_over p e m f cb w = Some (tt, w') ∧ db w' = (placed w g m (db w)).2 ∧
    carried_out w w' p pd e key cb (placed w g m (db w)).1 ∧
    pending_routing <$> lookup_esme w' e = Some (pending_routing c).
Proof.
  intros Hcb Hf Haw. unfold hand_over, placed. rewrite (read_global_bind _ c key g) by apply Haw.
  destruct (g_database_store_primary g =? 0); cbn [negb].
  - unfold smpp_bearerbox_add_message, smpp_bearerbox_add_to_queue. rewrite gets_bind.
    destruct (any_online w).
    { eexists. split; [reflexivity|]. split; [done|].
      split; [|exact (f_equal (fmap pending_routing) (aw_live _ _ _ _ _ _ _ _ Haw))].
      repeat (split; [done|]). exists q, pd, c, g. split; [destruct Haw; by split|done]. }
    unfold the_server. rewrite gets_bind. destruct (database_enable_queue (server w)).
    + rewrite bind_unfold, add_queue_message_run. unfold store_answer. cbn [fst snd bb_msg bb_callback_of].
      destruct (response_callback_run cb p _ _ _ _ _ _ _
        (if (stored m SMPP_DATABASE_STORE_BEARERBOX_QUEUE (db w)).1 then 0 else SMPP_ESME_RSYSERR)
        Hcb (awaiting_with_db _ (stored m SMPP_DATABASE_STORE_BEARERBOX_QUEUE (db w)).2 _ _ _ _ _ _ _ Haw))
        as (w' & Hrun & Hans & Hdb & Hesme & _).
      exists w'. split; [exact Hrun|]. split; [exact Hdb|].
    split; [|by rewrite Hesme, pending_booked].
      eapply answered_from; [apply same_with_db|exact Hans].
    + rewrite ret_bind. cbn [bb_callback_of].
      destruct (response_callback_run cb p _ _ _ _ _ _ _ SMPP_ESME_RSYSERR Hcb Haw)
        as (w' & Hrun & Hans & Hdb & Hesme & _).
      exists w'. by rewrite Hesme, pending_booked.
  - rewrite bind_unfold, add_message_run. cbn [fst snd]. unfold store_answer. cbn [fst snd].
    rewrite bind_unfold, (update_pdu_run _ q) by apply Haw. rewrite Hf.
    edestruct (response_callback_run cb p) as (w' & Hrun & Hans & Hdb & Hesme & _); [done| |].
    { eapply (awaiting_with_pdu _ _ _ {| q with msg := None |});
        [apply (awaiting_with_db _ (stored m SMPP_DATABASE_STORE_PRIMARY (db w)).2 _ _ _ _ _ _ _ Haw)
        |apply Haw..]. }
    exists w'. split; [exact Hrun|]. split; [exact Hdb|].
    split; [|by rewrite Hesme, pending_booked].
    eapply answered_from; [|exact Hans]. same.
Qed.

Lemma carried_from p pd pd1 e key cb v w w1 w' :
  same_except p w w1 → type pd1 = type pd → sequence_number pd1 = sequence_number pd →
  message_id pd1 = message_id pd →
  carried_out w1 w' p pd1 e key cb v → carried_out w w' p pd e key cb v.
Proof.
  intros Hs Ht Hn Hi. destruct v as [st|m]; cbn [carried_out].
  - intros Ha. destruct (answered_from _ _ _ _ _ _ Hs Ha). split; try done.
    by rewrite <- Ht, <- Hn, <- Hi.
  - destruct Hs. intros (?&?&?&?&?&Ho&?). rewrite <- Ht, <- Hn, <- Hi. destruct_and!.
    split_and!; try congruence.
    intros p' Hp. by rewrite Ho, se_others0.
Qed.

(** [accept] places [m'] and hands it over with [cb]. *)
Definition places (accept : nat → nat → Msg → W DB unit) (cb : bb_callback) (m m' : Msg)
    (w : World DB) (p : nat) (pd : SMPP_PDU) (e : nat) (c : SMPPEsme) (key : Octstr) (g : SMPPEsmeGlobal)
    : Prop :=
  ∃ w', accept p e m w = Some (tt, w') ∧ db w' = (placed w g m' (db w)).2 ∧
    carried_out w w' p pd e key cb (placed w g m' (db w)).1 ∧
    pending_routing <$> lookup_esme w' e = Some (pending_routing c).

Lemma accept_data_places w p q pd e c key g m :
  awaiting w p q pd e c key g →
  places accept_data (smpp_queues_callback_data_sm_cb p) m m w p pd e c key g.
Proof. intros Haw. unfold places, accept_data. apply (hand_over_run _ _ _ _ q); [by right|done|done]. Qed.

Lemma accept_submit_places w p q pd e c key g m sid :
  awaiting w p q pd e c key g → system_id c = Some sid → message_id pd = Some (msg_id m) →
  places accept_submit (smpp_queues_callback_submit_sm_cb p) m
    (smpp_queues_msg_set_dlr_url (w_now w) sid m) w p pd e c key g.
Proof.
  intros Haw Hsid Hid. unfold places, accept_submit, now. rewrite gets_bind.
  rewrite (read_esme_bind _ c), Hsid, deref_bind by apply Haw. cbv zeta.
  rewrite bind_unfold, (update_pdu_run _ q) by apply Haw.
  set (m' := smpp_queues_msg_set_dlr_url (w_now w) sid m).
  set (q1 := {| (set_response _ q) with msg := Some m' |}).
  assert (awaiting (with_pdu w p q1) p q1 {| pd with message_id := Some (msg_id m') |} e c key g) as Haw1.
  { eapply (awaiting_with_pdu _ _ _ _ _ _ _ _ _ _ Haw); [|apply Haw..].
    cbn. by rewrite (aw_body _ _ _ _ _ _ _ _ Haw). }
  destruct (hand_over_run (smpp_queues_callback_submit_sm p) (smpp_queues_callback_submit_sm_cb p)
    _ _ _ _ _ _ _ _ m' (or_introl eq_refl) (λ _, eq_refl) Haw1) as (w' & Hrun & Hdb & Hout & Hpend).
  exists w'. split; [exact Hrun|]. split; [exact Hdb|]. split; [|exact Hpend].
  eapply carried_from; [apply same_with_pdu| | | |exact Hout]; by rewrite ?Hid.
Qed.

(** Routing is done: the decision of the specification is carried out. *)
Lemma routing_done_run accept cb m m' w p q pd e c key g r :
  let c1 := {| c with pending_routing := counter_dec (pending_routing c) |} in
  awaiting w p q pd e c key g → msg q = Some m →
  (∀ d, places accept cb m m' (with_db (with_esme w e c1) d) p pd e c1 key g) →
  ∃ w', routing_done accept p r w = Some (tt, w') ∧
    db w' = (decide_submission w c g m m' r).2 ∧
    carried_out w w' p pd e key cb (decide_submission w c g m m' r).1 ∧
    pending_routing <$> lookup_esme w' e = Some (counter_dec (pending_routing c)).
Proof.
  intros c1 Haw Hm Haccept. unfold routing_done.
  rewrite (read_pdu_bind _ q), (esme_of_bind _ e) by apply Haw.
  rewrite (update_esme_bind _ c), Hm, deref_bind by apply Haw. fold c1.
  assert (awaiting (with_esme w e c1) p q pd e c1 key g) as Haw1 by by eapply awaiting_with_esme.
  rewrite (read_esme_bind _ c1) by apply Haw1. unfold decide_submission, price. cbv zeta.
  assert (∀ x, ∃ w', (ok ← charge e (inject_Z (parts r) * x);
      if ok : bool then accept p e m else reject_submit p e SMPP_ESME_RSUBMITFAIL) (with_esme w e c1)
      = Some (tt, w') ∧
    let v := let (ok, d) := charged c g (inject_Z (parts r) * x) (db w) in
             if ok : bool then placed w g m' d else (Answer SMPP_ESME_RSUBMITFAIL, d) in
    db w' = v.2 ∧ carried_out w w' p pd e key cb v.1 ∧
    pending_routing <$> lookup_esme w' e = Some (counter_dec (pending_routing c))) as Hcharge.
  { intros x. rewrite bind_unfold, (charge_run _ _ _ _ _ _ _ _ _ Haw1).
    change (charged c1 g _ _) with (charged c g (inject_Z (parts r) * x)%Q (db w)).
    destruct (charged c g _ (db w)) as [ok d]. cbn [fst snd]. destruct ok.
    - destruct (Haccept d) as (w' & Hrun & Hdb & Hout & Hpend). exists w'. split_and!; try done.
      eapply carried_from; [|done..|exact Hout]. same.
    - destruct (reject_run _ _ _ _ _ _ _ _ SMPP_ESME_RSUBMITFAIL (awaiting_with_db _ d _ _ _ _ _ _ _ Haw1))
        as (w' & Hrun & Hdb & Hans & Hpend); [done|].
      exists w'. split_and!; try done. eapply answered_from; [|exact Hans]. same. }
  destruct (Z.eqb_spec (status r) SMPP_ESME_ROK) as [Hs|Hs]; [by destruct (Hcharge (cost r))|].
  change (default_cost c1) with (default_cost c).
  destruct (octstr_len (smsc_id m) =? 0); cbn [negb]; [|by destruct (Hcharge (default_cost c))].
  destruct (reject_run _ _ _ _ _ _ _ _ (status r) Haw1 Hs) as (w' & Hrun & Hdb & Hans & Hpend).
  exists w'. split_and!; try done. eapply answered_from; [|exact Hans]. same.
Qed.

End lemmas.

(** ** Properties *)

(** C3. When routing of a submission is done, the decision of the specification is
    carried out: a message without a route and without a preset SMSC is refused with
    the router's status; an account that is billed pays the route's cost (or its
    default cost) times the number of parts, and is refused if it cannot; an
    accepted message is stored for accounts that are stored first, goes to the
    bearerboxes when one is online, and is stored or refused with a system error
    otherwise. The database changes by the charge and the store only, the response
    is put on its way exactly when there is a final status, and the submission no
    longer counts as being routed. *)
Theorem routing_done_decides {DB} `{TimeLib} `{OctstrLib} `{KannelLib} `{DatabaseOps DB} `{EsmeEnv}
    `{RegexLib} `{BoxEnv} (w : World DB) (p : nat) (q : SMPPQueuedPDU) (pd : SMPP_PDU) (e : nat)
    (c : SMPPEsme) (key : Octstr) (g : SMPPEsmeGlobal) (m : Msg) (sid : Octstr) (r : SMPPRouteStatus)
    (data : bool) :
  awaiting w p q pd e c key g → msg q = Some m → message_id pd = Some (msg_id m) →
  system_id c = Some sid →
  let v := decide_submission w c g m (if data then m else smpp_queues_msg_set_dlr_url (w_now w) sid m) r in
  ∃ w', (if data then smpp_queues_data_sm_routing_done p r else smpp_queues_submit_routing_done p r) w
        = Some (tt, w') ∧
    db w' = v.2 ∧
    carried_out w w' p pd e key
      (if data then smpp_queues_callback_data_sm_cb p else smpp_queues_callback_submit_sm_cb p) v.1 ∧
    pending_routing <$> lookup_esme w' e = Some (counter_dec (pending_routing c)).
Proof.
  intros Haw Hm Hid Hsid v. subst v.
  destruct data; eapply routing_done_run; try done; intros d.
  - eapply accept_data_places, awaiting_with_db. by eapply awaiting_with_esme.
  - eapply (accept_submit_places (with_db (with_esme w e _) d)); [|done|done].
    apply awaiting_with_db. by eapply awaiting_with_esme.
Qed.
