(* ===== verification/Submissions.v ===== *)
(** The life of a submission, from the request to the response: which places hold
    a response, that the handlers of submit_sm and data_sm put a new one into
    exactly one of them, and what the steps of the bearerbox's writer and reader do
    with it. *)
From S2P Require Import Prelude CLib Gwlib Types Kannel Dlr PduUtil IpBlock World Callbacks Run Esme.
From S2P Require Import Route Bearerbox Queues Replies.
Open Scope Z_scope.

(** ** Specification *)

(** The response a callback completes. *)
Definition bb_response (cb : bb_callback) : option nat :=
  match cb with
  | smpp_queues_callback_submit_sm_cb r | smpp_queues_callback_data_sm_cb r => Some r
  | smpp_bearerbox_requeue_result_cb _ => None
  end.
Definition route_response (cb : route_callback) : option nat :=
  match cb with
  | smpp_queues_submit_routing_done_cb r | smpp_queues_data_sm_routing_done_cb r => Some r
  | _ => None
  end.

Definition msg_response (m : SMPPBearerboxMsg) : option nat := bb_response (bb_callback_of m).

(** The responses a bearerbox's unacknowledged messages hold. *)
Definition box_responses (b : SMPPBearerbox) : list nat :=
  omap msg_response (map_to_list (bb_open_acks b)).*2.

(** The queued PDUs held by the outbound queue, and by the messages that wait for
    a bearerbox, for its acknowledgement, or for a router. *)
Definition held {DB} (w : World DB) : list nat :=
  outbound_queue w ++ omap msg_response (bb_outbound_queue w)
  ++ omap route_response (route_requests w)
  ++ ((map_to_list (bearerboxes w)).*2 ≫= box_responses).

(** The status a request is refused with before it is looked at. *)
Definition gate (t : Z) (c : SMPPEsme) (g : SMPPEsmeGlobal) `{EsmeEnv} : option Z :=
  if negb (bit_set (bind_type c) SMPP_ESME_TRANSMIT) then Some SMPP_ESME_RINVBNDSTS
  else if throttled t g then Some SMPP_ESME_RTHROTTLED else None.

(** From [w] to [w'] one response of the type [t] and with the sequence number [n]
    was created, and it is held in exactly one place. *)
Record one_response {DB} (w w' : World DB) (t : pdu_type) (n : Z) : Prop := {
  or_held : held w' ≡ₚ next_ptr w :: held w;
  or_pdu : ∃ q pd, lookup_pdu w' (next_ptr w) = Some q ∧ pdu q = Some pd ∧ type pd = t ∧
                   sequence_number pd = n;
}.

(** ** Lemmas *)

Section lemmas.
Context {DB : Type} `{TimeLib} `{OctstrLib} `{KannelLib} `{DatabaseOps DB} `{EsmeEnv} `{RegexLib}
  `{BoxEnv}.
Implicit Types (w : World DB).

Lemma prio_insert_perm m q : prio_insert m q ≡ₚ m :: q.
Proof.
  induction q as [|m' q IH]; [done|]. cbn [prio_insert]. destruct (_ <? 0); [done|].
  rewrite IH. apply Permutation_swap.
Qed.

Lemma held_answered w w' p pd st : answered w w' p pd st → held w' ≡ₚ p :: held w.
Proof.
  intros []. unfold held. rewrite an_queue, an_bearerbox, an_routing, an_boxes, <- app_assoc.
  symmetry. apply Permutation_middle.
Qed.

Lemma held_carried_out w w' p pd e key cb v :
  response_callback cb p → carried_out w w' p pd e key cb v → held w' ≡ₚ p :: held w.
Proof.
  intros Hcb. destruct v as [st|m]; [apply held_answered|].
  intros (Hbb&Hout&_&Hroute&Hbox&_). unfold held. rewrite Hbb, Hout, Hroute, Hbox, prio_insert_perm.
  assert (msg_response {| bb_msg := m; bb_callback_of := cb; bb_msg_id := msg_id m |} = Some p) as Hp
    by by destruct Hcb as [->| ->].
  cbn [omap list_omap]. rewrite Hp. symmetry. apply Permutation_middle.
Qed.

(** *** A new response *)

(** The response of [smpp_queued_pdu_create_quick]. *)
Definition new_response (e : nat) (c : SMPPEsme) (t : pdu_type) (n : Z) : SMPPQueuedPDU :=
  {| smpp_queued_pdu_create with smpp_esme := Some e; pdu := Some (smpp_pdu_create t n);
     q_system_id := system_id c; smpp_server := true |}.

Lemma create_quick_bind {B} e c t n w (k : nat → W DB B) :
  lookup_esme w e = Some c →
  (smpp_queued_pdu_create_quick e t n ≫= k) w = k (next_ptr w) (with_alloc w (new_response e c t n)).
Proof.
  intros Hc. unfold smpp_queued_pdu_create_quick. by rewrite bind_bind, (read_esme_bind _ c).
Qed.

Lemma same_with_alloc w q : same_except (next_ptr w) w (with_alloc w q).
Proof. split; try done. intros p' Hp. rewrite lookup_with_alloc. by rewrite bool_decide_false. Qed.

(** A refusal: the response of the next free address. *)
Lemma respond_run e c t n st w :
  lookup_esme w e = Some c → st ≠ SMPP_ESME_ROK →
  ∃ w', respond e t n st w = Some (tt, w') ∧ db w' = db w ∧ esmes w' = esmes w ∧
    lookup_esme w' e = Some (inc_outbound_queued c) ∧
    answered w w' (next_ptr w) (smpp_pdu_create t n) st.
Proof.
  intros Hc Hst. unfold respond. rewrite (create_quick_bind _ c) by done.
  rewrite bind_unfold, (update_pdu_run _ _ _ _ (lookup_with_alloc_eq w (new_response e c t n))).
  erewrite (add_outbound_run _ _ e c); [|apply lookup_with_pdu_eq|done|done|done].
  eexists. split; [reflexivity|]. split; [done|]. split; [done|].
  split; [apply lookup_with_esme_eq|].
  split; try done.
  - do 2 eexists. split; [apply lookup_with_pdu_eq|]. split_and!; [done..|].
    rewrite smpp_pdu_create_message_id. by destruct (Z.eqb_spec st SMPP_ESME_ROK).
  - intros p' Hp. etransitivity; [apply lookup_with_pdu|]. rewrite bool_decide_false by done.
    etransitivity; [apply lookup_with_alloc|]. by rewrite bool_decide_false.
Qed.

(** *** Routing *)

Definition with_routes w (rs : gmap Octstr (list SMPPRoute)) : World DB := {| w with outbound_routes := rs |}.
Definition routing_cb (cb : nat → route_callback) : Prop :=
  cb = smpp_queues_submit_routing_done_cb ∨ cb = smpp_queues_data_sm_routing_done_cb.

Lemma routing_cb_response cb r : routing_cb cb → route_response (cb r) = Some r.
Proof. by intros [->| ->]. Qed.

(** The database method answers at once, and changes the target of the message
    only. *)
Lemma route_database_run sid m w :
  ∃ m' st rs, smpp_route_message_database SMPP_ROUTE_DIRECTION_OUTBOUND None sid m w
              = Some ((m', st), with_routes w rs) ∧ msg_id m' = msg_id m.
Proof.
  unfold smpp_route_message_database. cbv zeta. cbn [Z.eqb Pos.eqb andb SMPP_ROUTE_DIRECTION_OUTBOUND].
  destruct (octstr_len sid =? 0); cbn [negb].
  { exists m, (smpp_route_status_create m), (outbound_routes w). split; [|done].
    cbn [Z.eqb Pos.eqb andb SMPP_ROUTE_DIRECTION_INBOUND]. unfold with_routes. by destruct w. }
  unfold outbound_routes_of, smpp_database_get_routes. rewrite bind_bind, gets_bind.
  destruct (outbound_routes w !! default [] sid) as [rs|] eqn:Hrs; [|destruct get_routes as [f|]].
  all: rewrite ?bind_bind, ?ret_bind, ?gets_bind, ?bind_bind, ?modify_bind, ?ret_bind.
  - destruct (find_outbound m _ rs) as [[r|] st]; do 2 eexists; exists (outbound_routes w);
      (split; [unfold with_routes; destruct w; reflexivity|done]).
  - destruct (find_outbound m _ _) as [[r|] st]; do 3 eexists; (split; [reflexivity|done]).
  - destruct (find_outbound m _ _) as [[r|] st]; do 3 eexists; (split; [reflexivity|done]).
Qed.

Lemma run_route_callback_run cb w r q pd e c key g m st sid :
  routing_cb cb → awaiting w r q pd e c key g → system_id c = Some sid → message_id pd = Some (msg_id m) →
  ∃ w' bcb v, run_route_callback (cb r) m st w = Some (tt, w') ∧ response_callback bcb r ∧
    carried_out w w' r pd e key bcb v.
Proof.
  intros Hcb Haw Hsid Hmid.
  assert (awaiting (with_pdu w r {| q with msg := Some m |}) r {| q with msg := Some m |} pd e c key g)
    as Haw1 by (eapply awaiting_with_pdu; [exact Haw|apply Haw..]).
  destruct Hcb as [->| ->]; cbn [run_route_callback];
    rewrite bind_unfold, (update_pdu_run _ q) by apply Haw.
  - destruct (routing_done_run accept_submit (smpp_queues_callback_submit_sm_cb r) m
      (smpp_queues_msg_set_dlr_url (w_now w) sid m) _ _ _ _ _ _ _ _ st Haw1 eq_refl)
      as (w' & Hrun & _ & Hout & _).
    { intros d. eapply (accept_submit_places (with_db (with_esme (with_pdu w r _) e _) d));
        [|done|done]. apply awaiting_with_db. by eapply awaiting_with_esme. }
    do 3 eexists. split; [exact Hrun|]. split; [by left|].
    eapply carried_from; [apply same_with_pdu|done..|exact Hout].
  - destruct (routing_done_run accept_data (smpp_queues_callback_data_sm_cb r) m m
      _ _ _ _ _ _ _ _ st Haw1 eq_refl) as (w' & Hrun & _ & Hout & _).
    { intros d. eapply accept_data_places. apply awaiting_with_db. by eapply awaiting_with_esme. }
    do 3 eexists. split; [exact Hrun|]. split; [by right|].
    eapply carried_from; [apply same_with_pdu|done..|exact Hout].
Qed.

Lemma held_same p w w' : same_except p w w' → held w' = held w.
Proof. intros []. unfold held. destruct_and!. congruence. Qed.

Lemma answered_one w w' pd st :
  answered w w' (next_ptr w) pd st → one_response w w' (type pd) (sequence_number pd).
Proof.
  intros Ha. split; [by eapply held_answered|].
  destruct Ha as [_ (q' & pd' & ? & ? & _ & ? & ? & _) _ _ _ _ _]. by exists q', pd'.
Qed.

Lemma carried_one w w' pd e key cb v :
  response_callback cb (next_ptr w) → carried_out w w' (next_ptr w) pd e key cb v →
  one_response w w' (type pd) (sequence_number pd).
Proof.
  intros Hcb Hv. split; [by eapply held_carried_out|].
  destruct v as [st|m].
  - destruct Hv as [_ (q' & pd' & ? & ? & _ & ? & ? & _) _ _ _ _ _]. by exists q', pd'.
  - destruct Hv as (_&_&_&_&_&_&q'&pd'&c'&g'&[]&?&?&_). by exists q', pd'.
Qed.

Lemma one_response_same p w w1 w' t n :
  same_except p w w1 → next_ptr w1 = next_ptr w → one_response w1 w' t n → one_response w w' t n.
Proof. intros Hs Hn []. split; rewrite <- Hn; [|done]. by rewrite <- (held_same _ _ _ Hs). Qed.

(** A router that answers later. *)
Definition with_request w (cb : route_callback) : World DB :=
  {| w with route_requests := route_requests w ++ [cb] |}.

Lemma async_one cb w w1 q pd e c key g :
  routing_cb cb → same_except (next_ptr w) w w1 → awaiting w1 (next_ptr w) q pd e c key g →
  one_response w (with_request w1 (cb (next_ptr w))) (type pd) (sequence_number pd) ∧
  (∀ p, p ≠ next_ptr w → lookup_pdu (with_request w1 (cb (next_ptr w))) p = lookup_pdu w p).
Proof.
  intros Hcb Hs Haw. split; [|apply Hs]. split.
  - rewrite <- (held_same _ _ _ Hs). unfold held, with_request. cbn.
    rewrite omap_app. cbn [omap list_omap]. rewrite (routing_cb_response cb) by done.
    rewrite <- !app_assoc. cbn [app]. rewrite <- !Permutation_middle. done.
  - exists q, pd. by destruct Haw.
Qed.

(** A submission is routed: with every method its response is held once. *)
Lemma route_submission_run method plugin k e c key g sid resp n m cb w :
  method = Some k → routing_cb cb → lookup_esme w e = Some c → smpp_esme_global c = Some key →
  esmes w !! key = Some g → system_id c = Some sid →
  ∃ w', route_submission method plugin e resp n m cb w = Some (tt, w') ∧ one_response w w' resp n ∧
    ∀ p, p ≠ next_ptr w → lookup_pdu w' p = lookup_pdu w p.
Proof.
  intros Hmethod Hcb Hc Hkey Hg Hsid. unfold route_submission, now.
  rewrite (read_esme_bind _ c), gets_bind, Hsid, deref_bind by done. cbv zeta.
  set (m1 := smpp_queues_msg_set_dlr_url _ _ _). clearbody m1.
  rewrite (create_quick_bind _ c) by done.
  rewrite bind_unfold, (update_pdu_run _ (new_response e c resp n)) by apply lookup_with_alloc_eq.
  set (pd := {| (smpp_pdu_create resp n) with message_id := Some (msg_id m1) |}).
  set (q := {| (set_response _ _) with msg := Some m1 |}).
  rewrite (update_esme_bind _ c) by done.
  set (w1 := with_esme (with_pdu (with_alloc w _) _ q) e (inc_pending_routing 1 c)).
  assert (awaiting w1 (next_ptr w) q pd e (inc_pending_routing 1 c) key g) as Haw.
  { split; try done; [apply lookup_with_pdu_eq|apply lookup_with_esme_eq]. }
  assert (same_except (next_ptr w) w w1) as Hs.
  { etransitivity; [apply (same_with_alloc w (new_response e c resp n))|]. subst w1. same. }
  assert (∀ w2 m2 st, same_except (next_ptr w) w w2 →
    awaiting w2 (next_ptr w) q pd e (inc_pending_routing 1 c) key g → msg_id m2 = msg_id m1 →
    ∃ w', run_route_callback (cb (next_ptr w)) m2 st w2 = Some (tt, w') ∧ one_response w w' resp n ∧
      ∀ p, p ≠ next_ptr w → lookup_pdu w' p = lookup_pdu w p) as Hsync.
  { intros w2 m2 st Hs2 Haw2 Hm2.
    destruct (run_route_callback_run cb _ _ _ _ _ _ _ _ m2 st sid Hcb Haw2) as (w' & bcb & v & Hrun & Hb & Hv);
      [done|by rewrite Hm2|].
    apply (carried_from _ pd pd _ _ _ _ _ _ _ Hs2) in Hv; [|done..].
    exists w'. split; [done|]. split.
    - pose proof (carried_one _ _ _ _ _ _ _ Hb Hv) as Hone. subst pd. cbn in Hone.
      by rewrite smpp_pdu_create_type, smpp_pdu_create_seq in Hone.
    - intros p Hp. destruct v; [by apply Hv|]. by apply Hv. }
  pose proof (async_one cb w w1 _ _ _ _ _ _ Hcb Hs Haw) as Hasync.
  subst pd. cbn [type sequence_number] in Hasync.
  rewrite smpp_pdu_create_type, smpp_pdu_create_seq in Hasync.
  clearbody w1. unfold smpp_route_message, smpp_route_message_plugin. rewrite Hmethod.
  destruct k; cbv iota; [|by exists (with_request w1 (cb (next_ptr w)))|].
  - destruct (route_database_run (Some sid) m1 w1) as (m2 & st & rs & Hrun & Hm2).
    rewrite bind_bind, bind_unfold, Hrun, ret_bind. apply Hsync; [|destruct Haw; by split|done].
    etransitivity; [exact Hs|]. by split.
  - destruct plugin; [by exists (with_request w1 (cb (next_ptr w)))|].
    rewrite ret_bind. by apply Hsync.
Qed.

(** *** The handlers *)

(** A request [p] of a bound ESME [e]. *)
Record requested w (p : nat) (q : SMPPQueuedPDU) (pd : SMPP_PDU) (e : nat) (c : SMPPEsme)
    (key : Octstr) (g : SMPPEsmeGlobal) (sid : Octstr) : Prop := {
  rq_pdu : lookup_pdu w p = Some q;
  rq_body : pdu q = Some pd;
  rq_esme : smpp_esme q = Some e;
  rq_live : lookup_esme w e = Some c;
  rq_global : smpp_esme_global c = Some key;
  rq_account : esmes w !! key = Some g;
  rq_system_id : system_id c = Some sid;
  rq_old : p ≠ next_ptr w;
}.

(** The request is freed once the response is held. *)
Definition served w (w' : World DB) (p : nat) (t : pdu_type) (n : Z) : Prop :=
  pdus w' !! p = Some Freed ∧ one_response w w' t n ∧
  ∀ p', p' ≠ next_ptr w → p' ≠ p → lookup_pdu w' p' = lookup_pdu w p'.

Lemma destroy_served w w1 p q t n :
  p ≠ next_ptr w → lookup_pdu w p = Some q → one_response w w1 t n →
  (∀ p', p' ≠ next_ptr w → p' ≠ p → lookup_pdu w1 p' = lookup_pdu w p') →
  is_Some (lookup_pdu w1 p) →
  ∃ w', smpp_queued_pdu_destroy p w1 = Some (tt, w') ∧ served w w' p t n.
Proof.
  intros Hp Hq [Hheld (q' & pd' & Hq' & Hrest)] Hothers [q1 Hq1].
  rewrite (destroy_run _ q1) by done. eexists. split; [done|].
  pose proof (lookup_freed_ne w1 p) as Hfree.
  split_and!; [cbn; by rewrite lookup_insert_eq| |].
  - split; [exact Hheld|]. exists q', pd'. by rewrite Hfree.
  - intros p' ??. rewrite Hfree by done. by apply Hothers.
Qed.

(** The answer to a request that was converted. *)
Definition serve method plugin (e : nat) (t : pdu_type) (n : Z) (cb : nat → route_callback)
    (o : option Msg * Z) : W DB unit :=
  match o with
  | (None, reason) => respond e t n reason
  | (Some m, _) => route_submission method plugin e t n m cb
  end.

Lemma serve_run method plugin k e c key g sid t n cb o w :
  method = Some k → routing_cb cb → lookup_esme w e = Some c → smpp_esme_global c = Some key →
  esmes w !! key = Some g → system_id c = Some sid → (o.1 = None → o.2 ≠ SMPP_ESME_ROK) →
  ∃ w', serve method plugin e t n cb o w = Some (tt, w') ∧ one_response w w' t n ∧
    ∀ p, p ≠ next_ptr w → lookup_pdu w' p = lookup_pdu w p.
Proof.
  intros Hm Hcb Hc Hkey Hg Hsid Ho. destruct o as [[m|] reason]; cbn [serve].
  - by eapply route_submission_run.
  - destruct (respond_run e c t n reason w Hc (Ho eq_refl)) as (w' & Hrun & _ & _ & _ & Hans).
    exists w'. split; [done|]. split; [|apply Hans].
    apply answered_one in Hans. by rewrite smpp_pdu_create_type, smpp_pdu_create_seq in Hans.
Qed.

Definition with_uuid w : World DB := {| w with next_uuid := S (next_uuid w) |}.

(** The load is counted, the request converted, and the request answered. *)
Lemma accepted_run method plugin uuid k conv t cb w p q pd e c key g sid :
  let m := smpp_esme_inbound_load_increase e;; u ← fresh_uuid uuid; o ← convert_request p (conv u);
           serve method plugin e t (sequence_number pd) cb o;; smpp_queued_pdu_destroy p in
  method = Some k → routing_cb cb → requested w p q pd e c key g sid →
  (∀ u, ∃ res reason pd', conv u pd = Some ((res, reason), pd') ∧ (res = None → reason ≠ SMPP_ESME_ROK)) →
  ∃ w', m w = Some (tt, w') ∧ served w w' p t (sequence_number pd).
Proof.
  intros m Hm Hcb Hreq Hconv. subst m. unfold smpp_esme_inbound_load_increase, now.
  rewrite bind_bind, gets_bind.
  match goal with |- context [(update_esme e ?fe;; update_global e ?fg);; _] =>
    rewrite bind_unfold, (count_run fe fg e c key g) by (done || apply Hreq) end.
  set (w1 := {| _ with esmes := _ |}). set (g1 := {| g with g_inbound_load := _ |}) in *.
  set (c1 := {| c with inbound_load := _ |}) in *.
  unfold fresh_uuid. rewrite bind_bind, gets_bind, bind_bind, modify_bind, ret_bind.
  destruct (Hconv (uuid (next_uuid w1))) as (res & reason & pd' & Hrun & Hreason).
  unfold convert_request.
  assert (lookup_pdu (with_uuid w1) p = Some q) as Hq by apply Hreq.
  rewrite bind_bind, (read_pdu_bind _ q), bind_bind, (pdu_of_bind _ pd) by (done || apply Hreq).
  rewrite Hrun, bind_bind, deref_bind, bind_bind, (write_pdu_bind _ q), ret_bind by done.
  set (w2 := with_pdu _ p _).
  assert (same_except p w w2) as Hs.
  { subst w2. etransitivity; [|apply same_with_pdu]. by split. }
  destruct (serve_run method plugin k e c1 key g1 sid t (sequence_number pd) cb (res, reason) w2)
    as (w3 & Hserve & Hone & Hothers); try done.
  { apply lookup_with_esme_eq. }
  { apply Hreq. }
  { cbn. by rewrite lookup_insert_eq. }
  { apply Hreq. }
  rewrite bind_unfold, Hserve.
  eapply destroy_served; [apply Hreq..| | |].
  - eapply one_response_same; [exact Hs|done|done].
  - intros p' Hp' Hne. rewrite Hothers by done. by apply Hs.
  - rewrite Hothers by apply Hreq. exists {| q with pdu := Some pd' |}. apply lookup_with_pdu_eq.
Qed.

End lemmas.

(** ** Properties *)

(** C1. Every submission is answered once. A submit_sm of a bound ESME that may
    send and is not throttled, with a text if it announces a header, is handled to
    the end with every routing method: the request is freed, and exactly one response
    with its sequence number comes to be, which is held in exactly one place: the
    outbound queue, the queue of the bearerboxes, their open acknowledgements or the
    requests to a router. No other queued PDU changes. *)
Theorem submit_sm_answered_once {DB} `{TimeLib} `{OctstrLib} `{KannelLib} `{DatabaseOps DB} `{EsmeEnv}
    `{RegexLib} `{BoxEnv} (method : option routing_method) (plugin : bool) (uuid : nat → Octstr)
    (w : World DB) (p : nat) (q : SMPPQueuedPDU) (pd : SMPP_PDU) (e : nat) (c : SMPPEsme)
    (key : Octstr) (g : SMPPEsmeGlobal) (sid : Octstr) :
  requested w p q pd e c key g sid → is_Some method → gate (w_now w) c g = None →
  type pd = submit_sm → simulate c = 0 →
  (has_udh (sm pd) = true → is_Some (submitted_text (version c) (sm pd))) →
  ∃ w', smpp_queues_handle_submit_sm method plugin uuid p w = Some (tt, w') ∧
    served w w' p submit_sm_resp (sequence_number pd).
Proof.
  intros Hreq [k Hm] Hgate Htype Hsim Htext. unfold gate in Hgate.
  destruct (bit_set (bind_type c) SMPP_ESME_TRANSMIT) eqn:Hbind; [|done].
  destruct (throttled (w_now w) g) eqn:Hthr; [done|].
  unfold smpp_queues_handle_submit_sm, now.
  rewrite (read_pdu_bind _ q), (esme_of_bind _ e), (pdu_of_bind _ pd), (read_esme_bind _ c)
    by apply Hreq.
  rewrite Hbind. cbn [negb]. rewrite (read_global_bind _ c key g) by apply Hreq.
  rewrite gets_bind, Hthr, Hsim. cbn [negb Z.eqb].
  destruct (accepted_run method plugin uuid k (λ u, smpp_submit_sm_to_msg (w_now w) u c) submit_sm_resp
    smpp_queues_submit_routing_done_cb w p q pd e c key g sid Hm (or_introl eq_refl) Hreq)
    as (w' & Hrun & Hserved); [intros u; by apply submit_sm_to_msg_total|].
  exists w'. split; [|done]. rewrite <- Hrun. apply bind_ext. intros _ w1. rewrite bind_bind.
  apply bind_ext. intros u w2. rewrite bind_bind. apply bind_ext. by intros [[m|] reason] w3.
Qed.

(** The same for data_sm: one response with the request's sequence number, held
    once, and the request freed. *)
Theorem data_sm_answered_once {DB} `{TimeLib} `{OctstrLib} `{KannelLib} `{DatabaseOps DB} `{EsmeEnv}
    `{RegexLib} `{BoxEnv} (method : option routing_method) (plugin : bool) (uuid : nat → Octstr)
    (w : World DB) (p : nat) (q : SMPPQueuedPDU) (pd : SMPP_PDU) (e : nat) (c : SMPPEsme)
    (key : Octstr) (g : SMPPEsmeGlobal) (sid : Octstr) :
  requested w p q pd e c key g sid → is_Some method → gate (w_now w) c g = None →
  type pd = data_sm → (has_udh (sm pd) = true → is_Some (message_payload (sm pd))) →
  ∃ w', smpp_queues_handle_data_sm method plugin uuid p w = Some (tt, w') ∧
    served w w' p data_sm_resp (sequence_number pd).
Proof.
  intros Hreq [k Hm] Hgate Htype Htext. unfold gate in Hgate.
  destruct (bit_set (bind_type c) SMPP_ESME_TRANSMIT) eqn:Hbind; [|done].
  destruct (throttled (w_now w) g) eqn:Hthr; [done|].
  unfold smpp_queues_handle_data_sm, now.
  rewrite (read_pdu_bind _ q), (esme_of_bind _ e), (pdu_of_bind _ pd), (read_esme_bind _ c)
    by apply Hreq.
  rewrite Hbind. cbn [negb]. rewrite (read_global_bind _ c key g) by apply Hreq.
  rewrite gets_bind, Hthr.
  destruct (accepted_run method plugin uuid k (λ u, smpp_data_sm_to_msg (w_now w) u c) data_sm_resp
    smpp_queues_data_sm_routing_done_cb w p q pd e c key g sid Hm (or_intror eq_refl) Hreq)
    as (w' & Hrun & Hserved); [intros u; by apply data_sm_to_msg_total|].
  exists w'. split; [|done]. rewrite <- Hrun. apply bind_ext. intros _ w1.
  apply bind_ext. intros u w2. apply bind_ext. by intros [[m|] reason] w3.
Qed.

(** C22. The gate: a submit_sm or data_sm of an ESME that is not bound for sending,
    or whose account has used up its throughput, is refused with the invalid bind
    status or the throttling error, under its sequence number; the request is freed,
    and neither the load, the account nor the database is touched. *)
Theorem submissions_gated {DB} `{TimeLib} `{OctstrLib} `{KannelLib} `{DatabaseOps DB} `{EsmeEnv}
    `{RegexLib} `{BoxEnv} (method : option routing_method) (plugin : bool) (uuid : nat → Octstr)
    (w : World DB) (p : nat) (q : SMPPQueuedPDU) (pd : SMPP_PDU) (e : nat) (c : SMPPEsme)
    (key : Octstr) (g : SMPPEsmeGlobal) (sid : Octstr) (st : Z) (data : bool) :
  requested w p q pd e c key g sid → gate (w_now w) c g = Some st →
  ∃ w1, (if data then smpp_queues_handle_data_sm method plugin uuid p
         else smpp_queues_handle_submit_sm method plugin uuid p) w
        = Some (tt, set_pdus <[p := Freed]> w1) ∧
    answered w w1 (next_ptr w)
      (smpp_pdu_create (if data then data_sm_resp else submit_sm_resp) (sequence_number pd)) st ∧
    lookup_esme w1 e = Some (inc_outbound_queued c) ∧ esmes w1 = esmes w ∧ db w1 = db w.
Proof.
  intros Hreq Hgate.
  assert (st ≠ SMPP_ESME_ROK) as Hst
    by (unfold gate in Hgate; repeat case_match; simplify_eq; done).
  assert (∀ t, ∃ w1, (respond e t (sequence_number pd) st;; smpp_queued_pdu_destroy p) w
     = Some (tt, set_pdus <[p := Freed]> w1) ∧
     answered w w1 (next_ptr w) (smpp_pdu_create t (sequence_number pd)) st ∧
     lookup_esme w1 e = Some (inc_outbound_queued c) ∧ esmes w1 = esmes w ∧ db w1 = db w) as Hrefuse.
  { intros t. destruct (respond_run e c t (sequence_number pd) st w (rq_live _ _ _ _ _ _ _ _ _ Hreq) Hst)
      as (w1 & Hrun & Hdb & Hes & He & Hans).
    exists w1. rewrite bind_unfold, Hrun, (destroy_run _ q); [done|].
    rewrite (an_others _ _ _ _ _ Hans) by apply Hreq. apply Hreq. }
  unfold gate in Hgate.
  destruct data; unfold smpp_queues_handle_submit_sm, smpp_queues_handle_data_sm, now.
  all: rewrite (read_pdu_bind _ q), (esme_of_bind _ e), (pdu_of_bind _ pd), (read_esme_bind _ c)
    by apply Hreq.
  all: destruct (bit_set (bind_type c) SMPP_ESME_TRANSMIT); cbn [negb] in *;
    [rewrite (read_global_bind _ c key g), gets_bind by apply Hreq;
     destruct (throttled (w_now w) g); [|done]|]; simplify_eq; apply Hrefuse.
Qed.
