(* ===== verification/Boxes.v ===== *)
(** The bearerbox's side of a submission: the writer, the acknowledgements and the
    reconnection of smpp_bearerbox.c complete every response once, and lose none. *)
From S2P Require Import Prelude CLib Gwlib Types Kannel Dlr PduUtil IpBlock World Callbacks Run Esme.
From S2P Require Import Route Bearerbox Queues Replies Submissions.
Open Scope Z_scope.

(** ** Specification *)

(** A response that can be completed. *)
Definition ready {DB} (w : World DB) (p : nat) : Prop :=
  ∃ q pd e c key g, awaiting w p q pd e c key g.

(** Every response a message of the bearerboxes holds can be. *)
Definition all_ready {DB} (w : World DB) : Prop :=
  (∀ m p, m ∈ bb_outbound_queue w → msg_response m = Some p → ready w p) ∧
  (∀ b bx m p, bearerboxes w !! b = Some bx → m ∈ (map_to_list (bb_open_acks bx)).*2 →
     msg_response m = Some p → ready w p).

Definition response_status {DB} (w : World DB) (p : nat) : option Z :=
  command_status <$> (lookup_pdu w p ≫= pdu).

(** A callback has run: its response, if it has one, is on its way with the status
    of the call, and no other response got a status; the queues and
    tables of the bearerboxes are as they were, and what was ready still is. *)
Record called {DB} (w w' : World DB) (o : option nat) (st : Z) : Prop := {
  ca_status : ∀ p, response_status w' p = if bool_decide (o = Some p) then Some st else response_status w p;
  ca_outbound : outbound_queue w' = outbound_queue w ++ option_list o;
  ca_queue : bb_outbound_queue w' = bb_outbound_queue w;
  ca_routing : route_requests w' = route_requests w;
  ca_boxes : bearerboxes w' = bearerboxes w;
  ca_order : bb_order w' = bb_order w;
  ca_writes : bb_writes w' = bb_writes w;
  ca_trace : trace w' = trace w;
  ca_server : server w' = server w;
  ca_ready : ∀ p, ready w p → ready w' p;
}.

(** ** Lemmas *)

Section lemmas.
Context {DB : Type} `{TimeLib} `{OctstrLib} `{KannelLib} `{DatabaseOps DB} `{EsmeEnv} `{RegexLib}
  `{BoxEnv}.
Implicit Types (w : World DB).

(** The state after a submission's callback. *)
Definition complete (st : Z) : SMPPQueuedPDU → SMPPQueuedPDU :=
  set_response (if st =? SMPP_ESME_ROK then accept_response else refuse_response st).
Definition finished w (p : nat) (q : SMPPQueuedPDU) (e : nat) (c : SMPPEsme) (key : Octstr)
    (g : SMPPEsmeGlobal) (st : Z) : World DB :=
  enqueued (with_esme (with_pdu (with_global (with_esme w e (book_esme st c)) key (book_account st g))
    p (complete st q)) e (inc_outbound_queued (book_esme st c))) p.

Lemma callback_state w p q pd e c key g st :
  awaiting w p q pd e c key g →
  smpp_queues_callback_submit_sm p st w = Some (tt, finished w p q e c key g st).
Proof.
  intros Haw. unfold smpp_queues_callback_submit_sm, finished, complete, book_esme, book_account.
  rewrite (read_pdu_bind _ q), (esme_of_bind _ e) by apply Haw.
  unfold count_mt, count_error.
  destruct (Z.eqb_spec st SMPP_ESME_ROK) as [->|Hst]; cbn [negb].
  all: match goal with |- context [update_esme ?x ?fe ≫= λ _, update_global _ ?fg] =>
         let Hcount := fresh in let Haw1 := fresh in
         destruct (count_awaiting fe fg _ _ _ _ _ _ _ _ Haw eq_refl) as [Hcount Haw1];
         rewrite bind_bind, bind_unfold, Hcount, bind_bind, (pdu_of_bind _ pd), (write_pdu_bind _ q)
           by (apply Haw || apply Haw1);
         erewrite add_outbound_run; [reflexivity|apply lookup_with_pdu_eq|apply Haw|apply Haw|];
         exact (lookup_with_esme_eq _ _ _) end.
Qed.

(** An ESME's counters and its account are the only things a callback changes
    under another response. *)
Lemma ready_finished w p q pd e c key g st p' :
  awaiting w p q pd e c key g → ready w p' → ready (finished w p q e c key g st) p'.
Proof.
  intros Haw (q1 & pd1 & e1 & c1 & key1 & g1 & Haw1).
  destruct (decide (p' = p)) as [->|Hp].
  - exists (complete st q), ((if st =? SMPP_ESME_ROK then accept_response else refuse_response st) pd),
      e, (inc_outbound_queued (book_esme st c)), key, (book_account st g). clear Haw1. pose proof Haw as [].
    split; try done.
    + apply lookup_with_pdu_eq.
    + cbn. by rewrite aw_body.
    + apply lookup_with_esme_eq.
    + unfold book_esme. by destruct (st =? _).
    + cbn. by rewrite lookup_insert_eq.
  - assert (lookup_pdu (finished w p q e c key g st) p' = Some q1) as Hq1.
    { etransitivity; [apply lookup_with_pdu|]. rewrite bool_decide_false by done. apply Haw1. }
    assert (∃ c2, lookup_esme (finished w p q e c key g st) e1 = Some c2 ∧
                  smpp_esme_global c2 = Some key1) as (c2 & Hc2 & Hk2).
    { destruct (decide (e1 = e)) as [->|He].
      - eexists. split; [apply lookup_with_esme_eq|]. destruct Haw, Haw1. simplify_eq.
        unfold book_esme. by destruct (st =? _).
      - exists c1. split; [|apply Haw1]. unfold finished, lookup_esme. cbn.
        rewrite !lookup_insert_ne by done. apply Haw1. }
    assert (∃ g2, esmes (finished w p q e c key g st) !! key1 = Some g2) as (g2 & Hg2).
    { cbn. destruct (decide (key1 = key)) as [->|Hk].
      - eexists. apply lookup_insert_eq.
      - exists g1. rewrite lookup_insert_ne by done. apply Haw1. }
    exists q1, pd1, e1, c2, key1, g2. by destruct Haw1.
Qed.

Lemma status_finished w p q pd e c key g st p' :
  awaiting w p q pd e c key g →
  response_status (finished w p q e c key g st) p'
  = if bool_decide (Some p = Some p') then Some st else response_status w p'.
Proof.
  intros Haw. unfold response_status.
  replace (lookup_pdu (finished w p q e c key g st) p')
    with (if bool_decide (p = p') then Some (complete st q) else lookup_pdu w p')
    by (symmetry; exact (lookup_with_pdu (with_global (with_esme w e (book_esme st c)) key
          (book_account st g)) p (complete st q) p')).
  destruct (decide (p = p')) as [->|Hp]; [|by rewrite !bool_decide_false by congruence].
  rewrite !bool_decide_true by done. cbn. rewrite (aw_body _ _ _ _ _ _ _ _ Haw). cbn.
  by destruct (Z.eqb_spec st SMPP_ESME_ROK) as [->|].
Qed.

Lemma called_with_db w d st : called w (with_db w d) None st.
Proof.
  split; try done; [by rewrite app_nil_r|].
  intros p (q & pd & e & c & key & g & Haw). exists q, pd, e, c, key, g. by apply awaiting_with_db.
Qed.

Lemma any_callback_run cb st w :
  (∀ p, bb_response cb = Some p → ready w p) →
  ∃ w', run_bb_callback cb st w = Some (tt, w') ∧ called w w' (bb_response cb) st.
Proof.
  intros Hready. destruct cb as [p|p|gid]; cbn [bb_response run_bb_callback] in *.
  1,2: destruct (Hready p eq_refl) as (q & pd & e & c & key & g & Haw);
       exists (finished w p q e c key g st); split; [by apply (callback_state _ _ _ pd)|];
       split; try done; intros p'; [by apply (status_finished _ _ _ pd)|by eapply ready_finished].
  assert (∃ d, smpp_database_remove gid 0 w = Some (tt, with_db w d)) as [d Hd].
  { unfold smpp_database_remove. destruct delete as [f|].
    - eexists. by rewrite bind_unfold, db_call_run.
    - exists (db w). by rewrite with_db_id. }
  unfold smpp_bearerbox_requeue_result. destruct (st =? 0); [by exists (with_db w d); auto using called_with_db|].
  destruct (st =? SMPP_ESME_RSUBMITFAIL); cbn [when]; [by exists (with_db w d); auto using called_with_db|].
  exists w. split; [done|]. rewrite <- (with_db_id w) at 2. apply called_with_db.
Qed.

(** *** Who holds what *)

Lemma boxes_perm (bs : gmap nat SMPPBearerbox) b bx :
  (map_to_list (<[b := bx]> bs)).*2 ≫= box_responses
  ≡ₚ box_responses bx ++ ((map_to_list (base.delete b bs)).*2 ≫= box_responses).
Proof.
  rewrite <- insert_delete_eq, map_to_list_insert by apply lookup_delete_eq. done.
Qed.

Lemma boxes_perm_lookup (bs : gmap nat SMPPBearerbox) b bx :
  bs !! b = Some bx →
  (map_to_list bs).*2 ≫= box_responses
  ≡ₚ box_responses bx ++ ((map_to_list (base.delete b bs)).*2 ≫= box_responses).
Proof. intros Hbx. by rewrite <- (boxes_perm bs b bx), insert_id. Qed.

Lemma omap_perm (l k : list SMPPBearerboxMsg) : l ≡ₚ k → omap msg_response l ≡ₚ omap msg_response k.
Proof. by intros ->. Qed.

Lemma omap_cons_response m l : omap msg_response (m :: l) = option_list (msg_response m) ++ omap msg_response l.
Proof. cbn. by destruct (msg_response m). Qed.

Lemma acks_insert (acks : gmap Octstr SMPPBearerboxMsg) i m :
  acks !! i = None →
  omap msg_response (map_to_list (<[i := m]> acks)).*2
  ≡ₚ option_list (msg_response m) ++ omap msg_response (map_to_list acks).*2.
Proof.
  intros Hi. rewrite map_to_list_insert by done. cbn [fmap list_fmap snd].
  by rewrite omap_cons_response.
Qed.

Lemma acks_delete (acks : gmap Octstr SMPPBearerboxMsg) i m :
  acks !! i = Some m →
  omap msg_response (map_to_list acks).*2
  ≡ₚ option_list (msg_response m) ++ omap msg_response (map_to_list (base.delete i acks)).*2.
Proof. intros Hi. rewrite <- acks_insert by apply lookup_delete_eq. by rewrite insert_delete_id. Qed.

(** The responses outside of one bearerbox. *)
Definition held_elsewhere w b : list nat :=
  omap route_response (route_requests w)
  ++ ((map_to_list (base.delete b (bearerboxes w))).*2 ≫= box_responses).

Lemma held_split w b bx :
  bearerboxes w !! b = Some bx →
  held w ≡ₚ outbound_queue w ++ omap msg_response (bb_outbound_queue w) ++ box_responses bx
            ++ held_elsewhere w b.
Proof.
  intros Hbx. unfold held, held_elsewhere. rewrite (boxes_perm_lookup _ b bx) by done. solve_Permutation.
Qed.

(** *** What stays ready *)

Lemma ready_same w w' p :
  lookup_pdu w' p = lookup_pdu w p → esme_heap w' = esme_heap w → esmes w' = esmes w →
  ready w p → ready w' p.
Proof.
  intros Hp He Hg (q & pd & e & c & key & g & []). exists q, pd, e, c, key, g.
  split; try congruence. unfold lookup_esme in *. by rewrite He.
Qed.

(** The bearerbox's table shrinks, or takes over a message of the queue. *)
Definition acks_incl (k k' : gmap Octstr SMPPBearerboxMsg) : Prop :=
  ∀ m, m ∈ (map_to_list k').*2 → m ∈ (map_to_list k).*2.

Lemma acks_elem (k : gmap Octstr SMPPBearerboxMsg) m :
  m ∈ (map_to_list k).*2 ↔ ∃ i, k !! i = Some m.
Proof.
  rewrite list_elem_of_fmap. split.
  - intros ([i m'] & -> & Hin). exists i. by apply elem_of_map_to_list.
  - intros [i Hi]. exists (i, m). split; [done|]. by apply elem_of_map_to_list.
Qed.

Lemma acks_incl_delete k i : acks_incl k (base.delete i k).
Proof. intros m. rewrite !acks_elem. intros [j [_ Hj]%lookup_delete_Some]. by exists j. Qed.

Lemma all_ready_with_bb w b bx bx' :
  all_ready w → bearerboxes w !! b = Some bx → acks_incl (bb_open_acks bx) (bb_open_acks bx') →
  all_ready (with_bb w b bx').
Proof.
  intros [Hq Hb] Hbx Hincl. split.
  - intros m p Hm Hp. by apply (ready_same w), (Hq m).
  - intros b' bx1 m p Hbx1 Hm Hp. apply (ready_same w); try done.
    cbn in Hbx1. destruct (decide (b = b')) as [->|Hne].
    + rewrite lookup_insert_eq in Hbx1. simplify_eq. eapply Hb; [exact Hbx|by apply Hincl|done].
    + rewrite lookup_insert_ne in Hbx1 by done. by eapply Hb.
Qed.

Lemma called_all_ready w w' o st : called w w' o st → all_ready w → all_ready w'.
Proof.
  intros [] [Hq Hb]. split.
  - intros m p. rewrite ca_queue0. intros. by eapply ca_ready0, Hq.
  - intros b bx m p. rewrite ca_boxes0. intros. by eapply ca_ready0, Hb.
Qed.

Lemma held_called w w' b bx o st :
  called w w' o st → bearerboxes w !! b = Some bx → held w' ≡ₚ option_list o ++ held w.
Proof.
  intros [] Hbx. unfold held. rewrite ca_outbound0, ca_queue0, ca_routing0, ca_boxes0.
  solve_Permutation.
Qed.

(** *** Acknowledgements *)

Definition drop_ack (i : Octstr) (bx : SMPPBearerbox) : SMPPBearerbox :=
  {| bx with bb_open_acks := base.delete i (bb_open_acks bx) |}.

Lemma handle_ack_run b i nack bx m w :
  bearerboxes w !! b = Some bx → bb_open_acks bx !! i = Some m → all_ready w →
  ∃ w', smpp_bearerbox_handle_ack b i nack w = Some (tt, w') ∧
    called (with_bb w b (drop_ack i bx)) w' (msg_response m) (ack_result nack).
Proof.
  intros Hbx Hm [Hq Hb]. unfold smpp_bearerbox_handle_ack.
  rewrite (read_bb_bind _ bx), Hm, (update_bb_bind _ bx) by done.
  apply any_callback_run. intros p Hp. apply (ready_same w); try done.
  eapply Hb; [exact Hbx| |exact Hp]. apply acks_elem. by exists i.
Qed.

(** *** Reconnecting *)

Lemma next_write_frame w :
  next_write w = Some (default true (head (bb_writes w)), {| w with bb_writes := tail (bb_writes w) |}).
Proof.
  unfold next_write. rewrite get_bind. destruct (bb_writes w) as [|ok bs] eqn:Hw; [|done].
  unfold mret, M_ret. do 2 f_equal. destruct w. simpl in *. by subst.
Qed.

(** The open acknowledgements are failed one after the other. *)
Definition fail_one (b : nat) (kv : Octstr * SMPPBearerboxMsg) : W DB unit :=
  update_bb b (λ c, {| c with bb_open_acks := base.delete kv.1 (bb_open_acks c) |});;
  run_bb_callback (bb_callback_of kv.2) SMPP_ESME_RSYSERR.

Lemma fail_one_run b i m w bx :
  bearerboxes w !! b = Some bx → (∀ p, msg_response m = Some p → ready w p) →
  ∃ w1, fail_one b (i, m) w = Some (tt, w1) ∧
    called (with_bb w b (drop_ack i bx)) w1 (msg_response m) SMPP_ESME_RSYSERR.
Proof.
  intros Hbx Hready. unfold fail_one. rewrite (update_bb_bind _ bx) by done.
  apply any_callback_run. intros p Hp. by apply (ready_same w), Hready.
Qed.

Lemma fail_run b kvs w bx :
  bearerboxes w !! b = Some bx → (∀ m p, m ∈ kvs.*2 → msg_response m = Some p → ready w p) →
  ∃ w' bx', for_each (fail_one b) kvs w = Some (tt, w') ∧
    bearerboxes w' = <[b := bx']> (bearerboxes w) ∧ alive bx' = alive bx ∧ bb_writes w' = bb_writes w ∧
    outbound_queue w' = outbound_queue w ++ omap msg_response kvs.*2 ∧
    bb_outbound_queue w' = bb_outbound_queue w ∧ route_requests w' = route_requests w ∧
    ∀ p, response_status w' p = if bool_decide (p ∈ omap msg_response kvs.*2)
                                then Some SMPP_ESME_RSYSERR else response_status w p.
Proof.
  revert w bx. induction kvs as [|[i m] kvs IH]; intros w bx Hbx Hready.
  { exists w, bx. split_and!; try done; [by rewrite insert_id|by rewrite app_nil_r]. }
  destruct (fail_one_run b i m w bx Hbx) as (w1 & Hrun & []).
  { intros p Hp. apply (Hready m); [left|done]. }
  cbn [for_each]. rewrite bind_unfold, Hrun.
  destruct (IH w1 (drop_ack i bx)) as (w' & bx' & Hrun' & Hbs & Hal & Hw & Hout & Hbb & Hroute & Hst).
  { rewrite ca_boxes0. cbn. by rewrite lookup_insert_eq. }
  { intros m' p Hm' Hp. apply ca_ready0, (ready_same w); try done. apply (Hready m'); [by right|done]. }
  exists w', bx'. split; [exact Hrun'|].
  rewrite Hbs, Hw, Hout, Hbb, Hroute, ca_boxes0, ca_writes0, ca_outbound0, ca_queue0, ca_routing0.
  cbn [fmap list_fmap snd]. rewrite omap_cons_response. split_and!; try done.
  - cbn. by rewrite insert_insert_eq.
  - by rewrite <- app_assoc.
  - intros p. rewrite Hst, ca_status0. change (bb_response (bb_callback_of m)) with (msg_response m).
    destruct (msg_response m) as [p'|]; cbn [option_list app]; [|by rewrite (bool_decide_false (None = Some p))].
    destruct (decide (p ∈ omap msg_response kvs.*2)) as [Hin|Hin].
    + rewrite !bool_decide_true; [done|by right|done].
    + rewrite (bool_decide_false (p ∈ omap _ _)) by done.
      destruct (decide (p = p')) as [->|Hp]; [rewrite !bool_decide_true; [done|by left|done]|].
      rewrite (bool_decide_false (Some p' = Some p)) by congruence.
      by rewrite bool_decide_false by by apply not_elem_of_cons.
Qed.

(** *** The writer *)

Lemma held_queue w w' q :
  outbound_queue w' = outbound_queue w → bb_outbound_queue w' = q →
  route_requests w' = route_requests w → bearerboxes w' = bearerboxes w →
  bb_outbound_queue w ≡ₚ q → held w' ≡ₚ held w.
Proof. intros Ho Hq Hr Hb Hperm. unfold held. by rewrite Ho, Hq, Hr, Hb, Hperm. Qed.

(** A message put into the queue, or completed because no bearerbox is online. *)
Lemma add_to_queue_run m w :
  all_ready w → (∀ p, msg_response m = Some p → ready w p) →
  ∃ w', smpp_bearerbox_add_to_queue m w = Some (tt, w') ∧ trace w' = trace w ∧ all_ready w' ∧
    held w' ≡ₚ option_list (msg_response m) ++ held w.
Proof.
  intros [Hq Hb] Hm. unfold smpp_bearerbox_add_to_queue. rewrite gets_bind. destruct (any_online w).
  { eexists. split; [reflexivity|]. split; [done|]. split; [split|].
    - intros m' p Hin Hp. apply (ready_same w); try done. cbn in Hin.
      rewrite prio_insert_perm in Hin. apply elem_of_cons in Hin as [->|Hin]; [by apply Hm|by apply (Hq m')].
    - intros b bx m' p Hbx Hin Hp. apply (ready_same w); try done. by apply (Hb b bx m').
    - unfold held. cbn. rewrite prio_insert_perm, omap_cons_response. solve_Permutation. }
  unfold the_server. rewrite gets_bind.
  assert (∀ w1 st, called w w1 None 0 →
    ∃ w', run_bb_callback (bb_callback_of m) st w1 = Some (tt, w') ∧ trace w' = trace w ∧ all_ready w' ∧
      held w' ≡ₚ option_list (msg_response m) ++ held w) as Hdone.
  { intros w1 st Hcall.
    destruct (any_callback_run (bb_callback_of m) st w1) as (w' & Hrun & Hcall').
    { intros p Hp. by eapply (ca_ready _ _ _ _ Hcall), Hm. }
    exists w'. split; [done|]. split; [by rewrite (ca_trace _ _ _ _ Hcall'), (ca_trace _ _ _ _ Hcall)|].
    split; [by eapply called_all_ready, called_all_ready|].
    destruct Hcall, Hcall'. unfold held.
    rewrite ca_outbound1, ca_queue1, ca_routing1, ca_boxes1, ca_outbound0, ca_queue0, ca_routing0, ca_boxes0.
    cbn [option_list]. rewrite app_nil_r. solve_Permutation. }
  destruct (database_enable_queue (server w)).
  - rewrite bind_unfold, add_queue_message_run. apply Hdone. apply called_with_db.
  - rewrite ret_bind. apply (Hdone w). rewrite <- (with_db_id w) at 2. apply called_with_db.
Qed.

(** The writer takes the first message. *)
Definition popped w (q : list SMPPBearerboxMsg) : World DB := {| w with bb_outbound_queue := q |}.

Lemma held_popped w m q :
  bb_outbound_queue w = m :: q → held w ≡ₚ option_list (msg_response m) ++ held (popped w q).
Proof. intros Hq. unfold held. rewrite Hq, omap_cons_response. cbn. solve_Permutation. Qed.

Lemma all_ready_popped w m q : bb_outbound_queue w = m :: q → all_ready w → all_ready (popped w q).
Proof.
  intros Hq [Hrq Hrb]. split.
  - intros m1 p Hin Hp. apply (ready_same w); try done. apply (Hrq m1); [|done]. rewrite Hq. by right.
  - intros b bx m1 p Hbx Hin Hp. apply (ready_same w); try done. by apply (Hrb b bx m1).
Qed.

(** Nothing but a bearerbox and the writes to come. *)
Lemma all_ready_written w b bx bx' bs tr :
  bearerboxes w !! b = Some bx →
  (∀ m p, m ∈ (map_to_list (bb_open_acks bx')).*2 → msg_response m = Some p → ready w p) →
  all_ready w → all_ready {| (with_bb w b bx') with bb_writes := bs; trace := tr |}.
Proof.
  intros Hbx Hnew [Hrq Hrb]. split.
  - intros m1 p Hin Hp. apply (ready_same w); try done. by apply (Hrq m1).
  - intros b' bx1 m1 p Hbx1 Hin Hp. apply (ready_same w); try done. cbn in Hbx1.
    destruct (decide (b = b')) as [->|Hne].
    + rewrite lookup_insert_eq in Hbx1. simplify_eq. by apply (Hnew m1).
    + rewrite lookup_insert_ne in Hbx1 by done. by apply (Hrb b' bx1 m1).
Qed.

Lemma held_written w b bx bx' bs tr o :
  bearerboxes w !! b = Some bx → box_responses bx' ≡ₚ o ++ box_responses bx →
  held {| (with_bb w b bx') with bb_writes := bs; trace := tr |} ≡ₚ o ++ held w.
Proof.
  intros Hbx Ho. rewrite (held_split w b bx) by done.
  rewrite (held_split _ b bx') by (cbn; apply lookup_insert_eq).
  unfold held_elsewhere. cbn [with_bb bearerboxes outbound_queue bb_outbound_queue route_requests].
  rewrite delete_insert_eq, Ho. solve_Permutation.
Qed.

End lemmas.

(** ** Properties *)

(** C17. An acknowledgement of a bearerbox completes the submission it names and
    nothing else: the message leaves the open acknowledgements, its response is put
    on its way with success, a submission failure or a system error as the
    acknowledgement says, no other response changes, none is lost, and the same
    acknowledgement again, or one of an unknown message, does nothing. *)
Theorem bearerbox_ack_completes {DB} `{TimeLib} `{OctstrLib} `{KannelLib} `{DatabaseOps DB} `{EsmeEnv}
    `{RegexLib} `{BoxEnv} (w : World DB) (b : nat) (bx : SMPPBearerbox) (i : Octstr)
    (nack : option ack_status_t) :
  bearerboxes w !! b = Some bx → all_ready w →
  ∃ w', smpp_bearerbox_handle_ack b i nack w = Some (tt, w') ∧
    smpp_bearerbox_handle_ack b i nack w' = Some (tt, w') ∧
    held w' ≡ₚ held w ∧ all_ready w' ∧
    match bb_open_acks bx !! i with
    | Some m =>
        outbound_queue w' = outbound_queue w ++ option_list (msg_response m) ∧
        (∀ p, response_status w' p
              = if bool_decide (msg_response m = Some p) then Some (ack_result nack)
                else response_status w p) ∧
        bearerboxes w' = <[b := drop_ack i bx]> (bearerboxes w)
    | None => w' = w
    end.
Proof.
  intros Hbx Hready. destruct (bb_open_acks bx !! i) as [m|] eqn:Hm.
  - destruct (handle_ack_run b i nack bx m w Hbx Hm Hready) as (w' & Hrun & Hcall).
    exists w'. split; [done|].
    assert (bearerboxes w' !! b = Some (drop_ack i bx)) as Hbx'
      by (rewrite (ca_boxes _ _ _ _ Hcall); cbn; by rewrite lookup_insert_eq).
    split.
    { unfold smpp_bearerbox_handle_ack. rewrite (read_bb_bind _ (drop_ack i bx)) by done.
      cbn [drop_ack bb_open_acks]. by rewrite lookup_delete_eq. }
    split; [|split; [|by split_and!; apply Hcall]].
    + rewrite (held_called _ _ b (drop_ack i bx) _ _ Hcall) by (cbn; by rewrite lookup_insert_eq).
      rewrite (held_split w b bx), (held_split (with_bb w b (drop_ack i bx)) b (drop_ack i bx))
        by (done || (cbn; by rewrite lookup_insert_eq)).
      unfold box_responses at 2. rewrite (acks_delete _ i m) by done.
      unfold held_elsewhere. cbn [with_bb bearerboxes]. rewrite delete_insert_eq. cbn. solve_Permutation.
    + eapply called_all_ready; [exact Hcall|]. eapply all_ready_with_bb; [done..|]. apply acks_incl_delete.
  - exists w. unfold smpp_bearerbox_handle_ack. by rewrite (read_bb_bind _ bx), Hm.
Qed.

(** Uses a summary of the final state of a run that was just computed. *)
Ltac apply_summary H :=
  match goal with |- bearerboxes ?w2 = <[_ := ?bx]> _ ∧ _ =>
    destruct (H w2 bx) as (?&?&?&?); try done; try (cbn; by rewrite !insert_insert_eq);
    split_and!; try done; cbn; congruence
  end.

(** C18. Losing the connection to a bearerbox loses no submission: when it is set up
    again, every message that waited for an acknowledgement is answered with a
    system error, in one pass, no other response changes, and the table is empty;
    the bearerbox counts as alive again exactly when the connection and the
    identification succeeded. *)
Theorem reconnect_fails_outstanding {DB} `{TimeLib} `{OctstrLib} `{KannelLib} `{DatabaseOps DB}
    `{EsmeEnv} `{RegexLib} `{BoxEnv} (w : World DB) (b : nat) (bx : SMPPBearerbox) (connected : bool) :
  bearerboxes w !! b = Some bx → alive bx = false → all_ready w →
  ∃ w' bx', smpp_bearerbox_reconnect b connected w = Some (tt, w') ∧
    bearerboxes w' = <[b := bx']> (bearerboxes w) ∧ bb_open_acks bx' = ∅ ∧
    connection bx' = connected ∧ alive bx' = connected && default true (head (bb_writes w)) ∧
    outbound_queue w' = outbound_queue w ++ box_responses bx ∧ held w' ≡ₚ held w ∧
    ∀ p, response_status w' p = if bool_decide (p ∈ box_responses bx) then Some SMPP_ESME_RSYSERR
                                else response_status w p.
Proof.
  intros Hbx Halive [Hq Hb]. unfold smpp_bearerbox_reconnect. rewrite (read_bb_bind _ bx) by done.
  destruct (fail_run b (map_to_list (bb_open_acks bx)) w bx Hbx)
    as (w1 & bx1 & Hrun & Hbs & Hal & Hw & Hout & Hbb & Hroute & Hst).
  { intros m p Hm. by apply (Hb b bx). }
  unfold fail_one in Hrun. rewrite bind_unfold, Hrun.
  assert (bearerboxes w1 !! b = Some bx1) as Hbx1 by (rewrite Hbs; apply lookup_insert_eq).
  rewrite (update_bb_bind _ bx1) by done.
  set (bx2 := {| bx1 with bb_open_acks := ∅; connection := connected |}).
  assert (∀ (w2 : World DB) (bx' : SMPPBearerbox), bearerboxes w2 = <[b := bx']> (bearerboxes w1) →
    bb_open_acks bx' = ∅ → outbound_queue w2 = outbound_queue w1 →
    bb_outbound_queue w2 = bb_outbound_queue w1 → route_requests w2 = route_requests w1 →
    pdus w2 = pdus w1 →
    bearerboxes w2 = <[b := bx']> (bearerboxes w) ∧ held w2 ≡ₚ held w ∧
    outbound_queue w2 = outbound_queue w ++ box_responses bx ∧
    ∀ p, response_status w2 p = if bool_decide (p ∈ box_responses bx) then Some SMPP_ESME_RSYSERR
                                else response_status w p) as Hfin.
  { intros w2 bx' Hb2 Hempty Ho2 Hq2 Hr2 Hp2. rewrite Hbs, insert_insert_eq in Hb2.
    split; [done|]. split; [|split; [by rewrite Ho2|]].
    - rewrite (held_split w b bx) by done.
      rewrite (held_split w2 b bx') by (rewrite Hb2; apply lookup_insert_eq).
      unfold held_elsewhere. rewrite Ho2, Hq2, Hr2, Hb2, Hout, Hbb, Hroute, delete_insert_eq.
      unfold box_responses at 1. rewrite Hempty, map_to_list_empty. cbn. unfold box_responses.
      solve_Permutation.
    - intros p. rewrite <- Hst. unfold response_status, lookup_pdu. by rewrite Hp2. }
  destruct connected; cbn [when].
  - unfold smpp_bearerbox_identify, smpp_bearerbox_set_state, now.
    rewrite bind_bind, next_write_bind, bind_bind, gets_bind, bind_bind. cbn [with_bb bb_writes]. rewrite Hw.
    destruct (default true (head (bb_writes w))) eqn:Hok; cbn [when].
    + rewrite (update_bb_bind _ bx2), ret_bind by (cbn; apply lookup_insert_eq). cbn [when].
      erewrite update_bb_run by (cbn; apply lookup_insert_eq).
      eexists _, {| bx2 with last_msg := w_now w1; alive := true |}. split; [reflexivity|]. apply_summary Hfin.
    + eexists _, bx2. split; [reflexivity|]. apply_summary Hfin.
  - eexists _, bx2. split; [reflexivity|]. apply_summary Hfin.
Qed.

(** C7. The writer loses no message: what it takes from the queue is written to the
    bearerbox, under its connection's identifier, and remembered as unacknowledged;
    if the bearerbox is not connected or the write fails, the message is back in the
    queue, or completed because no bearerbox is online, and nothing was written.
    Every response is held as often as before. *)
Theorem writer_loses_nothing {DB} `{TimeLib} `{OctstrLib} `{KannelLib} `{DatabaseOps DB} `{EsmeEnv}
    `{RegexLib} `{BoxEnv} (w : World DB) (b : nat) (bx : SMPPBearerbox) (m : SMPPBearerboxMsg)
    (q : list SMPPBearerboxMsg) :
  bb_outbound_queue w = m :: q → bearerboxes w !! b = Some bx →
  bb_open_acks bx !! bb_msg_id m = None → all_ready w →
  let m' := {| m with bb_msg := {| (bb_msg m) with boxc_id := bb_id bx |} |} in
  ∃ w', smpp_bearerbox_outbound_step b w = Some (tt, w') ∧ held w' ≡ₚ held w ∧ all_ready w' ∧
    if alive bx && connection bx && default true (head (bb_writes w))
    then trace w' = trace w ++ [EvDelivered b (bb_msg m')] ∧ bb_outbound_queue w' = q ∧
         bearerboxes w' = <[b := {| bx with bb_open_acks := <[bb_msg_id m := m']> (bb_open_acks bx) |}]>
                            (bearerboxes w)
    else trace w' = trace w.
Proof.
  intros Hq Hbx Hfresh Hready m'. unfold smpp_bearerbox_outbound_step. rewrite gets_bind, Hq, modify_bind.
  fold (popped w q).
  assert (∀ p, msg_response m = Some p → ready (popped w q) p) as Hm.
  { intros p Hp. apply (ready_same w); try done. apply (proj1 Hready m); [rewrite Hq; by left|done]. }
  pose proof (all_ready_popped _ _ _ Hq Hready) as Hready1.
  rewrite (read_bb_bind _ bx) by done.
  setoid_rewrite (held_popped w m q Hq).
  change (bb_writes w) with (bb_writes (popped w q)). change (trace w) with (trace (popped w q)).
  change (bearerboxes w) with (bearerboxes (popped w q)) in Hbx |- *.
  assert (bb_outbound_queue (popped w q) = q) as Hq' by done.
  generalize dependent (popped w q). clear dependent w. intros w Hbx Hm Hready Hq.
  destruct (alive bx && connection bx); cbn [andb].
  2:{ destruct (add_to_queue_run m w Hready Hm) as (w' & Hrun & Htr & Hrd & Hheld). by exists w'. }
  cbv zeta. fold m'. rewrite (update_bb_bind _ bx), next_write_bind by done.
  change (bb_msg_id m') with (bb_msg_id m). cbn [with_bb bb_writes].
  destruct (default true (head (bb_writes w))).
  - eexists. split; [reflexivity|]. split; [|split; [|done]].
    + apply (held_written w b bx); [done|]. by apply (acks_insert _ _ m').
    + apply (all_ready_written w b bx); [done| |done]. intros m1 p Hin Hp.
      apply acks_elem in Hin as (j & Hj). cbn in Hj. apply lookup_insert_Some in Hj as [[_ <-]|[_ Hj]].
      * by apply Hm.
      * apply (proj2 Hready b bx m1); [done| |done]. apply acks_elem. by exists j.
  - set (bx1 := {| bx with bb_open_acks := <[bb_msg_id m := m']> (bb_open_acks bx) |}).
    rewrite (update_bb_bind _ bx1) by (cbn; apply lookup_insert_eq).
    set (bx2 := {| bx1 with bb_open_acks := _; alive := false |}).
    set (w1 := with_bb _ b bx2).
    assert (w1 = {| (with_bb w b bx2) with bb_writes := tail (bb_writes w); trace := trace w |}) as Hw1.
    { subst w1. unfold with_bb. cbn. by rewrite insert_insert_eq. }
    assert (bb_open_acks bx2 = bb_open_acks bx) as Hacks by (cbn; by rewrite delete_insert_id).
    destruct (add_to_queue_run m' w1) as (w' & Hrun & Htr & Hrd & Hheld).
    + rewrite Hw1. apply (all_ready_written w b bx); [done| |done]. rewrite Hacks.
      intros m1 p Hin Hp. by apply (proj2 Hready b bx m1).
    + intros p Hp. apply (ready_same w); try done. by apply Hm.
    + exists w'. split; [exact Hrun|]. split; [|by split].
      rewrite Hheld, Hw1, (held_written w b bx _ _ _ []); [done|done|]. unfold box_responses. by rewrite Hacks.
Qed.
