(* ===== verification/Binds.v ===== *)
(** smpp_queues.c: the outcome of a bind request, the acknowledgement of a deliver_sm
    and the sending of a PDU. *)
From S2P Require Import Prelude CLib Gwlib Types Kannel Dlr PduUtil IpBlock World Callbacks Run Esme Acks.
From S2P Require Import Route Bearerbox Queues Listener Replies Submissions.
Open Scope Z_scope.

Section lemmas.
Context {DB : Type} `{TimeLib} `{OctstrLib} `{KannelLib} `{DatabaseOps DB} `{EsmeEnv} `{RegexLib}
  `{BoxEnv}.
Implicit Types (w : World DB).

(** The global of an account, new if it has none yet. *)
Definition account_of w (sid : Octstr) : SMPPEsmeGlobal :=
  default (new_global (server w) sid) (esmes w !! sid).

Definition with_key (sid : Octstr) (c : SMPPEsme) : SMPPEsme := {| c with smpp_esme_global := Some sid |}.

Lemma global_add_run e c sid w :
  lookup_esme w e = Some c → system_id c = Some sid →
  smpp_esme_global_add e w
  = Some (tt, with_global (with_esme w e (with_key sid c)) sid (add_bind e (account_of w sid))).
Proof.
  intros Hc Hsid. unfold smpp_esme_global_add, the_server.
  rewrite (read_esme_bind _ c), Hsid, deref_bind, !gets_bind by done. by rewrite (update_esme_bind _ c).
Qed.

(** A bind's response before it is filled in. *)
Definition bind_response (e : nat) (t : pdu_type) (n : Z) : SMPPQueuedPDU :=
  {| smpp_queued_pdu_create with smpp_esme := Some e; pdu := Some (smpp_pdu_create t n) |}.

End lemmas.

(** ** Specification *)

(** The answer to a bind request. *)
Record bind_answer `{KannelLib} (q : SMPPQueuedPDU) (e : nat) (resp : pdu_type) (seq st : Z)
    (disc : bool) (name : option Octstr) : Prop := {
  ba_esme : smpp_esme q = Some e;
  ba_disconnect : disconnect q = disc;
  ba_callback : callback q = None;
  ba_pdu : ∃ pd, pdu q = Some pd ∧ type pd = resp ∧ sequence_number pd = seq ∧
                 command_status pd = st ∧ (st = SMPP_ESME_ROK → pdu_system_id pd = name);
}.

(** The ESME [c] bound as [c'] under [sid] with the rights [kind] and the settings
    of the account [a]; a string or a simulation the account does not set stays. *)
Record bound_as (c c' : SMPPEsme) (sid : Octstr) (kind : Z) (a : SMPPESMEAuthResult) : Prop := {
  bo_rights : authenticated c' = true ∧ bind_type c' = kind;
  bo_account : system_id c' = Some sid ∧ smpp_esme_global c' = Some sid;
  bo_cost : default_cost c' = auth_default_cost a;
  bo_smsc : default_smsc c' = if 0 <? octstr_len (auth_default_smsc a) then auth_default_smsc a
                              else default_smsc c;
  bo_simulate : simulate c' = if auth_simulate a =? 0 then simulate c else auth_simulate a;
  bo_queued : outbound_queued c' = outbound_queued c + 1;
  bo_frame : connected c' = connected c ∧ open_acks c' = open_acks c ∧
             esme_sequence_number c' = esme_sequence_number c ∧ ip c' = ip c;
}.

(** The account [g] with a further bind and the limits of [a]. *)
Record limited_by (s : SMPPServer) (g g' : SMPPEsmeGlobal) (e : nat) (a : SMPPESMEAuthResult) : Prop := {
  li_binds : binds g' = binds g ++ [e];
  li_throughput : throughput g' = auth_throughput a;
  li_max_binds : max_binds g' = auth_max_binds a;
  li_prepaid : enable_prepaid_billing g' = auth_enable_prepaid_billing a;
  li_store : g_database_store_primary g' =
    (if auth_database_store_primary a =? SMPP_AUTH_DATABASE_STORE_PRIMARY_INHERIT
     then bool_int (database_store_primary s)
     else bool_int (negb (auth_database_store_primary a =? 0)));
  li_load : g_inbound_load g' = g_inbound_load g;
}.

(** ** Runs *)

(** The state after a granted bind. *)
Lemma bind_granted_run {DB} `{TimeLib} `{OctstrLib} `{KannelLib} `{DatabaseOps DB} `{EsmeEnv}
    `{RegexLib} `{BoxEnv} (w w1 : World DB) (p e : nat) (q : SMPPQueuedPDU) (pd : SMPP_PDU)
    (c : SMPPEsme) (resp : pdu_type) (kind : Z) (a : SMPPESMEAuthResult) (sid : Octstr) :
  lookup_pdu w p = Some q → smpp_esme q = Some e → pdu q = Some pd → lookup_esme w e = Some c →
  p ≠ next_ptr w → bind_kind (type pd) = Some (resp, kind) → pdu_system_id pd = Some sid →
  smpp_esme_auth (Some sid) (password pd) e w = Some (Some a, w1) →
  ∃ w', smpp_queues_handle_bind_pdu p w = Some (tt, w') ∧ pdus w' !! p = Some Freed ∧
    outbound_queue w' = outbound_queue w ++ [next_ptr w] ∧
    lookup_pdu w' (next_ptr w)
    = Some (set_response (accept_bind (server w)) (bind_response e resp (sequence_number pd))) ∧
    lookup_esme w' e
    = Some (apply_account a (inc_outbound_queued (with_key sid (bind_esme kind pd c)))) ∧
    esmes w' = <[sid := apply_limits (server w) a (add_bind e (account_of w sid))]> (esmes w).
Proof.
  intros Hq He Hpd Hc Hp Hkind Hsid Hauth.
  destruct (auth_state _ _ _ _ _ _ Hauth) as [bl ->].
  unfold smpp_queues_handle_bind_pdu.
  rewrite (read_pdu_bind _ q), (esme_of_bind _ e), (pdu_of_bind _ pd), Hkind, Hsid by done.
  set (w1 := {| w with blocklist := bl |}) in *.
  rewrite bind_bind, bind_unfold, Hauth. rewrite bind_bind, alloc_bind.
  change (next_ptr w1) with (next_ptr w). fold (bind_response e resp (sequence_number pd)).
  set (w2 := with_alloc w1 _).
  rewrite !bind_bind. unfold the_server. rewrite gets_bind, bind_bind.
  rewrite (update_esme_bind _ c) by done.
  rewrite bind_bind, bind_unfold, (update_pdu_run _ (bind_response e resp (sequence_number pd)))
    by exact (lookup_with_alloc_eq w1 _).
  set (w3 := with_pdu _ _ _).
  rewrite bind_unfold, (global_add_run e (bind_esme kind pd c) sid)
    by (done || exact (lookup_with_esme_eq _ _ _)).
  set (w4 := with_global _ _ _).
  rewrite bind_bind, bind_unfold.
  rewrite (add_outbound_run _ (set_response (accept_bind (server w)) (bind_response e resp (sequence_number pd)))
    e (with_key sid (bind_esme kind pd c)))
    by (done || exact (lookup_with_pdu_eq _ _ _) || exact (lookup_with_esme_eq _ _ _)).
  set (w5 := {| _ with outbound_queue := _ |}).
  rewrite bind_bind, gets_bind, bind_bind.
  rewrite (update_esme_bind _ (inc_outbound_queued (with_key sid (bind_esme kind pd c))))
    by exact (lookup_with_esme_eq _ _ _).
  rewrite bind_unfold, (update_global_run _
    (apply_account a (inc_outbound_queued (with_key sid (bind_esme kind pd c)))) sid
    (add_bind e (account_of w sid)));
    [|exact (lookup_with_esme_eq _ _ _)|done|cbn; apply lookup_insert_eq].
  assert (∀ p', lookup_pdu w5 p' = if bool_decide (next_ptr w = p')
    then Some (set_response (accept_bind (server w)) (bind_response e resp (sequence_number pd)))
    else lookup_pdu w2 p') as Hw5 by (intros p'; exact (lookup_with_pdu _ _ _ _)).
  assert (lookup_pdu w5 p = Some q) as Hq5.
  { rewrite Hw5, bool_decide_false by done. unfold w2. rewrite lookup_with_alloc. by rewrite bool_decide_false. }
  erewrite destroy_run by exact Hq5. eexists. split; [reflexivity|]. split_and!.
  - cbn. apply lookup_insert_eq.
  - done.
  - etransitivity; [exact (lookup_freed_ne _ p (next_ptr w) (not_eq_sym Hp))|].
    etransitivity; [exact (Hw5 (next_ptr w))|]. by rewrite bool_decide_true.
  - exact (lookup_with_esme_eq _ _ _).
  - cbn. by rewrite insert_insert_eq.
Qed.

(** The state after a refused bind. *)
Lemma bind_refused_run {DB} `{TimeLib} `{OctstrLib} `{KannelLib} `{DatabaseOps DB} `{EsmeEnv}
    `{RegexLib} `{BoxEnv} (w w1 : World DB) (p e : nat) (q : SMPPQueuedPDU) (pd : SMPP_PDU)
    (c : SMPPEsme) (resp : pdu_type) (kind : Z) :
  lookup_pdu w p = Some q → smpp_esme q = Some e → pdu q = Some pd → lookup_esme w e = Some c →
  p ≠ next_ptr w → bind_kind (type pd) = Some (resp, kind) →
  smpp_esme_auth (pdu_system_id pd) (password pd) e w = Some (None, w1) →
  ∃ w', smpp_queues_handle_bind_pdu p w = Some (tt, w') ∧ pdus w' !! p = Some Freed ∧
    outbound_queue w' = outbound_queue w ++ [next_ptr w] ∧
    lookup_pdu w' (next_ptr w)
    = Some {| (set_response refuse_bind (bind_response e resp (sequence_number pd))) with
              disconnect := true |} ∧
    lookup_esme w' e = Some (inc_outbound_queued {| c with pending_disconnect := true |}) ∧
    esmes w' = esmes w ∧ db w' = db w.
Proof.
  intros Hq He Hpd Hc Hp Hkind Hauth.
  destruct (auth_state _ _ _ _ _ _ Hauth) as [bl ->].
  unfold smpp_queues_handle_bind_pdu.
  rewrite (read_pdu_bind _ q), (esme_of_bind _ e), (pdu_of_bind _ pd), Hkind by done.
  set (w1 := {| w with blocklist := bl |}) in *.
  rewrite bind_bind, bind_unfold, Hauth. rewrite bind_bind, alloc_bind.
  change (next_ptr w1) with (next_ptr w). fold (bind_response e resp (sequence_number pd)).
  set (w2 := with_alloc w1 _). set (q2 := {| _ with disconnect := true |}).
  rewrite !bind_bind, bind_unfold, (update_pdu_run _ (bind_response e resp (sequence_number pd)))
    by exact (lookup_with_alloc_eq w1 _).
  rewrite (update_esme_bind _ c) by done. rewrite bind_bind, bind_unfold.
  rewrite (add_outbound_run _ q2 e {| c with pending_disconnect := true |})
    by (done || exact (lookup_with_pdu_eq _ _ _) || exact (lookup_with_esme_eq _ _ _)).
  rewrite ret_bind. set (w5 := {| _ with outbound_queue := _ |}).
  assert (∀ p', lookup_pdu w5 p' = if bool_decide (next_ptr w = p') then Some q2 else lookup_pdu w2 p')
    as Hw5 by (intros p'; exact (lookup_with_pdu _ _ _ _)).
  erewrite destroy_run; [|rewrite Hw5, bool_decide_false by done; unfold w2;
    rewrite lookup_with_alloc, bool_decide_false by done; exact Hq].
  eexists. split; [reflexivity|]. split_and!; try done.
  - cbn. apply lookup_insert_eq.
  - etransitivity; [exact (lookup_freed_ne _ p (next_ptr w) (not_eq_sym Hp))|].
    etransitivity; [exact (Hw5 (next_ptr w))|]. by rewrite bool_decide_true.
  - exact (lookup_with_esme_eq _ _ _).
Qed.

(** ** Properties *)

(** C19. A granted bind: the ESME is bound with the rights of the request under its
    identifier, gets the account's settings, and is added at the end of the
    account's binds, whose limits are set; other accounts are not touched. The
    request is freed and answered with success, its sequence number and the
    server's name. *)
Theorem bind_granted {DB} `{TimeLib} `{OctstrLib} `{KannelLib} `{DatabaseOps DB} `{EsmeEnv}
    `{RegexLib} `{BoxEnv} (w w1 : World DB) (p e : nat) (q : SMPPQueuedPDU) (pd : SMPP_PDU)
    (c : SMPPEsme) (resp : pdu_type) (kind : Z) (a : SMPPESMEAuthResult) (sid : Octstr) :
  lookup_pdu w p = Some q → smpp_esme q = Some e → pdu q = Some pd → lookup_esme w e = Some c →
  p ≠ next_ptr w → bind_kind (type pd) = Some (resp, kind) → pdu_system_id pd = Some sid →
  smpp_esme_auth (Some sid) (password pd) e w = Some (Some a, w1) →
  ∃ w' r c' g', smpp_queues_handle_bind_pdu p w = Some (tt, w') ∧ pdus w' !! p = Some Freed ∧
    outbound_queue w' = outbound_queue w ++ [next_ptr w] ∧
    lookup_pdu w' (next_ptr w) = Some r ∧
    bind_answer r e resp (sequence_number pd) SMPP_ESME_ROK false (server_id (server w)) ∧
    lookup_esme w' e = Some c' ∧ bound_as c c' sid kind a ∧
    esmes w' = <[sid := g']> (esmes w) ∧ limited_by (server w) (account_of w sid) g' e a.
Proof.
  intros Hq He Hpd Hc Hp Hkind Hsid Hauth.
  destruct (bind_granted_run _ _ _ _ _ _ _ _ _ _ _ Hq He Hpd Hc Hp Hkind Hsid Hauth)
    as (w' & Hrun & Hfree & Ho & Hr & He' & Hg).
  do 4 eexists. split_and!; [exact Hrun|exact Hfree|exact Ho|exact Hr| |exact He'| |exact Hg|].
  - split; try done. eexists. split; [done|]. cbn. by rewrite smpp_pdu_create_type, smpp_pdu_create_seq.
  - by split.
  - split; try done. cbn. unfold smpp_esme_effective_database_store_primary.
    by destruct (_ =? SMPP_AUTH_DATABASE_STORE_PRIMARY_INHERIT).
Qed.

(** C20. A refused bind: the request is freed, answered with a bind failure under its
    sequence number, and the answer closes the connection; the ESME is marked, gets
    no rights, and no account changes. *)
Theorem bind_refused {DB} `{TimeLib} `{OctstrLib} `{KannelLib} `{DatabaseOps DB} `{EsmeEnv}
    `{RegexLib} `{BoxEnv} (w w1 : World DB) (p e : nat) (q : SMPPQueuedPDU) (pd : SMPP_PDU)
    (c : SMPPEsme) (resp : pdu_type) (kind : Z) :
  lookup_pdu w p = Some q → smpp_esme q = Some e → pdu q = Some pd → lookup_esme w e = Some c →
  p ≠ next_ptr w → bind_kind (type pd) = Some (resp, kind) →
  smpp_esme_auth (pdu_system_id pd) (password pd) e w = Some (None, w1) →
  ∃ w' r, smpp_queues_handle_bind_pdu p w = Some (tt, w') ∧ pdus w' !! p = Some Freed ∧
    outbound_queue w' = outbound_queue w ++ [next_ptr w] ∧
    lookup_pdu w' (next_ptr w) = Some r ∧
    bind_answer r e resp (sequence_number pd) SMPP_ESME_RBINDFAIL true None ∧
    lookup_esme w' e = Some (inc_outbound_queued {| c with pending_disconnect := true |}) ∧
    esmes w' = esmes w ∧ db w' = db w.
Proof.
  intros Hq He Hpd Hc Hp Hkind Hauth.
  destruct (bind_refused_run _ _ _ _ _ _ _ _ _ Hq He Hpd Hc Hp Hkind Hauth)
    as (w' & Hrun & Hfree & Ho & Hr & He' & Hg & Hd).
  do 2 eexists. split_and!; [exact Hrun|exact Hfree|exact Ho|exact Hr| |exact He'|exact Hg|exact Hd].
  split; try done. eexists. split; [done|]. cbn. by rewrite smpp_pdu_create_type, smpp_pdu_create_seq.
Qed.

(** Runs the remaining actions, and reads the final state off. *)
Ltac run_all Hq Hc :=
  repeat first
    [ rewrite ret_bind
    | rewrite modify_bind
    | rewrite bind_bind
    | erewrite update_esme_bind by (exact Hc || exact (lookup_with_esme_eq _ _ _))
    | erewrite update_esme_run by (exact Hc || exact (lookup_with_esme_eq _ _ _))
    | erewrite pdu_of_bind by eassumption
    | erewrite write_pdu_bind by exact Hq ];
  try (erewrite destroy_run; [|exact Hq]).

Lemma lookup_pdu_live {DB} (w : World DB) p q : lookup_pdu w p = Some q → pdus w !! p = Some (Live q).
Proof. unfold lookup_pdu. by destruct (pdus w !! p) as [[]|]; intros; simplify_eq. Qed.
Lemma lookup_with_pdu_ne {DB} (w : World DB) p q p' :
  p' ≠ p → lookup_pdu (with_pdu w p q) p' = lookup_pdu w p'.
Proof. intros. rewrite lookup_with_pdu. by rewrite bool_decide_false. Qed.

Ltac sent Hq :=
  eexists; split; [reflexivity|]; split_and!;
    [ done
    | cbn; by rewrite ?app_nil_r
    | first [exact (lookup_insert_eq _ _ _)|exact (lookup_pdu_live _ _ _ Hq)]
    | intros p' Hp'; first [reflexivity|exact (lookup_with_pdu_ne _ _ _ _ Hp')|exact (lookup_freed_ne _ _ _ Hp')]
    | intros e' He'; unfold lookup_esme; cbn; rewrite ?lookup_insert_ne by (by apply not_eq_sym); reflexivity
    | eexists; split; [exact (lookup_with_esme_eq _ _ _)|]; split_and!; cbn; congruence
    | done ].

(** One step of the outbound thread. *)
Lemma outbound_step_run {DB} `{TimeLib} `{OctstrLib} `{KannelLib} `{DatabaseOps DB} `{EsmeEnv}
    `{RegexLib} `{BoxEnv} (w : World DB) (p e : nat) (oq : list nat) (q : SMPPQueuedPDU)
    (pd : SMPP_PDU) (c : SMPPEsme) :
  outbound_queue w = p :: oq → lookup_pdu w p = Some q → smpp_esme q = Some e →
  pdu q = Some pd → lookup_esme w e = Some c →
  ∃ w', smpp_queues_outbound_step w = Some (tt, w') ∧ outbound_queue w' = oq ∧
    trace w' = trace w ++ (if connected c then [EvSent e pd] else []) ∧
    pdus w' !! p = Some (match callback q with
                         | Some _ => Live (if connected c then {| q with time_sent := w_now w |} else q)
                         | None => Freed
                         end) ∧
    (∀ p', p' ≠ p → lookup_pdu w' p' = lookup_pdu w p') ∧
    (∀ e', e' ≠ e → lookup_esme w' e' = lookup_esme w e') ∧
    (∃ c', lookup_esme w' e = Some c' ∧ connected c' = connected c && negb (disconnect q) ∧
           outbound_queued c' = counter_dec (outbound_queued c) ∧ open_acks c' = open_acks c) ∧
    cleanup_queue w' = (if connected c && disconnect q && negb (authenticated c)
                        then gwlist_append_unique (cleanup_queue w) e else cleanup_queue w).
Proof.
  intros Hoq Hq He Hpd Hc. unfold smpp_queues_outbound_step.
  rewrite gets_bind, Hoq, modify_bind. set (w1 := {| w with outbound_queue := oq |}).
  rewrite (read_pdu_bind _ q), (esme_of_bind _ e) by done. unfold now. rewrite gets_bind.
  rewrite (update_esme_bind _ c) by done.
  rewrite (read_esme_bind _ (processed_outbound (w_now w1) c)) by exact (lookup_with_esme_eq _ _ _).
  set (c1 := processed_outbound (w_now w1) c). set (w2 := with_esme w1 e c1).
  change (connected c1) with (connected c). change (authenticated c1) with (authenticated c).
  assert (lookup_pdu w2 p = Some q) as Hq2 by done.
  assert (lookup_esme w2 e = Some c1) as Hc2 by exact (lookup_with_esme_eq _ _ _).
  destruct (callback q) as [cb|] eqn:Hcb.
  - rewrite (bool_decide_true (is_Some _)), (bool_decide_false (_ = None)) by eauto.
    destruct (connected c) eqn:Hconn; cbn [when andb].
    + destruct (disconnect q) eqn:Hd, (authenticated c) eqn:Hau; cbn [when andb negb];
        unfold smpp_esme_cleanup, smpp_esme_stop_listening, smpp_queues_send_pdu, emit;
        run_all Hq2 Hc2; sent Hq2.
    + cbn [when]. sent Hq2.
  - rewrite (bool_decide_false (is_Some _)), (bool_decide_true (_ = None)) by (done || by intros []).
    destruct (connected c) eqn:Hconn; cbn [when andb].
    + destruct (disconnect q) eqn:Hd, (authenticated c) eqn:Hau; cbn [when andb negb];
        unfold smpp_esme_cleanup, smpp_esme_stop_listening, smpp_queues_send_pdu, emit;
        run_all Hq2 Hc2; sent Hq2.
    + run_all Hq2 Hc2. sent Hq2.
Qed.

(** The outbound thread takes the first PDU of its queue and, if the ESME is
    connected, writes exactly it; the ESME stops being read from if the PDU ends
    the connection, and one that was never authenticated goes to the cleanup queue.
    A PDU without a callback is freed; one with a callback stays, with the time it
    was sent at, and waits for its acknowledgement. *)
Theorem outbound_step_sends {DB} `{TimeLib} `{OctstrLib} `{KannelLib} `{DatabaseOps DB} `{EsmeEnv}
    `{RegexLib} `{BoxEnv} (w : World DB) (p e : nat) (oq : list nat) (q : SMPPQueuedPDU)
    (pd : SMPP_PDU) (c : SMPPEsme) :
  outbound_queue w = p :: oq → lookup_pdu w p = Some q → smpp_esme q = Some e →
  pdu q = Some pd → lookup_esme w e = Some c →
  ∃ w', smpp_queues_outbound_step w = Some (tt, w') ∧ outbound_queue w' = oq ∧
    trace w' = trace w ++ (if connected c then [EvSent e pd] else []) ∧
    pdus w' !! p = Some (match callback q with
                         | Some _ => Live (if connected c then {| q with time_sent := w_now w |} else q)
                         | None => Freed
                         end) ∧
    (∀ p', p' ≠ p → lookup_pdu w' p' = lookup_pdu w p') ∧
    (∃ c', lookup_esme w' e = Some c' ∧ connected c' = connected c && negb (disconnect q) ∧
           outbound_queued c' = counter_dec (outbound_queued c) ∧ open_acks c' = open_acks c) ∧
    cleanup_queue w' = (if connected c && disconnect q && negb (authenticated c)
                        then gwlist_append_unique (cleanup_queue w) e else cleanup_queue w).
Proof.
  intros Hoq Hq He Hpd Hc.
  destruct (outbound_step_run w p e oq q pd c Hoq Hq He Hpd Hc) as (w' & ? & ? & ? & ? & ? & _ & ? & ?).
  exists w'. by split_and!.
Qed.

(** A response that is ready to be sent: the ESME it is for is connected. *)
Definition ready_for {DB} (w : World DB) (p : nat) (e : nat) (pd : SMPP_PDU) : Prop :=
  (∃ q, lookup_pdu w p = Some q ∧ callback q = None ∧ disconnect q = false ∧ smpp_esme q = Some e ∧
        pdu q = Some pd) ∧
  ∃ c, lookup_esme w e = Some c ∧ connected c = true.

Lemma outbound_drain {DB} `{TimeLib} `{OctstrLib} `{KannelLib} `{DatabaseOps DB} `{EsmeEnv}
    `{RegexLib} `{BoxEnv} (w : World DB) (ps rest : list nat) (msgs : list (nat * SMPP_PDU)) :
  outbound_queue w = ps ++ rest → NoDup ps → Forall2 (λ p m, ready_for w p m.1 m.2) ps msgs →
  ∃ w', for_each (λ _, smpp_queues_outbound_step) ps w = Some (tt, w') ∧ outbound_queue w' = rest ∧
    trace w' = trace w ++ map (λ m, EvSent m.1 m.2) msgs ∧
    Forall (λ p, lookup_pdu w' p = None) ps ∧ (∀ p, p ∉ ps → lookup_pdu w' p = lookup_pdu w p).
Proof.
  intros Hoq Hnd Hready. revert msgs w Hoq Hready.
  induction Hnd as [|p ps Hp Hnd IH]; intros msgs w Hoq Hready.
  { apply Forall2_nil_inv_l in Hready as ->. exists w. split_and!; try done. cbn. by rewrite app_nil_r. }
  apply Forall2_cons_inv_l in Hready as ([e pd] & ms & Hr & Hready & ->).
  destruct Hr as [(q & Hq & Hcb & Hd & He & Hpd) (c & Hc & Hcon)].
  destruct (outbound_step_run w p e (ps ++ rest) q pd c Hoq Hq He Hpd Hc)
    as (w1 & Hrun & Ho & Ht & Hfreed & Hpdus & Hothers & (c' & Hc' & Hcon' & _) & _).
  rewrite Hcb in Hfreed. rewrite Hcon, Hd in Hcon'. rewrite Hcon in Ht.
  destruct (IH ms w1 Ho) as (w' & Hruns & Ho' & Ht' & Hfrees & Hrest).
  { revert Hready. apply Forall2_impl_in.
    intros p' [e' pd'] Hp' [(q' & Hq' & ?) (c1 & Hc1 & Hcon1)]. split.
    - exists q'. rewrite Hpdus; [by split|]. by intros ->.
    - destruct (decide (e' = e)) as [->|Hne]; [by exists c'|]. exists c1. by rewrite Hothers. }
  exists w'. cbn [for_each]. rewrite bind_unfold, Hrun. split_and!; try done.
  - rewrite Ht', Ht. by rewrite <- app_assoc.
  - constructor; [|done]. rewrite Hrest by done. unfold lookup_pdu. by rewrite Hfreed.
  - intros p' Hp'. apply not_elem_of_cons in Hp' as [? ?]. by rewrite Hrest, Hpdus.
Qed.


(** A deliver_sm_resp for a deliver_sm that is still in the outbound queue, which
    an ESME can send by guessing the next sequence number, acknowledges and frees it
    there; the outbound thread then takes a dangling pointer from its queue. *)
Theorem early_ack_dangles {DB} `{TimeLib} `{OctstrLib} `{KannelLib} `{DatabaseOps DB} `{EsmeEnv}
    `{RegexLib} `{BoxEnv} (w : World DB) (p b e : nat) (i : Octstr) (q : SMPPQueuedPDU) (pd : SMPP_PDU)
    (c : SMPPEsme) (oq : list nat) (seq : Z) :
  outbound_queue w = p :: oq → lookup_esme w e = Some c → open_acks c !! fmt_ld seq = Some p →
  lookup_pdu w p = Some q → callback q = Some smpp_queues_callback_deliver_sm_resp_cb →
  bearerbox q = Some b → bearerbox_id q = Some i → i ≠ [] → is_Some (bearerboxes w !! b) →
  pdu q = Some pd → type pd = deliver_sm → smpp_esme q = Some e → bound w e →
  ∃ w', smpp_queues_process_ack e seq SMPP_ESME_ROK w = Some (tt, w') ∧
    smpp_queues_outbound_step w' = None.
Proof.
  intros Hoq Hc Hack Hq Hcb Hb Hi Hne Hbox Hpd Ht He (c' & key & g & Hc' & Hkey & Hg).
  assert (c' = c) as -> by congruence.
  unfold smpp_queues_process_ack, smpp_esme_outbound_load_increase, now. rewrite bind_bind, gets_bind.
  match goal with |- context [(update_esme e ?fe;; update_global e ?fg);; _] =>
    rewrite bind_unfold, (count_run fe fg e c key g) by done end.
  set (g1 := {| g with g_outbound_load := _ |}). set (c1 := {| c with outbound_load := _ |}) in *.
  set (w1 := {| _ with esmes := _ |}).
  rewrite (read_esme_bind _ c1) by exact (lookup_with_esme_eq _ _ _). cbv zeta.
  change (open_acks c1) with (open_acks c). rewrite Hack.
  rewrite (update_esme_bind _ c1) by exact (lookup_with_esme_eq _ _ _).
  set (c2 := {| c1 with open_acks := _ |}). set (w2 := with_esme w1 e c2).
  rewrite (read_pdu_bind _ q), Hcb by done. cbn [run_callback].
  destruct (deliver_sm_run w2 p b e i q pd SMPP_ESME_ROK) as (w' & Hrun & Hfreed & Hout & _); try done.
  { exists c2, key, g1. split; [exact (lookup_with_esme_eq _ _ _)|]. split; [done|].
    cbn. by rewrite lookup_insert_eq. }
  exists w'. split; [done|]. unfold smpp_queues_outbound_step.
  rewrite gets_bind, Hout. cbn [w2 w1 with_esme set_esme_heap outbound_queue]. rewrite Hoq, modify_bind.
  rewrite bind_unfold. unfold read_pdu. rewrite gets_bind. unfold lookup_pdu. cbn [pdus]. by rewrite Hfreed.
Qed.

(** One packet before a bind stops the daemon: [smpp_esme_global] of a new ESME is
    not set, and the handling of a deliver_sm_resp uses it without a look at the
    bind. Whatever the state, a peer that is admitted and sends a deliver_sm_resp as
    its first PDU makes the inbound thread follow that pointer. *)
Theorem response_before_bind_stops {DB} `{TimeLib} `{OctstrLib} `{KannelLib} `{DatabaseOps DB}
    `{EsmeEnv} `{RegexLib} `{BoxEnv} (method : option routing_method) (plugin : bool)
    (uuid : nat → Octstr) (w w1 : World DB) (peer : option Octstr) (n : Z) (e : nat) (v : conn_view)
    (pd : SMPP_PDU) :
  smpp_listener_connection_callback peer n w = Some (Some e, w1) → inbound_queue w = [] →
  arrives v pd → type pd = deliver_sm_resp →
  ∃ w2, smpp_listener_event e [v] w1 = Some (tt, w2) ∧ inbound_queue w2 = [next_ptr w1] ∧
    smpp_queues_inbound_step method plugin uuid w2 = None.
Proof.
  intros Hconn Hempty Hv Ht.
  assert (∃ c, lookup_esme w1 e = Some c ∧ conn c = true ∧ smpp_esme_global c = None ∧
               inbound_queue w1 = []) as (c & Hc & Hcn & Hg & Hq).
  { unfold smpp_listener_connection_callback, the_server, now in Hconn. rewrite !gets_bind in Hconn.
    apply bind_Some in Hconn as (b & w0 & Hb & Hconn).
    assert (inbound_queue w0 = []) as Hq0.
    { destruct peer as [i|]; [destruct (negb (octlen i =? 0))|]; try (by apply ret_Some in Hb as [_ <-]).
      rewrite get_bind in Hb. destruct (smpp_listener_ip_is_blocked _ _ _ _) as [b' bl].
      rewrite modify_bind in Hb. by apply ret_Some in Hb as [_ <-]. }
    destruct b; [by apply ret_Some in Hconn as [? _]|].
    rewrite gets_bind, modify_bind in Hconn. apply ret_Some in Hconn as [[= <-] <-].
    eexists. split; [unfold lookup_esme; cbn; by rewrite lookup_insert_eq|done]. }
  destruct (read_loop_arrived e c v pd [] w1) as (w2 & Hrun & Hc2 & Hq2 & Hn2 & Hp2); try done.
  exists w2. rewrite Hq in Hq2. split; [|split; [done|]].
  { unfold smpp_listener_event. by rewrite bind_unfold, Hrun. }
  unfold smpp_queues_inbound_step. rewrite gets_bind, Hq2. cbn [app]. rewrite modify_bind.
  rewrite (read_pdu_bind _ (heard e pd)) by (unfold lookup_pdu; cbn; by rewrite Hp2, lookup_insert_eq).
  rewrite (esme_of_bind _ e), (pdu_of_bind _ pd) by done. unfold now. rewrite gets_bind.
  erewrite update_esme_bind by exact Hc2. rewrite Ht.
  unfold smpp_queues_process_ack, smpp_esme_outbound_load_increase, now.
  rewrite !bind_bind, gets_bind. rewrite !bind_bind.
  erewrite update_esme_bind by exact (lookup_with_esme_eq _ _ _).
  unfold update_global, read_global. rewrite !bind_bind.
  erewrite read_esme_bind by exact (lookup_with_esme_eq _ _ _).
  rewrite bind_bind, bind_unfold. cbn [smpp_esme_global processed_inbound inc_inbound_queued set_errors set_pending_len].
  by rewrite Hg.
Qed.
