(* ===== verification/Deliveries.v ===== *)
(** Messages on their way to an ESME: how deliver_sm PDUs are numbered, remembered
    until they are acknowledged and queued (smpp_bearerbox.c, smpp_queues.c), how
    the requeue thread hands out what the database kept, and how the URL of a
    receipt leads back to the account. *)
From S2P Require Import Prelude CLib Gwlib Types Kannel Dlr PduUtil IpBlock World Callbacks Run Esme.
From S2P Require Import Route Bearerbox Queues Requeue Replies.
Open Scope Z_scope.

(** ** Lemmas *)

Definition add_ack (key : Octstr) (p : nat) (c : SMPPEsme) : SMPPEsme :=
  {| c with open_acks := <[key := p]> (open_acks c) |}.
Definition next_number (c : SMPPEsme) : SMPPEsme :=
  {| c with esme_sequence_number := esme_sequence_number c + 1 |}.

Section lemmas.
Context {DB : Type} `{TimeLib} `{OctstrLib} `{KannelLib} `{DatabaseOps DB} `{EsmeEnv} `{RegexLib}
  `{BoxEnv}.
Implicit Types (w : World DB).

(** A PDU with a callback is remembered under its identifier. *)
Lemma add_outbound_cb_run p q e c key cb w :
  lookup_pdu w p = Some q → callback q = Some cb → pdu_id q = Some key → smpp_esme q = Some e →
  lookup_esme w e = Some c → open_acks c !! key = None →
  ∃ w', smpp_queues_add_outbound p w = Some (tt, w') ∧
    outbound_queue w' = outbound_queue w ++ [p] ∧
    lookup_esme w' e = Some (inc_outbound_queued (add_ack key p c)) ∧
    (∀ e', e' ≠ e → lookup_esme w' e' = lookup_esme w e') ∧
    pdus w' = pdus w ∧ next_ptr w' = next_ptr w ∧ esmes w' = esmes w ∧ db w' = db w ∧ trace w' = trace w.
Proof.
  intros Hq Hcb Hkey He Hc Hfresh. unfold smpp_queues_add_outbound, put_open_ack, produce_outbound.
  rewrite (read_pdu_bind _ q), (esme_of_bind _ e), Hcb, Hkey, bind_bind, deref_bind by done.
  rewrite bind_bind, (read_esme_bind _ c), Hfresh, bind_bind, ret_bind by done.
  rewrite (update_esme_bind _ c) by done.
  rewrite (update_esme_bind _ _ _ _ _ (lookup_with_esme_eq _ _ _)).
  eexists. split; [reflexivity|]. split; [done|]. split; [exact (lookup_with_esme_eq _ _ _)|].
  split; [|done]. intros e' Hne. unfold lookup_esme. cbn. by rewrite !lookup_insert_ne.
Qed.

(** What is queued for a deliver_sm. *)
Definition delivery (q : SMPPQueuedPDU) (e : nat) (sid : option Octstr) (n : Z) (pd : SMPP_PDU)
    : SMPPQueuedPDU :=
  {| q with pdu := Some {| pd with sequence_number := n |}; q_system_id := sid; smpp_esme := Some e;
            callback := Some smpp_queues_callback_deliver_sm_resp_cb; pdu_id := Some (fmt_ld n) |}.

Lemma queue_deliver_run e q pd c w :
  lookup_esme w e = Some c → open_acks c !! fmt_ld (esme_sequence_number c) = None →
  ∃ w', queue_deliver e q pd w = Some (tt, w') ∧
    outbound_queue w' = outbound_queue w ++ [next_ptr w] ∧
    lookup_esme w' e
    = Some (inc_outbound_queued (add_ack (fmt_ld (esme_sequence_number c)) (next_ptr w) (next_number c))) ∧
    pdus w' = <[next_ptr w := Live (delivery q e (system_id c) (esme_sequence_number c) pd)]> (pdus w) ∧
    next_ptr w' = S (next_ptr w) ∧ trace w' = trace w.
Proof.
  intros Hc Hfresh. unfold queue_deliver.
  rewrite (read_esme_bind _ c), (update_esme_bind _ c), alloc_bind by done.
  set (q1 := delivery q e (system_id c) (esme_sequence_number c) pd).
  destruct (add_outbound_cb_run (next_ptr w) q1 e (next_number c) (fmt_ld (esme_sequence_number c))
    smpp_queues_callback_deliver_sm_resp_cb (with_alloc (with_esme w e (next_number c)) q1))
    as (w' & Hrun & Ho & He & _ & Hp & Hn & _ & _ & Ht); try done.
  { exact (lookup_with_alloc_eq (with_esme w e (next_number c)) q1). }
  { exact (lookup_with_esme_eq _ _ _). }
  exists w'. split; [exact Hrun|]. split_and!; done || by rewrite ?Hp, ?Hn, ?Ht.
Qed.

(** The PDUs of a message, one after the other. *)
Lemma deliver_all e q pds c w :
  lookup_esme w e = Some c →
  (∀ k, (k < length pds)%nat → open_acks c !! fmt_ld (esme_sequence_number c + Z.of_nat k) = None) →
  ∃ w' c', for_each (queue_deliver e q) pds w = Some (tt, w') ∧ trace w' = trace w ∧
    outbound_queue w' = outbound_queue w ++ seq (next_ptr w) (length pds) ∧
    next_ptr w' = (next_ptr w + length pds)%nat ∧
    lookup_esme w' e = Some c' ∧ system_id c' = system_id c ∧
    esme_sequence_number c' = esme_sequence_number c + Z.of_nat (length pds) ∧
    outbound_queued c' = outbound_queued c + Z.of_nat (length pds) ∧
    (∀ k pd, pds !! k = Some pd →
       let n := esme_sequence_number c + Z.of_nat k in
       lookup_pdu w' (next_ptr w + k) = Some (delivery q e (system_id c) n pd) ∧
       open_acks c' !! fmt_ld n = Some (next_ptr w + k)%nat) ∧
    (∀ i p, open_acks c !! i = Some p → open_acks c' !! i = Some p) ∧
    (∀ p, (p < next_ptr w)%nat → lookup_pdu w' p = lookup_pdu w p).
Proof.
  revert c w. induction pds as [|pd pds IH]; intros c w Hc Hfresh.
  { exists w, c. split_and!; try done; try (simpl; lia). by rewrite app_nil_r. }
  assert (open_acks c !! fmt_ld (esme_sequence_number c) = None) as H0th.
  { rewrite <- (Hfresh 0%nat) by (simpl; lia). f_equal. f_equal. lia. }
  destruct (queue_deliver_run e q pd c w Hc H0th) as (w1 & Hrun & Ho1 & Hc1 & Hp1 & Hn1 & Ht1).
  destruct (IH _ w1 Hc1) as (w' & c' & Hrun' & Ht & Ho & Hn & Hc' & Hs & Hseq & Hq & Hall & Hkeep & Hold).
  { intros k Hk. cbn. rewrite lookup_insert_ne.
    - rewrite <- (Hfresh (S k)) by (simpl; lia). do 2 f_equal. lia.
    - intros Heq%fmt_ld_inj. lia. }
  exists w', c'. cbn [for_each]. rewrite bind_unfold, Hrun, Hrun'.
  cbn [inc_outbound_queued add_ack next_number esme_sequence_number outbound_queued system_id open_acks
    length] in *.
  split_and!; try done; try congruence; try lia.
  - rewrite Ho, Ho1, Hn1, <- app_assoc. done.
  - intros [|k] pd' Hk; cbn in Hk; simplify_eq.
    + rewrite Z.add_0_r, Nat.add_0_r. split.
      * rewrite Hold by lia. unfold lookup_pdu. by rewrite Hp1, lookup_insert_eq.
      * apply Hkeep. by rewrite lookup_insert_eq.
    + destruct (Hall k pd' Hk) as [Hd Ha]. rewrite Hn1 in *.
      replace (esme_sequence_number c + 1 + Z.of_nat k) with
        (esme_sequence_number c + Z.of_nat (S k)) in * by lia.
      replace (S (next_ptr w) + k)%nat with (next_ptr w + S k)%nat in * by lia. done.
  - intros i p Hi. apply Hkeep. rewrite lookup_insert_ne; [done|]. intros <-. congruence.
  - intros p Hp. rewrite Hold by lia. unfold lookup_pdu. rewrite Hp1, lookup_insert_ne by lia. done.
Qed.

End lemmas.

(** ** Properties *)

(** C23. A mobile-originated message that was routed to an account with a receiver
    becomes deliver_sm PDUs of that receiver: one per part, in order, with
    consecutive sequence numbers of the ESME, each remembered under its number until
    it is acknowledged, and each carrying the bearerbox and the identifier to
    acknowledge. Nothing is acknowledged yet, and no acknowledgement that was
    awaited is forgotten. *)
Theorem mo_parts_delivered {DB} `{TimeLib} `{OctstrLib} `{KannelLib} `{DatabaseOps DB} `{EsmeEnv}
    (w : World DB) (b e : nat) (m : Msg) (r : SMPPRouteStatus) (c c1 : SMPPEsme) (pds : list SMPP_PDU) :
  status r = SMPP_ESME_ROK → smpp_esme_find_best_receiver (service m) w = Some (Some e, w) →
  lookup_esme w e = Some c → smpp_pdu_msg_to_pdu (w_now w) m c = Some (Some pds, c1) →
  (∀ k, (k < length pds)%nat → open_acks c1 !! fmt_ld (esme_sequence_number c1 + Z.of_nat k) = None) →
  ∃ w' c', smpp_bearerbox_routing_done b m r w = Some (tt, w') ∧ trace w' = trace w ∧
    outbound_queue w' = outbound_queue w ++ seq (next_ptr w) (length pds) ∧
    lookup_esme w' e = Some c' ∧
    outbound_queued c' = outbound_queued c1 + Z.of_nat (length pds) ∧
    (∀ k pd, pds !! k = Some pd →
       let n := esme_sequence_number c1 + Z.of_nat k in
       lookup_pdu w' (next_ptr w + k)
       = Some (delivery (from_bearerbox b (msg_id m)) e (system_id c1) n pd) ∧
       open_acks c' !! fmt_ld n = Some (next_ptr w + k)%nat) ∧
    (∀ i p, open_acks c1 !! i = Some p → open_acks c' !! i = Some p).
Proof.
  intros Hst Hbest Hc Hconv Hfresh. unfold smpp_bearerbox_routing_done. cbv zeta.
  rewrite Hst, Z.eqb_refl, bind_unfold, Hbest. unfold msg_to_pdus, now.
  rewrite bind_bind, gets_bind, bind_bind, (read_esme_bind _ c), Hconv, bind_bind, deref_bind by done.
  unfold write_esme. rewrite !bind_bind, (read_esme_bind _ c), modify_bind, ret_bind by done.
  fold (with_esme w e c1). cbn [default from_option id].
  destruct (deliver_all e (from_bearerbox b (msg_id m)) pds c1 (with_esme w e c1)
    (lookup_with_esme_eq _ _ _) Hfresh)
    as (w' & c' & Hrun & Ht & Ho & _ & Hc' & _ & _ & Hq & Hall & Hkeep & _).
  by exists w', c'.
Qed.

(** The acknowledgement of a message that is not delivered. *)
Definition undelivered_ack {DB} `{DatabaseOps DB} (w : World DB) (m : Msg) (r : SMPPRouteStatus)
    : ack_status_t :=
  if negb (status r =? SMPP_ESME_ROK) then ack_failed
  else if database_enable_queue (server w)
  then if (stored m SMPP_DATABASE_STORE_PRIMARY (db w)).1 then ack_success else ack_failed
  else ack_failed_tmp.



(** The URL a submission is given leads its receipt back: it names the account
    if the account's identifier has no bar, and otherwise what precedes the first
    bar; and it splits into the account, the time and the message identifier that
    the receipt quotes. *)
Theorem dlr_url_leads_back `{OctstrLib} (now : Z) (sid p r : Octstr) (m : Msg) :
  let url := default [] (dlr_url (smpp_queues_msg_set_dlr_url now sid m)) in
  "|"%char ∉ p →
  (sid = p → smpp_pdu_get_system_id_from_dlr_url url = Some sid) ∧
  (sid = p ++ "|"%char :: r → smpp_pdu_get_system_id_from_dlr_url url = Some p) ∧
  (sid = p → sid ≠ [] → msg_id m ≠ [] → "|"%char ∉ msg_id m →
   octstr_split url "|"%char = [sid; fmt_ld now; msg_id m]).
Proof.
  intros url Hp. subst url. unfold smpp_queues_msg_set_dlr_url. cbn [dlr_url from_option Datatypes.id].
  change ($"|") with ["|"%char]. split_and!.
  - intros ->. by apply dlr_url_account.
  - intros ->. rewrite <- app_assoc. by apply dlr_url_account.
  - intros -> Hne Hid Hbar.
    change (p ++ ["|"%char] ++ fmt_ld now ++ ["|"%char] ++ msg_id m)
      with (join "|"%char [p; fmt_ld now; msg_id m]).
    apply octstr_split_join. repeat constructor; try done; [apply fmt_ld_ne|apply fmt_ld_bar].
Qed.
