(* ===== verification/Fields.v ===== *)
(** The fields of a message and their text: the columns Kannel's gw/msg-decl.h
    generates, from which the relational store builds its tables and the HTTP client
    its headers, and Kannel's conversions of numbers and strings. *)
From S2P Require Import Prelude CLib Gwlib Types Kannel Dlr.
Open Scope Z_scope.

(** A field of Kannel's gw/msg-decl.h, from which the columns of the store tables
    are generated. *)
Inductive column :=
  | INTEGER (name : Octstr) (get : Msg → Z) (set : Z → Msg → Msg)
  | OCTSTR (name : Octstr) (get : Msg → option Octstr) (set : option Octstr → Msg → Msg)
  | UUID (name : Octstr) (get : Msg → Octstr).

Definition column_name (c : column) : Octstr :=
  match c with INTEGER n _ _ | OCTSTR n _ _ | UUID n _ => n end.

(** The fields of [m] in [m0]; a string is converted, and left as it is in [m0] if
    there is none; [u] is the uuid that is made of the one of [m], if it is set. *)
Definition copy_column (h : option Octstr → option Octstr) (u : Octstr → option Octstr) (m m0 : Msg)
    (c : column) : Msg :=
  match c with
  | INTEGER _ get set => set (get m) m0
  | OCTSTR _ get set => match h (get m) with Some v => set (Some v) m0 | None => m0 end
  | UUID _ get => match u (get m) with Some i => {| m0 with msg_id := i |} | None => m0 end
  end.

Definition map_strings (h : option Octstr → option Octstr) (m : Msg) (i : Octstr) : Msg :=
  {| m with sender := h (sender m); receiver := h (receiver m); udhdata := h (udhdata m);
            msgdata := h (msgdata m); smsc_id := h (smsc_id m); service := h (service m);
            dlr_url := h (dlr_url m); binfo := h (binfo m); meta_data := h (meta_data m);
            boxc_id := h (boxc_id m); msg_id := i |}.

(** An integer field without a value. *)
Definition MSG_PARAM_UNDEFINED : Z := -1.

Class FieldLib := {
  (** [%S] of octstr_format, octstr_get_cstr (NULL has a text, too), atof,
      octstr_parse_double, octstr_parse_long with base 10, [%f], and uuid_parse with
      the printed form of the result *)
  octstr_S : option Octstr → Octstr;
  octstr_get_cstr : option Octstr → Octstr;
  atof : Octstr → Q;
  octstr_parse_double : option Octstr → option Q;
  octstr_parse_long : Octstr → option Z;
  fmt_f : Q → Octstr;
  uuid_parse : Octstr → option Octstr;
  sms_columns : list column;
  octstr_S_Some s : octstr_S (Some s) = s;
  octstr_get_cstr_Some s : octstr_get_cstr (Some s) = cstr s;
  sms_columns_named : NoDup (map column_name sms_columns);
  (** the key of the store tables is a column of its own *)
  sms_columns_no_key : $"global_id" ∉ map column_name sms_columns;
  sms_columns_complete h u m i :
    foldl (copy_column h u m) (msg_create i) sms_columns = map_strings h m (default i (u (msg_id m)));
}.

(** The numbers of a message are longs. *)
Definition longs `{FieldLib} (m : Msg) : Prop :=
  Forall (λ c, match c with INTEGER _ get _ => LONG_MIN ≤ get m ≤ LONG_MAX | _ => True end) sms_columns.
