(* ===== verification/Log.v ===== *)
(** The accounting log of smpp_pdu_util.c: the line that is written for each
    submit_sm_resp that is sent and each deliver_sm_resp that arrives. Its fields are
    separated by blanks. *)
From S2P Require Import Prelude CLib Gwlib Types Kannel Dlr Fields.
Open Scope Z_scope.

Section log.
Context `{TimeLib} `{OctstrLib} `{FieldLib}.

(** smpp_esme.c: the identifier, the address, or neither. *)
Definition smpp_esme_log_label (e : option SMPPEsme) : Octstr :=
  match e with
  | None => $"?"
  | Some e =>
      if negb (octstr_len (system_id e) =? 0) then octstr_get_cstr (system_id e)
      else if negb (octstr_len (ip e) =? 0) then octstr_get_cstr (ip e)
      else $"unbound"
  end.

(** The text of a field that may be missing, and a time. *)
Definition field_or_dash (o : option Octstr) : Octstr :=
  if octstr_len o =? 0 then $"-" else octstr_get_cstr o.
Definition log_date (ts : Z) : Octstr :=
  if 0 <? ts then strftime_ymdhms (gw_localtime ts) else $"-".

Definition positive (ts : Z) : Z := if 0 <? ts then ts else 0.
Definition receipt_bits : Z := 0x2C.

(** [now] is [time(NULL)]; the code of the error is also set by a text that is not a
    receipt. *)
Definition deliver_sm_resp_fields (now : Z) (e : SMPPEsme) (p : SMPP_PDU) (command_status time_sent : Z)
    : list Octstr :=
  let s := sm p in
  let ack_sec := if 0 <? time_sent then now - time_sent else 0 in
  let receipted := if octstr_len (receipted_message_id s) =? 0 then None else receipted_message_id s in
  let is_dlr := negb (Z.land (esm_class s) receipt_bits =? 0) in
  let dlr := if is_dlr then parse_dlr_short_message now (short_message s) else None in
  let err := match short_message s with
             | Some t => if is_dlr && negb (octlen t =? 0) then dlr_err (read_dlr_fields now t) else 0
             | None => 0
             end in
  let submit_ts := match dlr with Some r => positive (dlr_submit_date r) | None => 0 end in
  let done_ts := match dlr with Some r => positive (dlr_done_date r) | None => 0 end in
  let delay_sec := if 0 <? done_ts then now - done_ts else 0 in
  let latency_sec := if (0 <? submit_ts) && (0 <? done_ts) then done_ts - submit_ts else 0 in
  let log_msg_id := match receipted with Some _ => receipted | None => dlr_id <$> dlr end in
  [smpp_esme_log_label (Some e); $"deliver_sm_resp"; octstr_get_cstr (Some (default ($"-") log_msg_id));
   octstr_get_cstr (source_addr s); octstr_get_cstr (destination_addr s);
   field_or_dash (service_type s); field_or_dash (dlr_stat <$> dlr); fmt_03x err;
   log_date submit_ts; log_date done_ts; fmt_ld delay_sec; fmt_ld latency_sec; fmt_ld ack_sec;
   fmt_08lx command_status].

Definition smpp_pdu_log_deliver_sm_resp (now : Z) (e : option SMPPEsme) (p : option SMPP_PDU)
    (command_status time_sent : Z) : option Octstr :=
  match e, p with
  | Some e, Some p =>
      if bool_decide (type p = deliver_sm)
      then Some (join " "%char (deliver_sm_resp_fields now e p command_status time_sent))
      else None
  | _, _ => None
  end.

Definition submit_sm_resp_fields (now : Z) (e : SMPPEsme) (p : SMPP_PDU) (m : option Msg) : list Octstr :=
  let answered := if octstr_len (message_id p) =? 0 then None else message_id p in
  let log_msg_id := match answered with Some _ => answered | None => msg_id <$> m end in
  let submit_ts := match m with Some m => time m | None => 0 end in
  let latency_sec := if 0 <? submit_ts then now - submit_ts else 0 in
  [smpp_esme_log_label (Some e); $"submit_sm_resp"; octstr_get_cstr (Some (default ($"-") log_msg_id));
   field_or_dash (m ≫= sender); field_or_dash (m ≫= receiver); field_or_dash (m ≫= smsc_id);
   fmt_ld (match m with Some m => octstr_len (msgdata m) | None => 0 end);
   log_date submit_ts; fmt_ld latency_sec; fmt_08lx (command_status p)].

Definition smpp_pdu_log_submit_sm_resp (now : Z) (e : option SMPPEsme) (p : option SMPP_PDU) (m : option Msg)
    : option Octstr :=
  match e, p with
  | Some e, Some p =>
      if bool_decide (type p = submit_sm_resp)
      then Some (join " "%char (submit_sm_resp_fields now e p m))
      else None
  | _, _ => None
  end.
End log.

(** ** The lines can be split again *)

Definition plain (s : Octstr) : Prop := s ≠ [] ∧ " "%char ∉ s.

Lemma hex_digit_plain v : 0 ≤ v < 16 → hex_digit false v ≠ " "%char.
Proof.
  intros Hv Heq. apply (f_equal byte_val) in Heq. unfold hex_digit in Heq. change (byte_val " "%char) with 32 in Heq.
  destruct (v <? 10) eqn:Hlt; rewrite byte_val_of, Z.mod_small in Heq by lia; lia.
Qed.
Lemma hex_digits_plain n v : " "%char ∉ hex_digits n v.
Proof.
  revert v. induction n as [|n IH]; intros v; [apply not_elem_of_nil|]. cbn [hex_digits].
  destruct (v =? 0); [apply not_elem_of_nil|]. rewrite not_elem_of_app. split; [apply IH|].
  rewrite list_elem_of_singleton. apply not_eq_sym, hex_digit_plain, Z.mod_pos_bound. lia.
Qed.
Lemma padded_plain k d : (0 < k)%nat → " "%char ∉ d → plain (replicate (k - length d) "0"%char ++ d).
Proof.
  intros Hk Hd. split.
  - intros Hnil. apply (f_equal length) in Hnil. rewrite length_app, length_replicate in Hnil. cbn in Hnil. lia.
  - rewrite not_elem_of_app. split; [|done]. intros Hin%elem_of_replicate_inv. done.
Qed.
Lemma number_plain z : plain (fmt_ld z).
Proof. split; [apply fmt_ld_ne|]. apply fmt_ld_chars; [|done]. intros d. unfold pretty_N_char. by repeat case_match. Qed.

Section readable.
Context `{TimeLib} `{OctstrLib} `{FieldLib}.

Lemma split_line fs line : Some (join " "%char fs) = Some line → Forall plain fs → octstr_split line " "%char = fs.
Proof. intros Heq. replace line with (join " "%char fs) by congruence. apply octstr_split_join. Qed.

(** A field that is not a text of the line. *)
#[local] Ltac own_field Hi Hf :=
  first [by destruct Hi; apply (bool_decide_unpack _)|injection Hf as <-];
  first [apply number_plain|apply padded_plain; [lia|apply hex_digits_plain]
        |split; [done|by apply (bool_decide_unpack _)]].

(** If the texts a line is made of are plain, splitting it at the blanks gives its
    fields. A source address need not be: an alphanumeric one can have a blank, and
    shifts what follows it. *)
Lemma deliver_line_split now e p command_status time_sent line :
  let fs := deliver_sm_resp_fields now e p command_status time_sent in
  smpp_pdu_log_deliver_sm_resp now (Some e) (Some p) command_status time_sent = Some line →
  (∀ i f, i ∈ [0; 2; 3; 4; 5; 6; 8; 9]%nat → fs !! i = Some f → plain f) →
  octstr_split line " "%char = fs.
Proof.
  intros fs Hline Hplain. unfold smpp_pdu_log_deliver_sm_resp in Hline. case_bool_decide; [|done].
  apply split_line; [exact Hline|]. apply Forall_lookup. intros i f Hf.
  destruct (decide (i ∈ [0; 2; 3; 4; 5; 6; 8; 9]%nat)) as [Hi|Hi]; [by apply (Hplain i)|].
  clear Hplain Hline. unfold fs, deliver_sm_resp_fields in Hf. cbv zeta in Hf.
  do 14 (destruct i as [|i]; [own_field Hi Hf|]). done.
Qed.

Lemma submit_line_split now e p m line :
  let fs := submit_sm_resp_fields now e p m in
  smpp_pdu_log_submit_sm_resp now (Some e) (Some p) m = Some line →
  (∀ i f, i ∈ [0; 2; 3; 4; 5; 7]%nat → fs !! i = Some f → plain f) →
  octstr_split line " "%char = fs.
Proof.
  intros fs Hline Hplain. unfold smpp_pdu_log_submit_sm_resp in Hline. case_bool_decide; [|done].
  apply split_line; [exact Hline|]. apply Forall_lookup. intros i f Hf.
  destruct (decide (i ∈ [0; 2; 3; 4; 5; 7]%nat)) as [Hi|Hi]; [by apply (Hplain i)|].
  clear Hplain Hline. unfold fs, submit_sm_resp_fields in Hf. cbv zeta in Hf.
  do 10 (destruct i as [|i]; [own_field Hi Hf|]). done.
Qed.
End readable.
