(* ===== verification/Http.v ===== *)
(** smpp_http_client.c: authentication and routing by an HTTP service. An exchange
    with the service is a function of the URL and the headers of the request; routing
    requests are queued, sent by a thread that keeps the number of outstanding
    requests below a limit, and completed by the thread that receives the answers. *)
From S2P Require Import Prelude CLib Gwlib Types Kannel Dlr PduUtil World Callbacks Run Esme Route.
From S2P Require Import Bearerbox Queues Fields.
Open Scope Z_scope.

(** ** Interfaces *)

Abbreviation headers := (list (Octstr * Octstr)).

(** gwlib's headers and Kannel's conversions: the value of a header, [%E] of
    octstr_format, octstr_replace. *)
Class HttpLib := {
  http_header_value : headers → Octstr → option Octstr;
  octstr_E : option Octstr → Octstr;
  octstr_replace : Octstr → Octstr → Octstr → Octstr;
}.

(** The answer to a request: the status, and the headers if there are any. *)
Record http_answer := { answer_status : Z; answer_headers : option headers }.

Definition SMPP_HTTP_HEADER_PREFIX : Octstr := $"X-KSMPPD-".
Definition HTTP_DEFAULT_MAX_OUTSTANDING : Z := 512.

Section http.
Context `{FieldLib} `{HttpLib}.

(** ** Authentication *)

(** A field is set if its header is there and not empty. *)
Definition from_header {A} (hs : headers) (name : Octstr) (f : Octstr → A → A) (a : A) : A :=
  let v := http_header_value hs name in if octstr_len v =? 0 then a else f (default [] v) a.

Definition auth_request (system_id password ip : option Octstr) : headers :=
  [(SMPP_HTTP_HEADER_PREFIX ++ $"system-id", octstr_get_cstr system_id);
   (SMPP_HTTP_HEADER_PREFIX ++ $"password", octstr_get_cstr password);
   (SMPP_HTTP_HEADER_PREFIX ++ $"ip", octstr_get_cstr ip)].

(** The account the headers describe. *)
Definition account_of_headers (hs : headers) : SMPPESMEAuthResult :=
  let set name f a := from_header hs ($"x-ksmppd-" ++ name) f a in
  let a := smpp_esme_auth_result_create in
  let a := set ($"throughput") (λ v a, {| a with auth_throughput := atof (cstr v) |}) a in
  let a := set ($"max-binds") (λ v a, {| a with auth_max_binds := atoi (cstr v) |}) a in
  let a := set ($"simulate") (λ v a, {| a with auth_simulate := atoi (cstr v) |}) a in
  let a := set ($"simulate-dlr-fail") (λ v a, {| a with auth_simulate_dlr_fail := atoi (cstr v) |}) a in
  let a := set ($"simulate-deliver-every") (λ v a, {| a with auth_simulate_deliver_every := atol (cstr v) |}) a in
  let a := set ($"simulate-mo-every") (λ v a, {| a with auth_simulate_mo_every := atol (cstr v) |}) a in
  let a := set ($"permanent-failure-every")
             (λ v a, {| a with auth_simulate_permanent_failure_every := atol (cstr v) |}) a in
  let a := set ($"temporary-failure-every")
             (λ v a, {| a with auth_simulate_temporary_failure_every := atol (cstr v) |}) a in
  let a := set ($"default-smsc") (λ v a, {| a with auth_default_smsc := Some v |}) a in
  let a := set ($"default-smsc-cost") (λ v a, {| a with auth_default_cost := atof (cstr v) |}) a in
  let a := set ($"callback-url") (λ v a, {| a with auth_callback_url := Some v |}) a in
  let a := set ($"database-store-primary")
             (λ v a, let n := atoi (cstr v) in
                     if (n =? 0) || (n =? 1) then {| a with auth_database_store_primary := n |} else a) a in
  set ($"connect-allow-ip") (λ v a, {| a with auth_allowed_ips := Some v |}) a.

(** [exchange] is the service. *)
Definition smpp_http_client_authenticate (exchange : option Octstr → headers → http_answer)
    (auth_url system_id password ip : option Octstr) : option SMPPESMEAuthResult :=
  let answer := exchange auth_url (auth_request system_id password ip) in
  if answer_status answer =? 200 then
    match answer_headers answer with
    | Some hs =>
        let auth := http_header_value hs ($"x-ksmppd-auth") in
        if octstr_len auth =? 0 then None
        else if atoi (cstr (default [] auth)) =? 0 then None
        else Some (account_of_headers hs)
    | None => None
    end
  else None.

(** ** Routing: the request *)

Definition header_key (c : column) : Octstr :=
  octstr_replace (SMPP_HTTP_HEADER_PREFIX ++ column_name c) ($"_") ($"-").

Definition column_header (m : Msg) (c : column) : headers :=
  match c with
  | INTEGER _ get _ =>
      if get m =? MSG_PARAM_UNDEFINED then [] else [(header_key c, cstr (fmt_ld (get m)))]
  | OCTSTR _ get _ =>
      if octstr_len (get m) =? 0 then [] else [(header_key c, cstr (octstr_E (get m)))]
  | UUID _ get => [(header_key c, cstr (get m))]
  end.

Definition smpp_http_client_msg_to_headers (m : Msg) : headers :=
  concat (map (column_header m) sms_columns).

Definition route_request_headers (direction : Z) (m : Msg) : headers :=
  smpp_http_client_msg_to_headers m
  ++ [(SMPP_HTTP_HEADER_PREFIX ++ $"Routing-Direction", fmt_ld direction)].

(** ** Routing: the answer *)

Definition apply_header (hs : headers) (m : Msg) (c : column) : Msg :=
  let v := http_header_value hs (header_key c) in
  if octstr_len v =? 0 then m
  else
    match c with
    | INTEGER _ _ set => set (atol (octstr_get_cstr v)) m
    | OCTSTR _ _ set => set v m
    | UUID _ _ => {| m with msg_id := default (msg_id m) (uuid_parse (octstr_get_cstr v)) |}
    end.

(** The message with the fields of the answer; the account of a submission and the
    SMSC of a message from there are kept. *)
Definition answered_msg (direction : Z) (hs : headers) (m : Msg) : Msg :=
  let m' := foldl (apply_header hs) m sms_columns in
  if direction =? SMPP_ROUTE_DIRECTION_OUTBOUND then {| m' with service := service m |}
  else if direction =? SMPP_ROUTE_DIRECTION_INBOUND then {| m' with smsc_id := smsc_id m |}
  else m'.

(** What the callback is called with. *)
Definition route_answer (direction : Z) (m : Msg) (s : SMPPRouteStatus) (hs : headers)
    : Msg * SMPPRouteStatus :=
  let header name := http_header_value hs (SMPP_HTTP_HEADER_PREFIX ++ name) in
  match header ($"Route-Status") with
  | Some v =>
      if negb (atoi (octstr_get_cstr (Some v)) =? 0) then
        match header ($"Route-Cost") with
        | Some v =>
            match octstr_parse_double (Some v) with
            | Some c => (answered_msg direction hs m, {| s with status := SMPP_ESME_ROK; cost := c |})
            | None => (m, with_status s SMPP_ESME_RSUBMITFAIL)
            end
        | None => (m, with_status s SMPP_ESME_RSUBMITFAIL)
        end
      else
        let code := header ($"Route-Error-Code") in
        if octstr_len code =? 0 then (m, with_status s SMPP_ESME_RSUBMITFAIL)
        else
          let st := atoi (octstr_get_cstr code) in
          (m, with_status s (if st =? SMPP_ESME_ROK then SMPP_ESME_RSUBMITFAIL else st))
  | None => (m, with_status s SMPP_ESME_RSUBMITFAIL)
  end.

End http.

(** ** Completion

    The routed message and the direction of a queued request. *)
Section completion.
Context {DB : Type} `{TimeLib} `{OctstrLib} `{KannelLib} `{DatabaseOps DB} `{EsmeEnv} `{BoxEnv}.
Context `{FieldLib} `{HttpLib}.
Abbreviation W := (M (World DB)).

Definition request_direction (cb : route_callback) : Z :=
  match cb with
  | smpp_queues_submit_routing_done_cb _ | smpp_queues_data_sm_routing_done_cb _ =>
      SMPP_ROUTE_DIRECTION_OUTBOUND
  | smpp_bearerbox_routing_done_cb _ _ | smpp_bearerbox_requeue_routing_done_cb _ =>
      SMPP_ROUTE_DIRECTION_INBOUND
  end.

Definition request_msg (cb : route_callback) : W Msg :=
  match cb with
  | smpp_queues_submit_routing_done_cb r | smpp_queues_data_sm_routing_done_cb r =>
      q ← read_pdu r; deref (msg q)
  | smpp_bearerbox_routing_done_cb _ m => mret m
  | smpp_bearerbox_requeue_routing_done_cb d => mret (db_msg d)
  end.

(** The answer to the [k]-th of the requests that wait: the callback is run on the
    message, which is changed in place. *)
Definition smpp_http_client_receive (k : nat) (hs : headers) : W unit :=
  cbs ← gets route_requests;
  match cbs !! k with
  | None => mret tt
  | Some cb =>
      modify (λ w, {| w with route_requests := base.delete k cbs |});;
      m ← request_msg cb;
      let '(m, s) := route_answer (request_direction cb) m (smpp_route_status_create m) hs in
      run_route_callback cb m s
  end.

End completion.

(** ** The window of outstanding requests

    [SMPPHTTPRouting] with what its threads hold: the requests that are queued, and
    those that were sent and wait for their answer. *)
Record SMPPHTTPRouting {R : Type} := {
  outstanding_requests : Z;
  max_outstanding_requests : Z;
  queued_requests : list R;
  in_flight : list R;
}.
Arguments SMPPHTTPRouting : clear implicits.

Section window.
Context {R : Type}.

Definition smpp_http_client_route_message (r : R) (h : SMPPHTTPRouting R) : SMPPHTTPRouting R :=
  {| h with queued_requests := queued_requests h ++ [r] |}.

(** The inner loop of the request thread: while fewer than [max] were sent. *)
Fixpoint send_requests (count max : Z) (queue : list R) (h : SMPPHTTPRouting R) : SMPPHTTPRouting R :=
  match queue with
  | [] => {| h with queued_requests := [] |}
  | r :: rest =>
      if count <? max then
        send_requests (count + 1) max rest
          {| h with outstanding_requests := outstanding_requests h + 1; in_flight := in_flight h ++ [r] |}
      else {| h with queued_requests := queue |}
  end.

Definition smpp_http_client_request_pass (h : SMPPHTTPRouting R) : SMPPHTTPRouting R :=
  if max_outstanding_requests h <=? outstanding_requests h then h
  else send_requests 0 (max_outstanding_requests h - outstanding_requests h) (queued_requests h) h.

(** An answer: the request it is for is not outstanding any more. *)
Definition smpp_http_client_answered (k : nat) (h : SMPPHTTPRouting R) : SMPPHTTPRouting R :=
  {| h with outstanding_requests := counter_dec (outstanding_requests h);
            in_flight := base.delete k (in_flight h) |}.

(** What happens: requests are made, sent, and answered in any order. *)
Inductive http_step : SMPPHTTPRouting R → option R → option R → SMPPHTTPRouting R → Prop :=
  | step_route r h : http_step h (Some r) None (smpp_http_client_route_message r h)
  | step_send h : http_step h None None (smpp_http_client_request_pass h)
  | step_answer k r h :
      in_flight h !! k = Some r → http_step h None (Some r) (smpp_http_client_answered k h).

(** A run with the requests that were made and those that were answered. *)
Inductive http_run : SMPPHTTPRouting R → list R → list R → SMPPHTTPRouting R → Prop :=
  | run_refl h : http_run h [] [] h
  | run_step h made answered h1 req ans h2 :
      http_run h made answered h1 → http_step h1 req ans h2 →
      http_run h (made ++ option_list req) (answered ++ option_list ans) h2.

Definition idle (max : Z) : SMPPHTTPRouting R :=
  {| outstanding_requests := 0; max_outstanding_requests := max; queued_requests := []; in_flight := [] |}.

(** The counter counts, the limit holds. *)
Definition window_ok (h : SMPPHTTPRouting R) : Prop :=
  outstanding_requests h = Z.of_nat (length (in_flight h)) ∧
  outstanding_requests h ≤ Z.max 0 (max_outstanding_requests h).

(** ** Lemmas *)

Lemma send_requests_spec count queue (h : SMPPHTTPRouting R) max :
  let h' := send_requests count max queue h in
  let sent := take (Z.to_nat (max - count)) queue in
  in_flight h' = in_flight h ++ sent ∧ queued_requests h' = drop (Z.to_nat (max - count)) queue ∧
  outstanding_requests h' = outstanding_requests h + Z.of_nat (length sent) ∧
  max_outstanding_requests h' = max_outstanding_requests h.
Proof.
  cbv zeta. revert count h. induction queue as [|r queue IH]; intros count h; cbn [send_requests].
  { rewrite take_nil, drop_nil. cbn. rewrite app_nil_r. split_and!; try done. lia. }
  destruct (Z.ltb_spec count max).
  - destruct (IH (count + 1) {| h with outstanding_requests := outstanding_requests h + 1;
                                        in_flight := in_flight h ++ [r] |}) as (-> & -> & -> & ->).
    replace (Z.to_nat (max - count)) with (S (Z.to_nat (max - (count + 1)))) by lia.
    cbn. rewrite <- app_assoc. split_and!; try done. lia.
  - replace (Z.to_nat (max - count)) with 0%nat by lia. cbn. rewrite app_nil_r.
    split_and!; try done. lia.
Qed.

Lemma http_step_ok h req ans h' :
  window_ok h → http_step h req ans h' →
  window_ok h' ∧ max_outstanding_requests h' = max_outstanding_requests h ∧
  option_list ans ++ in_flight h' ++ queued_requests h'
  ≡ₚ in_flight h ++ queued_requests h ++ option_list req.
Proof.
  intros [Hcount Hmax] Hstep. destruct Hstep as [r h|h|k r h Hk].
  - split; [done|]. split; [done|]. cbn. by rewrite app_assoc.
  - unfold smpp_http_client_request_pass. destruct (Z.leb_spec (max_outstanding_requests h) (outstanding_requests h)).
    { cbn. by rewrite app_nil_r. }
    destruct (send_requests_spec 0 (queued_requests h) h (max_outstanding_requests h - outstanding_requests h))
      as (Hin & Hq & Hout & Hm).
    split; [|split; [done|]].
    + split; rewrite Hout, ?Hin, ?Hm, ?Hcount; [rewrite length_app; lia|].
      rewrite length_take. lia.
    + rewrite Hin, Hq. cbn. rewrite app_nil_r, <- app_assoc. by rewrite take_drop.
  - pose proof (lookup_lt_Some _ _ _ Hk). split; [|split; [done|]].
    + unfold smpp_http_client_answered, counter_dec. split; cbn; rewrite ?Hcount.
      * rewrite length_delete by eauto. lia.
      * lia.
    + cbn. rewrite app_nil_r. rewrite app_comm_cons. symmetry. apply (Permutation_app_tail (queued_requests h)).
      by apply delete_Permutation.
Qed.

Lemma http_run_ok h made answered h' :
  http_run h made answered h' → window_ok h →
  window_ok h' ∧ max_outstanding_requests h' = max_outstanding_requests h ∧
  answered ++ in_flight h' ++ queued_requests h' ≡ₚ in_flight h ++ queued_requests h ++ made.
Proof.
  intros Hrun Hok. induction Hrun as [h|h made answered h1 req ans h2 Hrun IH Hstep].
  { cbn. by rewrite app_nil_r. }
  destruct (IH Hok) as (Hok1 & Hm1 & Hp1).
  destruct (http_step_ok _ _ _ _ Hok1 Hstep) as (Hok2 & Hm2 & Hp2).
  split; [done|]. split; [congruence|].
  rewrite <- app_assoc, Hp2.
  replace (answered ++ in_flight h1 ++ queued_requests h1 ++ option_list req)
    with ((answered ++ in_flight h1 ++ queued_requests h1) ++ option_list req) by (by rewrite <- !app_assoc).
  by rewrite Hp1, <- !app_assoc.
Qed.

End window.


(** ** Properties *)

(** What an answer of the routing service decides. The request is accepted exactly
    if the service gives a route status other than 0 and a cost that is a number; a
    submission keeps its account then, and a message from an SMSC its SMSC, whatever
    the headers say. Any other answer leaves the message as it was and is a failure:
    the error code of the service if there is one and it is not a success. *)
Theorem http_verdict `{FieldLib} `{HttpLib} (direction : Z) (m : Msg) (s : SMPPRouteStatus) (hs : headers) :
  let header name := http_header_value hs (SMPP_HTTP_HEADER_PREFIX ++ name) in
  let number o := atoi (octstr_get_cstr o) in
  let accepts c := is_Some (header ($"Route-Status")) ∧ number (header ($"Route-Status")) ≠ 0 ∧
                   is_Some (header ($"Route-Cost")) ∧ octstr_parse_double (header ($"Route-Cost")) = Some c in
  let '(m', s') := route_answer direction m s hs in
  (status s' = SMPP_ESME_ROK ↔ ∃ c, accepts c) ∧ (∀ c, accepts c → cost s' = c) ∧ parts s' = parts s ∧
  (direction = SMPP_ROUTE_DIRECTION_OUTBOUND → service m' = service m) ∧
  (direction = SMPP_ROUTE_DIRECTION_INBOUND → smsc_id m' = smsc_id m) ∧
  (status s' ≠ SMPP_ESME_ROK → m' = m ∧ cost s' = cost s ∧
   status s' = (let code := header ($"Route-Error-Code") in
                if decide (is_Some (header ($"Route-Status")) ∧ number (header ($"Route-Status")) = 0
                           ∧ octstr_len code ≠ 0 ∧ number code ≠ SMPP_ESME_ROK)
                then number code else SMPP_ESME_RSUBMITFAIL)).
Proof.
  intros header number accepts. set (failure := let code := header ($"Route-Error-Code") in
    if decide (is_Some (header ($"Route-Status")) ∧ number (header ($"Route-Status")) = 0
               ∧ octstr_len code ≠ 0 ∧ number code ≠ SMPP_ESME_ROK)
    then number code else SMPP_ESME_RSUBMITFAIL).
  assert (∀ st, st ≠ SMPP_ESME_ROK → (¬ ∃ c, accepts c) → st = failure →
    (status (with_status s st) = SMPP_ESME_ROK ↔ ∃ c, accepts c) ∧
    (∀ c, accepts c → cost (with_status s st) = c) ∧ parts (with_status s st) = parts s ∧
    (direction = SMPP_ROUTE_DIRECTION_OUTBOUND → service m = service m) ∧
    (direction = SMPP_ROUTE_DIRECTION_INBOUND → smsc_id m = smsc_id m) ∧
    (status (with_status s st) ≠ SMPP_ESME_ROK →
     m = m ∧ cost (with_status s st) = cost s ∧ status (with_status s st) = failure)) as Hfail.
  { intros st Hst Hno Hf. split; [by split|]. split; [intros c Hc; destruct Hno; eauto|]. done. }
  unfold accepts, failure, number in *. clear accepts failure. unfold route_answer.
  change (http_header_value hs (SMPP_HTTP_HEADER_PREFIX ++ ?n)) with (header n).
  assert (SMPP_ESME_RSUBMITFAIL ≠ SMPP_ESME_ROK) as Hne by done.
  clearbody header. clear number.
  destruct (header ($"Route-Status")) as [v|].
  2:{ cbv beta iota. apply Hfail; [done|by intros (c & [? ?] & _)|].
      by rewrite decide_False by (by intros [[? ?] _]). }
  destruct (Z.eqb_spec (atoi (octstr_get_cstr (Some v))) 0) as [Hz|Hz]; cbn [negb].
  - assert (¬ ∃ c, is_Some (Some v) ∧ atoi (octstr_get_cstr (Some v)) ≠ 0 ∧ is_Some (header ($"Route-Cost"))
              ∧ octstr_parse_double (header ($"Route-Cost")) = Some c) as Hno by (by intros (c & _ & ? & _)).
    destruct (Z.eqb_spec (octstr_len (header ($"Route-Error-Code"))) 0) as [Hl|Hl];
      [|destruct (Z.eqb_spec (atoi (octstr_get_cstr (header ($"Route-Error-Code")))) SMPP_ESME_ROK) as [Hr|Hr]];
      cbv beta iota; apply Hfail; try done.
    + by rewrite decide_False by (by intros (_ & _ & ? & _)).
    + by rewrite decide_False by (by intros (_ & _ & _ & ?)).
    + by rewrite decide_True by (by split_and!).
  - assert (∀ a b : Z, (if decide (is_Some (Some v) ∧ atoi (octstr_get_cstr (Some v)) = 0
        ∧ octstr_len (header ($"Route-Error-Code")) ≠ 0
        ∧ atoi (octstr_get_cstr (header ($"Route-Error-Code"))) ≠ SMPP_ESME_ROK) then a else b) = b) as Hdec
      by (intros a b; by rewrite decide_False by (by intros (_ & ? & _))).
    destruct (header ($"Route-Cost")) as [w|]; [destruct (octstr_parse_double (Some w)) as [c|] eqn:Hw|].
    + unfold answered_msg. cbv beta iota. split; [split; [intros _; exists c; by split_and!|done]|].
      split; [by intros c' (_ & _ & _ & [= ->])|].
      split; [done|]. split; [by intros ->|]. split; [by intros ->|done].
    + cbv beta iota. apply Hfail; [done|by intros (? & _ & _ & _ & ?)|by rewrite Hdec].
    + cbv beta iota. apply Hfail; [done|by intros (? & _ & _ & [? ?] & _)|by rewrite Hdec].
Qed.

(** The service is never asked more than it is allowed to be, and no request is
    lost or answered twice: over any sequence of requests, passes of the sending
    thread and answers in any order, the counter is the number of requests that wait
    for an answer and does not exceed the limit, and the requests that were made are
    those that were answered, those that wait and those that are queued. *)
Theorem http_window {R} (max : Z) (made answered : list R) (h : SMPPHTTPRouting R) :
  http_run (idle max) made answered h →
  outstanding_requests h = Z.of_nat (length (in_flight h)) ∧
  outstanding_requests h ≤ Z.max 0 max ∧
  made ≡ₚ answered ++ in_flight h ++ queued_requests h.
Proof.
  intros Hrun. destruct (http_run_ok _ _ _ _ Hrun) as ([Hc Hm] & Hmax & Hp); [split; cbn; lia|].
  rewrite Hmax in Hm. split_and!; [done|done|]. by rewrite Hp.
Qed.
