(* ===== verification/Admin.v ===== *)
(** smpp_http_server.c: the administration interface, and the commands the parts add
    to it: uptime and log-level (smpp_http_server.c), esme-status and esme-unbind
    (smpp_esme.c), rebuild-routes (smpp_route.c). *)
From S2P Require Import Prelude CLib Gwlib Types Kannel IpBlock World Callbacks Run Esme Route Queues Requeue Fields.
From S2P Require Import Dlr Replies Submissions.
Open Scope Z_scope.

(** ** Interfaces

    Kannel's variables of a request, the search for a character from the end, and
    [%0.2f]. *)
Abbreviation cgivars := (list (Octstr * Octstr)).
Class AdminLib := {
  http_cgi_variable : cgivars → Octstr → option Octstr;
  octstr_rsearch_char : Octstr → ascii → Z → Z;
  fmt_f2 : Q → Octstr;
  octstr_rsearch_char_none s c : c ∉ s → octstr_rsearch_char s c (octlen s - 1) = -1;
  octstr_rsearch_char_last a c b :
    c ∉ b → octstr_rsearch_char (a ++ c :: b) c (octlen (a ++ c :: b) - 1) = octlen a;
  fmt_f2_plain q : "<"%char ∉ fmt_f2 q;
}.

(** ** The server *)

Inductive content_type_t := HTTP_CONTENT_TYPE_PLAIN | HTTP_CONTENT_TYPE_XML.
Record SMPPHTTPCommandResult := { result : option Octstr; result_status : Z }.
Definition smpp_http_command_result_create : SMPPHTTPCommandResult :=
  {| result := None; result_status := HTTP_OK |}.

(** The commands' functions. *)
Inductive http_command :=
  | smpp_http_command_uptime_cmd | smpp_http_command_log_level_cmd
  | smpp_esme_status_command_cmd | smpp_esme_unbind_command_cmd | smpp_route_rebuild_command_cmd.
Record SMPPHTTPServer := {
  http_password : option Octstr;
  commands : gmap Octstr http_command;
  start_time : Z;
}.

Definition smpp_http_server_add_command (key : Octstr) (c : http_command) (h : SMPPHTTPServer) : SMPPHTTPServer :=
  {| h with commands := <[$"/" ++ key := c]> (commands h) |}.

(** The server refuses to start without a password. *)
Definition smpp_http_server_init (password : option Octstr) (now : Z) : option SMPPHTTPServer :=
  if octstr_len password =? 0 then None
  else Some (smpp_http_server_add_command ($"log-level") smpp_http_command_log_level_cmd
    (smpp_http_server_add_command ($"uptime") smpp_http_command_uptime_cmd
      {| http_password := password; commands := ∅; start_time := now |})).

(** The commands smpp_route_init and smpp_esme_init add, in the order of the start. *)
Definition register_commands (h : SMPPHTTPServer) : SMPPHTTPServer :=
  let h := smpp_http_server_add_command ($"rebuild-routes") smpp_route_rebuild_command_cmd h in
  let h := smpp_http_server_add_command ($"esme-status") smpp_esme_status_command_cmd h in
  smpp_http_server_add_command ($"esme-unbind") smpp_esme_unbind_command_cmd h.

(** The server of a daemon that runs. *)
Definition http_server_of (password : option Octstr) (now : Z) : option SMPPHTTPServer :=
  register_commands <$> smpp_http_server_init password now.

(** [smpp_esme_data]'s totals, which nothing but the status reads. *)
Record totals := {
  total_inbound_processed : Z; total_outbound_processed : Z;
  total_inbound_load : Load; total_outbound_load : Load;
}.

(** ** Texts *)

Definition nl : Octstr := [ascii_of_nat 10].
Definition tab : Octstr := [ascii_of_nat 9].
(** [<name>value</name>] *)
Definition element (name value : Octstr) : Octstr :=
  $"<" ++ name ++ $">" ++ value ++ $"</" ++ name ++ $">".

(** An element on a line of its own. *)
Definition line (indent name value : Octstr) : Octstr := indent ++ element name value ++ nl.

(** Days, hours, minutes and seconds; C's division truncates. *)
Definition uptime_text (diff : Z) : Octstr :=
  fmt_ld (Z.quot (Z.quot diff 3600) 24) ++ $"d " ++ fmt_ld (Z.rem (Z.quot diff 3600) 24) ++ $"h "
  ++ fmt_ld (Z.rem (Z.quot diff 60) 60) ++ $"m " ++ fmt_ld (Z.rem diff 60) ++ $"s".

Section admin.
Context {DB : Type} `{TimeLib} `{OctstrLib} `{KannelLib} `{DatabaseOps DB} `{EsmeEnv} `{FieldLib} `{AdminLib}.
Abbreviation W := (M (World DB)).

(** The averages of a load over its intervals, separated by slashes. *)
Definition load_text (l : Load) (t : Z) : Octstr :=
  fmt_f2 (load_get l t 0) ++ $"/" ++ fmt_f2 (load_get l t 1) ++ $"/" ++ fmt_f2 (load_get l t 2).
Definition counters_text (mt mo dlr errors : Z) : Octstr :=
  fmt_ld mt ++ $"/" ++ fmt_ld mo ++ $"/" ++ fmt_ld dlr ++ $"/" ++ fmt_ld errors.
Definition yes_no (n : Z) : Octstr := if n =? 0 then $"no" else $"yes".

(** ** The text of esme-status *)

Definition plain_summary (t : Z) (tot : totals) (known : nat) : Octstr :=
  $"Summary: " ++ nl ++ nl ++ $"Unique known ESME's: " ++ fmt_ld (Z.of_nat known) ++ nl
  ++ $"Total inbound processed:" ++ fmt_ld (total_inbound_processed tot) ++ $" load: "
  ++ load_text (total_inbound_load tot) t ++ $"/sec" ++ nl
  ++ $"Total outbound processed:" ++ fmt_ld (total_outbound_processed tot) ++ $" load: "
  ++ load_text (total_outbound_load tot) t ++ $"/sec" ++ nl.

Definition plain_bind (t : Z) (c : SMPPEsme) : Octstr :=
  $"-- id:" ++ fmt_ld (id c) ++ $" ip:" ++ octstr_S (ip c) ++ $" uptime:" ++ uptime_text (t - time_connected c)
  ++ $", type:" ++ fmt_ld (bind_type c) ++ $", open-acks:" ++ fmt_ld (Z.of_nat (size (open_acks c)))
  ++ $", simulate: " ++ yes_no (simulate c) ++ $", inbound (load/queued/processed/routing):"
  ++ fmt_f2 (load_get (inbound_load c) t 0) ++ $"/" ++ fmt_ld (inbound_queued c) ++ $"/"
  ++ fmt_ld (inbound_processed c) ++ $"/" ++ fmt_ld (pending_routing c)
  ++ $", outbound (load/queued/processed):" ++ fmt_f2 (load_get (outbound_load c) t 0) ++ $"/"
  ++ fmt_ld (outbound_queued c) ++ $"/" ++ fmt_ld (outbound_processed c) ++ $", mt/mo/dlr/errors:"
  ++ counters_text (mt_counter c) (mo_counter c) (dlr_counter c) (error_counter c) ++ nl.

Definition plain_esme (t : Z) (key : Octstr) (g : SMPPEsmeGlobal) (cs : list SMPPEsme) : Octstr :=
  nl ++ key ++ $" - binds:" ++ fmt_ld (Z.of_nat (length (binds g))) ++ $"/" ++ fmt_ld (max_binds g)
  ++ $", total inbound load:(" ++ load_text (g_inbound_load g) t ++ $")/" ++ fmt_f2 (throughput g)
  ++ $"/sec, outbound load:(" ++ load_text (g_outbound_load g) t ++ $")/sec, mt/mo/dlr/errors:("
  ++ counters_text (g_mt_counter g) (g_mo_counter g) (g_dlr_counter g) (g_error_counter g) ++ $")" ++ nl
  ++ concat (map (plain_bind t) cs).

Definition xml_summary (t : Z) (tot : totals) (known : nat) : Octstr :=
  element ($"summary")
    (nl ++ line tab ($"unique") (fmt_ld (Z.of_nat known))
     ++ line tab ($"inbound-processed") (fmt_ld (total_inbound_processed tot))
     ++ line tab ($"inbound-load") (load_text (total_inbound_load tot) t)
     ++ line tab ($"outbound-processed") (fmt_ld (total_outbound_processed tot))
     ++ line tab ($"outbound-load") (load_text (total_outbound_load tot) t)).

Definition xml_bind (t : Z) (c : SMPPEsme) : Octstr :=
  let field := line (tab ++ tab) in
  tab ++ element ($"bind") (nl ++ field ($"bind-id") (fmt_ld (id c)) ++ field ($"ip") (octstr_S (ip c))
  ++ field ($"uptime") (fmt_ld (t - time_connected c)) ++ field ($"bind-type") (fmt_ld (bind_type c))
  ++ field ($"open-acks") (fmt_ld (Z.of_nat (size (open_acks c)))) ++ field ($"simulate") (yes_no (simulate c))
  ++ field ($"inbound-load") (fmt_f2 (load_get (inbound_load c) t 0))
  ++ field ($"inbound-queued") (fmt_ld (inbound_queued c))
  ++ field ($"inbound-processed") (fmt_ld (inbound_processed c))
  ++ field ($"inbound-routing") (fmt_ld (pending_routing c))
  ++ field ($"outbound-load") (fmt_f2 (load_get (outbound_load c) t 0))
  ++ field ($"outbound-queued") (fmt_ld (outbound_queued c))
  ++ field ($"outbound-processed") (fmt_ld (outbound_processed c))
  ++ field ($"mt") (fmt_ld (mt_counter c)) ++ field ($"mo") (fmt_ld (mo_counter c))
  ++ field ($"dlr") (fmt_ld (dlr_counter c)) ++ field ($"errors") (fmt_ld (error_counter c))
  ++ tab) ++ nl.

Definition xml_esme (t : Z) (key : Octstr) (g : SMPPEsmeGlobal) (cs : list SMPPEsme) : Octstr :=
  nl ++ element ($"esme") (nl ++ line tab ($"system-id") key
  ++ line tab ($"bind-count") (fmt_ld (Z.of_nat (length (binds g))))
  ++ line tab ($"max-binds") (fmt_ld (max_binds g)) ++ line tab ($"inbound-load") (load_text (g_inbound_load g) t)
  ++ line tab ($"max-inbound-load") (fmt_f2 (throughput g))
  ++ line tab ($"outbound-load") (load_text (g_outbound_load g) t)
  ++ line tab ($"mt") (fmt_ld (g_mt_counter g)) ++ line tab ($"mo") (fmt_ld (g_mo_counter g))
  ++ line tab ($"dlr") (fmt_ld (g_dlr_counter g)) ++ line tab ($"errors") (fmt_ld (g_error_counter g))
  ++ concat (map (xml_bind t) cs)).

(** The accounts of the dictionary, with what is written for each. *)
Fixpoint status_of (esme_text : Octstr → SMPPEsmeGlobal → list SMPPEsme → Octstr)
    (gs : list (Octstr * SMPPEsmeGlobal)) : W Octstr :=
  match gs with
  | [] => mret []
  | (key, g) :: gs =>
      cs ← read_esmes (binds g);
      rest ← status_of esme_text gs;
      mret (esme_text key g cs.*2 ++ rest)
  end.

Definition ok_result (text : Octstr) : SMPPHTTPCommandResult := {| result := Some text; result_status := HTTP_OK |}.

Definition smpp_esme_status_command (tot : totals) (ct : content_type_t) : W SMPPHTTPCommandResult :=
  t ← now;
  known ← gets esmes;
  match ct with
  | HTTP_CONTENT_TYPE_PLAIN =>
      rest ← status_of (plain_esme t) (map_to_list known);
      mret (ok_result (plain_summary t tot (size known) ++ rest))
  | HTTP_CONTENT_TYPE_XML =>
      rest ← status_of (xml_esme t) (map_to_list known);
      mret (ok_result (element ($"esmes") (xml_summary t tot (size known) ++ rest)))
  end.

(** ** The other commands *)

Definition smpp_http_command_uptime (h : SMPPHTTPServer) (ct : content_type_t) : W SMPPHTTPCommandResult :=
  t ← now;
  let diff := t - start_time h in
  mret (ok_result match ct with
                  | HTTP_CONTENT_TYPE_PLAIN => $"Uptime " ++ uptime_text diff ++ nl
                  | HTTP_CONTENT_TYPE_XML => element ($"uptime") (fmt_ld diff)
                  end).

(** The result and the new log level, if it is changed. *)
Definition smpp_http_command_log_level (vars : cgivars) (ct : content_type_t) : SMPPHTTPCommandResult * option Z :=
  let level := http_cgi_variable vars ($"level") in
  let new := if octstr_len level =? 0 then -1 else atoi (octstr_get_cstr level) in
  let text := if 0 <=? new then $"Log level set to " ++ fmt_ld new else $"Invalid level specified" in
  (ok_result match ct with
             | HTTP_CONTENT_TYPE_PLAIN => text ++ nl
             | HTTP_CONTENT_TYPE_XML => element ($"message") text ++ nl
             end,
   if 0 <=? new then Some new else None).

Definition smpp_esme_unbind_reply (vars : cgivars) (ct : content_type_t) : W SMPPHTTPCommandResult :=
  r ← smpp_esme_unbind_command (http_cgi_variable vars ($"system-id")) (http_cgi_variable vars ($"bind-id"));
  let '(status, message) := r in
  mret {| result := Some match ct with
                         | HTTP_CONTENT_TYPE_PLAIN => message ++ nl
                         | HTTP_CONTENT_TYPE_XML => element ($"status") message
                         end;
          result_status := status |}.

(** Routing of the other methods has nothing to reload. *)
Definition smpp_route_rebuild (method : option routing_method) : W unit :=
  match method with
  | Some SMPP_ROUTING_METHOD_DATABASE => smpp_route_rebuild_database
  | _ => mret tt
  end.
Definition smpp_route_rebuild_command (method : option routing_method) (ct : content_type_t)
    : W SMPPHTTPCommandResult :=
  smpp_route_rebuild method;;
  mret (ok_result match ct with
                  | HTTP_CONTENT_TYPE_PLAIN => $"Routes updated"
                  | HTTP_CONTENT_TYPE_XML => element ($"status") ($"Routes updated")
                  end).

(** A command's callback; the second part is a new log level. *)
Definition run_command (h : SMPPHTTPServer) (method : option routing_method) (tot : totals)
    (c : http_command) (vars : cgivars) (ct : content_type_t) : W (SMPPHTTPCommandResult * option Z) :=
  match c with
  | smpp_http_command_uptime_cmd => r ← smpp_http_command_uptime h ct; mret (r, None)
  | smpp_http_command_log_level_cmd => mret (smpp_http_command_log_level vars ct)
  | smpp_esme_status_command_cmd => r ← smpp_esme_status_command tot ct; mret (r, None)
  | smpp_esme_unbind_command_cmd => r ← smpp_esme_unbind_reply vars ct; mret (r, None)
  | smpp_route_rebuild_command_cmd => r ← smpp_route_rebuild_command method ct; mret (r, None)
  end.

(** ** One request *)

Record reply_t := { reply_status : Z; answer : option Octstr; new_log_level : option Z }.

(** The name of the command without its extension, and what the extension asks for. *)
Definition command_of_url (url : Octstr) : Octstr * content_type_t :=
  let pos := octstr_rsearch_char url "." (octlen url - 1) in
  if negb (pos =? -1) then
    (take (Z.to_nat pos) url,
     if bool_decide (drop (Z.to_nat pos) url = $".xml") then HTTP_CONTENT_TYPE_XML else HTTP_CONTENT_TYPE_PLAIN)
  else (url, HTTP_CONTENT_TYPE_PLAIN).

Definition unknown_command (h : SMPPHTTPServer) (url : Octstr) : Octstr :=
  $"Command '" ++ url ++ $"' not found, available commands are: " ++ nl ++ nl
  ++ concat (map (λ kc, kc.1 ++ nl) (map_to_list (commands h))).

Definition smpp_http_server_request_handler (h : SMPPHTTPServer) (method : option routing_method)
    (tot : totals) (url : Octstr) (vars : cgivars) : W reply_t :=
  let password := http_cgi_variable vars ($"password") in
  if (octstr_len password =? 0) || negb (octstr_eq (default [] password) (default [] (http_password h)))
  then mret {| reply_status := 403; answer := Some ($"Denied"); new_log_level := None |}
  else
    let '(url, ct) := command_of_url url in
    match commands h !! url with
    | Some c =>
        r ← run_command h method tot c vars ct;
        mret {| reply_status := result_status r.1; answer := result r.1; new_log_level := r.2 |}
    | None => mret {| reply_status := 404; answer := Some (unknown_command h url); new_log_level := None |}
    end.

End admin.

(** ** Specification: tags

    What a reader of XML does with the tags of a text: [Some open] are the names of
    the elements that are still open, innermost first. *)
Definition close_tag (name : Octstr) (open : list Octstr) : option (list Octstr) :=
  match name, open with
  | "/"%char :: n, o :: open => if decide (n = o) then Some open else None
  | "/"%char :: _, [] => None
  | n, open => Some (n :: open)
  end.

(** [tag] is what was read of a tag. *)
Fixpoint scan_tags (s : Octstr) (tag : option Octstr) (open : list Octstr) : option (list Octstr) :=
  match s, tag with
  | [], None => Some open
  | [], Some _ => None
  | c :: s, None => scan_tags s (if decide (c = "<"%char) then Some [] else None) open
  | c :: s, Some n =>
      if decide (c = ">"%char) then
        match close_tag n open with Some open => scan_tags s None open | None => None end
      else scan_tags s (Some (n ++ [c])) open
  end.

(** A text that leaves the open elements as they are, wherever it stands. *)
Definition balanced (s : Octstr) : Prop :=
  ∀ rest open, scan_tags (s ++ rest) None open = scan_tags rest None open.

Lemma balanced_nil : balanced [].
Proof. done. Qed.
Lemma balanced_app a b : balanced a → balanced b → balanced (a ++ b).
Proof. intros Ha Hb rest open. by rewrite <- app_assoc, Ha, Hb. Qed.
Lemma balanced_plain s : "<"%char ∉ s → balanced s.
Proof.
  induction s as [|c s IH]; intros Hs; [apply balanced_nil|]. apply not_elem_of_cons in Hs as [Hc Hs].
  intros rest open. cbn [app scan_tags]. rewrite decide_False by done. by apply IH.
Qed.
Lemma balanced_concat l : Forall balanced l → balanced (concat l).
Proof. induction 1; [apply balanced_nil|by apply balanced_app]. Qed.

Lemma scan_name n rest m open :
  ">"%char ∉ n → scan_tags (n ++ rest) (Some m) open = scan_tags rest (Some (m ++ n)) open.
Proof.
  revert m. induction n as [|c n IH]; intros m Hn; [by rewrite app_nil_r|].
  apply not_elem_of_cons in Hn as [Hc Hn]. cbn [app scan_tags]. rewrite decide_False by done.
  rewrite IH by done. by rewrite <- app_assoc.
Qed.

(** A name of an element. *)
Definition tag_name (n : Octstr) : bool := bool_decide (Forall (λ c, c ≠ ">"%char ∧ c ≠ "/"%char) n).

Lemma tag_name_spec n : tag_name n = true → ">"%char ∉ n ∧ ∀ open, close_tag n open = Some (n :: open).
Proof.
  intros Hn%bool_decide_eq_true. split.
  - intros Hin. rewrite Forall_forall in Hn. by destruct (Hn _ Hin).
  - intros open. destruct Hn as [|c n [_ Hc] _]; [by destruct open|].
    unfold close_tag. repeat case_match; by simplify_eq.
Qed.

(** The content of an element does not matter as long as it is balanced. *)
Lemma balanced_tags n v : tag_name n = true → balanced v → balanced ($"<" ++ n ++ $">" ++ v ++ $"</" ++ n ++ $">").
Proof.
  intros [Hn Hclose]%tag_name_spec Hv rest open. rewrite <- !app_assoc.
  change ($"<" ++ ?t) with ("<"%char :: t). cbn [scan_tags]. rewrite decide_True by done.
  rewrite scan_name by done. cbn [app]. change ($">" ++ ?t) with (">"%char :: t) at 1. cbn [scan_tags].
  rewrite decide_True, Hclose by done. rewrite Hv.
  change ($"</" ++ ?t) with ("<"%char :: "/"%char :: t). cbn [scan_tags].
  rewrite decide_True, decide_False by done. rewrite scan_name by done.
  change ($">" ++ ?t) with (">"%char :: t). cbn [app scan_tags close_tag].
  by rewrite !decide_True.
Qed.

Lemma balanced_element n v : tag_name n = true → "<"%char ∉ v → balanced (element n v).
Proof. intros Hn Hv. by apply balanced_tags, balanced_plain. Qed.
Lemma balanced_line indent n v :
  "<"%char ∉ indent → tag_name n = true → "<"%char ∉ v → balanced (line indent n v).
Proof.
  intros Hi Hn Hv. apply balanced_app; [by apply balanced_plain|]. apply balanced_app; [by apply balanced_element|].
  apply balanced_plain. by intros Hin%list_elem_of_singleton.
Qed.

Lemma fmt_ld_no_tag z : "<"%char ∉ fmt_ld z.
Proof. apply fmt_ld_chars; [|done]. intros d. unfold pretty_N_char. by repeat case_match. Qed.


(** A text without tags, piece by piece. *)
Ltac no_tag :=
  repeat (rewrite not_elem_of_app; split);
  first [done | apply fmt_ld_no_tag | apply fmt_f2_plain
        | apply (bool_decide_unpack _); vm_compute; exact I].
(** A balanced text, piece by piece. *)
Ltac balance :=
  repeat match goal with
  | |- balanced (line _ _ _) => apply balanced_line; [no_tag|reflexivity|no_tag]
  | |- balanced (element _ _) => apply balanced_tags; [reflexivity|]
  | |- balanced (concat (map _ _)) => apply balanced_concat, Forall_map
  | |- balanced (_ ++ _) => apply balanced_app
  | |- balanced _ => solve [apply balanced_plain; no_tag]
  end.

Section status.
Context {DB : Type} `{TimeLib} `{OctstrLib} `{KannelLib} `{DatabaseOps DB} `{EsmeEnv} `{FieldLib} `{AdminLib}.
Implicit Types (w : World DB).

Lemma load_text_no_tag l t : "<"%char ∉ load_text l t.
Proof. unfold load_text. no_tag. Qed.
Lemma yes_no_no_tag n : "<"%char ∉ yes_no n.
Proof. unfold yes_no. case_match; no_tag. Qed.

(** An ESME whose address can be shown. *)
Definition shown (c : SMPPEsme) : Prop := "<"%char ∉ octstr_S (ip c).

Lemma xml_bind_balanced t c : shown c → balanced (xml_bind t c).
Proof.
  intros Hip. pose proof (yes_no_no_tag (simulate c)). unfold xml_bind. cbv zeta. balance.
Qed.

Lemma xml_esme_balanced t key g cs : "<"%char ∉ key → Forall shown cs → balanced (xml_esme t key g cs).
Proof.
  intros Hkey Hcs. pose proof (load_text_no_tag (g_inbound_load g) t).
  pose proof (load_text_no_tag (g_outbound_load g) t). unfold xml_esme. balance.
  apply (Forall_impl _ _ _ Hcs). intros c. apply xml_bind_balanced.
Qed.

(** The accounts' texts, with the ESMEs that are bound. *)
Lemma status_of_run w (P : Octstr → Prop) f gs :
  P [] → (∀ a b, P a → P b → P (a ++ b)) →
  Forall (λ kg, Forall (live w) (binds kg.2)) gs →
  (∀ key g cs, (key, g) ∈ gs → Forall (λ o, lookup_esme w o.1 = Some o.2) cs → cs.*1 = binds g →
     P (f key g cs.*2)) →
  ∃ text, status_of (DB := DB) f gs w = Some (text, w) ∧ P text.
Proof.
  intros Hnil Happ. induction 1 as [|[key g] gs Hg _ IH]; intros Hf; [by exists []|].
  destruct (read_esmes_run (binds g) w Hg) as (cs & Hrun & Hes & Hcs).
  destruct IH as (text & Ht & HP). { intros key' g' cs' Hin. apply Hf. by right. }
  exists (f key g cs.*2 ++ text). cbn [status_of]. rewrite bind_unfold, Hrun, bind_unfold, Ht.
  split; [done|]. apply Happ; [|done]. apply Hf; [by left|done|done].
Qed.

Lemma accounts_live w :
  (∀ key g, esmes w !! key = Some g → Forall (live w) (binds g)) →
  Forall (λ kg, Forall (live w) (binds kg.2)) (map_to_list (esmes w)).
Proof. intros Hl. apply Forall_forall. intros [key g] Hin%elem_of_map_to_list. by apply (Hl key). Qed.


(** Any status command runs, and changes nothing. *)
Lemma status_command_run w tot ct :
  (∀ key g, esmes w !! key = Some g → Forall (live w) (binds g)) →
  ∃ text, smpp_esme_status_command tot ct w = Some (ok_result text, w).
Proof.
  intros Hl%accounts_live. unfold smpp_esme_status_command, now. rewrite !gets_bind.
  set (f := match ct with HTTP_CONTENT_TYPE_PLAIN => plain_esme (w_now w) | _ => xml_esme (w_now w) end).
  destruct (status_of_run w (λ _, True) f (map_to_list (esmes w))) as (text & Hrun & _); [done..|].
  destruct ct; subst f; rewrite bind_unfold, Hrun; by eexists.
Qed.

End status.

(** ** Unbinding *)

Section unbinding.
Context {DB : Type} `{TimeLib} `{OctstrLib} `{KannelLib} `{DatabaseOps DB} `{EsmeEnv}.
Implicit Types (w : World DB).

(** An unbind for [e] that closes the connection when it is sent. *)
Definition unbinds (q : SMPPQueuedPDU) (e : nat) : Prop :=
  smpp_esme q = Some e ∧ disconnect q = true ∧ callback q = None ∧
  ∃ pd, pdu q = Some pd ∧ type pd = unbind.

Lemma send_unbind_run e w :
  live w e →
  ∃ w' q, send_unbind e w = Some (tt, w') ∧ next_ptr w' = S (next_ptr w) ∧
    outbound_queue w' = outbound_queue w ++ [next_ptr w] ∧
    lookup_pdu w' (next_ptr w) = Some q ∧ unbinds q e ∧
    (∀ p, p ≠ next_ptr w → lookup_pdu w' p = lookup_pdu w p) ∧
    (∀ e', live w e' → live w' e') ∧ esmes w' = esmes w ∧ trace w' = trace w.
Proof.
  intros [c Hc]. unfold send_unbind. rewrite (read_esme_bind _ c), (update_esme_bind _ c) by done.
  set (c1 := {| c with esme_sequence_number := esme_sequence_number c + 1 |}). set (w1 := with_esme w e c1).
  rewrite (create_quick_bind _ c1) by apply lookup_with_esme_eq.
  rewrite bind_unfold, (update_pdu_run _ _ _ _ (lookup_with_alloc_eq w1 _)).
  erewrite (add_outbound_run _ _ e c1); [|apply lookup_with_pdu_eq|done|done|apply lookup_with_esme_eq].
  do 2 eexists. split; [reflexivity|]. split; [done|]. split; [done|]. split; [apply lookup_with_pdu_eq|].
  split; [|split; [|split; [|done]]].
  - split; [done|]. split; [done|]. split; [done|]. eexists. split; [done|]. apply smpp_pdu_create_type.
  - intros p Hp. etransitivity; [apply lookup_with_pdu|]. rewrite bool_decide_false by done.
    etransitivity; [apply lookup_with_alloc|]. by rewrite bool_decide_false.
  - intros e' [c' He']. unfold live. destruct (decide (e = e')) as [<-|Hne].
    { eexists. apply lookup_with_esme_eq. }
    exists c'. etransitivity; [apply lookup_with_esme|]. rewrite bool_decide_false by done.
    etransitivity; [apply lookup_with_esme|]. by rewrite bool_decide_false.
Qed.

Lemma send_unbinds_run es w :
  Forall (live w) es →
  ∃ w', for_each send_unbind es w = Some (tt, w') ∧
    outbound_queue w' = outbound_queue w ++ seq (next_ptr w) (length es) ∧
    (∀ k e, es !! k = Some e → ∃ q, lookup_pdu w' (next_ptr w + k) = Some q ∧ unbinds q e) ∧
    (∀ p, (p < next_ptr w)%nat → lookup_pdu w' p = lookup_pdu w p) ∧ esmes w' = esmes w ∧ trace w' = trace w.
Proof.
  revert w. induction es as [|e es IH]; intros w Hes.
  { exists w. cbn. rewrite app_nil_r. split_and!; done. }
  apply Forall_cons in Hes as [He Hes].
  destruct (send_unbind_run e w He) as (w1 & q & Hrun & Hptr & Hq & Hp & Hu & Hold & Hlive & Hes1 & Ht).
  destruct (IH w1) as (w' & Hrun' & Hq' & Hall & Hold' & Hes' & Ht').
  { apply (Forall_impl _ _ _ Hes). intros e'. apply Hlive. }
  exists w'. cbn [for_each]. rewrite bind_unfold, Hrun. rewrite Hptr in *. split_and!.
  - done.
  - by rewrite Hq', Hq, <- app_assoc.
  - intros [|k] e' He'.
    + injection He' as <-. exists q. rewrite Nat.add_0_r, Hold' by lia. done.
    + destruct (Hall k e' He') as (q' & Hq2 & Hu'). exists q'. by rewrite Nat.add_succ_r.
  - intros p Hlt. rewrite Hold', Hold by lia. done.
  - congruence.
  - congruence.
Qed.

(** The first bind with a number. *)
Lemma filter_first {A} (P : A → Prop) `{!∀ x, Decision (P x)} (l : list A) :
  (take 1 (filter P l) = [] ∧ Forall (λ x, ¬ P x) l) ∨
  ∃ l1 x l2, l = l1 ++ x :: l2 ∧ Forall (λ x, ¬ P x) l1 ∧ P x ∧ take 1 (filter P l) = [x].
Proof.
  induction l as [|x l IH]; [left; by split|]. destruct (decide (P x)) as [Hx|Hx].
  - right. exists [], x, l. rewrite filter_cons_True by done. by split_and!.
  - rewrite filter_cons_False by done. destruct IH as [[Hn Hl]|(l1 & y & l2 & -> & Hl1 & Hy & Ht)].
    + left. split; [done|]. by constructor.
    + right. exists (x :: l1), y, l2. split_and!; [done|by constructor|done|done].
Qed.

(** The targets of the command among the binds [cs] that were read. *)
Lemma unbind_targets_spec w bind_id cs bs :
  Forall (λ o, lookup_esme w o.1 = Some o.2) cs → cs.*1 = bs → Forall (live w) bs →
  let numbered e := ∃ c, lookup_esme w e = Some c ∧ id c = atol (cstr (default [] bind_id)) in
  let targets := unbind_targets bind_id cs in
  Forall (live w) targets ∧
  if octstr_len bind_id =? 0 then targets = bs
  else (targets = [] ∧ Forall (λ e, ¬ numbered e) bs) ∨
       ∃ l1 e l2, targets = [e] ∧ bs = l1 ++ e :: l2 ∧ numbered e ∧ Forall (λ e, ¬ numbered e) l1.
Proof.
  intros Hcs Hbs Hlive numbered. unfold unbind_targets.
  assert (∀ l, Forall (λ o, lookup_esme w o.1 = Some o.2) l →
    Forall (λ o : nat * SMPPEsme, ¬ id o.2 = atol (cstr (default [] bind_id))) l →
    Forall (λ e, ¬ numbered e) l.*1) as Hnone.
  { intros l Hl Hn. apply Forall_map, Forall_forall. intros [e c] Hin (c' & Hc' & Hid).
    rewrite Forall_forall in Hl. rewrite Forall_forall in Hn.
    specialize (Hl _ Hin). specialize (Hn _ Hin). cbn in *. congruence. }
  destruct bind_id as [b|]; [|by rewrite Hbs]. cbn [octstr_len default from_option] in *.
  destruct (octlen b =? 0); [by rewrite Hbs|].
  destruct (filter_first (λ o : nat * SMPPEsme, id o.2 = atol (cstr b)) cs)
    as [[-> Hn]|(l1 & [e c] & l2 & -> & Hl1 & Hc & ->)].
  - split; [constructor|]. left. split; [done|]. rewrite <- Hbs. by apply Hnone.
  - rewrite fmap_app in Hbs. cbn in Hbs. subst bs. apply Forall_app in Hlive as [_ Hlive].
    apply Forall_cons in Hlive as [He _]. apply Forall_app in Hcs as [Hcs1 Hcs]. apply Forall_cons in Hcs as [Hec _].
    split; [by constructor|]. right. exists (l1.*1), e, (l2.*1). split_and!; [done|done|by exists c|by apply Hnone].
Qed.

End unbinding.

(** ** Requests *)

Section requests.
Context {DB : Type} `{TimeLib} `{OctstrLib} `{KannelLib} `{DatabaseOps DB} `{EsmeEnv} `{FieldLib} `{AdminLib}.
Implicit Types (w : World DB).

Lemma command_of_name name : "."%char ∉ name → command_of_url name = (name, HTTP_CONTENT_TYPE_PLAIN).
Proof. intros Hn. unfold command_of_url. by rewrite octstr_rsearch_char_none. Qed.

Lemma command_of_extension name ext :
  "."%char ∉ ext →
  command_of_url (name ++ "."%char :: ext)
  = (name, if decide (ext = $"xml") then HTTP_CONTENT_TYPE_XML else HTTP_CONTENT_TYPE_PLAIN).
Proof.
  intros He. unfold command_of_url. rewrite octstr_rsearch_char_last by done. cbv zeta.
  rewrite (proj2 (Z.eqb_neq _ _)) by (unfold octlen; lia). cbn [negb].
  unfold octlen. rewrite Nat2Z.id, take_app_length, drop_app_length. f_equal.
  destruct (decide (ext = $"xml")) as [->|Hne]; [done|]. rewrite bool_decide_false; [done|].
  by intros [= ->].
Qed.

(** The server after its start: its password, and who a name is looked up for. *)
Lemma init_password p t h : http_server_of p t = Some h → octstr_len p ≠ 0 ∧ http_password h = p.
Proof. unfold http_server_of, smpp_http_server_init. destruct (Z.eqb_spec (octstr_len p) 0); [done|]. by intros [= <-]. Qed.

Lemma init_same p t h :
  http_server_of p t = Some h →
  commands h = from_option commands ∅ (http_server_of (Some ($"p")) 0).
Proof. unfold http_server_of, smpp_http_server_init. destruct (_ =? 0); [done|]. by intros [= <-]. Qed.

Lemma init_commands p t h name :
  http_server_of p t = Some h →
  name ∉ [$"/uptime"; $"/log-level"; $"/rebuild-routes"; $"/esme-status"; $"/esme-unbind"] →
  commands h !! name = None.
Proof.
  unfold http_server_of, smpp_http_server_init. destruct (_ =? 0); [done|]. intros [= <-] Hname.
  rewrite !not_elem_of_cons in Hname. destruct Hname as (Hu & Hl & Hr & Hs & Hb & _).
  cbn [register_commands smpp_http_server_add_command commands].
  rewrite !lookup_insert_ne; [done|..];
    intros <-; first [by apply Hu|by apply Hl|by apply Hr|by apply Hs|by apply Hb].
Qed.

Lemma denied_run h method tot url vars w :
  octstr_len (http_password h) ≠ 0 → http_cgi_variable vars ($"password") ≠ http_password h →
  smpp_http_server_request_handler h method tot url vars w
  = Some ({| reply_status := 403; answer := Some ($"Denied"); new_log_level := None |}, w).
Proof.
  intros Hh Hp. unfold smpp_http_server_request_handler, octstr_eq. cbv zeta.
  destruct (http_cgi_variable vars ($"password")) as [v|]; [|done].
  destruct (http_password h) as [s|]; [|done]. cbn [default from_option].
  rewrite (bool_decide_false (v = s)) by congruence. by rewrite orb_true_r.
Qed.

Lemma granted_run h method tot url vars w :
  octstr_len (http_password h) ≠ 0 → http_cgi_variable vars ($"password") = http_password h →
  smpp_http_server_request_handler h method tot url vars w
  = (let '(name, ct) := command_of_url url in
     match commands h !! name with
     | Some c =>
         r ← run_command h method tot c vars ct;
         mret {| reply_status := result_status r.1; answer := result r.1; new_log_level := r.2 |}
     | None => mret {| reply_status := 404; answer := Some (unknown_command h name); new_log_level := None |}
     end) w.
Proof.
  intros Hh Hp. unfold smpp_http_server_request_handler, octstr_eq. cbv zeta.
  rewrite Hp, (proj2 (Z.eqb_neq _ _) Hh), bool_decide_true by done. done.
Qed.

End requests.

(** ** Properties *)

(** The status in XML is well-formed: every element that is opened is closed, in
    the right order, and the command changes nothing, for all accounts and binds whose
    names and addresses hold no "<". *)
Theorem status_well_formed {DB} `{TimeLib} `{OctstrLib} `{KannelLib} `{DatabaseOps DB} `{EsmeEnv}
    `{FieldLib} `{AdminLib} (w : World DB) (tot : totals) :
  (∀ key g, esmes w !! key = Some g → "<"%char ∉ key ∧
     Forall (λ e, ∃ c, lookup_esme w e = Some c ∧ "<"%char ∉ octstr_S (ip c)) (binds g)) →
  ∃ text, smpp_esme_status_command tot HTTP_CONTENT_TYPE_XML w = Some (ok_result text, w) ∧
    scan_tags text None [] = Some [].
Proof.
  intros Hw. unfold smpp_esme_status_command, now. rewrite !gets_bind.
  destruct (status_of_run w balanced (xml_esme (w_now w)) (map_to_list (esmes w)))
    as (text & Hrun & Htext); [apply balanced_nil|apply balanced_app| | |].
  - apply accounts_live. intros key g Hg. destruct (Hw key g Hg) as [_ Hb].
    apply (Forall_impl _ _ _ Hb). intros e (c & Hc & _). by eexists.
  - intros key g cs Hin%elem_of_map_to_list Hcs Hes. destruct (Hw key g Hin) as [Hkey Hb].
    apply xml_esme_balanced; [done|]. rewrite <- Hes, Forall_fmap in Hb.
    rewrite Forall_fmap. apply Forall_forall. intros [e c] Ho. rewrite Forall_forall in Hb. rewrite Forall_forall in Hcs.
    destruct (Hb _ Ho) as (c' & Hc' & Hip). specialize (Hcs _ Ho). cbn in *. congruence.
  - rewrite bind_unfold, Hrun. eexists. split; [reflexivity|].
    assert (balanced (element ($"esmes") (xml_summary (w_now w) tot (size (esmes w)) ++ text))) as Hb.
    { pose proof (load_text_no_tag (total_inbound_load tot) (w_now w)).
      pose proof (load_text_no_tag (total_outbound_load tot) (w_now w)).
      apply balanced_tags; [reflexivity|]. apply balanced_app; [|done]. unfold xml_summary. balance. }
    specialize (Hb [] []). by rewrite app_nil_r in Hb.
Qed.

(** esme-unbind queues exactly one unbind for each of its targets, in the order of
    the binds, each of which closes its connection when it is sent, and says how many.
    The targets are all binds of the account, whatever the case of its name, or the
    first with the number that is asked for, if there is one. No other PDU and no
    account changes. *)
Theorem unbind_disconnects {DB} `{TimeLib} `{OctstrLib} `{KannelLib} `{DatabaseOps DB} `{EsmeEnv}
    (w : World DB) (sid : Octstr) (bind_id : option Octstr) (g : SMPPEsmeGlobal) :
  sid ≠ [] → esmes w !! octstr_tolower sid = Some g → Forall (live w) (binds g) →
  ∃ w' targets, smpp_esme_unbind_command (Some sid) bind_id w
      = Some ((HTTP_OK, fmt_ld (Z.of_nat (length targets)) ++ $" binds disconnected"), w') ∧
    outbound_queue w' = outbound_queue w ++ seq (next_ptr w) (length targets) ∧
    (∀ k e, targets !! k = Some e → ∃ q, lookup_pdu w' (next_ptr w + k) = Some q ∧ unbinds q e) ∧
    (∀ p, (p < next_ptr w)%nat → lookup_pdu w' p = lookup_pdu w p) ∧ esmes w' = esmes w ∧ trace w' = trace w ∧
    let numbered e := ∃ c, lookup_esme w e = Some c ∧ id c = atol (cstr (default [] bind_id)) in
    if octstr_len bind_id =? 0 then targets = binds g
    else (targets = [] ∧ Forall (λ e, ¬ numbered e) (binds g)) ∨
         ∃ l1 e l2, targets = [e] ∧ binds g = l1 ++ e :: l2 ∧ numbered e ∧ Forall (λ e, ¬ numbered e) l1.
Proof.
  intros Hsid Hg Hlive. unfold smpp_esme_unbind_command.
  assert (octlen sid =? 0 = false) as -> by (apply Z.eqb_neq; destruct sid; cbn; [done|unfold octlen; cbn; lia]).
  cbv zeta. rewrite gets_bind, Hg. destruct (read_esmes_run (binds g) w Hlive) as (cs & Hrun & Hes & Hcs).
  rewrite bind_unfold, Hrun.
  set (numbered e := ∃ c, lookup_esme w e = Some c ∧ id c = atol (cstr (default [] bind_id))).
  assert (∃ targets, unbind_targets bind_id cs = targets ∧ Forall (live w) targets ∧
    if octstr_len bind_id =? 0 then targets = binds g
    else (targets = [] ∧ Forall (λ e, ¬ numbered e) (binds g)) ∨
         ∃ l1 e l2, targets = [e] ∧ binds g = l1 ++ e :: l2 ∧ numbered e ∧ Forall (λ e, ¬ numbered e) l1)
    as (targets & Ht & Hlt & Hcase).
  { eexists. split; [reflexivity|]. by apply unbind_targets_spec. }
  rewrite Ht. destruct (send_unbinds_run targets w Hlt) as (w' & Hsend & Hq & Hall & Hold & Hes' & Htr).
  exists w', targets. rewrite bind_unfold, Hsend. by split_and!.
Qed.

