(* ===== verification/Mysql.v ===== *)
(** smpp_database_mysql.c: the relational backend. Every operation builds the text
    of a statement and the list of its bound values, hands both to Kannel's
    connection pool and reads the rows of the answer; what it keeps itself are the
    three dictionaries of records that were handed out. The backend is an instance
    of the interface [DatabaseOps] of World.v.

    Kannel's conversions and the SQL server are the classes below. An SQL value is
    an optional string, a row is the list of its values; [dbpool_conn_select] gives
    no rows when the query fails, [dbpool_conn_update] the number of changed rows or
    -1. A NULL in a column the schema declares NOT NULL is not modelled. *)
From S2P Require Import Prelude CLib Gwlib DbUtil Types Kannel Dlr World Callbacks Route Fields.
Open Scope Z_scope.

(** ** Interfaces *)

Class SqlLib := {
  (** whether gw_regex_comp accepts a pattern, and Kannel's packing of PDUs, of which
      some come back as they were *)
  gw_regex_comp : Octstr → bool;
  smpp_pdu_pack : option Octstr → SMPP_PDU → Octstr;
  smpp_pdu_unpack : option Octstr → Octstr → option SMPP_PDU;
  packable : SMPP_PDU → Prop;
  smpp_pdu_unpack_pack sid p : packable p → smpp_pdu_unpack sid (drop 4 (smpp_pdu_pack sid p)) = Some p;
}.

Abbreviation row := (list (option Octstr)).
Abbreviation bound := (list (option Octstr)).

Class SqlServer (S : Type) := {
  dbpool_conn_select : Octstr → bound → S → option (list row);
  dbpool_conn_update : Octstr → bound → S → Z * S;
}.

(** The value of a column of a row. *)
Definition value_of (r : row) (i : nat) : option Octstr := default None (r !! i).

(** ** The backend's state

    The dictionaries of what was handed out, the identifiers [msg_create] draws and
    the time. *)
Record Mysql {S : Type} := {
  sql_server : S;
  pending_msg : gset Octstr;
  pending_msg_store : gmap Octstr Octstr;
  pending_pdu : gset Octstr;
  sql_uuid : nat;
  sql_now : Z;
}.
Arguments Mysql : clear implicits.

(** ** smpp_database_relational_setup: the names of the tables *)

Definition default_table (o : option Octstr) (name : Octstr) : option Octstr :=
  if octstr_len o =? 0 then Some name else o.

Definition relational_tables (s : SMPPServer) : SMPPServer :=
  {| s with
     database_user_table := default_table (database_user_table s) ($"smpp_user");
     database_store_table := default_table (database_store_table s) ($"smpp_store");
     database_queue_store_table := default_table (database_queue_store_table s) ($"smpp_store_queue");
     database_dlr_table := default_table (database_dlr_table s) ($"smpp_dlr");
     database_pdu_table := default_table (database_pdu_table s) ($"smpp_queued_pdu");
     database_route_table := default_table (database_route_table s) ($"smpp_route");
     database_version_table := default_table (database_version_table s) ($"smpp_version") |}.

(** smpp_database_init: the dialect of a configured type. *)
Definition smpp_database_init (pgsql : bool) (database_type : option Octstr) : M unit (option db_type) :=
  d ← deref database_type;
  if octstr_case_eq d ($"mysql") then mret (Some DBPOOL_MYSQL)
  else if octstr_case_eq d ($"postgres") || octstr_case_eq d ($"postgresql") || octstr_case_eq d ($"pgsql")
  then if pgsql then mret (Some DBPOOL_PGSQL) else crash
  else mret None.

Section backend.
Context {S : Type} `{OctstrLib} `{TimeLib} `{KannelLib} `{FieldLib} `{SqlLib} `{SqlServer S}.
(** The configuration, and the dialect of the pool. *)
Context (server : SMPPServer) (db : db_type) (uuid : nat → Octstr).
Abbreviation D := (Mysql S).

(** A configured table's name. *)
Definition table (o : option Octstr) : Octstr := octstr_S o.

(** The bound values; PostgreSQL statements are sent without any. *)
Definition sent (binds : bound) : bound := if smpp_db_sql_is_pgsql db then [] else binds.

Definition select (sql : Octstr) (binds : bound) (d : D) : option (list row) :=
  dbpool_conn_select sql (sent binds) (sql_server d).
Definition update (sql : Octstr) (binds : bound) (d : D) : bool * D :=
  let '(n, srv) := dbpool_conn_update sql (sent binds) (sql_server d) in
  (negb (n =? -1), {| d with sql_server := srv |}).

(** [ AND global_id NOT IN (...)]: what has been handed out already. *)
Definition not_pending (ids : gset Octstr) : Octstr :=
  if (size ids =? 0)%nat then []
  else
    let text := $" AND global_id NOT IN (" ++ concat (map (λ i, i ++ $",") (elements ids)) in
    octstr_delete text (octlen text - 1) 1 ++ $")".

(** ** Stored PDUs *)

Definition smpp_database_mysql_add_pdu (q : SMPPQueuedPDU) (d : D) : bool * D :=
  let enc := Some (smpp_db_url_encode_octstr
                     (Some (match pdu q with
                            | Some p => drop 4 (smpp_pdu_pack (q_system_id q) p)
                            | None => [] end))) in
  if smpp_db_sql_is_pgsql db then
    update ($"INSERT INTO " ++ table (database_pdu_table server) ++ $" (system_id, time, pdu) VALUES ("
            ++ smpp_db_sql_string_literal (q_system_id q) ++ $", " ++ fmt_ld (time_sent q) ++ $", "
            ++ smpp_db_sql_string_literal enc ++ $");") [] d
  else
    update ($"INSERT INTO " ++ table (database_pdu_table server)
            ++ $" ( `system_id`, `time`, `pdu` ) VALUES ( ?, ?, ?);")
           [q_system_id q; Some (fmt_ld (time_sent q)); enc] d.

(** A row of the PDU table: global_id, time, system_id, pdu. *)
Definition read_pdu_row (service : option Octstr) (r : row) : Octstr * (Z * option SMPP_PDU) :=
  (default [] (value_of r 0),
   (0, smpp_pdu_unpack service (smpp_db_url_decode_octstr (value_of r 3)))).

Definition get_stored_pdu_sql (service : option Octstr) (limit : Z) (ids : gset Octstr) : Octstr * bound :=
  let '(sql, binds) :=
    smpp_db_sql_append_where_eq
      ($"SELECT global_id, time, system_id, pdu FROM " ++ table (database_pdu_table server) ++ $" WHERE ")
      [] db ($"system_id") service in
  (sql ++ $" " ++ not_pending ids ++ $" LIMIT " ++ fmt_ld limit ++ $" ", binds).

Definition smpp_database_mysql_get_stored_pdu (service : option Octstr) (limit : Z) (d : D)
    : list (Octstr * (Z * option SMPP_PDU)) * D :=
  let '(sql, binds) := get_stored_pdu_sql service limit (pending_pdu d) in
  let ps := map (read_pdu_row service) (default [] (select sql binds d)) in
  (ps, {| d with pending_pdu := pending_pdu d ∪ list_to_set ps.*1 |}).

Definition smpp_database_mysql_remove_stored_pdu (gid : option Octstr) (d : D) : bool * D :=
  update ($"DELETE FROM " ++ table (database_pdu_table server) ++ $" WHERE global_id = " ++ octstr_S gid) [] d.

(** The callback of a stored PDU; the caller frees the PDU. *)
Definition smpp_database_mysql_queued_pdu_handler (gid : option Octstr) (status : Z) (d : D) : D :=
  let d := if negb (status =? SMPP_QUEUED_PDU_DESTROYED)
              && negb (status =? SMPP_ESME_COMMAND_STATUS_WAIT_ACK_TIMEOUT)
           then (smpp_database_mysql_remove_stored_pdu gid d).2 else d in
  match gid with
  | Some i => {| d with pending_pdu := pending_pdu d ∖ {[ i ]} |}
  | None => d
  end.

(** ** Stored messages *)

(** The encoding [smpp_database_mysql_add_message] puts the binary fields into. *)
Definition encode_binary (m : Msg) : Msg :=
  let enc o := if 0 <? octstr_len o then Some (smpp_db_url_encode_octstr o) else o in
  {| m with udhdata := enc (udhdata m); msgdata := enc (msgdata m) |}.

(** The loop over the columns: their names, the VALUES text and the bound values. *)
Definition insert_column (m : Msg) (acc : Octstr * Octstr * bound) (c : column)
    : Octstr * Octstr * bound :=
  let '(names, values, binds) := acc in
  match c with
  | INTEGER n get _ =>
      let '(values, binds) := smpp_db_sql_append_insert_long values binds db (get m) in
      (names ++ n ++ $",", values, binds)
  | OCTSTR n get _ =>
      match get m with
      | Some v =>
          let '(values, binds) := smpp_db_sql_append_insert_value values binds db (Some v) in
          (names ++ n ++ $",", values, binds)
      | None => acc
      end
  | UUID n get =>
      if smpp_db_sql_is_pgsql db then (names ++ n ++ $",", values ++ $"'" ++ get m ++ $"',", binds)
      else (names ++ n ++ $",", values ++ $"?,", binds ++ [Some (get m)])
  end.

Definition chop (s : Octstr) : Octstr := octstr_delete s (octlen s - 1) 1.

Definition insert_sql (tbl : option Octstr) (m : Msg) : Octstr * bound :=
  let '(sql, values, binds) :=
    foldl (insert_column m) ($"INSERT INTO " ++ table tbl ++ $" ( ", $" ) VALUES ( ", []) sms_columns in
  (chop sql ++ chop values ++ $");", binds).

Definition smpp_database_mysql_add_message (m : Msg) (store_kind : Z) (d : D) : bool * D :=
  let '(sql, binds) := insert_sql (smpp_database_store_table_name server store_kind) (encode_binary m) in
  update sql binds d.

(** The store a read looks at, and its table. *)
Definition effective_store_kind (store_kind : Z) : Z :=
  if store_kind =? SMPP_DATABASE_STORE_BEARERBOX_MT_DRAIN then
    if database_store_primary server then SMPP_DATABASE_STORE_BEARERBOX_QUEUE
    else SMPP_DATABASE_STORE_AUTO
  else store_kind.

Definition stored_table (t : sms_type_t) (store_kind : Z) : option Octstr :=
  if 0 <=? effective_store_kind store_kind
  then smpp_database_store_table_name server (effective_store_kind store_kind)
  else smpp_database_get_stored_table_name server t.

(** The number of an sms type, as Kannel's enumeration has it. *)
Definition sms_type_code (t : sms_type_t) : Z :=
  match t with mo => 0 | mt_reply => 1 | mt_push => 2 | report_mo => 3 | report_mt => 4 end.

Definition stored_from (t : sms_type_t) (service : option Octstr) (store_kind : Z) : Octstr * bound :=
  let tbl := table (stored_table t store_kind) in
  if (store_kind =? SMPP_DATABASE_STORE_BEARERBOX_MT_DRAIN) && bool_decide (t = mt_push)
     && (octstr_len service =? 0) && negb (octstr_len (database_user_table server) =? 0)
  then ($" FROM " ++ tbl ++ $" AS s LEFT JOIN " ++ table (database_user_table server)
        ++ $" AS u ON LOWER(u.`system_id`) = LOWER(s.`service`) WHERE s.`sms_type` = "
        ++ fmt_ld (sms_type_code t) ++ $" AND COALESCE(u.`database_store_primary`, "
        ++ fmt_ld (if database_store_primary server then 1 else 0) ++ $") = 0 ", [])
  else
    let sql := $" FROM " ++ tbl ++ $" WHERE sms_type = " ++ fmt_ld (sms_type_code t) ++ $" " in
    if octstr_len service =? 0 then (sql, [])
    else smpp_db_sql_append_where_eq (sql ++ $" AND ") [] db ($"service") service.

(** The limit of the caller is not used. *)
Definition get_stored_sql (t : sms_type_t) (service : option Octstr) (store_kind : Z)
    (ids : gset Octstr) : Octstr * bound :=
  let columns := $"SELECT global_id, "
                 ++ concat (map (λ c, $"`" ++ column_name c ++ $"`,") sms_columns) in
  let '(from, binds) := stored_from t service store_kind in
  (chop columns ++ from ++ not_pending ids ++ $" LIMIT " ++ fmt_ld SMPP_DATABASE_BATCH_LIMIT, binds).

(** The columns of a row, from position [i]: an integer is read with [atol], a
    string if it is not empty; the uuid is parsed from the string object instead of
    its text, which fails and leaves the new one. *)
Definition read_column (r : row) (acc : nat * Msg) (c : column) : nat * Msg :=
  let '(i, m) := acc in
  (Datatypes.S i, match c with
        | INTEGER _ _ set => set (atol (octstr_get_cstr (value_of r i))) m
        | OCTSTR _ _ set => if octstr_len (value_of r i) =? 0 then m else set (value_of r i) m
        | UUID _ _ => m
        end).

Definition decode_binary (m : Msg) : Msg :=
  let dec o := if 0 <? octstr_len o then Some (smpp_db_url_decode_octstr o) else o in
  let text := dec (msgdata m) in
  {| m with udhdata := dec (udhdata m); msgdata := Some (default [] text) |}.

Definition read_message (i : Octstr) (r : row) : SMPPDatabaseMsg :=
  {| db_global_id := atol (octstr_get_cstr (value_of r 0));
     db_msg := decode_binary (foldl (read_column r) (1%nat, msg_create i) sms_columns).2 |}.

Fixpoint read_messages (n : nat) (rs : list row) : list SMPPDatabaseMsg :=
  match rs with
  | [] => []
  | r :: rs => read_message (uuid n) r :: read_messages (Datatypes.S n) rs
  end.

(** The keys of the rows. *)
Definition row_keys (rs : list row) : list Octstr := map (λ r, default [] (value_of r 0)) rs.

Definition smpp_database_mysql_get_stored (t : sms_type_t) (service : option Octstr) (limit : Z)
    (store_kind : Z) (d : D) : list SMPPDatabaseMsg * D :=
  let '(sql, binds) := get_stored_sql t service store_kind (pending_msg d) in
  let rs := default [] (select sql binds d) in
  let tbl := default [] (stored_table t store_kind) in
  (read_messages (sql_uuid d) rs,
   {| d with pending_msg := pending_msg d ∪ list_to_set (row_keys rs);
             pending_msg_store := foldl (λ k i, <[i := tbl]> k) (pending_msg_store d) (row_keys rs);
             sql_uuid := (sql_uuid d + length rs)%nat |}).

Definition smpp_database_mysql_remove (gid temporary : Z) (d : D) : bool * D :=
  let key := fmt_ld gid in
  let '(ok, d1) :=
    if temporary =? 0 then
      let tbl := match pending_msg_store d !! key with
                 | Some t => Some t
                 | None => database_store_table server
                 end in
      update ($"DELETE FROM " ++ table tbl ++ $" WHERE global_id = " ++ fmt_ld gid) [] d
    else (false, d) in
  (ok || bool_decide (key ∈ pending_msg d1),
   {| d1 with pending_msg := pending_msg d1 ∖ {[ key ]};
              pending_msg_store := base.delete key (pending_msg_store d1) |}).

(** ** Receipts of the receipt table

    A row is global_id, message_id, service, status, err_code, submit_date,
    done_date, destination_addr, source_addr, smsc_id, text. *)
Definition dlrs_select : Octstr :=
  $"SELECT global_id, message_id, service, status, err_code, submit_date, done_date, "
  ++ $"destination_addr, source_addr, smsc_id, text FROM ".

Definition dlrs_sql (service : option Octstr) (limit : Z) : Octstr * bound :=
  let sql := dlrs_select ++ table (database_dlr_table server) ++ $" WHERE " in
  if smpp_db_sql_is_pgsql db then
    (sql ++ $"LOWER(service) = LOWER(" ++ smpp_db_sql_string_literal service
     ++ $") AND processed = 0 LIMIT " ++ fmt_ld limit, [])
  else (sql ++ $"service = ? AND processed = 0 LIMIT " ++ fmt_ld limit, [service]).

Definition dlr_success (r : row) : bool :=
  match value_of r 3 with Some st => octstr_case_eq st ($"DELIVRD") | None => false end.

(** The error code; the variable [junk] is uninitialised, and used for a code that
    is not a number. *)
Definition dlr_error (junk : Z) (r : row) : Z :=
  match value_of r 4 with
  | Some e => if octlen e =? 0 then 0 else to_uint (default junk (octstr_parse_long e))
  | None => 0
  end.

Definition dlr_text (now junk : Z) (r : row) : Octstr :=
  dlr_short_message (octstr_S (value_of r 1)) (if dlr_success r then $"001" else $"000")
    (smpp_database_format_dlr_date now (value_of r 5)) (smpp_database_format_dlr_date now (value_of r 6))
    (if octstr_len (value_of r 3) =? 0 then $"DELIVRD" else octstr_S (value_of r 3))
    (dlr_error junk r) (default [] (value_of r 10)).

(** The time of the message: of its submission, of its delivery, or now. *)
Definition dlr_time (now : Z) (r : row) : Z :=
  let submit := smpp_time_to_c_time now (smpp_database_format_dlr_date now (value_of r 5)) in
  let done := smpp_time_to_c_time now (smpp_database_format_dlr_date now (value_of r 6)) in
  if 0 <? submit then submit else if 0 <? done then done else now.

Definition read_dlr (junk now : Z) (service : option Octstr) (i : Octstr) (r : row) : SMPPDatabaseMsg :=
  {| db_global_id := atol (octstr_get_cstr (value_of r 0));
     db_msg := {| (msg_create i) with
       sms_type := report_mo; service := service;
       receiver := Some (default [] (value_of r 7)); sender := Some (default [] (value_of r 8));
       smsc_id := Some (default [] (value_of r 9)); time := dlr_time now r;
       dlr_mask := if dlr_success r then DLR_SUCCESS else DLR_FAIL;
       msgdata := Some (dlr_text now junk r);
       dlr_url := Some (octstr_S service ++ $"|" ++ fmt_ld (dlr_time now r) ++ $"|"
                        ++ octstr_S (value_of r 1)) |} |}.

Fixpoint read_dlrs (junk now : Z) (service : option Octstr) (n : nat) (rs : list row)
    : list SMPPDatabaseMsg :=
  match rs with
  | [] => []
  | r :: rs => read_dlr junk now service (uuid n) r :: read_dlrs junk now service (Datatypes.S n) rs
  end.

Definition smpp_database_mysql_get_dlrs (junk : Z) (service : option Octstr) (limit : Z) (d : D)
    : list SMPPDatabaseMsg * D :=
  if octstr_len (database_dlr_table server) =? 0 then ([], d)
  else
    let limit := if limit =? 0 then SMPP_DATABASE_BATCH_LIMIT else limit in
    let '(sql, binds) := dlrs_sql service limit in
    let rs := default [] (select sql binds d) in
    (read_dlrs junk (sql_now d) service (sql_uuid d) rs,
     {| d with sql_uuid := (sql_uuid d + length rs)%nat |}).

Definition smpp_database_mysql_remove_dlr (gid : Z) (d : D) : bool * D :=
  if octstr_len (database_dlr_table server) =? 0 then (false, d)
  else
    let tbl := table (database_dlr_table server) in
    let sql := if database_dlr_delete_processed server
               then $"DELETE FROM " ++ tbl ++ $" WHERE global_id = " ++ fmt_ld gid
               else $"UPDATE " ++ tbl ++ $" SET processed = 1 WHERE global_id = " ++ fmt_ld gid in
    let '(n, srv) := dbpool_conn_update sql [] (sql_server d) in
    (0 <=? n, {| d with sql_server := srv |}).

(** ** Accounts with stored messages *)

Definition esmes_with_queued_sql : Octstr :=
  let union := smpp_db_sql_union_keyword db in
  let stores := $"SELECT system_id FROM " ++ table (database_pdu_table server) ++ $" " ++ union
    ++ $" SELECT service FROM " ++ table (database_store_table server) ++ $" WHERE sms_type IN ("
    ++ fmt_ld (sms_type_code mo) ++ $", " ++ fmt_ld (sms_type_code report_mo) ++ $")" in
  if octstr_len (database_dlr_table server) =? 0 then stores
  else stores ++ $" " ++ union ++ $" SELECT service FROM " ++ table (database_dlr_table server).

Definition smpp_database_mysql_get_esmes_with_queued (d : D) : list Octstr :=
  omap (λ r, value_of r 0) (default [] (select esmes_with_queued_sql [] d)).

(** ** Routes: regex, cost, system_id, smsc_id, source_regex *)

Definition routes_sql (direction : Z) (service : option Octstr) : Octstr * bound :=
  let sql := $"SELECT regex, cost, system_id, smsc_id, source_regex FROM "
             ++ table (database_route_table server) ++ $" WHERE direction = " ++ fmt_ld direction ++ $" " in
  let '(sql, binds) :=
    if octstr_len service =? 0 then (sql, [])
    else smpp_db_sql_append_where_eq (sql ++ $" AND ") [] db ($"system_id") service in
  (sql ++ $" ORDER BY priority DESC", binds).

(** A route with a pattern that does not compile is left out; a sender pattern that
    does not compile is as good as none. *)
Definition read_route (direction : Z) (r : row) : option SMPPRoute :=
  let regex := default [] (value_of r 0) in
  if gw_regex_comp regex then
    Some {| rt_direction := direction; rt_regex := regex;
            rt_cost := default 0%Q (octstr_parse_double (value_of r 1));
            rt_system_id := octstr_tolower <$> value_of r 2; rt_smsc_id := value_of r 3;
            rt_source_regex :=
              match value_of r 4 with
              | Some src => if negb (octlen src =? 0) && gw_regex_comp src then Some src else None
              | None => None
              end |}
  else None.

Definition smpp_database_mysql_get_routes (direction : Z) (service : option Octstr) (d : D)
    : list SMPPRoute :=
  let '(sql, binds) := routes_sql direction service in
  omap (read_route direction) (default [] (select sql binds d)).

(** ** Accounts *)

Definition credit_sql (service : option Octstr) : Octstr * bound :=
  let '(sql, binds) :=
    smpp_db_sql_append_where_eq
      ($"SELECT credit FROM " ++ table (database_user_table server) ++ $" WHERE ") [] db
      ($"system_id") service in
  (sql ++ $" LIMIT 1", binds).

Definition deduct_sql (service : option Octstr) (cost : Q) : Octstr * bound :=
  if smpp_db_sql_is_pgsql db then
    ($"UPDATE " ++ table (database_user_table server) ++ $" SET credit = credit - " ++ fmt_f cost
     ++ $" WHERE system_id = " ++ smpp_db_sql_string_literal service, [])
  else ($"UPDATE " ++ table (database_user_table server)
        ++ $" SET `credit` = `credit` - ? WHERE `system_id` = ?", [Some (fmt_f cost); service]).

(** The balance a query returned covers the cost. *)
Definition balance_ok (cost : Q) (rs : list row) : bool :=
  match rs with
  | r :: _ =>
      match value_of r 0 with
      | Some b => match octstr_parse_double (Some b) with
                  | Some balance => Qle_bool cost balance
                  | None => false
                  end
      | None => false
      end
  | [] => false
  end.

Definition smpp_database_mysql_deduct_credit (service : option Octstr) (cost : Q) (d : D) : bool * D :=
  let '(sql, binds) := credit_sql service in
  match select sql binds d with
  | None => (false, d)
  | Some rs =>
      if balance_ok cost rs then
        if Qeq_bool cost 0 then (true, d)
        else
          let '(sql, binds) := deduct_sql service cost in
          let '(n, srv) := dbpool_conn_update sql (sent binds) (sql_server d) in
          (negb (n <? 1), {| d with sql_server := srv |})
      else (false, d)
  end.

Definition auth_select : Octstr :=
  $"SELECT throughput, default_smsc, callback_url, simulate, simulate_dlr_fail, "
  ++ $"simulate_deliver_every, simulate_permanent_failure_every, simulate_temporary_failure_every, "
  ++ $"simulate_mo_every, default_cost, max_binds, enable_prepaid_billing, connect_allow_ip, "
  ++ $"database_store_primary  FROM ".

Definition auth_sql (username password : option Octstr) : Octstr * bound :=
  let sql := auth_select ++ table (database_user_table server) ++ $" WHERE " in
  let '(sql, binds) := smpp_db_sql_append_where_eq sql [] db ($"system_id") username in
  let '(sql, binds) := smpp_db_sql_append_password_check sql binds db password in
  (sql ++ $" LIMIT 1", binds).

(** The account of a row; the simulation's columns count when it is switched on. *)
Definition read_account (r : row) : SMPPESMEAuthResult :=
  let simulate := match value_of r 3 with Some v => atoi (cstr v) | None => 0 end in
  let sim i := if simulate =? 0 then 0 else match value_of r i with Some v => atol (cstr v) | None => 0 end in
  {| smpp_esme_auth_result_create with
     auth_throughput := atof (octstr_get_cstr (value_of r 0));
     auth_default_smsc := value_of r 1; auth_callback_url := value_of r 2;
     auth_default_cost := atof (octstr_get_cstr (value_of r 9));
     auth_max_binds := atoi (octstr_get_cstr (value_of r 10));
     auth_enable_prepaid_billing := atoi (octstr_get_cstr (value_of r 11));
     auth_allowed_ips := if octstr_len (value_of r 12) =? 0 then None else value_of r 12;
     auth_database_store_primary :=
       match value_of r 13 with
       | Some v => if negb (octlen v =? 0) && ((atoi (cstr v) =? 0) || (atoi (cstr v) =? 1))
                   then atoi (cstr v) else SMPP_AUTH_DATABASE_STORE_PRIMARY_INHERIT
       | None => SMPP_AUTH_DATABASE_STORE_PRIMARY_INHERIT
       end;
     auth_simulate := simulate; auth_simulate_dlr_fail := to_int (sim 4%nat);
     auth_simulate_deliver_every := sim 5%nat; auth_simulate_permanent_failure_every := sim 6%nat;
     auth_simulate_temporary_failure_every := sim 7%nat; auth_simulate_mo_every := sim 8%nat |}.

Definition smpp_database_mysql_authenticate (username password : option Octstr) (d : D)
    : option SMPPESMEAuthResult :=
  let '(sql, binds) := auth_sql username password in
  match select sql binds d with
  | Some (r :: _) => Some (read_account r)
  | _ => None
  end.

(** smpp_database_relational_setup: the operations of the backend. *)
Definition relational_ops (junk : Z) : DatabaseOps D := {|
  authenticate := Some smpp_database_mysql_authenticate;
  add_message := Some smpp_database_mysql_add_message;
  add_pdu := Some smpp_database_mysql_add_pdu;
  get_stored := Some smpp_database_mysql_get_stored;
  get_dlrs := Some (smpp_database_mysql_get_dlrs junk);
  get_stored_pdu := Some smpp_database_mysql_get_stored_pdu;
  get_routes := Some smpp_database_mysql_get_routes;
  deduct_credit := Some smpp_database_mysql_deduct_credit;
  delete := Some smpp_database_mysql_remove;
  delete_dlr := Some smpp_database_mysql_remove_dlr;
  get_esmes_with_queued := Some smpp_database_mysql_get_esmes_with_queued;
  pdu_handler := smpp_database_mysql_queued_pdu_handler;
|}.

End backend.
