(* ===== verification/Schema.v ===== *)
(** smpp_database_mysql.c: the tables. What the backend does at its start: it creates
    the tables that are missing, with a column for each field of a message, and brings
    an older schema up to date. The results of the statements are ignored but for
    those that decide which statement is next. *)
From S2P Require Import Prelude CLib Gwlib DbUtil Types Kannel Dlr World Callbacks Run Fields Mysql.
From Stdlib Require Import Sorting.Sorted.
Open Scope Z_scope.

(** ** Migrations *)

(** The schema's versions: the statements that bring a database of version
    [running] up to date, and the version it has then. *)
Definition schema_step (s : SMPPServer) (our : Z) : Octstr :=
  if our =? 2 then $"ALTER TABLE " ++ default [] (database_user_table s) ++ $" ADD COLUMN connect_allow_ip text"
  else if our =? 3 then $"ALTER TABLE " ++ default [] (database_route_table s) ++ $" ADD COLUMN source_regex text"
  else if our =? 4 then $"ALTER TABLE " ++ default [] (database_route_table s) ++ $" ADD COLUMN priority int DEFAULT '0'"
  else $"ALTER TABLE " ++ default [] (database_user_table s)
       ++ $" ADD COLUMN simulate_dlr_fail tinyint(1) NOT NULL DEFAULT '0'".

Fixpoint schema_upgrade (s : SMPPServer) (versions : list Z) (running : Z) : list Octstr * Z :=
  match versions with
  | [] => ([], running)
  | our :: versions =>
      if running <? our then
        let '(sqls, v) := schema_upgrade s versions our in (schema_step s our :: sqls, v)
      else schema_upgrade s versions running
  end.

(** The versions this program knows of, in their order. *)
Definition schema_versions : list Z := [2; 3; 4; 5].

Section schema.
Context {S : Type} `{FieldLib} `{SqlServer S}.
Context (server : SMPPServer).
Abbreviation D := (Mysql S).

(** A statement; whether it was accepted. *)
Definition exec (db : db_type) (sql : Octstr) (binds : bound) : M D bool := λ d, Some (update db sql binds d).
Definition query (db : db_type) (sql : Octstr) (binds : bound) : M D (option (list row)) :=
  gets (select db sql binds).

(** ** Store tables: a column for each field of a message *)

Definition mysql_column (c : column) : Octstr :=
  match c with
  | INTEGER n _ _ => $"`" ++ n ++ $"` bigint not null,"
  | OCTSTR n _ _ => $"`" ++ n ++ $"` text default null,"
  | UUID n _ => $"`" ++ n ++ $"` varchar(128) default null,"
  end.
Definition mysql_store_sql (tbl : option Octstr) : Octstr :=
  $"CREATE TABLE IF NOT EXISTS " ++ table tbl
  ++ $" ( global_id bigint unsigned not null auto_increment primary key, "
  ++ concat (map mysql_column sms_columns)
  ++ $"KEY `service` (`service`(16)),KEY `sms_type` (`sms_type`)) ;".
Definition smpp_database_mysql_create_store_table (tbl : option Octstr) : M D bool :=
  exec DBPOOL_MYSQL (mysql_store_sql tbl) [].

Definition pgsql_column (c : column) : Octstr :=
  match c with
  | INTEGER n _ _ => n ++ $" BIGINT NOT NULL,"
  | OCTSTR n _ _ => n ++ $" TEXT,"
  | UUID n _ => n ++ $" VARCHAR(128),"
  end.
Definition pgsql_store_sql (tbl : option Octstr) : Octstr :=
  chop ($"CREATE TABLE IF NOT EXISTS " ++ table tbl ++ $" ( global_id BIGSERIAL PRIMARY KEY, "
        ++ concat (map pgsql_column sms_columns)) ++ $");".
Definition pgsql_index (tbl : option Octstr) (name columns : Octstr) : M D bool :=
  exec DBPOOL_PGSQL ($"CREATE INDEX IF NOT EXISTS " ++ table tbl ++ name ++ $" ON " ++ table tbl
                     ++ $" (" ++ columns ++ $")") [].
Definition smpp_database_pgsql_create_store_table (tbl : option Octstr) : M D bool :=
  ok ← exec DBPOOL_PGSQL (pgsql_store_sql tbl) [];
  if ok : bool then
    _ ← pgsql_index tbl ($"_service_idx") ($"service");
    pgsql_index tbl ($"_sms_type_idx") ($"sms_type")
  else mret false.

Definition smpp_database_create_store_table (db : db_type) (tbl : option Octstr) : M D bool :=
  if smpp_db_sql_is_pgsql db then smpp_database_pgsql_create_store_table tbl
  else smpp_database_mysql_create_store_table tbl.

(** Both stores; the queue is in Redis if that is configured. *)
Definition redis_queue : bool :=
  negb (octstr_len (database_queue_type server) =? 0)
  && octstr_case_eq (default [] (database_queue_type server)) ($"redis").
Definition create_stores (db : db_type) : M D bool :=
  ok ← smpp_database_create_store_table db (database_store_table server);
  if ok && negb (octstr_eq (default [] (database_store_table server))
                           (default [] (database_queue_store_table server)))
  then smpp_database_create_store_table db (database_queue_store_table server)
  else mret ok.

(** ** The tables of MySQL *)

Definition mysql_pdu_sql : Octstr :=
  $"CREATE TABLE IF NOT EXISTS " ++ table (database_pdu_table server)
  ++ $" ( `global_id` bigint unsigned not null auto_increment primary key,  `system_id` varchar(64) not null,"
  ++ $"`time` bigint, `pdu` blob, KEY `system_id` (`system_id`));".
Definition mysql_dlr_sql : Octstr :=
  $"CREATE TABLE IF NOT EXISTS " ++ table (database_dlr_table server)
  ++ $" ( `global_id` bigint unsigned not null auto_increment primary key, "
  ++ $"`message_id` varchar(128) not null, `service` varchar(64) not null, "
  ++ $"`status` varchar(16) default 'DELIVRD', `err_code` int default 0, "
  ++ $"`submit_date` varchar(20) default null, `done_date` varchar(20) default null, "
  ++ $"`destination_addr` varchar(32) default null, `source_addr` varchar(32) default null, "
  ++ $"`smsc_id` varchar(64) default null, `text` text default null, `processed` tinyint default 0, "
  ++ $"KEY `service_processed` (`service`(16), `processed`), KEY `message_id` (`message_id`(32)));".
Definition mysql_route_sql : Octstr :=
  $"CREATE TABLE IF NOT EXISTS " ++ table (database_route_table server)
  ++ $" ( `route_id` bigint unsigned not null auto_increment primary key,`direction` int not null,"
  ++ $"`regex` text, `cost` double,`system_id` varchar(64), `smsc_id` varchar(64), "
  ++ $" KEY `direction` (`direction`), KEY `system_id` (`system_id`), KEY `smsc_id` (`smsc_id`));".
Definition mysql_user_sql : Octstr :=
  $"CREATE TABLE IF NOT EXISTS " ++ table (database_user_table server)
  ++ $" ( `system_id` varchar(15) NOT NULL, `password` varchar(64) NOT NULL, "
  ++ $"`throughput` double(10,5) NOT NULL DEFAULT '0.00000',`default_smsc` varchar(64) DEFAULT NULL,"
  ++ $"`default_cost` double NOT NULL,`enable_prepaid_billing` int(10) unsigned NOT NULL DEFAULT '0',"
  ++ $"`credit` double NOT NULL DEFAULT '0',`callback_url` varchar(255) DEFAULT NULL,"
  ++ $"`simulate` tinyint(1) NOT NULL DEFAULT '0',`simulate_dlr_fail` tinyint(1) NOT NULL DEFAULT '0',"
  ++ $"`simulate_deliver_every` int(10) unsigned NOT NULL,"
  ++ $"`simulate_permanent_failure_every` int(10) unsigned NOT NULL,"
  ++ $"`simulate_temporary_failure_every` int(10) unsigned NOT NULL,"
  ++ $"`simulate_mo_every` int(10) unsigned NOT NULL,`max_binds` int(10) unsigned NOT NULL DEFAULT '0',"
  ++ $"`connect_allow_ip` text,PRIMARY KEY (`system_id`));".
Definition mysql_version_sql : Octstr :=
  $"CREATE TABLE IF NOT EXISTS " ++ table (database_version_table server)
  ++ $" ( `component` varchar(54) not null, `version` int unsigned not null, PRIMARY KEY(`component`));".

(** The version that is recorded; 1 is recorded if there is none. *)
Definition running_version (rows : option (list row)) (record : M D bool) : M D Z :=
  match rows with
  | Some (r :: _) => mret (atol (octstr_get_cstr (value_of r 0)))
  | Some [] => _ ← record; mret 1
  | None => mret 1
  end.

Definition ksmppd_component : bound := [Some ($"ksmppd")].
Definition mysql_upgrade : M D unit :=
  let tbl := table (database_version_table server) in
  rows ← query DBPOOL_MYSQL ($"SELECT `version` FROM " ++ tbl ++ $" WHERE `component` = ?") ksmppd_component;
  v ← running_version rows
        (exec DBPOOL_MYSQL ($"INSERT INTO " ++ tbl ++ $" (`component`, `version`) VALUES (?, " ++ fmt_ld 1 ++ $");")
           ksmppd_component);
  let '(sqls, v) := schema_upgrade server schema_versions v in
  for_each (λ sql, _ ← exec DBPOOL_MYSQL sql []; mret tt) sqls;;
  _ ← exec DBPOOL_MYSQL ($"UPDATE " ++ tbl ++ $" SET `version` = " ++ fmt_ld v ++ $" WHERE `component` = ?")
        ksmppd_component;
  mret tt.

(** Without the store tables the code frees a pointer it has not set. *)
Definition smpp_database_mysql_init_tables : M D unit :=
  when (negb redis_queue)
    (ok ← create_stores DBPOOL_MYSQL;
     (if ok : bool then _ ← exec DBPOOL_MYSQL mysql_pdu_sql []; mret tt else crash);;
     when (negb (octstr_len (database_dlr_table server) =? 0))
       (_ ← exec DBPOOL_MYSQL mysql_dlr_sql []; mret tt));;
  _ ← exec DBPOOL_MYSQL mysql_route_sql [];
  _ ← exec DBPOOL_MYSQL mysql_user_sql [];
  ok ← exec DBPOOL_MYSQL mysql_version_sql [];
  when ok mysql_upgrade.

(** ** The tables of PostgreSQL *)

Definition pgsql_pdu_sql : Octstr :=
  $"CREATE TABLE IF NOT EXISTS " ++ table (database_pdu_table server)
  ++ $" ( global_id BIGSERIAL PRIMARY KEY, system_id VARCHAR(64) NOT NULL, time BIGINT, pdu BYTEA)".
Definition pgsql_dlr_sql : Octstr :=
  $"CREATE TABLE IF NOT EXISTS " ++ table (database_dlr_table server)
  ++ $" ( global_id BIGSERIAL PRIMARY KEY, message_id VARCHAR(128) NOT NULL, service VARCHAR(64) NOT NULL, "
  ++ $"status VARCHAR(16) DEFAULT 'DELIVRD', err_code INT DEFAULT 0, submit_date VARCHAR(20), "
  ++ $"done_date VARCHAR(20), destination_addr VARCHAR(32), source_addr VARCHAR(32), smsc_id VARCHAR(64), "
  ++ $"text TEXT, processed SMALLINT DEFAULT 0)".
Definition pgsql_route_sql : Octstr :=
  $"CREATE TABLE IF NOT EXISTS " ++ table (database_route_table server)
  ++ $" ( route_id BIGSERIAL PRIMARY KEY, direction INT NOT NULL, regex TEXT, cost DOUBLE PRECISION, "
  ++ $"system_id VARCHAR(64), smsc_id VARCHAR(64), source_regex TEXT, priority INT DEFAULT 0)".
Definition pgsql_user_sql : Octstr :=
  $"CREATE TABLE IF NOT EXISTS " ++ table (database_user_table server)
  ++ $" ( system_id VARCHAR(15) NOT NULL PRIMARY KEY, password VARCHAR(64) NOT NULL, "
  ++ $"throughput DOUBLE PRECISION NOT NULL DEFAULT 0, default_smsc VARCHAR(64), "
  ++ $"default_cost DOUBLE PRECISION NOT NULL, enable_prepaid_billing INT NOT NULL DEFAULT 0, "
  ++ $"credit DOUBLE PRECISION NOT NULL DEFAULT 0, callback_url VARCHAR(255), "
  ++ $"simulate SMALLINT NOT NULL DEFAULT 0, simulate_dlr_fail SMALLINT NOT NULL DEFAULT 0, "
  ++ $"simulate_deliver_every INT NOT NULL, simulate_permanent_failure_every INT NOT NULL, "
  ++ $"simulate_temporary_failure_every INT NOT NULL, simulate_mo_every INT NOT NULL, "
  ++ $"max_binds INT NOT NULL DEFAULT 0, connect_allow_ip TEXT)".
Definition pgsql_version_sql : Octstr :=
  $"CREATE TABLE IF NOT EXISTS " ++ table (database_version_table server)
  ++ $" ( component VARCHAR(54) NOT NULL PRIMARY KEY, version INT NOT NULL)".

Definition pgsql_upgrade : M D unit :=
  let tbl := table (database_version_table server) in
  rows ← query DBPOOL_PGSQL ($"SELECT version FROM " ++ tbl ++ $" WHERE component = 'ksmppd'") [];
  v ← running_version rows
        (exec DBPOOL_PGSQL ($"INSERT INTO " ++ tbl ++ $" (component, version) VALUES ('ksmppd', "
                            ++ fmt_ld 1 ++ $")") []);
  when (v <? 5)
    (_ ← exec DBPOOL_PGSQL ($"UPDATE " ++ tbl ++ $" SET version = " ++ fmt_ld 5
                            ++ $" WHERE component = 'ksmppd'") [];
     mret tt).

Definition smpp_database_pgsql_init_tables : M D unit :=
  _ ← exec DBPOOL_PGSQL ($"CREATE EXTENSION IF NOT EXISTS pgcrypto") [];
  when (negb redis_queue)
    (ok ← create_stores DBPOOL_PGSQL;
     when ok
       (ok ← exec DBPOOL_PGSQL pgsql_pdu_sql [];
        when ok (_ ← pgsql_index (database_pdu_table server) ($"_system_id_idx") ($"system_id"); mret tt));;
     when (negb (octstr_len (database_dlr_table server) =? 0))
       (_ ← exec DBPOOL_PGSQL pgsql_dlr_sql [];
        _ ← pgsql_index (database_dlr_table server) ($"_service_processed_idx") ($"service, processed");
        _ ← pgsql_index (database_dlr_table server) ($"_message_id_idx") ($"message_id");
        mret tt));;
  _ ← exec DBPOOL_PGSQL pgsql_route_sql [];
  _ ← exec DBPOOL_PGSQL pgsql_user_sql [];
  ok ← exec DBPOOL_PGSQL pgsql_version_sql [];
  when ok pgsql_upgrade.

Definition smpp_database_sql_init_tables (db : db_type) : M D unit :=
  if smpp_db_sql_is_pgsql db then smpp_database_pgsql_init_tables else smpp_database_mysql_init_tables.

End schema.

(** ** Lemmas *)

Lemma due_after r v vs :
  r < v → Forall (Z.lt v) vs →
  filter (λ x, r < x) vs = filter (λ x, v < x) vs ∧ Z.max v (foldr Z.max r vs) = foldr Z.max v vs.
Proof.
  intros Hr Hv. induction Hv as [|x xs Hx Hxs [IHf IHm]]; [split; [done|cbn; lia]|].
  rewrite !filter_cons_True by lia. split; [by rewrite IHf|]. cbn [foldr]. lia.
Qed.

Lemma foldr_max_le r vs : r ≤ foldr Z.max r vs.
Proof. induction vs; cbn; lia. Qed.

Lemma schema_upgrade_due s versions running :
  StronglySorted Z.lt versions →
  schema_upgrade s versions running
  = (map (schema_step s) (filter (λ v, running < v) versions), foldr Z.max running versions).
Proof.
  intros Hs. revert running. induction Hs as [|v vs Hs IH Hv]; intros running; [done|].
  cbn [schema_upgrade foldr]. rewrite !IH. destruct (Z.ltb_spec running v) as [Hr|Hr].
  - rewrite filter_cons_True by lia. by destruct (due_after running v vs Hr Hv) as [-> ->].
  - rewrite filter_cons_False by lia. f_equal. pose proof (foldr_max_le running vs). lia.
Qed.

(** ** The server's side

    It creates tables, and it keeps the version in the version table, which no table
    that is created or altered changes. *)
Class VersionServer (S : Type) `{FieldLib} `{SqlServer S} (server : SMPPServer) (version : S → option Z) := {
  version_longs s v : version s = Some v → LONG_MIN ≤ v ≤ LONG_MAX;
  creates sql s :
    starts_with ($"CREATE") sql = true →
    ∃ n s', dbpool_conn_update sql [] s = (n, s') ∧ n ≠ -1;
  keeps_version sql s :
    starts_with ($"CREATE") sql || starts_with ($"ALTER") sql = true →
    version (dbpool_conn_update sql [] s).2 = version s;
  version_read s :
    dbpool_conn_select ($"SELECT `version` FROM " ++ table (database_version_table server)
                        ++ $" WHERE `component` = ?") ksmppd_component s
    = Some (match version s with Some v => [[Some (fmt_ld v)]] | None => [] end);
  version_inserted s :
    version (dbpool_conn_update ($"INSERT INTO " ++ table (database_version_table server)
      ++ $" (`component`, `version`) VALUES (?, " ++ fmt_ld 1 ++ $");") ksmppd_component s).2 = Some 1;
  version_updated v s :
    is_Some (version s) → LONG_MIN ≤ v ≤ LONG_MAX →
    version (dbpool_conn_update ($"UPDATE " ++ table (database_version_table server)
      ++ $" SET `version` = " ++ fmt_ld v ++ $" WHERE `component` = ?") ksmppd_component s).2 = Some v;
}.

Lemma schema_step_alters s our : starts_with ($"ALTER") (schema_step s our) = true.
Proof. unfold schema_step. by repeat case_match. Qed.

Section init.
Context {S : Type} `{FieldLib} `{SqlServer S} (server : SMPPServer).
Context (version : S → option Z) `{!VersionServer S server version}.
Implicit Types (d : Mysql S).

Lemma exec_bind {B} sql binds (k : bool → M (Mysql S) B) d :
  (exec DBPOOL_MYSQL sql binds ≫= k) d
  = k (negb ((dbpool_conn_update sql binds (sql_server d)).1 =? -1))
      {| d with sql_server := (dbpool_conn_update sql binds (sql_server d)).2 |}.
Proof.
  unfold exec. rewrite bind_unfold. unfold update. change (sent DBPOOL_MYSQL binds) with binds.
  by destruct (dbpool_conn_update _ _ _).
Qed.

(** A statement that creates a table. *)
Lemma create_bind {B} sql (k : bool → M (Mysql S) B) d :
  starts_with ($"CREATE") sql = true →
  ∃ d', (exec DBPOOL_MYSQL sql [] ≫= k) d = k true d' ∧ version (sql_server d') = version (sql_server d).
Proof.
  intros Hc. rewrite exec_bind. destruct (creates sql (sql_server d) Hc) as (n & s' & Hu & Hn).
  assert (starts_with ($"CREATE") sql || starts_with ($"ALTER") sql = true) as Hsql by (by rewrite Hc).
  pose proof (keeps_version sql (sql_server d) Hsql) as Hv. rewrite Hu in *.
  eexists. cbn [fst]. rewrite (proj2 (Z.eqb_neq _ _) Hn). by split.
Qed.

Lemma alters_run sqls d :
  Forall (λ sql, starts_with ($"ALTER") sql = true) sqls →
  ∃ d', for_each (λ sql, _ ← exec DBPOOL_MYSQL sql []; mret tt) sqls d = Some (tt, d') ∧
    version (sql_server d') = version (sql_server d).
Proof.
  intros Hsqls. revert d. induction Hsqls as [|sql sqls Hsql _ IH]; intros d; [by exists d|]. cbn [for_each].
  rewrite bind_bind, exec_bind, ret_bind.
  destruct (IH {| d with sql_server := (dbpool_conn_update sql [] (sql_server d)).2 |}) as (d' & Hrun & Hv).
  exists d'. split; [exact Hrun|]. rewrite Hv. apply keeps_version. by rewrite Hsql, orb_true_r.
Qed.

Lemma upgrade_run d :
  ∃ d', mysql_upgrade server d = Some (tt, d') ∧
    version (sql_server d') = Some (Z.max (default 1 (version (sql_server d))) 5).
Proof.
  unfold mysql_upgrade, query, select. rewrite gets_bind.
  change (sent DBPOOL_MYSQL ksmppd_component) with ksmppd_component. rewrite version_read.
  assert (StronglySorted Z.lt schema_versions) as Hs by (repeat constructor).
  assert (∀ d1 v, version (sql_server d1) = Some v → v ≤ LONG_MAX → LONG_MIN ≤ v →
    ∃ d', (let '(sqls, v) := schema_upgrade server schema_versions v in
      for_each (λ sql, _ ← exec DBPOOL_MYSQL sql []; mret tt) sqls;;
      _ ← exec DBPOOL_MYSQL ($"UPDATE " ++ table (database_version_table server) ++ $" SET `version` = "
            ++ fmt_ld v ++ $" WHERE `component` = ?") ksmppd_component;
      mret tt) d1 = Some (tt, d') ∧ version (sql_server d') = Some (Z.max v 5)) as Hfin.
  { intros d1 v Hv Hmax Hmin. rewrite schema_upgrade_due by done.
    match goal with |- context [for_each _ ?l] => destruct (alters_run l d1) as (d2 & Hrun & Hv2) end.
    { apply Forall_map, Forall_forall. intros v' _. by apply schema_step_alters. }
    rewrite bind_unfold, Hrun, exec_bind. eexists. split; [reflexivity|]. cbn [sql_server].
    rewrite version_updated; [cbn; f_equal; lia|by rewrite Hv2, Hv|].
    cbn. unfold LONG_MAX, LONG_MIN in *. lia. }
  destruct (version (sql_server d)) as [v|] eqn:Hv; unfold running_version.
  - destruct (version_longs _ _ Hv) as [Hmin Hmax]. rewrite ret_bind. change (value_of [Some (fmt_ld v)] 0) with (Some (fmt_ld v)).
    rewrite octstr_get_cstr_Some, cstr_id, atol_fmt_ld by (done || apply fmt_ld_nul).
    cbn [default from_option]. by apply Hfin.
  - rewrite bind_bind, exec_bind, ret_bind. apply (Hfin _ 1); [apply version_inserted|done|done].
Qed.

Lemma store_table_run tbl d :
  ∃ d', smpp_database_create_store_table DBPOOL_MYSQL tbl d = Some (true, d') ∧
    version (sql_server d') = version (sql_server d).
Proof.
  change (smpp_database_create_store_table DBPOOL_MYSQL tbl) with (exec (S := S) DBPOOL_MYSQL (mysql_store_sql tbl) []).
  destruct (create_bind (mysql_store_sql tbl) mret d eq_refl) as (d' & Hrun & Hv).
  exists d'. split; [|done]. change (exec DBPOOL_MYSQL (mysql_store_sql tbl) [] d = (mret true : M (Mysql S) bool) d').
  rewrite <- Hrun, bind_unfold. by destruct (exec _ _ _ d) as [[]|].
Qed.

Lemma queue_tables_run d :
  ∃ d', when (negb (redis_queue server))
    (ok ← create_stores server DBPOOL_MYSQL;
     (if ok : bool then _ ← exec DBPOOL_MYSQL (mysql_pdu_sql server) []; mret tt else crash);;
     when (negb (octstr_len (database_dlr_table server) =? 0))
       (_ ← exec DBPOOL_MYSQL (mysql_dlr_sql server) []; mret tt)) d = Some (tt, d') ∧
    version (sql_server d') = version (sql_server d).
Proof.
  destruct (redis_queue server); cbn [negb when]; [by exists d|].
  assert (∃ d1, create_stores server DBPOOL_MYSQL d = Some (true, d1) ∧
    version (sql_server d1) = version (sql_server d)) as (d1 & Hst & Hv1).
  { unfold create_stores. destruct (store_table_run (database_store_table server) d) as (d1 & Hrun & Hv1).
    rewrite bind_unfold, Hrun. cbn [andb]. destruct (negb _); [|by exists d1].
    destruct (store_table_run (database_queue_store_table server) d1) as (d2 & Hrun2 & Hv2).
    exists d2. by rewrite Hrun2, Hv2. }
  rewrite bind_unfold, Hst, bind_bind.
  match goal with |- context [(exec DBPOOL_MYSQL (mysql_pdu_sql server) [] ≫= ?k) d1] =>
    destruct (create_bind (mysql_pdu_sql server) k d1 eq_refl) as (d2 & -> & Hv2) end.
  rewrite ret_bind. destruct (negb _); cbn [when]; [|exists d2; by rewrite Hv2].
  match goal with |- context [(exec DBPOOL_MYSQL (mysql_dlr_sql server) [] ≫= ?k) d2] =>
    destruct (create_bind (mysql_dlr_sql server) k d2 eq_refl) as (d3 & -> & Hv3) end.
  exists d3. split; [done|congruence].
Qed.

End init.

(** ** Properties *)

(** A database of any version is brought up to date with the statements it lacks,
    in the order of their versions, and is then of the version of the program, or of
    its own if that is later; doing it again changes nothing. *)
Theorem schema_upgraded (s : SMPPServer) (running : Z) :
  let '(sqls, v) := schema_upgrade s schema_versions running in
  sqls = map (schema_step s) (filter (λ our, running < our) schema_versions) ∧
  v = Z.max running 5 ∧ schema_upgrade s schema_versions v = ([], v).
Proof.
  assert (StronglySorted Z.lt schema_versions) as Hs by (repeat constructor).
  rewrite !schema_upgrade_due by done. split; [done|]. split; [cbn; lia|].
  cbn [foldr schema_versions].
  f_equal; [|cbn; lia]. unfold schema_versions.
  rewrite !filter_cons_False by lia. done.
Qed.


(** The start of the backend ends, whatever tables are there, and records the
    version of the schema it has made: the one that was recorded, or 1 if there was
    none, brought up to 5. A restart finds nothing to do. *)
Theorem init_records_version {S} `{FieldLib} `{SqlServer S} (server : SMPPServer)
    (version : S → option Z) (d : Mysql S) :
  VersionServer S server version →
  ∃ d', smpp_database_mysql_init_tables server d = Some (tt, d') ∧
    let v := Z.max (default 1 (version (sql_server d))) 5 in
    version (sql_server d') = Some v ∧ schema_upgrade server schema_versions v = ([], v).
Proof.
  intros Hserver. unfold smpp_database_mysql_init_tables.
  destruct (queue_tables_run server version d) as (d1 & Hq & Hv1). rewrite bind_unfold, Hq.
  destruct (create_bind server version (mysql_route_sql server) (λ _, _ ← exec DBPOOL_MYSQL (mysql_user_sql server) [];
    ok ← exec DBPOOL_MYSQL (mysql_version_sql server) []; when ok (mysql_upgrade server)) d1 eq_refl) as (d2 & -> & Hv2).
  destruct (create_bind server version (mysql_user_sql server)
    (λ _, ok ← exec DBPOOL_MYSQL (mysql_version_sql server) []; when ok (mysql_upgrade server)) d2 eq_refl) as (d3 & -> & Hv3).
  destruct (create_bind server version (mysql_version_sql server) (λ ok, when ok (mysql_upgrade server)) d3 eq_refl)
    as (d4 & -> & Hv4). cbn [when].
  destruct (upgrade_run server version d4) as (d5 & Hrun & Hv5).
  exists d5. split; [exact Hrun|]. cbv zeta. rewrite Hv5, Hv4, Hv3, Hv2, Hv1. split; [done|].
  rewrite schema_upgrade_due by (repeat constructor). unfold schema_versions.
  rewrite !filter_cons_False by lia. cbn [map foldr]. f_equal. lia.
Qed.
