(* ===== verification/Stores.v ===== *)
(** The relational backend: no statement carries a value as text it can be broken
    by, and what is stored can be read back. *)
From S2P Require Import Prelude CLib Gwlib DbUtil Types Kannel Dlr PduUtil World Callbacks Run Route Fields Mysql.
Open Scope Z_scope.

(** ** Specification: statements *)

(** A statement with values between fixed fragments, as PostgreSQL's lexer reads
    it: fragment, literal, fragment, ... *)
Fixpoint reads (frags vals : list Octstr) (text : Octstr) : Prop :=
  match frags, vals with
  | [f], [] => text = f
  | f :: frags, v :: vals =>
      ∃ t rest, text = f ++ t ∧ sql_lex_literal t = Some (v, rest) ∧ reads frags vals rest
  | _, _ => False
  end.

(** The fragments with a placeholder between any two. *)
Fixpoint placeholders (frags : list Octstr) : Octstr :=
  match frags with
  | [] => []
  | [f] => f
  | f :: frags => f ++ $"?" ++ placeholders frags
  end.

(** The values are in the statement as literals, or bound to placeholders, in
    their order; the rest of the text is fixed. *)
Definition carries (db : db_type) (st : Octstr * bound) (frags vals : list Octstr) : Prop :=
  if smpp_db_sql_is_pgsql db then st.2 = [] ∧ reads frags vals st.1
  else st = (placeholders frags, map Some vals).

(** A family of statements carries its values. *)
Definition carries_values {A} (db : db_type) (st : A → Octstr * bound) (vals : A → list Octstr) : Prop :=
  ∃ frags, ∀ a, carries db (st a) frags (vals a).

(** ** Lemmas *)

Lemma reads_last f v rest :
  head rest ≠ Some squote →
  reads [f; rest] [v] (f ++ smpp_db_sql_string_literal (Some v) ++ rest).
Proof. intros Hr. exists (smpp_db_sql_string_literal (Some v) ++ rest), rest. by rewrite sql_literal_lexed. Qed.

Lemma reads_cons f v frags vals rest :
  head rest ≠ Some squote → reads frags vals rest →
  reads (f :: frags) (v :: vals) (f ++ smpp_db_sql_string_literal (Some v) ++ rest).
Proof.
  intros Hr Hrest. cbn [reads]. destruct frags as [|g frags]; [by destruct vals|].
  exists (smpp_db_sql_string_literal (Some v) ++ rest), rest. by rewrite sql_literal_lexed.
Qed.

Section lemmas.
Context {S : Type} `{OctstrLib} `{TimeLib} `{KannelLib} `{FieldLib} `{SqlLib} `{SqlServer S}.
Implicit Types (server : SMPPServer) (db : db_type).

(** A condition on a column is a value with a fixed fragment before it; what
    follows is fixed too. *)
Lemma carries_where sql db col v rest :
  head rest ≠ Some squote →
  carries db ((smpp_db_sql_append_where_eq sql [] db col (Some v)).1 ++ rest,
              (smpp_db_sql_append_where_eq sql [] db col (Some v)).2)
    [sql ++ (if smpp_db_sql_is_pgsql db then col ++ $" = " else $"`" ++ col ++ $"` = "); rest] [v].
Proof.
  intros Hr. unfold smpp_db_sql_append_where_eq, smpp_db_sql_append_column, carries.
  destruct (smpp_db_sql_is_pgsql db); cbn [fst snd].
  - split; [done|].
    replace (((sql ++ col) ++ _) ++ rest)
      with ((sql ++ col ++ $" = ") ++ smpp_db_sql_string_literal (Some v) ++ rest)
      by (by rewrite <- !app_assoc).
    by apply reads_last.
  - cbn [placeholders map]. f_equal. rewrite <- !app_assoc. reflexivity.
Qed.

(** A fixed text before a statement belongs to its first fragment. *)
Lemma carries_prefix db p t binds f frags vals :
  carries db (t, binds) (f :: frags) vals → carries db (p ++ t, binds) ((p ++ f) :: frags) vals.
Proof.
  unfold carries. destruct (smpp_db_sql_is_pgsql db); cbn [fst snd].
  - intros [-> Hr]. split; [done|]. cbn [reads] in *. destruct frags as [|g frags].
    + destruct vals; [by rewrite Hr|]. by destruct Hr as (? & ? & _ & _ & []).
    + destruct vals; [done|]. destruct Hr as (t' & rest & -> & Hlex & Hr). exists t', rest.
      by rewrite <- app_assoc.
  - intros [= -> ->]. f_equal. destruct frags; [done|]. cbn [placeholders]. by rewrite <- app_assoc.
Qed.

Lemma not_pending_head ids rest : head (not_pending ids ++ $" LIMIT " ++ rest) ≠ Some squote.
Proof.
  unfold not_pending. case_match; [done|].
  change ($" AND global_id NOT IN (" ++ ?l) with (" "%char :: $"AND global_id NOT IN (" ++ l).
  rewrite <- app_assoc. set (l := concat _).
  assert (head (octstr_delete (" "%char :: $"AND global_id NOT IN (" ++ l)
            (octlen (" "%char :: $"AND global_id NOT IN (" ++ l) - 1) 1) = Some " "%char) as Hhead.
  { unfold octstr_delete, octlen. cbn [length]. rewrite length_app. change (length ($"AND global_id NOT IN (")) with 22%nat.
    destruct (Z.to_nat _) eqn:Hn; [lia|done]. }
  destruct (octstr_delete _ _ _) as [|c t]; [done|]. by injection Hhead as ->.
Qed.

Lemma auth_carries server db :
  carries_values db (λ '(u, p), auth_sql server db (Some u) (Some p)) (λ '(u, p), [u; p]).
Proof.
  unfold auth_sql, smpp_db_sql_append_where_eq, smpp_db_sql_append_column, smpp_db_sql_append_password_check.
  destruct db.
  - exists [auth_select ++ table (database_user_table server) ++ $" WHERE `system_id` = ";
            $" AND `password` = SHA2("; $", 256) LIMIT 1"].
    intros [u p]. unfold carries. change (smpp_db_sql_is_pgsql DBPOOL_MYSQL) with false.
    cbv iota. cbn [placeholders]. f_equal. rewrite <- !app_assoc. reflexivity.
  - exists [auth_select ++ table (database_user_table server) ++ $" WHERE system_id = ";
            $" AND password = encode(digest("; $", 'sha256'), 'hex') LIMIT 1"].
    intros [u p]. split; [done|]. change (smpp_db_sql_is_pgsql DBPOOL_PGSQL) with true.
    cbv iota. cbn [fst].
    match goal with |- reads _ _ ?t => replace t
      with ((auth_select ++ table (database_user_table server) ++ $" WHERE system_id = ")
            ++ smpp_db_sql_string_literal (Some u) ++ $" AND password = encode(digest("
            ++ smpp_db_sql_string_literal (Some p) ++ $", 'sha256'), 'hex') LIMIT 1") end.
    { apply reads_cons; [done|]. by apply reads_last. }
    rewrite <- !app_assoc. reflexivity.
Qed.

Lemma dlrs_carries server db limit :
  carries_values db (λ v, dlrs_sql server db (Some v) limit) (λ v, [v]).
Proof.
  unfold dlrs_sql. set (sql := dlrs_select ++ table (database_dlr_table server) ++ $" WHERE "). destruct db.
  - exists [sql ++ $"service = "; $" AND processed = 0 LIMIT " ++ fmt_ld limit]. intros v.
    change (smpp_db_sql_is_pgsql DBPOOL_MYSQL) with false. cbv iota.
    unfold carries. change (smpp_db_sql_is_pgsql DBPOOL_MYSQL) with false. cbv iota.
    cbn [placeholders map]. f_equal. rewrite <- !app_assoc. reflexivity.
  - exists [sql ++ $"LOWER(service) = LOWER("; $") AND processed = 0 LIMIT " ++ fmt_ld limit]. intros v.
    split; [done|]. change (smpp_db_sql_is_pgsql DBPOOL_PGSQL) with true. cbv iota. cbn [fst].
    rewrite (app_assoc sql). by apply reads_last.
Qed.

Lemma stored_carries server db t ids c :
  carries_values db (λ v, get_stored_sql server db t (Some (c :: v)) SMPP_DATABASE_STORE_AUTO ids)
    (λ v, [c :: v]).
Proof.
  eexists [_; _]. intros v. unfold get_stored_sql, stored_from.
  change (octstr_len (Some (c :: v)) =? 0) with false. cbv iota. rewrite andb_false_r. cbn [andb].
  rewrite (surjective_pairing (smpp_db_sql_append_where_eq _ _ _ _ _)).
  apply carries_prefix, carries_where, not_pending_head.
Qed.

Lemma routes_carries server db dir c :
  carries_values db (λ v, routes_sql server db dir (Some (c :: v))) (λ v, [c :: v]).
Proof.
  eexists. intros v. unfold routes_sql.
  change (octstr_len (Some (c :: v)) =? 0) with false. cbv iota.
  rewrite (surjective_pairing (smpp_db_sql_append_where_eq _ _ _ _ _)). by apply carries_where.
Qed.

(** *** Messages *)

(** The columns a MySQL statement has a value for. *)
Definition bound_column (m : Msg) (c : column) : option (Octstr * option Octstr) :=
  match c with
  | INTEGER n get _ => Some (n, Some (fmt_ld (get m)))
  | OCTSTR n get _ => (λ v, (n, Some v)) <$> get m
  | UUID n get => Some (n, Some (get m))
  end.
Definition bound_columns (m : Msg) : list (Octstr * option Octstr) := omap (bound_column m) sms_columns.

(** The row the table has then: a column without a value is NULL. *)
Definition column_of (bs : list (Octstr * option Octstr)) (c : column) : option Octstr :=
  default None ((list_to_map bs : gmap Octstr (option Octstr)) !! column_name c).
Definition stored_row (gid : Z) (bs : list (Octstr * option Octstr)) : row :=
  Some (fmt_ld gid) :: (column_of bs <$> sms_columns).

Lemma insert_fold m cs names values binds :
  foldl (insert_column DBPOOL_MYSQL m) (names, values, binds) cs
  = (names ++ concat (map (λ nv, nv.1 ++ $",") (omap (bound_column m) cs)),
     values ++ concat (map (λ _, $"?,") (omap (bound_column m) cs)),
     binds ++ (omap (bound_column m) cs).*2).
Proof.
  revert names values binds. induction cs as [|c cs IH]; intros names values binds.
  { simpl. by rewrite !app_nil_r. }
  cbn [foldl omap list_omap].
  destruct c as [n get set|n get set|n get]; cbn [bound_column];
    unfold insert_column at 2, smpp_db_sql_append_insert_long, smpp_db_sql_append_insert_value;
    change (smpp_db_sql_is_pgsql DBPOOL_MYSQL) with false; cbv iota beta.
  - rewrite IH. cbn. by rewrite <- !app_assoc.
  - destruct (get m) as [v|]; cbn [fmap option_fmap option_map]; rewrite IH; [|done].
    cbn. by rewrite <- !app_assoc.
  - rewrite IH. cbn. by rewrite <- !app_assoc.
Qed.

Lemma bound_name m c n v : bound_column m c = Some (n, v) → n = column_name c.
Proof.
  destruct c as [? get ?|? get ?|]; cbn; [by intros [= <- _]| |by intros [= <- _]].
  by destruct (get m); intros [= <- _].
Qed.

Lemma bound_names m cs : (omap (bound_column m) cs).*1 ⊆ map column_name cs.
Proof.
  intros n ([n' v] & -> & Hin)%list_elem_of_fmap.
  apply list_elem_of_omap in Hin as (c & Hc & Hb). apply bound_name in Hb as ->. cbn.
  by apply list_elem_of_fmap_2.
Qed.

(** A column's value is found under its name. *)
Lemma column_of_bound m cs c :
  NoDup (map column_name cs) → c ∈ cs →
  column_of (omap (bound_column m) cs) c = default None (snd <$> bound_column m c).
Proof.
  unfold column_of. intros Hnd Hc. induction cs as [|c' cs IH]; [by apply elem_of_nil in Hc|].
  cbn [map] in Hnd. apply NoDup_cons in Hnd as [Hc' Hnd]. cbn [omap list_omap].
  assert ((list_to_map (omap (bound_column m) cs) : gmap _ (option Octstr)) !! column_name c' = None) as Hnone.
  { apply not_elem_of_list_to_map_1. intros Hin. by apply Hc', (bound_names m cs). }
  apply elem_of_cons in Hc as [->|Hc].
  - destruct (bound_column m c') as [[n v]|] eqn:Hb; cbn.
    + apply bound_name in Hb as ->. by rewrite lookup_insert_eq.
    + by rewrite Hnone.
  - assert (column_name c ≠ column_name c') as Hne.
    { intros Heq. apply Hc'. rewrite <- Heq. by apply list_elem_of_fmap_2. }
    destruct (bound_column m c') as [[n v]|] eqn:Hb; cbn; [|by apply IH].
    apply bound_name in Hb as ->. rewrite lookup_insert_ne by done. by apply IH.
Qed.

(** An empty string is read as no string. *)
Definition nonempty (o : option Octstr) : option Octstr := if octstr_len o =? 0 then None else o.

Lemma read_columns_row r m m0 i cs :
  Forall (λ c, match c with INTEGER _ get _ => LONG_MIN ≤ get m ≤ LONG_MAX | _ => True end) cs →
  (∀ k c, cs !! k = Some c → value_of r (i + k) = default None (snd <$> bound_column m c)) →
  (foldl (read_column r) (i, m0) cs).2 = foldl (copy_column nonempty (λ _, None) m) m0 cs.
Proof.
  revert i m0. induction cs as [|c cs IH]; intros i m0 Hl Hr; [done|]. cbn [foldl].
  apply Forall_cons in Hl as [Hc Hl].
  pose proof (Hr 0%nat c eq_refl) as Hv. rewrite Nat.add_0_r in Hv.
  unfold read_column at 2. rewrite IH; [|done|].
  2:{ intros k c' Hk. rewrite <- (Hr (Datatypes.S k) c' Hk). f_equal. lia. }
  f_equal. rewrite Hv. destruct c as [n get set|n get set|n get]; cbn; [|unfold nonempty|done].
  - rewrite octstr_get_cstr_Some, cstr_id, atol_fmt_ld by (done || apply fmt_ld_nul). done.
  - destruct (get m) as [v|]; [|done]. cbn. by destruct (_ =? 0).
Qed.

Lemma read_stored_row m i gid :
  longs m →
  (foldl (read_column (stored_row gid (bound_columns m))) (1%nat, msg_create i) sms_columns).2
  = map_strings nonempty m i.
Proof.
  intros Hl. change i with (default i ((λ _, None) (msg_id m))) at 2. rewrite <- sms_columns_complete.
  apply read_columns_row; [done|].
  intros k c Hk. unfold stored_row, value_of.
  change ((Some (fmt_ld gid) :: ?l) !! (1 + k)%nat) with (l !! k).
  rewrite list_lookup_fmap, Hk. cbn. apply column_of_bound; [apply sms_columns_named|].
  by eapply list_elem_of_lookup_2.
Qed.

(** The codec under the storing of empty strings. *)
Lemma decode_nonempty_encode o :
  let e := if 0 <? octstr_len o then Some (smpp_db_url_encode_octstr o) else o in
  (if 0 <? octstr_len (nonempty e) then Some (smpp_db_url_decode_octstr (nonempty e)) else nonempty e)
  = nonempty o.
Proof.
  destruct o as [[|c s]|]; [done| |done]. cbv zeta.
  replace (0 <? octstr_len (Some (c :: s))) with true by done.
  replace (nonempty (Some (smpp_db_url_encode_octstr (Some (c :: s)))))
    with (Some (smpp_db_url_encode_octstr (Some (c :: s)))) by done.
  replace (0 <? octstr_len (Some (smpp_db_url_encode_octstr (Some (c :: s))))) with true by done.
  by rewrite url_decode_encoded.
Qed.

(** A PDU row is read as the PDU. *)
Lemma read_stored_pdu sid g t s p :
  packable p →
  read_pdu_row sid [Some g; t; s; Some (smpp_db_url_encode_octstr (Some (drop 4 (smpp_pdu_pack sid p))))]
  = (g, (0, Some p)).
Proof.
  intros Hp. transitivity (g, (0, smpp_pdu_unpack sid (smpp_db_url_decode_octstr
    (Some (smpp_db_url_encode_octstr (Some (drop 4 (smpp_pdu_pack sid p)))))))); [done|].
  by rewrite url_decode_encoded, smpp_pdu_unpack_pack.
Qed.

End lemmas.

(** ** Properties *)


