(* ===== verification/Ledger.v ===== *)
(** The relational backend over time and as a whole: records that were handed out are
    not handed out again before they are returned, an account is charged only what it
    can pay, and a receipt's row reaches the account as a receipt it can read. *)
From S2P Require Import Prelude CLib Gwlib DbUtil Types Kannel Dlr PduUtil World Callbacks Run Route Fields Mysql.
From Stdlib Require Import QArith.QArith_base QArith.Qring.
Open Scope Z_scope.

(** ** The server's side of the contract

    The key column is an integer, and the rows of a query are records of a table:
    each is there once, and those the query leaves out are not there. *)
Class SqlExcludes (S : Type) `{FieldLib} `{SqlLib} `{SqlServer S} (server : SMPPServer) (db : db_type) := {
  stored_excluded t service kind ids s rs :
    (let '(sql, binds) := get_stored_sql server db t service kind ids in
     dbpool_conn_select sql (sent db binds) s = Some rs) →
    NoDup (row_keys rs) ∧
    ∀ k, k ∈ row_keys rs → k ∉ ids ∧ ∃ g, LONG_MIN ≤ g ≤ LONG_MAX ∧ k = fmt_ld g;
  pdus_excluded service limit ids s rs :
    (let '(sql, binds) := get_stored_pdu_sql server db service limit ids in
     dbpool_conn_select sql (sent db binds) s = Some rs) →
    NoDup (row_keys rs) ∧ ∀ k, k ∈ row_keys rs → k ∉ ids;
}.

(** ** The ledger: the contract of the backend towards its callers *)

Inductive entry := HandedOut (k : Octstr) | Returned (k : Octstr).

(** The records that are out after the entries; none if a record was handed out that
    was out already. *)
Fixpoint ledger (out : gset Octstr) (es : list entry) : option (gset Octstr) :=
  match es with
  | [] => Some out
  | HandedOut k :: es => if bool_decide (k ∈ out) then None else ledger ({[ k ]} ∪ out) es
  | Returned k :: es => ledger (out ∖ {[ k ]}) es
  end.

Lemma ledger_app out es1 es2 :
  ledger out (es1 ++ es2) = ledger out es1 ≫= λ o, ledger o es2.
Proof.
  revert out. induction es1 as [|[k|k] es1 IH]; intros out; [done| |]; cbn [app ledger].
  - case_bool_decide; [done|apply IH].
  - apply IH.
Qed.

Lemma ledger_handed out ks :
  NoDup ks → (∀ k, k ∈ ks → k ∉ out) →
  ledger out (map HandedOut ks) = Some (out ∪ list_to_set ks).
Proof.
  revert out. induction ks as [|k ks IH]; intros out Hnd Hout; [cbn; f_equal; set_solver|].
  apply NoDup_cons in Hnd as [Hk Hnd]. cbn [map ledger].
  rewrite bool_decide_false by (apply Hout; left). rewrite IH; [|done|].
  - cbn. f_equal. set_solver.
  - intros k' Hk'. assert (k' ≠ k) by (by intros ->). pose proof (Hout k' (list_elem_of_further _ _ _ Hk')).
    set_solver.
Qed.

(** A record that is handed out twice was returned in between. *)
Lemma ledger_once out es1 k es2 es3 :
  is_Some (ledger out (es1 ++ HandedOut k :: es2 ++ HandedOut k :: es3)) → Returned k ∈ es2.
Proof.
  rewrite ledger_app. destruct (ledger out es1) as [o|]; [|by intros []]. cbn [mbind option_bind ledger].
  case_bool_decide; [by intros []|]. intros Hsome.
  assert (k ∈ {[ k ]} ∪ o) as Hin by set_solver.
  revert Hin Hsome. generalize ({[ k ]} ∪ o) as o'. clear. induction es2 as [|[k'|k'] es2 IH]; intros o Hin.
  - cbn. rewrite bool_decide_true by done. by intros [].
  - cbn [app ledger]. case_bool_decide; [by intros []|]. intros Hs. right. eapply IH, Hs. set_solver.
  - cbn [app ledger]. intros Hs. destruct (decide (k' = k)) as [->|Hk]; [left|].
    right. eapply IH, Hs. set_solver.
Qed.

(** ** Runs of the backend *)

Inductive sql_op :=
  | Fetch (t : sms_type_t) (service : option Octstr) (limit kind : Z)
  | Remove (gid temporary : Z)
  | FetchPdus (service : option Octstr) (limit : Z)
  | PduDone (gid : Octstr) (status : Z)
  | Store (m : Msg) (kind : Z)
  | StorePdu (q : SMPPQueuedPDU).

Section ledger.
Context {S : Type} `{OctstrLib} `{FieldLib} `{SqlLib} `{SqlServer S}.
Context (server : SMPPServer) (db : db_type) (uuid : nat → Octstr).

(** What an operation hands out and gets back: messages, and PDUs. *)
Definition sql_step (o : sql_op) (d : Mysql S) : list entry * list entry * Mysql S :=
  match o with
  | Fetch t service limit kind =>
      let '(ms, d) := smpp_database_mysql_get_stored server db uuid t service limit kind d in
      (map (λ m, HandedOut (fmt_ld (db_global_id m))) ms, [], d)
  | Remove gid temporary =>
      ([Returned (fmt_ld gid)], [], (smpp_database_mysql_remove server db gid temporary d).2)
  | FetchPdus service limit =>
      let '(ps, d) := smpp_database_mysql_get_stored_pdu server db service limit d in
      ([], map HandedOut ps.*1, d)
  | PduDone gid status =>
      ([], [Returned gid], smpp_database_mysql_queued_pdu_handler server db (Some gid) status d)
  | Store m kind => ([], [], (smpp_database_mysql_add_message server db m kind d).2)
  | StorePdu q => ([], [], (smpp_database_mysql_add_pdu server db q d).2)
  end.

Fixpoint sql_run (os : list sql_op) (d : Mysql S) : list entry * list entry * Mysql S :=
  match os with
  | [] => ([], [], d)
  | o :: os =>
      let '(ms, ps, d) := sql_step o d in
      let '(ms', ps', d) := sql_run os d in
      (ms ++ ms', ps ++ ps', d)
  end.

Lemma update_pending sql binds (d : Mysql S) :
  pending_msg (update db sql binds d).2 = pending_msg d ∧ pending_pdu (update db sql binds d).2 = pending_pdu d.
Proof. unfold update. by destruct (dbpool_conn_update _ _ _). Qed.

Lemma add_message_pending m kind (d : Mysql S) :
  pending_msg (smpp_database_mysql_add_message server db m kind d).2 = pending_msg d ∧
  pending_pdu (smpp_database_mysql_add_message server db m kind d).2 = pending_pdu d.
Proof. unfold smpp_database_mysql_add_message. destruct (insert_sql _ _ _). apply update_pending. Qed.

Lemma add_pdu_pending q (d : Mysql S) :
  pending_msg (smpp_database_mysql_add_pdu server db q d).2 = pending_msg d ∧
  pending_pdu (smpp_database_mysql_add_pdu server db q d).2 = pending_pdu d.
Proof. unfold smpp_database_mysql_add_pdu. case_match; apply update_pending. Qed.

Lemma remove_pending gid temporary (d : Mysql S) :
  let d' := (smpp_database_mysql_remove server db gid temporary d).2 in
  pending_msg d' = pending_msg d ∖ {[ fmt_ld gid ]} ∧ pending_pdu d' = pending_pdu d.
Proof.
  cbv zeta. unfold smpp_database_mysql_remove. destruct (temporary =? 0); [|done].
  match goal with |- context [update db ?sql ?b d] => pose proof (update_pending sql b d) as [Hm Hp] end.
  destruct (update _ _ _ d) as [ok d1]. cbn in *. by rewrite Hm, Hp.
Qed.

Lemma handler_pending gid status (d : Mysql S) :
  let d' := smpp_database_mysql_queued_pdu_handler server db (Some gid) status d in
  pending_msg d' = pending_msg d ∧ pending_pdu d' = pending_pdu d ∖ {[ gid ]}.
Proof.
  cbv zeta. unfold smpp_database_mysql_queued_pdu_handler, smpp_database_mysql_remove_stored_pdu.
  destruct (_ && _); [|done]. cbn.
  match goal with |- context [update db ?sql ?b d] => pose proof (update_pending sql b d) as [Hm Hp] end.
  by rewrite Hm, Hp.
Qed.

(** The rows' keys are the messages' identifiers. *)
Lemma read_messages_ids n rs :
  (∀ k, k ∈ row_keys rs → ∃ g, LONG_MIN ≤ g ≤ LONG_MAX ∧ k = fmt_ld g) →
  map (λ m, HandedOut (fmt_ld (db_global_id m))) (read_messages uuid n rs)
  = map HandedOut (row_keys rs).
Proof.
  revert n. induction rs as [|r rs IH]; intros n Hk; [done|]. unfold row_keys in *. cbn [map read_messages] in *.
  rewrite IH by (intros k ?; apply Hk; by right). f_equal.
  destruct (Hk (default [] (value_of r 0)) (list_elem_of_here _ _)) as (g & Hg & Hv). cbn [db_global_id].
  unfold read_message. cbn [db_global_id]. destruct (value_of r 0) as [v|]; cbn in Hv; subst.
  - by rewrite octstr_get_cstr_Some, cstr_id, atol_fmt_ld by (done || apply fmt_ld_nul).
  - by destruct (fmt_ld_ne g).
Qed.

Lemma row_keys_pdus service rs : (map (read_pdu_row service) rs).*1 = row_keys rs.
Proof. unfold row_keys. induction rs as [|r rs IH]; [done|]. cbn. by rewrite <- IH. Qed.

Context `{!SqlExcludes S server db}.

Lemma sql_step_ledger o d :
  let '(ms, ps, d') := sql_step o d in
  ledger (pending_msg d) ms = Some (pending_msg d') ∧ ledger (pending_pdu d) ps = Some (pending_pdu d').
Proof.
  destruct o as [t service limit kind|gid tmp|service limit|gid status|m kind|q]; cbn [sql_step].
  - unfold smpp_database_mysql_get_stored, select.
    pose proof (stored_excluded t service kind (pending_msg d) (sql_server d)) as Hx.
    destruct (get_stored_sql _ _ _ _ _ _) as [sql binds].
    destruct (dbpool_conn_select sql (sent db binds) (sql_server d)) as [rs|]; cbn.
    + destruct (Hx rs eq_refl) as [Hnd Hk]. split; [|done].
      rewrite read_messages_ids by (intros k ?; by apply Hk). apply ledger_handed; [done|].
      intros k ?. by apply Hk.
    + split; [|done]. f_equal. set_solver.
  - destruct (remove_pending gid tmp d) as [-> ->]. done.
  - unfold smpp_database_mysql_get_stored_pdu, select.
    pose proof (pdus_excluded service limit (pending_pdu d) (sql_server d)) as Hx.
    destruct (get_stored_pdu_sql _ _ _ _ _) as [sql binds].
    destruct (dbpool_conn_select sql (sent db binds) (sql_server d)) as [rs|]; cbn.
    + destruct (Hx rs eq_refl) as [Hnd Hk]. split; [done|]. rewrite row_keys_pdus. by apply ledger_handed.
    + split; [done|]. f_equal. set_solver.
  - destruct (handler_pending gid status d) as [-> ->]. done.
  - destruct (add_message_pending m kind d) as [-> ->]. done.
  - destruct (add_pdu_pending q d) as [-> ->]. done.
Qed.

Lemma sql_run_ledger os d :
  let '(ms, ps, d') := sql_run os d in
  ledger (pending_msg d) ms = Some (pending_msg d') ∧ ledger (pending_pdu d) ps = Some (pending_pdu d').
Proof.
  revert d. induction os as [|o os IH]; intros d; [done|]. cbn [sql_run].
  pose proof (sql_step_ledger o d) as Ho. destruct (sql_step o d) as [[ms ps] d1].
  specialize (IH d1). destruct (sql_run os d1) as [[ms' ps'] d2].
  destruct Ho as [Hm Hp], IH as [Hm' Hp']. by rewrite !ledger_app, Hm, Hp.
Qed.

End ledger.

(** ** Charging

    The credit of an account as the server answers for it, and what the text of a
    cost in the statement is worth. *)
Class CreditServer (S : Type) `{FieldLib} `{SqlLib} `{SqlServer S} (server : SMPPServer) (db : db_type)
    (credit : S → Octstr → option Q) (worth : Q → Q) := {
  credit_answered sid s :
    let '(sql, binds) := credit_sql server db (Some sid) in
    ∃ rs, dbpool_conn_select sql (sent db binds) s = Some rs ∧
    match credit s sid with
    | Some b => ∃ t r rs', rs = (Some t :: r) :: rs' ∧ octstr_parse_double (Some t) = Some b
    | None => rs = []
    end;
  credit_deducted sid cost s b :
    credit s sid = Some b →
    let '(sql, binds) := deduct_sql server db (Some sid) cost in
    ∃ n s', dbpool_conn_update sql (sent db binds) s = (n, s') ∧ 1 ≤ n ∧
      credit s' sid = Some (b - worth cost)%Q ∧ ∀ sid', sid' ≠ sid → credit s' sid' = credit s sid';
}.

Section charging.
Context {S : Type} `{FieldLib} `{SqlLib} `{SqlServer S} (server : SMPPServer) (db : db_type).

(** The charges that were accepted, and the backend after them. *)
Fixpoint charges (cs : list (Octstr * Q)) (d : Mysql S) : list (Octstr * Q) * Mysql S :=
  match cs with
  | [] => ([], d)
  | (sid, cost) :: cs =>
      let '(ok, d) := smpp_database_mysql_deduct_credit server db (Some sid) cost d in
      let '(accepted, d) := charges cs d in
      (if ok then (sid, cost) :: accepted else accepted, d)
  end.

(** What the account [sid] paid for the accepted charges. *)
Fixpoint paid (worth : Q → Q) (sid : Octstr) (accepted : list (Octstr * Q)) : Q :=
  match accepted with
  | [] => 0
  | (sid', cost) :: accepted =>
      if bool_decide (sid' = sid) && negb (Qeq_bool cost 0) then worth cost + paid worth sid accepted
      else paid worth sid accepted
  end.

Context {credit : S → Octstr → option Q} {worth : Q → Q} `{!CreditServer S server db credit worth}.

Lemma Qle_sub a b : (a <= b)%Q → (0 <= b - a)%Q.
Proof. intros Hab. rewrite <- (Qplus_opp_r a). apply Qplus_le_compat; [done|apply Qle_refl]. Qed.

(** One charge, by the credit before it. *)
Lemma deduct_credit_run sid cost (d : Mysql S) :
  ∃ ok d', smpp_database_mysql_deduct_credit server db (Some sid) cost d = (ok, d') ∧
  (ok = match credit (sql_server d) sid with Some b => Qle_bool cost b | None => false end) ∧
  (∀ sid', sid' ≠ sid → credit (sql_server d') sid' = credit (sql_server d) sid') ∧
  credit (sql_server d') sid
  = if ok && negb (Qeq_bool cost 0) then (λ b, b - worth cost)%Q <$> credit (sql_server d) sid
    else credit (sql_server d) sid.
Proof.
  unfold smpp_database_mysql_deduct_credit, select.
  pose proof (credit_answered sid (sql_server d)) as Hsel. destruct (credit_sql _ _ _) as [sql binds].
  destruct Hsel as (rs & -> & Hrs). destruct (credit (sql_server d) sid) as [b|] eqn:Hb.
  2:{ subst. eexists _, _. split_and!; [done|done|done|done]. }
  destruct Hrs as (t & r & rs' & -> & Ht).
  assert (balance_ok cost ((Some t :: r) :: rs') = Qle_bool cost b) as ->.
  { unfold balance_ok. change (value_of (Some t :: r) 0) with (Some t). cbv iota. by rewrite Ht. }
  destruct (Qle_bool cost b); [|by eexists _, _].
  destruct (Qeq_bool cost 0); [by eexists _, _|].
  pose proof (credit_deducted sid cost (sql_server d) b Hb) as Hupd.
  destruct (deduct_sql _ _ _ _) as [usql ubinds]. destruct Hupd as (n & s' & -> & Hn & Hsid & Hother).
  eexists _, _. split; [reflexivity|]. split_and!; [|done|].
  - destruct (Z.ltb_spec n 1); [lia|done].
  - replace (n <? 1) with false by lia. exact Hsid.
Qed.

Lemma charges_paid sid cs (d : Mysql S) b0 :
  credit (sql_server d) sid = Some b0 →
  let '(accepted, d') := charges cs d in
  ∃ b, credit (sql_server d') sid = Some b ∧ (b == b0 - paid worth sid accepted)%Q ∧
    ((∀ sid' cost, (sid', cost) ∈ accepted → worth cost <= cost)%Q → (0 <= b0)%Q → (0 <= b)%Q).
Proof.
  revert d b0. induction cs as [|[sid' cost] cs IH]; intros d b0 Hb0.
  { exists b0. split_and!; [done| |done]. cbn. ring. }
  cbn [charges]. destruct (deduct_credit_run sid' cost d) as (ok & d1 & -> & Hok & Hother & Hsid).
  assert (∃ b1, credit (sql_server d1) sid = Some b1 ∧
    (b1 == b0 - (if ok && (bool_decide (sid' = sid) && negb (Qeq_bool cost 0)) then worth cost else 0))%Q ∧
    (ok = true → sid' = sid → cost <= b0)%Q) as (b1 & Hb1 & Heq & Hle).
  { destruct (decide (sid' = sid)) as [->|Hne].
    - rewrite Hb0 in Hok, Hsid. rewrite bool_decide_true by done. cbn [andb].
      destruct (ok && _) eqn:Hc; eexists; (split; [exact Hsid|]); (split; [cbn; ring|]).
      all: intros -> _; by apply Qle_bool_iff.
    - exists b0. rewrite bool_decide_false by done. rewrite andb_false_r.
      split_and!; [by rewrite Hother|ring|done]. }
  specialize (IH d1 b1 Hb1). destruct (charges cs d1) as [accepted d2].
  destruct IH as (b & Hb & Hbeq & Hpos). exists b. split; [done|].
  assert (b == b0 - paid worth sid (if ok then (sid', cost) :: accepted else accepted))%Q as Hfin.
  { rewrite Hbeq, Heq. destruct ok; cbn [andb paid]; [destruct (bool_decide (sid' = sid) && _)|]; ring. }
  split; [done|]. intros Hw Hnn. apply Hpos.
  - intros s c Hin. apply (Hw s). destruct ok; [by right|done].
  - rewrite Heq. apply Qle_sub. destruct ok; cbn [andb]; [|done].
    destruct (bool_decide_reflect (sid' = sid)) as [->|]; cbn [andb]; [|done].
    destruct (Qeq_bool cost 0); cbn [negb]; [done|].
    eapply Qle_trans; [apply (Hw sid); left|]. by apply Hle.
Qed.

End charging.

(** ** Properties *)



(** C40. A row of the receipt table reaches the account as a receipt it can read: the
    text of the message parses to the row's message identifier, status, error code
    and text, delivered or not by its status; and the receipt leads to the account
    it was read for. *)
Theorem receipt_row_readable `{TimeLib} `{OctstrLib} `{KannelLib} `{FieldLib} (junk now now' : Z)
    (sid i : Octstr) (r : row) (id st txt e : Octstr) (err : Z) :
  let sd := smpp_database_format_dlr_date now (value_of r 5) in
  let dd := smpp_database_format_dlr_date now (value_of r 6) in
  let m := db_msg (read_dlr junk now (Some sid) i r) in
  let delivered := octstr_case_eq st ($"DELIVRD") in
  value_of r 1 = Some id → value_of r 3 = Some st → value_of r 4 = Some e → value_of r 10 = Some txt →
  octlen e ≠ 0 → octstr_parse_long e = Some err → 0 ≤ err < 4096 →
  not_space_text 64 id → not_space_text 15 st → digits_text 14 sd → digits_text 14 dd → NUL ∉ txt →
  "|"%char ∉ sid →
  parse_dlr_short_message now' (msgdata m)
  = Some {| dlr_id := id; dlr_sub := 1; dlr_dlvrd := if delivered then 1 else 0;
            dlr_submit_date := smpp_time_to_c_time now' sd;
            dlr_done_date := smpp_time_to_c_time now' dd;
            dlr_stat := st; Dlr.dlr_err := err; Dlr.dlr_text := take 64 txt |} ∧
  dlr_mask m = (if delivered then DLR_SUCCESS else DLR_FAIL) ∧
  smpp_pdu_get_system_id_from_dlr_url (default [] (dlr_url m)) = Some sid.
Proof.
  intros sd dd m delivered Hid Hst He Htxt Hne Hlong Herr Hidok Hstok Hsd Hdd Hnul Hbar.
  subst m. unfold read_dlr, Mysql.dlr_text, Mysql.dlr_error, dlr_success.
  cbn [db_msg msgdata dlr_mask dlr_url from_option Datatypes.id].
  rewrite Hid, Hst, He, Htxt. rewrite (proj2 (Z.eqb_neq _ _) Hne), Hlong, !octstr_S_Some.
  fold delivered sd dd. cbn [from_option Datatypes.id].
  replace (to_uint err) with err by (unfold to_uint; rewrite Z.mod_small; lia).
  assert (octstr_len (Some st) =? 0 = false) as -> by (destruct st; [by destruct Hstok|done]).
  split_and!; [|done|].
  - destruct delivered; rewrite parse_dlr_fields; try done; by apply (bool_decide_unpack _); vm_compute.
  - by apply dlr_url_account.
Qed.
