(* ===== verification/Redis.v ===== *)
(** smpp_database_redis.c: the queue backend on Redis. It takes over the queueing
    operations of the relational backend (smpp_database_redis_queue_attach), which
    keeps authentication, routes and credit. A message, a PDU or a receipt is a JSON
    text in a Redis list: it is popped when it is handed out, and what was popped and
    not yet deleted is in the dictionaries of the backend.

    hiredis, the Redis server and jansson are the classes below. Every command is
    text, which hiredis takes for the format of a command; so the code's commands are
    what [redisFormatCommand] makes of them. *)
From S2P Require Import Prelude CLib Gwlib DbUtil Types Kannel Dlr World Callbacks Fields Mysql.
From Stdlib Require Import QArith.QArith_base.
Open Scope Z_scope.

(** ** Interfaces *)

(** A JSON value as far as the backend tells them apart, and an object: its members in
    the order they were set. *)
Inductive json_t :=
  | JSON_NULL
  | JSON_INTEGER (z : Z)
  | JSON_REAL (q : Q)
  | JSON_STRING (s : Octstr)
  | JSON_OTHER.
Abbreviation json_object := (list (Octstr * json_t)).

Fixpoint json_object_get (o : json_object) (key : Octstr) : option json_t :=
  match o with
  | [] => None
  | (k, v) :: o => if bool_decide (k = key) then Some v else json_object_get o key
  end.

Fixpoint json_object_put (o : json_object) (key : Octstr) (v : json_t) : json_object :=
  match o with
  | [] => [(key, v)]
  | (k, v') :: o => if bool_decide (k = key) then (k, v) :: o else (k, v') :: json_object_put o key v
  end.

(** A value that could not be made is not set. *)
Definition json_object_set_new (o : json_object) (key : Octstr) (v : option json_t) : json_object :=
  match v with Some v => json_object_put o key v | None => o end.

(** What a text can carry: strings that are UTF-8, integers of 64 bits. *)
Definition json_carried (utf8 : Octstr → bool) (v : json_t) : Prop :=
  match v with
  | JSON_NULL => True
  | JSON_INTEGER z => LONG_MIN ≤ z ≤ LONG_MAX
  | JSON_STRING s => utf8 s = true ∧ NUL ∉ s
  | _ => False
  end.

(** jansson: json_string fails for a text that is not UTF-8; [json_loads] is json_loads
    with json_is_object on the result. *)
Class JsonLib := {
  utf8 : Octstr → bool;
  json_dumps : json_object → Octstr;
  json_loads : Octstr → option json_object;
  utf8_ascii s : Forall (λ c, 0 < byte_val c < 128) s → utf8 s = true;
  json_dumps_cstr o : NUL ∉ json_dumps o;
  json_loads_dumps o :
    NoDup o.*1 → Forall (λ kv, json_carried utf8 kv.2) o → json_loads (json_dumps o) = Some o;
}.

Definition json_string `{JsonLib} (s : Octstr) : option json_t :=
  if utf8 s then Some (JSON_STRING s) else None.

Inductive redisReply :=
  | REDIS_REPLY_STRING (s : Octstr)
  | REDIS_REPLY_ARRAY (rs : list redisReply)
  | REDIS_REPLY_INTEGER (z : Z)
  | REDIS_REPLY_NIL
  | REDIS_REPLY_STATUS (s : Octstr)
  | REDIS_REPLY_ERROR (s : Octstr).

(** hiredis: the words of a command, or none if the format is refused. The server: its
    reply, or none if there is no connection or no reply. *)
Class RedisLib (R : Type) := {
  redisFormatCommand : Octstr → option (list Octstr);
  redis_exec : list Octstr → R → option redisReply * R;
}.

(** ** Keys and numbers *)

Definition to_ulong (z : Z) : Z := z mod 2 ^ 64.
Definition fmt_lu (z : Z) : Octstr := fmt_ld (to_ulong z).

Definition SMPP_REDIS_GLOBAL_SERVICE : Octstr := $"_global_".

Definition smpp_redis_norm_service (service : option Octstr) : Octstr :=
  match service with
  | Some s => if octlen s =? 0 then SMPP_REDIS_GLOBAL_SERVICE else octstr_tolower s
  | None => SMPP_REDIS_GLOBAL_SERVICE
  end.

(** What was popped and not yet deleted. *)
Record SMPPRedisPendingEntry := {
  entry_json : Octstr;
  entry_list_key : Octstr;
  entry_store_table : option Octstr;
  entry_service : option Octstr;
  entry_sms_type : sms_type_t;
}.

(** The state of the backend: the server, the dictionaries of SMPPDatabase, the
    identifiers msg_create draws and the time. *)
Record Redis {R : Type} := {
  redis : R;
  pending_entries : gmap Octstr SMPPRedisPendingEntry;
  pending_tables : gmap Octstr Octstr;
  pending_pdus : gset Octstr;
  redis_uuid : nat;
  redis_now : Z;
}.
Arguments Redis : clear implicits.

(** smpp_redis_json_get_long: -1 if there is none. *)
Definition smpp_redis_json_get_long (o : json_object) (key : Octstr) : Z :=
  match json_object_get o key with
  | Some (JSON_INTEGER z) => z
  | Some (JSON_REAL q) => Z.quot (Qnum q) (Zpos (Qden q))
  | Some (JSON_STRING s) => atol (cstr s)
  | _ => -1
  end.

Definition smpp_redis_json_get_octstr (o : json_object) (key : Octstr) : Octstr :=
  match json_object_get o key with
  | Some (JSON_STRING s) => cstr s
  | _ => []
  end.

Section redis.
Context {R : Type} `{OctstrLib} `{TimeLib} `{KannelLib} `{FieldLib} `{SqlLib} `{JsonLib} `{RedisLib R}.
Context (server : SMPPServer) (uuid : nat → Octstr).
Abbreviation D := (Redis R).

(** *** Commands *)

Definition redisCommand (command : Octstr) (r : R) : option redisReply * R :=
  match redisFormatCommand command with
  | Some ws => redis_exec ws r
  | None => (None, r)
  end.

Definition set_redis (r : R) (d : D) : D := {| d with redis := r |}.

(** The words of the code's formats are separated by blanks. *)
Definition smpp_redis_command (ws : list Octstr) (d : D) : option redisReply * D :=
  let '(reply, r) := redisCommand (cstr (join " "%char ws)) (redis d) in (reply, set_redis r d).

(** smpp_redis_check_version: false is a panic. *)
Definition redis_version (info : Octstr) : Z * Z * Z :=
  let at_version := find_suffix (starts_with ($"redis_version:")) info 0 in
  if at_version <? 0 then (0, 0, 0)
  else
    let n := length info in
    match sscanf (lits ($"redis_version:") ++ [DInt n; DLit "."%char; DInt n; DLit "."%char; DInt n])
                 (drop (Z.to_nat at_version) info) with
    | [CInt a; CInt b; CInt c] => (a, b, c)
    | [CInt a; CInt b] => (a, b, 0)
    | [CInt a] => (a, 0, 0)
    | _ => (0, 0, 0)
    end.

Definition smpp_redis_check_version (d : D) : bool * D :=
  let '(reply, d) := smpp_redis_command [$"INFO"; $"server"] d in
  match reply with
  | Some (REDIS_REPLY_STRING info) =>
      let '(major, minor, _) := redis_version (cstr info) in
      (negb ((major <? 6) || ((major =? 6) && (minor <? 2))), d)
  | _ => (false, d)
  end.

Definition smpp_redis_store_queue_key_for (store_table : option Octstr) : Octstr :=
  table store_table ++ $":queue".
Definition smpp_redis_store_esmes_key_for (store_table : option Octstr) : Octstr :=
  table store_table ++ $":esmes".
Definition smpp_redis_store_id_key_for (store_table : option Octstr) : Octstr :=
  table store_table ++ $":id".
Definition smpp_redis_pdu_list_key (system_id : option Octstr) : Octstr :=
  table (database_pdu_table server) ++ $":" ++ smpp_redis_norm_service system_id.
Definition smpp_redis_pdu_esmes_key : Octstr := table (database_pdu_table server) ++ $":esmes".
Definition smpp_redis_pdu_id_key : Octstr := table (database_pdu_table server) ++ $":id".
Definition smpp_redis_dlr_list_key (service : option Octstr) : Octstr :=
  table (database_dlr_table server) ++ $":" ++ smpp_redis_norm_service service.
Definition smpp_redis_dlr_esmes_key : Octstr := table (database_dlr_table server) ++ $":esmes".
Definition smpp_redis_dlr_id_key : Octstr := table (database_dlr_table server) ++ $":id".

(** The next number of a counter, 0 if there is none. *)
Definition smpp_redis_incr_id (counter_key : Octstr) (d : D) : Z * D :=
  let '(reply, d) := smpp_redis_command [$"INCR"; cstr counter_key] d in
  (match reply with Some (REDIS_REPLY_INTEGER z) => to_ulong z | _ => 0 end, d).

Definition smpp_redis_lpush (list_key payload : Octstr) (d : D) : bool * D :=
  let '(reply, d) := smpp_redis_command [$"LPUSH"; cstr list_key; cstr payload] d in
  (match reply with Some (REDIS_REPLY_ERROR _) | None => false | Some _ => true end, d).

Definition reply_strings (rs : list redisReply) : list Octstr :=
  omap (λ r, match r with REDIS_REPLY_STRING s => Some (cstr s) | _ => None end) rs.

Definition smpp_redis_lpop_json_batch (list_key : Octstr) (limit : Z) (d : D) : list Octstr * D :=
  let limit := if limit <=? 0 then SMPP_DATABASE_BATCH_LIMIT else limit in
  let '(reply, d) := smpp_redis_command [$"LPOP"; cstr list_key; fmt_ld limit] d in
  (match reply with
   | Some (REDIS_REPLY_STRING s) => [cstr s]
   | Some (REDIS_REPLY_ARRAY rs) => reply_strings rs
   | _ => []
   end, d).

Definition smpp_redis_track_store_esme (store_table service : option Octstr) (d : D) : D :=
  (smpp_redis_command [$"SADD"; cstr (smpp_redis_store_esmes_key_for store_table);
                       cstr (smpp_redis_norm_service service)] d).2.

(** *** JSON *)

Definition smpp_redis_json_set_str (o : json_object) (key : Octstr) (val : option Octstr) : json_object :=
  if octstr_len val =? 0 then json_object_set_new o key (json_string [])
  else json_object_set_new o key (json_string (octstr_get_cstr val)).

Definition smpp_redis_json_set_long (o : json_object) (key : Octstr) (val : Z) : json_object :=
  if val =? -1 then json_object_set_new o key (Some JSON_NULL)
  else json_object_set_new o key (Some (JSON_INTEGER val)).

(** A field of a message as a member. *)
Definition json_column (m : Msg) (o : json_object) (c : column) : json_object :=
  match c with
  | INTEGER n get _ => json_object_set_new o n (Some (JSON_INTEGER (get m)))
  | OCTSTR n get _ => smpp_redis_json_set_str o n (get m)
  | UUID n get => json_object_set_new o n (json_string (cstr (get m)))
  end.

Definition message_object (m : Msg) (gid : Z) : json_object :=
  foldl (json_column m) (json_object_set_new [] ($"global_id") (Some (JSON_INTEGER gid))) sms_columns.

Definition smpp_redis_msg_to_json (m : Msg) (gid : Z) : Octstr := json_dumps (message_object m gid).

Definition read_json_column (o : json_object) (m : Msg) (c : column) : Msg :=
  match c with
  | INTEGER n _ set =>
      match json_object_get o n with
      | Some JSON_NULL | None => m
      | Some _ => set (smpp_redis_json_get_long o n) m
      end
  | OCTSTR n _ set => set (Some (smpp_redis_json_get_octstr o n)) m
  | UUID n _ =>
      match json_object_get o n with
      | Some (JSON_STRING s) =>
          match uuid_parse (cstr s) with Some i => {| m with msg_id := i |} | None => m end
      | _ => m
      end
  end.

Definition smpp_redis_json_to_msg (root : json_object) (m : Msg) : Msg :=
  decode_binary (foldl (read_json_column root) m sms_columns).

(** *** Stored messages *)

(** Whether a message is of the type, and of the account if one is asked for. *)
Definition smpp_redis_store_matches (m : Msg) (t : sms_type_t) (service_filter : option Octstr) : bool :=
  bool_decide (sms_type m = t)
  && ((octstr_len service_filter =? 0)
      || octstr_eq (smpp_redis_norm_service service_filter) (smpp_redis_norm_service (service m))).

Definition smpp_database_redis_add_message (m : Msg) (store_kind : Z) (d : D) : bool * D :=
  let store_table := smpp_database_store_table_name server store_kind in
  let m := encode_binary m in
  let '(gid, d) := smpp_redis_incr_id (smpp_redis_store_id_key_for store_table) d in
  let '(res, d) := smpp_redis_lpush (smpp_redis_store_queue_key_for store_table)
                                    (smpp_redis_msg_to_json m gid) d in
  (res, if res then smpp_redis_track_store_esme store_table (service m) d else d).

(** The entry of a message that is handed out. *)
Definition put_pending (key : Octstr) (e : SMPPRedisPendingEntry) (d : D) : D :=
  {| d with pending_entries := <[key := e]> (pending_entries d);
            pending_tables := <[key := default [] (entry_store_table e)]> (pending_tables d) |}.

Definition use_uuid (d : D) : D := {| d with redis_uuid := Datatypes.S (redis_uuid d) |}.

(** None: the text is no object, or the message is not one that is asked for. *)
Definition smpp_redis_claim_store_message (list_key : Octstr) (store_table : option Octstr)
    (jsonstr : Octstr) (t : sms_type_t) (service_filter : option Octstr) (d : D)
    : option SMPPDatabaseMsg * D :=
  match json_loads (cstr jsonstr) with
  | None => (None, d)
  | Some root =>
      let m := smpp_redis_json_to_msg root (msg_create (uuid (redis_uuid d))) in
      let d := use_uuid d in
      if smpp_redis_store_matches m t service_filter then
        let gid := to_ulong (smpp_redis_json_get_long root ($"global_id")) in
        (Some {| db_global_id := gid; db_msg := m |},
         put_pending (fmt_lu gid)
           {| entry_json := jsonstr; entry_list_key := list_key; entry_store_table := store_table;
              entry_service := service m; entry_sms_type := sms_type m |} d)
      else (None, d)
  end.

(** One batch: what is claimed, in order; what is not is pushed back. *)
Fixpoint claim_batch (list_key : Octstr) (store_table : option Octstr) (t : sms_type_t)
    (service_filter : option Octstr) (items : list Octstr) (d : D) : list SMPPDatabaseMsg * D :=
  match items with
  | [] => ([], d)
  | jsonstr :: items =>
      let '(claimed, d) :=
        smpp_redis_claim_store_message list_key store_table jsonstr t service_filter d in
      let d := match claimed with Some _ => d | None => (smpp_redis_lpush list_key jsonstr d).2 end in
      let '(ms, d) := claim_batch list_key store_table t service_filter items d in
      (match claimed with Some m => m :: ms | None => ms end, d)
  end.

Definition max_empty_batches : Z := 32.

(** The loop over batches; None if the fuel is used up. *)
Fixpoint get_stored_loop (fuel : nat) (list_key : Octstr) (store_table : option Octstr) (t : sms_type_t)
    (service_filter : option Octstr) (limit picked empty_batches : Z) (d : D)
    : option (list SMPPDatabaseMsg * D) :=
  match fuel with
  | O => None
  | Datatypes.S fuel =>
      if (picked <? limit) && (empty_batches <? max_empty_batches) then
        let '(raw_items, d) := smpp_redis_lpop_json_batch list_key (limit - picked) d in
        match raw_items with
        | [] => Some ([], d)
        | _ =>
            let '(ms, d) := claim_batch list_key store_table t service_filter raw_items d in
            let batch_picked := Z.of_nat (length ms) in
            '(ms', d) ← get_stored_loop fuel list_key store_table t service_filter limit
                          (picked + batch_picked)
                          (if batch_picked =? 0 then empty_batches + 1 else 0) d;
            Some (ms ++ ms', d)
        end
      else Some ([], d)
  end.

(** A batch picks something, or there are at most 32 empty ones in a row. *)
Definition get_stored_fuel (limit : Z) : nat := Datatypes.S (Z.to_nat (limit * 32 + 32)).

Definition smpp_database_redis_get_stored (t : sms_type_t) (service : option Octstr) (limit store_kind : Z)
    (d : D) : option (list SMPPDatabaseMsg * D) :=
  let limit := if limit =? 0 then SMPP_DATABASE_BATCH_LIMIT else limit in
  let store_table := stored_table server t store_kind in
  get_stored_loop (get_stored_fuel limit) (smpp_redis_store_queue_key_for store_table) store_table t service
    limit 0 0 d.

Definition smpp_database_redis_remove (gid temporary : Z) (d : D) : bool * D :=
  match pending_entries d !! fmt_lu gid with
  | None => (false, d)
  | Some e =>
      let d := {| d with pending_entries := base.delete (fmt_lu gid) (pending_entries d) |} in
      let '(res, d) :=
        if negb (temporary =? 0) then
          let '(pushed, d) := smpp_redis_lpush (entry_list_key e) (entry_json e) d in
          if pushed then (true, smpp_redis_track_store_esme (entry_store_table e) (entry_service e) d)
          else (false, d)
        else (true, d) in
      (res, {| d with pending_tables := base.delete (fmt_lu gid) (pending_tables d) |})
  end.

(** *** Stored PDUs *)

Definition pdu_object (gid : Z) (q : SMPPQueuedPDU) : json_object :=
  let enc := smpp_db_url_encode_octstr
               (Some (match pdu q with Some p => drop 4 (smpp_pdu_pack (q_system_id q) p) | None => [] end)) in
  let o := json_object_set_new [] ($"global_id") (Some (JSON_INTEGER gid)) in
  let o := json_object_set_new o ($"time") (Some (JSON_INTEGER (time_sent q))) in
  let o := smpp_redis_json_set_str o ($"system_id") (q_system_id q) in
  smpp_redis_json_set_str o ($"pdu") (Some enc).

Definition smpp_database_redis_add_pdu (q : SMPPQueuedPDU) (d : D) : bool * D :=
  let '(gid, d) := smpp_redis_incr_id smpp_redis_pdu_id_key d in
  let '(res, d) := smpp_redis_lpush (smpp_redis_pdu_list_key (q_system_id q)) (json_dumps (pdu_object gid q)) d in
  (res, if res then (smpp_redis_command [$"SADD"; cstr smpp_redis_pdu_esmes_key;
                                         cstr (smpp_redis_norm_service (q_system_id q))] d).2
        else d).

Definition set_pending_pdus (f : gset Octstr → gset Octstr) (d : D) : D :=
  {| d with pending_pdus := f (pending_pdus d) |}.

(** The callback of a stored PDU; the caller frees the PDU. *)
Definition smpp_database_redis_queued_pdu_handler (gid : option Octstr) (status : Z) (d : D) : D :=
  match gid with
  | Some i => set_pending_pdus (λ s, s ∖ {[ i ]}) d
  | None => d
  end.

(** The key, the time and the PDU of a stored text; texts that are no object are
    skipped. *)
Definition read_pdu_json (service : option Octstr) (jsonstr : Octstr)
    : option (Octstr * (Z * option SMPP_PDU)) :=
  root ← json_loads (cstr jsonstr);
  Some (fmt_ld (smpp_redis_json_get_long root ($"global_id")),
        (smpp_redis_json_get_long root ($"time"),
         smpp_pdu_unpack service
           (smpp_db_url_decode_octstr (Some (smpp_redis_json_get_octstr root ($"pdu")))))).

(** The account leaves the set of accounts with PDUs when its list is empty. *)
Definition untrack_pdu_esme (list_key : Octstr) (service : option Octstr) (d : D) : D :=
  let '(reply, d) := smpp_redis_command [$"LLEN"; cstr list_key] d in
  match reply with
  | Some (REDIS_REPLY_INTEGER 0) =>
      (smpp_redis_command [$"SREM"; cstr smpp_redis_pdu_esmes_key; cstr (smpp_redis_norm_service service)] d).2
  | _ => d
  end.

Definition smpp_database_redis_get_stored_pdu (service : option Octstr) (limit : Z) (d : D)
    : list (Octstr * (Z * option SMPP_PDU)) * D :=
  let limit := if limit =? 0 then SMPP_DATABASE_BATCH_LIMIT else limit in
  let list_key := smpp_redis_pdu_list_key service in
  let '(raw_items, d) := smpp_redis_lpop_json_batch list_key limit d in
  let ps := omap (read_pdu_json service) raw_items in
  let d := set_pending_pdus (λ s, s ∪ list_to_set ps.*1) d in
  (ps, match ps with [] => untrack_pdu_esme list_key service d | _ => d end).

(** *** Receipts *)

Definition json_dlr_success (root : json_object) : bool :=
  octstr_case_eq (smpp_redis_json_get_octstr root ($"status")) ($"DELIVRD").

(** [junk] is the uninitialised variable a code that is no number leaves unset. *)
Definition json_dlr_error (junk : Z) (root : json_object) : Z :=
  let e := smpp_redis_json_get_octstr root ($"err_code") in
  if octlen e =? 0 then 0 else to_uint (default junk (octstr_parse_long e)).

Definition json_dlr_date (now : Z) (root : json_object) (key : Octstr) : Octstr :=
  smpp_database_format_dlr_date now (Some (smpp_redis_json_get_octstr root key)).

Definition json_dlr_time (now : Z) (root : json_object) : Z :=
  let submit := smpp_time_to_c_time now (json_dlr_date now root ($"submit_date")) in
  let done := smpp_time_to_c_time now (json_dlr_date now root ($"done_date")) in
  if 0 <? submit then submit else if 0 <? done then done else now.

Definition json_dlr_text (now junk : Z) (root : json_object) : Octstr :=
  let st := smpp_redis_json_get_octstr root ($"status") in
  dlr_short_message (smpp_redis_json_get_octstr root ($"message_id"))
    (if json_dlr_success root then $"001" else $"000")
    (json_dlr_date now root ($"submit_date")) (json_dlr_date now root ($"done_date"))
    (if octlen st =? 0 then $"DELIVRD" else st)
    (json_dlr_error junk root) (smpp_redis_json_get_octstr root ($"text")).

Definition read_json_dlr (junk now : Z) (service : option Octstr) (i : Octstr) (root : json_object)
    : SMPPDatabaseMsg :=
  {| db_global_id := to_ulong (smpp_redis_json_get_long root ($"global_id"));
     db_msg := {| (msg_create i) with
       sms_type := report_mo; service := service;
       receiver := Some (smpp_redis_json_get_octstr root ($"destination_addr"));
       sender := Some (smpp_redis_json_get_octstr root ($"source_addr"));
       smsc_id := Some (smpp_redis_json_get_octstr root ($"smsc_id"));
       time := json_dlr_time now root;
       dlr_mask := if json_dlr_success root then DLR_SUCCESS else DLR_FAIL;
       msgdata := Some (json_dlr_text now junk root);
       dlr_url := Some (octstr_S service ++ $"|" ++ fmt_ld (json_dlr_time now root) ++ $"|"
                        ++ smpp_redis_json_get_octstr root ($"message_id")) |} |}.

Fixpoint read_json_dlrs (junk now : Z) (service : option Octstr) (n : nat) (roots : list json_object)
    : list SMPPDatabaseMsg :=
  match roots with
  | [] => []
  | root :: roots =>
      read_json_dlr junk now service (uuid n) root :: read_json_dlrs junk now service (Datatypes.S n) roots
  end.

Definition smpp_database_redis_get_dlrs (junk : Z) (service : option Octstr) (limit : Z) (d : D)
    : list SMPPDatabaseMsg * D :=
  if octstr_len (database_dlr_table server) =? 0 then ([], d)
  else
    let limit := if limit =? 0 then SMPP_DATABASE_BATCH_LIMIT else limit in
    let '(raw_items, d) := smpp_redis_lpop_json_batch (smpp_redis_dlr_list_key service) limit d in
    let roots := omap (λ j, json_loads (cstr j)) raw_items in
    (read_json_dlrs junk (redis_now d) service (redis_uuid d) roots,
     {| d with redis_uuid := (redis_uuid d + length roots)%nat |}).

(** A receipt was removed when it was read. *)
Definition smpp_database_redis_remove_dlr (gid : Z) (d : D) : bool * D := (true, d).

(** *** Accounts with stored messages *)

Definition smpp_redis_merge_string_esmes (reply : option redisReply) : list Octstr :=
  match reply with Some (REDIS_REPLY_ARRAY rs) => reply_strings rs | _ => [] end.

Definition smpp_redis_merge_store_esmes (reply : option redisReply) : list Octstr :=
  filter (λ i, octstr_case_eq i SMPP_REDIS_GLOBAL_SERVICE = false) (smpp_redis_merge_string_esmes reply).

Definition smembers (key : Octstr) (d : D) : option redisReply :=
  (smpp_redis_command [$"SMEMBERS"; cstr key] d).1.

Definition smpp_redis_add_store_esmes (store_table : option Octstr) (d : D) : list Octstr :=
  smpp_redis_merge_store_esmes (smembers (smpp_redis_store_esmes_key_for store_table) d).

(** The commands only read. *)
Definition smpp_database_redis_get_esmes_with_queued (d : D) : list Octstr :=
  smpp_redis_merge_string_esmes (smembers smpp_redis_pdu_esmes_key d)
  ++ smpp_redis_add_store_esmes (database_store_table server) d
  ++ (if bool_decide (database_store_table server = database_queue_store_table server) then []
      else smpp_redis_add_store_esmes (database_queue_store_table server) d)
  ++ (if octstr_len (database_dlr_table server) =? 0 then []
      else smpp_redis_merge_string_esmes (smembers smpp_redis_dlr_esmes_key d)).

End redis.

(** ** smpp_database_redis_queue_attach: the operations of both backends *)

Record Hybrid {S R : Type} := { relational : Mysql S; queue : Redis R }.
Arguments Hybrid : clear implicits.

Definition on_relational {S R A} (f : Mysql S → A * Mysql S) (h : Hybrid S R) : A * Hybrid S R :=
  let '(a, d) := f (relational h) in (a, {| h with relational := d |}).
Definition on_queue {S R A} (f : Redis R → A * Redis R) (h : Hybrid S R) : A * Hybrid S R :=
  let '(a, d) := f (queue h) in (a, {| h with queue := d |}).

Section attach.
Context {S R : Type} `{OctstrLib} `{TimeLib} `{KannelLib} `{FieldLib} `{SqlLib} `{SqlServer S}
  `{JsonLib} `{RedisLib R}.

(** [ops]: those of the relational backend. *)
Definition queue_attach_ops (server : SMPPServer) (uuid : nat → Octstr) (junk : Z)
    (ops : DatabaseOps (Mysql S)) : DatabaseOps (Hybrid S R) := {|
  authenticate := (λ f u p h, f u p (relational h)) <$> @authenticate _ ops;
  get_routes := (λ f dir s h, f dir s (relational h)) <$> @get_routes _ ops;
  deduct_credit := (λ f s c, on_relational (f s c)) <$> @deduct_credit _ ops;
  add_message := Some (λ m kind, on_queue (smpp_database_redis_add_message server m kind));
  get_stored := Some (λ t s limit kind, on_queue (λ d,
    default ([], d) (smpp_database_redis_get_stored server uuid t s limit kind d)));
  delete := Some (λ gid temporary, on_queue (smpp_database_redis_remove gid temporary));
  add_pdu := Some (λ q, on_queue (smpp_database_redis_add_pdu server q));
  get_stored_pdu := Some (λ s limit, on_queue (smpp_database_redis_get_stored_pdu server s limit));
  get_dlrs := Some (λ s limit, on_queue (smpp_database_redis_get_dlrs server uuid junk s limit));
  delete_dlr := Some (λ gid, on_queue (smpp_database_redis_remove_dlr gid));
  get_esmes_with_queued := Some (λ h, smpp_database_redis_get_esmes_with_queued server (queue h));
  pdu_handler gid status h :=
    (on_queue (λ d, (tt, smpp_database_redis_queued_pdu_handler gid status d)) h).2;
|}.

End attach.
