(* ===== verification/RedisStore.v ===== *)
(** The Redis backend against the documented behaviour of a Redis server: a message
    survives its JSON text, the batch loop ends, what it hands out, and that no message
    that was accepted is lost or doubled. *)
From S2P Require Import Prelude CLib Gwlib DbUtil Types Kannel Dlr World Callbacks Fields Mysql Redis.
Open Scope Z_scope.

(** ** The server's contract *)

Inductive redis_value := RList (l : list Octstr) | RSet (s : gset Octstr) | RInt (z : Z).
Abbreviation keyspace_t := (gmap Octstr redis_value).

(** A list that is empty has no key. *)
Definition list_at (ks : keyspace_t) (k : Octstr) : list Octstr :=
  match ks !! k with Some (RList l) => l | _ => [] end.
Definition is_list (ks : keyspace_t) (k : Octstr) : Prop :=
  match ks !! k with None | Some (RList _) => True | _ => False end.
Definition put_list (k : Octstr) (l : list Octstr) (ks : keyspace_t) : keyspace_t :=
  match l with [] => base.delete k ks | _ => <[k := RList l]> ks end.
Definition count_at (ks : keyspace_t) (k : Octstr) : option Z :=
  match ks !! k with None => Some 0 | Some (RInt z) => Some z | _ => None end.

(** A word hiredis takes as it is. *)
Definition plain_char (c : ascii) : bool :=
  negb (isspace c) && negb (bool_decide (c = "%"%char)) && negb (bool_decide (c = NUL)).
Definition plain (w : Octstr) : bool := negb (bool_decide (w = [])) && forallb plain_char w.

(** [redis_up]: a server that is connected, and stays so. A command of plain words is
    these words; whatever the last word of a text is, it does not change those before
    it. *)
Class RedisServer (R : Type) `{RedisLib R} := {
  redis_up : R → Prop;
  keyspace : R → keyspace_t;
  format_plain ws :
    ws ≠ [] → Forall (λ w, plain w = true) ws → redisFormatCommand (join " "%char ws) = Some ws;
  format_prefix ws w ws' :
    ws ≠ [] → Forall (λ w, plain w = true) ws →
    redisFormatCommand (join " "%char (ws ++ [w])) = Some ws' → ∃ vs, ws' = ws ++ vs;
  exec_up ws r : redis_up r → redis_up (redis_exec ws r).2;
  exec_lpush k v r :
    redis_up r → is_list (keyspace r) k →
    ∃ n r', redis_exec [$"LPUSH"; k; v] r = (Some (REDIS_REPLY_INTEGER n), r') ∧
      keyspace r' = put_list k (v :: list_at (keyspace r) k) (keyspace r);
  exec_lpop k n r :
    redis_up r → is_list (keyspace r) k → 0 < n →
    let l := list_at (keyspace r) k in
    ∃ r', redis_exec [$"LPOP"; k; fmt_ld n] r
      = (Some (match l with
               | [] => REDIS_REPLY_NIL
               | _ => REDIS_REPLY_ARRAY (map REDIS_REPLY_STRING (take (Z.to_nat n) l))
               end), r') ∧
      keyspace r' = put_list k (drop (Z.to_nat n) l) (keyspace r);
  exec_incr k z r :
    redis_up r → count_at (keyspace r) k = Some z → z < LONG_MAX →
    ∃ r', redis_exec [$"INCR"; k] r = (Some (REDIS_REPLY_INTEGER (z + 1)), r') ∧
      keyspace r' = <[k := RInt (z + 1)]> (keyspace r);
  exec_sadd k vs r k' :
    redis_up r → k' ≠ k → keyspace (redis_exec ($"SADD" :: k :: vs) r).2 !! k' = keyspace r !! k';
}.

(** ** The text of a message *)

Lemma json_get_put o k v k' :
  json_object_get (json_object_put o k v) k'
  = if bool_decide (k = k') then Some v else json_object_get o k'.
Proof.
  induction o as [|[k0 v0] o IH]; cbn; [done|].
  destruct (bool_decide_reflect (k0 = k)) as [->|Hk0]; cbn; [by case_bool_decide|].
  rewrite IH. repeat case_bool_decide; congruence.
Qed.

Lemma json_put_keys o k v k' : k' ∈ (json_object_put o k v).*1 ↔ k' = k ∨ k' ∈ o.*1.
Proof.
  induction o as [|[k0 v0] o IH]; cbn; [set_solver|]. case_bool_decide; cbn; set_solver.
Qed.

Lemma json_put_nodup o k v : NoDup o.*1 → NoDup (json_object_put o k v).*1.
Proof.
  induction o as [|[k0 v0] o IH]; cbn; [intros _; apply NoDup_singleton|].
  intros [Hk0 Hnd]%NoDup_cons. case_bool_decide as Hk; cbn.
  - by apply NoDup_cons.
  - apply NoDup_cons. split; [|by apply IH]. rewrite json_put_keys. intros [->|?]; [by destruct Hk|done].
Qed.

Lemma json_put_Forall (P : json_t → Prop) o k v :
  P v → Forall (λ kv, P kv.2) o → Forall (λ kv, P kv.2) (json_object_put o k v).
Proof.
  intros Hv. induction 1 as [|[k0 v0] o Ho Hrest IH]; cbn; [by constructor|].
  case_bool_decide; by constructor.
Qed.

Section text.
Context `{OctstrLib} `{FieldLib} `{JsonLib}.

(** What a member keeps of a string: nothing of a text that is not UTF-8. *)
Definition kept (o : option Octstr) : Octstr :=
  if octstr_len o =? 0 then [] else if utf8 (octstr_get_cstr o) then octstr_get_cstr o else [].
Definition kept_uuid (i : Octstr) : option Octstr := if utf8 (cstr i) then uuid_parse (cstr i) else None.

Definition column_value (m : Msg) (c : column) : option json_t :=
  match c with
  | INTEGER _ get _ => Some (JSON_INTEGER (get m))
  | OCTSTR _ get _ =>
      if octstr_len (get m) =? 0 then json_string [] else json_string (octstr_get_cstr (get m))
  | UUID _ get => json_string (cstr (get m))
  end.

Lemma json_column_set m o c : json_column m o c = json_object_set_new o (column_name c) (column_value m c).
Proof.
  destruct c; cbn; [done| |done]. unfold smpp_redis_json_set_str. by case_match.
Qed.

Lemma get_set_new o k v k' :
  json_object_get (json_object_set_new o k v) k'
  = if bool_decide (k = k') then (match v with Some v => Some v | None => json_object_get o k' end)
    else json_object_get o k'.
Proof. destruct v; cbn; [apply json_get_put|by case_bool_decide]. Qed.

Lemma get_fold_other m cs o k :
  k ∉ map column_name cs → json_object_get (foldl (json_column m) o cs) k = json_object_get o k.
Proof.
  revert o. induction cs as [|c cs IH]; intros o Hk; [done|]. cbn in *.
  apply not_elem_of_cons in Hk as [Hk Hks]. rewrite IH by done. rewrite json_column_set, get_set_new.
  by rewrite bool_decide_false.
Qed.

Lemma get_fold m cs o c :
  NoDup (map column_name cs) → c ∈ cs → json_object_get o (column_name c) = None →
  json_object_get (foldl (json_column m) o cs) (column_name c) = column_value m c.
Proof.
  revert o. induction cs as [|c' cs IH]; intros o Hnd Hc Ho; [by apply elem_of_nil in Hc|].
  cbn [map foldl] in *. apply NoDup_cons in Hnd as [Hc' Hnd]. apply elem_of_cons in Hc as [->|Hc].
  - rewrite get_fold_other by done. rewrite json_column_set, get_set_new, bool_decide_true by done.
    by destruct (column_value m c').
  - apply IH; [done..|]. rewrite json_column_set, get_set_new. rewrite bool_decide_false; [done|].
    intros Heq. apply Hc'. rewrite Heq. by apply list_elem_of_fmap_2.
Qed.

Lemma cstr_nul s : NUL ∉ cstr s.
Proof. induction s as [|c s IH]; cbn; [set_solver|]. case_bool_decide; set_solver. Qed.
Lemma cstr_cstr s : cstr (cstr s) = cstr s.
Proof. apply cstr_id, cstr_nul. Qed.

(** The member of a column read back is the field, as far as it is kept. *)
Lemma read_column_value m m0 root c :
  json_object_get root (column_name c) = column_value m c →
  read_json_column root m0 c = copy_column (λ o, Some (kept o)) kept_uuid m m0 c.
Proof.
  intros Hc. destruct c as [n get set|n get set|n get]; cbn in *.
  - unfold smpp_redis_json_get_long. by rewrite Hc.
  - unfold smpp_redis_json_get_octstr. rewrite Hc. do 2 f_equal. unfold kept, json_string.
    destruct (get m) as [v|]; cbn [octstr_len from_option].
    + rewrite octstr_get_cstr_Some. destruct (_ =? 0); [by destruct (utf8 [])|].
      destruct (utf8 (cstr v)); [apply cstr_cstr|done].
    + by destruct (utf8 []).
  - rewrite Hc. unfold kept_uuid, json_string. destruct (utf8 _); [|done]. by rewrite cstr_cstr.
Qed.

Lemma read_columns_object m m0 root cs :
  Forall (λ c, json_object_get root (column_name c) = column_value m c) cs →
  foldl (read_json_column root) m0 cs = foldl (copy_column (λ o, Some (kept o)) kept_uuid m) m0 cs.
Proof.
  intros Hcs. revert m0. induction Hcs as [|c cs Hc _ IH]; intros m0; [done|]. cbn.
  by rewrite (read_column_value m), IH.
Qed.

Lemma get_message_object m gid c :
  c ∈ sms_columns → json_object_get (message_object m gid) (column_name c) = column_value m c.
Proof.
  intros Hc. apply get_fold; [apply sms_columns_named|done|]. rewrite get_set_new, bool_decide_false; [done|].
  intros Heq. apply sms_columns_no_key. rewrite Heq. by apply list_elem_of_fmap_2.
Qed.

Lemma get_message_gid m gid :
  json_object_get (message_object m gid) ($"global_id") = Some (JSON_INTEGER gid).
Proof. etransitivity; [apply get_fold_other, sms_columns_no_key|done]. Qed.

(** The object of a message is one that a text carries. *)
Lemma column_value_carried m c :
  (match c with INTEGER _ get _ => LONG_MIN ≤ get m ≤ LONG_MAX | _ => True end) →
  match column_value m c with Some v => json_carried utf8 v | None => True end.
Proof.
  destruct c as [n get set|n get set|n get]; intros Hc; cbn; [done| |].
  - unfold json_string. destruct (get m) as [v|]; cbn [octstr_len from_option].
    + rewrite octstr_get_cstr_Some.
      destruct (octlen v =? 0); [destruct (utf8 []) eqn:E|destruct (utf8 (cstr v)) eqn:E]; try done; cbn.
      * split; [done|set_solver].
      * split; [done|apply cstr_nul].
    + cbn. destruct (utf8 []) eqn:E; [|done]. split; [done|set_solver].
  - unfold json_string. destruct (utf8 (cstr (get m))) eqn:E; [|done]. split; [done|apply cstr_nul].
Qed.

Lemma set_new_carried o k v :
  NoDup o.*1 ∧ Forall (λ kv, json_carried utf8 kv.2) o →
  match v with Some v => json_carried utf8 v | None => True end →
  NoDup (json_object_set_new o k v).*1 ∧
  Forall (λ kv, json_carried utf8 kv.2) (json_object_set_new o k v).
Proof.
  intros [Hnd Ho] Hv. destruct v as [v|]; cbn; [|done].
  split; [by apply json_put_nodup|by apply json_put_Forall].
Qed.

Lemma message_text m gid :
  longs m → LONG_MIN ≤ gid ≤ LONG_MAX →
  json_loads (cstr (smpp_redis_msg_to_json m gid)) = Some (message_object m gid).
Proof.
  intros Hl Hgid. unfold smpp_redis_msg_to_json. rewrite cstr_id by apply json_dumps_cstr.
  assert (∀ o, NoDup o.*1 ∧ Forall (λ kv, json_carried utf8 kv.2) o →
    NoDup (foldl (json_column m) o sms_columns).*1 ∧
    Forall (λ kv, json_carried utf8 kv.2) (foldl (json_column m) o sms_columns)) as Hfold.
  { unfold longs in Hl. induction Hl as [|c cs Hc _ IH]; intros o Ho; [done|]. cbn. apply IH.
    rewrite json_column_set. apply set_new_carried; [done|by apply column_value_carried]. }
  unfold message_object. destruct (Hfold (json_object_set_new [] ($"global_id") (Some (JSON_INTEGER gid)))) as [Hnd Hok].
  - apply set_new_carried; [by split; [constructor|]|done].
  - by apply json_loads_dumps.
Qed.

(** The message that is made of the text. *)
Lemma message_read m gid i :
  smpp_redis_json_to_msg (message_object m gid) (msg_create i)
  = decode_binary (map_strings (λ o, Some (kept o)) m (default i (kept_uuid (msg_id m)))).
Proof.
  unfold smpp_redis_json_to_msg. rewrite (read_columns_object m).
  - by rewrite sms_columns_complete.
  - apply Forall_forall. intros c Hc. by apply get_message_object.
Qed.

End text.

(** ** The commands on a server that is up *)

Lemma plain_nul w : plain w = true → NUL ∉ w.
Proof.
  intros [_ Hw]%andb_true_iff Hin. rewrite forallb_forall in Hw.
  assert (plain_char NUL = true) as Hc by (apply Hw; by apply list_elem_of_In). by vm_compute in Hc.
Qed.

Lemma join_nul ws : Forall (λ w, NUL ∉ w) ws → NUL ∉ join " "%char ws.
Proof.
  induction 1 as [|w ws Hw Hws IH]; [set_solver|]. destruct ws as [|w' ws]; [done|].
  change (join " "%char (w :: w' :: ws)) with (w ++ " "%char :: join " "%char (w' :: ws)).
  intros [?|[Heq|?]%elem_of_cons]%elem_of_app; [done| |done].
  by vm_compute in Heq.
Qed.

Section server.
Context {R : Type} `{OctstrLib} `{TimeLib} `{KannelLib} `{FieldLib} `{SqlLib} `{JsonLib}
  `{L : RedisLib R} `{!RedisServer R}.
Context (server : SMPPServer) (uuid : nat → Octstr).
Implicit Types d : Redis R.

Lemma set_redis_self d : set_redis (redis d) d = d.
Proof. by destruct d. Qed.

Lemma command_plain ws d :
  ws ≠ [] → Forall (λ w, plain w = true) ws →
  smpp_redis_command ws d = ((redis_exec ws (redis d)).1, set_redis (redis_exec ws (redis d)).2 d).
Proof.
  intros Hne Hws. unfold smpp_redis_command, redisCommand. rewrite cstr_id.
  - rewrite format_plain by done. by destruct (redis_exec _ _).
  - apply join_nul. eapply Forall_impl; [done|]. apply plain_nul.
Qed.

(** A command whose last word is any text: refused, or with its first words. *)
Lemma command_last ws w d :
  ws ≠ [] → Forall (λ w, plain w = true) ws → NUL ∉ w →
  smpp_redis_command (ws ++ [w]) d = (None, d) ∨
  ∃ vs, smpp_redis_command (ws ++ [w]) d
        = ((redis_exec (ws ++ vs) (redis d)).1, set_redis (redis_exec (ws ++ vs) (redis d)).2 d).
Proof.
  intros Hne Hws Hw. unfold smpp_redis_command, redisCommand. rewrite cstr_id.
  2:{ apply join_nul, Forall_app. split; [|by repeat constructor].
      eapply Forall_impl; [done|]. apply plain_nul. }
  destruct (redisFormatCommand _) as [ws'|] eqn:Hf.
  - right. apply format_prefix in Hf as [vs ->]; [|done..]. exists vs. by destruct (redis_exec _ _).
  - left. by rewrite set_redis_self.
Qed.

(** A text hiredis takes as one word, and one it does not take at all. *)
Definition one_word (k w : Octstr) : Prop :=
  redisFormatCommand (join " "%char [$"LPUSH"; k; w]) = Some [$"LPUSH"; k; w].
Definition refused (k w : Octstr) : Prop := redisFormatCommand (join " "%char [$"LPUSH"; k; w]) = None.

Lemma plain_LPUSH : plain ($"LPUSH") = true. Proof. by vm_compute. Qed.

Lemma lpush_command k w d :
  plain k = true → NUL ∉ w →
  smpp_redis_lpush k w d
  = match redisFormatCommand (join " "%char [$"LPUSH"; k; w]) with
    | Some ws => (match (redis_exec ws (redis d)).1 with
                  | Some (REDIS_REPLY_ERROR _) | None => false | Some _ => true end,
                  set_redis (redis_exec ws (redis d)).2 d)
    | None => (false, d)
    end.
Proof.
  intros Hk Hw. unfold smpp_redis_lpush, smpp_redis_command, redisCommand.
  rewrite (cstr_id k), (cstr_id w) by (done || by apply plain_nul).
  rewrite cstr_id; [|apply join_nul; repeat constructor; [apply plain_nul, plain_LPUSH|by apply plain_nul|done]].
  destruct (redisFormatCommand _) as [ws|]; [by destruct (redis_exec _ _)|]. by rewrite set_redis_self.
Qed.

Lemma lpush_one k w d :
  redis_up (redis d) → is_list (keyspace (redis d)) k → plain k = true → NUL ∉ w → one_word k w →
  ∃ r', smpp_redis_lpush k w d = (true, set_redis r' d) ∧ redis_up r' ∧
    keyspace r' = put_list k (w :: list_at (keyspace (redis d)) k) (keyspace (redis d)).
Proof.
  intros Hup Hl Hk Hw Hone. rewrite lpush_command by done. rewrite Hone.
  pose proof (exec_up [$"LPUSH"; k; w] (redis d) Hup) as Hup'.
  destruct (exec_lpush k w (redis d) Hup Hl) as (n & r' & Hex & Hks). rewrite Hex in Hup' |- *.
  by exists r'.
Qed.

Lemma lpush_refused k w d :
  plain k = true → NUL ∉ w → refused k w → smpp_redis_lpush k w d = (false, d).
Proof. intros Hk Hw Href. rewrite lpush_command by done. by rewrite Href. Qed.

Lemma plain_app v w : plain v = true → forallb plain_char w = true → plain (v ++ w) = true.
Proof.
  unfold plain. rewrite !andb_true_iff, !negb_true_iff, forallb_app. intros [Hv ->] ->. split; [|done].
  apply bool_decide_eq_false in Hv. apply bool_decide_eq_false. by destruct v.
Qed.

Lemma fmt_ld_plain n : plain (fmt_ld n) = true.
Proof.
  unfold plain. apply andb_true_iff. split.
  - apply negb_true_iff, bool_decide_eq_false, fmt_ld_ne.
  - apply forallb_forall. intros c Hc. apply list_elem_of_In in Hc. unfold plain_char.
    destruct (isspace c) eqn:Hs; cbn.
    + exfalso. apply (fmt_ld_chars c n); [intros d <-|intros ->|done]; revert Hs; [|done].
      unfold pretty_N_char. by repeat case_match.
    + apply andb_true_iff. split; apply negb_true_iff, bool_decide_eq_false; intros ->; revert Hc.
      * apply fmt_ld_chars; [|done]. intros d. unfold pretty_N_char. by repeat case_match.
      * apply fmt_ld_nul.
Qed.

(** ** The store as lists of messages

    [mg] is a stored message, its binary fields encoded, with its number. *)
Abbreviation numbered := (Msg * Z)%type.
Definition text (mg : numbered) : Octstr := smpp_redis_msg_to_json mg.1 mg.2.
Definition as_read (i : Octstr) (mg : numbered) : SMPPDatabaseMsg :=
  {| db_global_id := mg.2;
     db_msg := decode_binary (map_strings (λ o, Some (kept o)) mg.1 (default i (kept_uuid (msg_id mg.1)))) |}.
Definition wanted (t : sms_type_t) (service : option Octstr) (mg : numbered) : bool :=
  smpp_redis_store_matches (db_msg (as_read [] mg)) t service.
Definition entry_of (q : Octstr) (T : option Octstr) (mg : numbered) : Octstr * SMPPRedisPendingEntry :=
  let m := db_msg (as_read [] mg) in
  (fmt_ld mg.2, {| entry_json := text mg; entry_list_key := q; entry_store_table := T;
                   entry_service := service m; entry_sms_type := sms_type m |}).
Definition storable (q : Octstr) (mg : numbered) : Prop :=
  longs mg.1 ∧ 0 ≤ mg.2 ≤ LONG_MAX ∧ one_word q (text mg).

(** The table has counted to [c], its queue is [waiting], and what was handed out is
    [out]. *)
Record holds (T : option Octstr) (c : Z) (waiting out : list numbered) (d : Redis R) : Prop := {
  holds_count : count_at (keyspace (redis d)) (smpp_redis_store_id_key_for T) = Some c;
  holds_up : redis_up (redis d);
  holds_list : is_list (keyspace (redis d)) (smpp_redis_store_queue_key_for T);
  holds_waiting : list_at (keyspace (redis d)) (smpp_redis_store_queue_key_for T) = map text waiting;
  holds_out : pending_entries d
              = list_to_map (map (entry_of (smpp_redis_store_queue_key_for T) T) out);
}.

Section table.
Context (T : option Octstr) (HT : plain (table T) = true).
Let q := smpp_redis_store_queue_key_for T.

Lemma queue_plain : plain q = true.
Proof. by apply plain_app. Qed.

Lemma text_nul mg : NUL ∉ text mg.
Proof. apply json_dumps_cstr. Qed.

Lemma list_at_put k l ks : list_at (put_list k l ks) k = l.
Proof. unfold list_at, put_list. destruct l; [by rewrite lookup_delete_eq|by rewrite lookup_insert_eq]. Qed.
Lemma is_list_put k l ks : is_list (put_list k l ks) k.
Proof. unfold is_list, put_list. destruct l; [by rewrite lookup_delete_eq|by rewrite lookup_insert_eq]. Qed.

Lemma queue_not_id : q ≠ smpp_redis_store_id_key_for T.
Proof. intros Heq%app_inv_head. by vm_compute in Heq. Qed.
Lemma queue_not_esmes : q ≠ smpp_redis_store_esmes_key_for T.
Proof. intros Heq%app_inv_head. by vm_compute in Heq. Qed.
Lemma id_not_esmes : smpp_redis_store_id_key_for T ≠ smpp_redis_store_esmes_key_for T.
Proof. intros Heq%app_inv_head. by vm_compute in Heq. Qed.

Lemma count_put l ks : count_at (put_list q l ks) (smpp_redis_store_id_key_for T)
                       = count_at ks (smpp_redis_store_id_key_for T).
Proof.
  pose proof queue_not_id. unfold count_at, put_list.
  destruct l; [by rewrite lookup_delete_ne|by rewrite lookup_insert_ne].
Qed.

(** Pushing a text, at the head. *)
Lemma push_holds c mg waiting out d :
  holds T c waiting out d → one_word q (text mg) →
  ∃ r', smpp_redis_lpush q (text mg) d = (true, set_redis r' d) ∧
    holds T c (mg :: waiting) out (set_redis r' d) ∧
    keyspace r' = put_list q (text mg :: map text waiting) (keyspace (redis d)).
Proof.
  intros [Hc Hup Hl Hw Ho] Hone. fold q in Hl, Hw.
  destruct (lpush_one q (text mg) d Hup Hl queue_plain (text_nul mg) Hone) as (r' & Hp & Hup' & Hks).
  rewrite Hw in Hks. exists r'. split; [done|]. split; [|done].
  constructor; cbn; [|done| | |done]; fold q.
  - by rewrite Hks, count_put.
  - rewrite Hks. apply is_list_put.
  - rewrite Hks. apply list_at_put.
Qed.

Lemma fmt_lu_small z : 0 ≤ z ≤ LONG_MAX → fmt_lu z = fmt_ld z ∧ to_ulong z = z.
Proof. unfold fmt_lu, to_ulong, LONG_MAX. intros Hz. by rewrite Z.mod_small by lia. Qed.

(** One text: handed out if it is asked for. *)
Lemma claim_text mg t service d :
  storable q mg →
  smpp_redis_claim_store_message uuid q T (text mg) t service d
  = if wanted t service mg
    then (Some (as_read (uuid (redis_uuid d)) mg),
          put_pending (entry_of q T mg).1 (entry_of q T mg).2 (use_uuid d))
    else (None, use_uuid d).
Proof.
  intros (Hl & Hg & Hone). unfold smpp_redis_claim_store_message, text.
  rewrite message_text by (done || unfold LONG_MIN, LONG_MAX in *; lia).
  rewrite message_read. unfold smpp_redis_json_get_long. rewrite get_message_gid.
  destruct (fmt_lu_small mg.2 Hg) as [_ Hu]. rewrite Hu. destruct (fmt_lu_small mg.2 Hg) as [-> _]. done.
Qed.

Lemma claim_holds c mg waiting out d :
  holds T c waiting out d →
  holds T c waiting (mg :: out) (put_pending (entry_of q T mg).1 (entry_of q T mg).2 (use_uuid d)).
Proof. intros [Hc Hup Hl Hw Ho]. constructor; cbn; [done..|]. by rewrite Ho. Qed.

Lemma use_uuid_holds c waiting out d : holds T c waiting out d → holds T c waiting out (use_uuid d).
Proof. by intros []. Qed.

(** A batch: what is asked for is handed out, in order; the rest is in front of the
    queue again, the last one first. *)
Lemma claim_batch_run c t service mgs waiting out d :
  Forall (storable q) mgs → holds T c waiting out d →
  ∃ ms d', claim_batch uuid q T t service (map text mgs) d = (ms, d') ∧
    Forall2 (λ m mg, ∃ i, m = as_read i mg) ms (filter (λ mg, wanted t service mg = true) mgs) ∧
    holds T c (rev (filter (λ mg, wanted t service mg = false) mgs) ++ waiting)
      (rev (filter (λ mg, wanted t service mg = true) mgs) ++ out) d'.
Proof.
  intros Hst. revert waiting out d. induction Hst as [|mg mgs Hmg _ IH]; intros waiting out d Hd.
  { by exists [], d. }
  cbn [map claim_batch]. rewrite claim_text by done. destruct (wanted t service mg) eqn:Hw.
  - destruct (IH waiting (mg :: out) _ (claim_holds _ mg _ _ _ Hd)) as (ms & d' & -> & Hms & Hd').
    exists (as_read (uuid (redis_uuid d)) mg :: ms), d'. split; [done|].
    rewrite !filter_cons, Hw. destruct (decide (true = true)); [|done]. destruct (decide (true = false)); [done|].
    split; [by constructor; [eexists|]|]. cbn [rev]. by rewrite <- app_assoc.
  - destruct (push_holds c mg waiting out (use_uuid d) (use_uuid_holds _ _ _ _ Hd)) as (r' & -> & Hd1 & _);
      [apply Hmg|].
    destruct (IH (mg :: waiting) out _ Hd1) as (ms & d' & Hrun & Hms & Hd'). cbn [snd].
    rewrite Hrun. exists ms, d'. split; [done|].
    rewrite !filter_cons, Hw. destruct (decide (false = false)); [|done]. destruct (decide (false = true)); [done|].
    split; [done|]. cbn [rev]. by rewrite <- (app_assoc _ [mg]).
Qed.

Lemma reply_texts mgs : reply_strings (map REDIS_REPLY_STRING (map text mgs)) = map text mgs.
Proof.
  unfold reply_strings. induction mgs as [|mg mgs IH]; [done|].
  cbn [map omap list_omap]. rewrite cstr_id by apply text_nul. by f_equal.
Qed.

(** Popping a batch. *)
Lemma pop_run c n waiting out d :
  holds T c waiting out d → 0 < n →
  ∃ d', smpp_redis_lpop_json_batch q n d = (map text (take (Z.to_nat n) waiting), d') ∧
    holds T c (drop (Z.to_nat n) waiting) out d' ∧
    keyspace (redis d') = put_list q (map text (drop (Z.to_nat n) waiting)) (keyspace (redis d)).
Proof.
  intros [Hc Hup Hl Hw Ho] Hn. fold q in Hl, Hw. unfold smpp_redis_lpop_json_batch.
  replace (n <=? 0) with false by lia. rewrite (cstr_id q) by apply plain_nul, queue_plain.
  rewrite command_plain; [|done|repeat apply Forall_cons_2; [by vm_compute|apply queue_plain|apply fmt_ld_plain|constructor]].
  pose proof (exec_up [$"LPOP"; q; fmt_ld n] (redis d) Hup) as Hup'.
  pose proof (exec_lpop q n (redis d) Hup Hl Hn) as Hex. cbv zeta in Hex. rewrite Hw in Hex.
  destruct Hex as (r' & Hex & Hks). rewrite Hex in Hup' |- *. cbn [fst snd] in *.
  eexists. split.
  - destruct waiting as [|mg waiting]; [by rewrite take_nil|]. cbn [map].
    f_equal. change (text mg :: map text waiting) with (map text (mg :: waiting)).
    by rewrite firstn_map, reply_texts.
  - rewrite skipn_map in Hks. split; [|done].
    constructor; cbn; [|done| | |done]; fold q; rewrite Hks; [by rewrite count_put|apply is_list_put|apply list_at_put].
Qed.

(** One round of the loop. *)
Lemma loop_unfold fuel t service limit picked empty d :
  picked < limit → empty < max_empty_batches →
  get_stored_loop uuid (Datatypes.S fuel) q T t service limit picked empty d
  = let '(raw_items, d) := smpp_redis_lpop_json_batch q (limit - picked) d in
    match raw_items with
    | [] => Some ([], d)
    | _ =>
        let '(ms, d) := claim_batch uuid q T t service raw_items d in
        '(ms', d) ← get_stored_loop uuid fuel q T t service limit (picked + Z.of_nat (length ms))
                      (if Z.of_nat (length ms) =? 0 then empty + 1 else 0) d;
        Some (ms ++ ms', d)
    end.
Proof.
  intros Hp He. cbn [get_stored_loop].
  by rewrite (proj2 (Z.ltb_lt _ _) Hp), (proj2 (Z.ltb_lt _ _) He).
Qed.

Lemma loop_done fuel t service limit picked empty d :
  limit ≤ picked ∨ max_empty_batches ≤ empty →
  get_stored_loop uuid (Datatypes.S fuel) q T t service limit picked empty d = Some ([], d).
Proof.
  intros Hd. cbn [get_stored_loop].
  by replace ((picked <? limit) && (empty <? max_empty_batches)) with false by lia.
Qed.

(** A round on a store: the batch is popped, what is asked for is handed out and the
    loop goes on with the rest in front of the queue, reversed. *)
Lemma loop_round c fuel t service limit picked empty waiting out d :
  holds T c waiting out d → Forall (storable q) waiting → picked < limit → empty < max_empty_batches →
  waiting ≠ [] →
  let batch := take (Z.to_nat (limit - picked)) waiting in
  let handed := filter (λ mg, wanted t service mg = true) batch in
  ∃ ms d',
    Forall2 (λ m mg, ∃ i, m = as_read i mg) ms handed ∧
    holds T c (rev (filter (λ mg, wanted t service mg = false) batch)
             ++ drop (Z.to_nat (limit - picked)) waiting) (rev handed ++ out) d' ∧
    get_stored_loop uuid (Datatypes.S fuel) q T t service limit picked empty d
    = ('(ms', d'') ← get_stored_loop uuid fuel q T t service limit (picked + Z.of_nat (length handed))
                      (if Z.of_nat (length handed) =? 0 then empty + 1 else 0) d';
       Some (ms ++ ms', d'')).
Proof.
  intros Hd Hst Hp He Hne batch handed. rewrite loop_unfold by done.
  destruct (pop_run c (limit - picked) waiting out d Hd) as (d1 & -> & Hd1 & _); [lia|].
  destruct (claim_batch_run c t service batch _ _ _ (Forall_take _ _ _ Hst) Hd1) as (ms & d2 & Hrun & Hms & Hd2).
  fold batch. exists ms, d2. split; [done|]. split; [done|].
  assert (length ms = length handed) as <- by (by eapply Forall2_length).
  destruct batch as [|b batch'] eqn:Hb.
  - destruct waiting; [done|]. subst batch. destruct (Z.to_nat (limit - picked)) eqn:Hn; [lia|done].
  - cbn [map] in *. by rewrite Hrun.
Qed.

Lemma loop_empty c fuel t service limit picked empty out d :
  holds T c [] out d → picked < limit → empty < max_empty_batches →
  ∃ d', holds T c [] out d' ∧ get_stored_loop uuid (Datatypes.S fuel) q T t service limit picked empty d = Some ([], d').
Proof.
  intros Hd Hp He. rewrite loop_unfold by done.
  destruct (pop_run c (limit - picked) [] out d Hd) as (d1 & -> & Hd1 & _); [lia|].
  rewrite take_nil, drop_nil in *. by exists d1.
Qed.

Lemma filter_perm (mgs : list numbered) t service :
  filter (λ mg, wanted t service mg = true) mgs ++ filter (λ mg, wanted t service mg = false) mgs ≡ₚ mgs.
Proof.
  induction mgs as [|mg mgs IH]; [done|]. rewrite !filter_cons. destruct (wanted t service mg).
  - destruct (decide (true = true)); [|done]. destruct (decide (true = false)); [done|]. cbn. by rewrite IH.
  - destruct (decide (false = true)); [done|]. destruct (decide (false = false)); [|done].
    by rewrite <- Permutation_middle, IH.
Qed.

Lemma filter_same (f : numbered → bool) b mgs :
  Forall (λ mg, f mg = b) mgs → filter (λ mg, f mg = b) mgs = mgs.
Proof. induction 1 as [|mg mgs Hmg _ IH]; [done|]. rewrite filter_cons_True by done. by f_equal. Qed.
Lemma filter_other (f : numbered → bool) b mgs :
  Forall (λ mg, f mg = b) mgs → filter (λ mg, f mg = negb b) mgs = [].
Proof.
  induction 1 as [|mg mgs Hmg _ IH]; [done|]. rewrite filter_cons_False; [done|]. rewrite Hmg. by destruct b.
Qed.

(** What the loop does to a store, if the fuel is enough. *)
Lemma loop_run c fuel t service limit picked empty waiting out d res d' :
  holds T c waiting out d → Forall (storable q) waiting →
  get_stored_loop uuid fuel q T t service limit picked empty d = Some (res, d') →
  ∃ handed waiting' out',
    Forall2 (λ m mg, ∃ i, m = as_read i mg) res handed ∧
    Forall (λ mg, wanted t service mg = true) handed ∧
    picked + Z.of_nat (length handed) ≤ Z.max picked limit ∧
    waiting' ++ handed ≡ₚ waiting ∧ out' ≡ₚ handed ++ out ∧ holds T c waiting' out' d'.
Proof.
  revert picked empty waiting out d res. induction fuel as [|fuel IH];
    intros picked empty waiting out d res Hd Hst Hrun; [done|].
  destruct (Z.lt_ge_cases picked limit) as [Hp|Hp], (Z.lt_ge_cases empty max_empty_batches) as [He|He].
  2-4: rewrite loop_done in Hrun by lia; injection Hrun as <- <-; exists [], waiting, out; cbn;
    split_and!; (done || lia || by rewrite app_nil_r).
  destruct (decide (waiting = [])) as [->|Hne].
  { destruct (loop_empty c fuel t service limit picked empty out d Hd Hp He) as (d1 & Hd1 & Heq).
    rewrite Heq in Hrun. injection Hrun as <- <-. exists [], [], out. cbn. split_and!; (done || lia). }
  destruct (loop_round c fuel t service limit picked empty waiting out d Hd Hst Hp He Hne)
    as (ms & d1 & Hms & Hd1 & Heq). rewrite Heq in Hrun. clear Heq.
  set (batch := take _ _) in *. set (rest := drop _ _) in *.
  set (handed := filter (λ mg, wanted t service mg = true) batch) in *.
  assert (batch ++ rest = waiting) as Hsplit by apply take_drop.
  assert (rev (filter (λ mg, wanted t service mg = false) batch) ++ rest ++ handed ≡ₚ waiting) as Hperm.
  { rewrite <- Hsplit. rewrite <- (filter_perm batch t service) at 2. rewrite <- Permutation_rev. fold handed.
    solve_Permutation. }
  apply option.bind_Some in Hrun as ([ms' d2] & Hrun & [= <- <-]).
  assert (Forall (storable q) (rev (filter (λ mg, wanted t service mg = false) batch) ++ rest)) as Hst1.
  { rewrite <- Hperm, app_assoc in Hst. by apply Forall_app in Hst as [? _]. }
  destruct (IH _ _ _ _ _ _ Hd1 Hst1 Hrun) as (handed' & waiting' & out' & Hms' & Hall & Hlim & Hw & Ho & Hd2).
  exists (handed ++ handed'), waiting', out'. split_and!; [by apply Forall2_app| | | | |done].
  - apply Forall_app. split; [|done]. apply Forall_forall. by intros mg [? _]%list_elem_of_filter.
  - rewrite length_app.
    assert (length handed ≤ Z.to_nat (limit - picked))%nat.
    { etransitivity; [apply length_filter|]. subst batch. rewrite length_take. lia. }
    lia.
  - rewrite <- Hperm, (Permutation_app_comm handed), app_assoc, Hw. by rewrite <- app_assoc.
  - rewrite Ho, <- Permutation_rev, !app_assoc. by rewrite (Permutation_app_comm handed').
Qed.

(** The head of the queue that is asked for is what is handed out. *)
Lemma loop_front c fuel t service limit waiting out d :
  holds T c waiting out d → Forall (storable q) waiting → 0 < limit →
  Forall (λ mg, wanted t service mg = true) (take (Z.to_nat limit) waiting) →
  ∃ res d',
    get_stored_loop uuid (Datatypes.S (Datatypes.S fuel)) q T t service limit 0 0 d = Some (res, d') ∧
    Forall2 (λ m mg, ∃ i, m = as_read i mg) res (take (Z.to_nat limit) waiting) ∧
    ∃ out', holds T c (drop (Z.to_nat limit) waiting) out' d'.
Proof.
  intros Hd Hst Hlim Hall. destruct (decide (waiting = [])) as [->|Hne].
  { destruct (loop_empty c (Datatypes.S fuel) t service limit 0 0 out d Hd) as (d1 & Hd1 & ->); [done..|].
    exists [], d1. rewrite take_nil, drop_nil. eauto. }
  destruct (loop_round c (Datatypes.S fuel) t service limit 0 0 waiting out d Hd Hst) as (ms & d1 & Hms & Hd1 & ->);
    [done..|]. rewrite Z.sub_0_r in *. set (batch := take _ _) in *. set (rest := drop _ _) in *.
  pose proof (filter_same _ true batch Hall) as Hsame. pose proof (filter_other _ true batch Hall) as Hother.
  cbn [negb] in Hother. rewrite Hsame in Hms, Hd1 |- *. rewrite Hother in Hd1. cbn [rev app] in Hd1.
  assert (0 < Z.of_nat (length batch)) as Hpos.
  { subst batch. rewrite length_take. destruct waiting; [done|]. cbn [length]. lia. }
  rewrite (proj2 (Z.eqb_neq _ _)) by lia.
  destruct (Z.lt_ge_cases (0 + Z.of_nat (length batch)) limit) as [Hlt|Hge].
  - assert (rest = []) as Hrest.
    { subst batch rest. rewrite length_take in Hlt. apply drop_ge. lia. }
    rewrite Hrest in *. destruct (loop_empty c fuel t service limit _ 0 _ d1 Hd1 Hlt eq_refl) as (d2 & Hd2 & ->).
    exists (ms ++ []), d2. split; [done|]. rewrite app_nil_r. split; [done|by eexists].
  - rewrite loop_done by lia. exists (ms ++ []), d1. split; [done|]. rewrite app_nil_r. split; [done|by eexists].
Qed.

(** A head of the queue that is not asked for hides what is behind it: the batches
    pop it again and again. *)
Lemma loop_starves c k fuel t service limit empty front rest out d :
  (k < fuel)%nat → empty + Z.of_nat k = max_empty_batches →
  holds T c (front ++ rest) out d → Forall (storable q) (front ++ rest) → front ≠ [] →
  take (Z.to_nat limit) (front ++ rest) = front → 0 < limit →
  Forall (λ mg, wanted t service mg = false) front →
  ∃ d', get_stored_loop uuid fuel q T t service limit 0 empty d = Some ([], d') ∧
    holds T c ((if Nat.even k then front else rev front) ++ rest) out d'.
Proof.
  revert fuel empty front d. induction k as [|k IH]; intros fuel empty front d Hfuel Hk Hd Hst Hne Hfront Hlim Hall;
    (destruct fuel as [|fuel]; [lia|]).
  { rewrite loop_done by lia. by exists d. }
  destruct (loop_round c fuel t service limit 0 empty (front ++ rest) out d Hd Hst) as (ms & d1 & Hms & Hd1 & ->);
    [done|lia|by destruct front|]. rewrite Z.sub_0_r in *.
  assert (drop (Z.to_nat limit) (front ++ rest) = rest) as Hrest.
  { apply (app_inv_head front). rewrite <- Hfront at 1. apply take_drop. }
  rewrite Hfront, Hrest in *.
  pose proof (filter_same _ false front Hall) as Hsame. pose proof (filter_other _ false front Hall) as Hother.
  cbn [negb] in Hother. rewrite Hother in Hms, Hd1 |- *. rewrite Hsame in Hd1. cbn [rev app length] in *.
  apply Forall2_nil_inv_r in Hms as ->.
  assert (length (rev front) = length front) as Hlen by apply length_rev.
  destruct (IH fuel (empty + 1) (rev front) d1) as (d2 & Hrun & Hd2); [lia|lia|done| | | |done| |].
  - by rewrite <- Permutation_rev.
  - intros Hnil. apply Hne. by rewrite <- (rev_involutive front), Hnil.
  - assert (Z.to_nat limit = length front ∨ rest = [] ∧ length front ≤ Z.to_nat limit)%nat as [Hl|[Hr Hl]].
    { pose proof (f_equal length Hfront) as Hl. rewrite length_take, length_app in Hl.
      destruct rest; [right|left]; cbn in *; [split; [done|]|]; lia. }
    + rewrite Hl, <- Hlen. by rewrite take_app_length.
    + rewrite Hr, app_nil_r. apply take_ge. lia.
  - by rewrite <- Permutation_rev.
  - change (0 + Z.of_nat 0) with 0. change (Z.of_nat 0 =? 0) with true. cbv iota. rewrite Hrun. exists d2. split; [done|]. rewrite rev_involutive in Hd2.
    rewrite Nat.even_succ, <- Nat.negb_even. by destruct (Nat.even k).
Qed.

(** A new number. *)
Lemma incr_holds c waiting out d :
  holds T c waiting out d → 0 ≤ c < LONG_MAX →
  ∃ r', smpp_redis_incr_id (smpp_redis_store_id_key_for T) d = (c + 1, set_redis r' d) ∧
    holds T (c + 1) waiting out (set_redis r' d).
Proof.
  intros [Hc Hup Hl Hw Ho] Hlt. unfold smpp_redis_incr_id.
  assert (plain (smpp_redis_store_id_key_for T) = true) as Hid by (by apply plain_app).
  rewrite (cstr_id (smpp_redis_store_id_key_for T)) by (by apply plain_nul).
  rewrite command_plain; [|done|repeat apply Forall_cons_2; [by vm_compute|done|constructor]].
  pose proof (exec_up [$"INCR"; smpp_redis_store_id_key_for T] (redis d) Hup) as Hup'.
  destruct (exec_incr _ _ _ Hup Hc) as (r' & Hex & Hks); [lia|]. rewrite Hex in Hup' |- *. cbn [fst snd] in *.
  exists r'. split; [f_equal; apply fmt_lu_small; lia|].
  pose proof queue_not_id. constructor; cbn; [|done| | |done]; rewrite Hks; fold q.
  - unfold count_at. by rewrite lookup_insert_eq.
  - unfold is_list. by rewrite lookup_insert_ne.
  - unfold list_at. by rewrite lookup_insert_ne.
Qed.

Lemma norm_service_nul s : NUL ∉ cstr (smpp_redis_norm_service s).
Proof. apply cstr_nul. Qed.

(** The account is noted, or the command is refused; the rest stays. *)
Lemma track_holds c s waiting out d :
  holds T c waiting out d → holds T c waiting out (smpp_redis_track_store_esme T s d).
Proof.
  intros Hd. unfold smpp_redis_track_store_esme.
  assert (plain (smpp_redis_store_esmes_key_for T) = true) as Hk by (by apply plain_app).
  rewrite (cstr_id (smpp_redis_store_esmes_key_for T)) by (by apply plain_nul).
  destruct (command_last [$"SADD"; smpp_redis_store_esmes_key_for T] (cstr (smpp_redis_norm_service s)) d)
    as [Heq|[vs Heq]]; [done|repeat apply Forall_cons_2; [by vm_compute|done|constructor]|apply norm_service_nul| |];
    cbn [app] in Heq; rewrite Heq; [done|]. cbn [snd]. destruct Hd as [Hc Hup Hl Hw Ho].
  pose proof (exec_sadd (smpp_redis_store_esmes_key_for T) vs (redis d)) as Hframe.
  constructor; cbn; [| | | |done].
  - unfold count_at. by rewrite Hframe by (done || apply id_not_esmes).
  - by apply exec_up.
  - unfold is_list. by rewrite Hframe by (done || apply queue_not_esmes).
  - unfold list_at. by rewrite Hframe by (done || apply queue_not_esmes).
Qed.

(** An entry that is taken away. *)
Lemma out_lookup out k e :
  (list_to_map (map (entry_of q T) out) : gmap Octstr SMPPRedisPendingEntry) !! k = Some e →
  ∃ mg, mg ∈ out ∧ k = fmt_ld mg.2 ∧ e = (entry_of q T mg).2.
Proof.
  intros (mg & [= -> ->] & Hin)%elem_of_list_to_map_2%list_elem_of_fmap. by exists mg.
Qed.

Lemma out_delete out g :
  base.delete (fmt_ld g) (list_to_map (map (entry_of q T) out) : gmap Octstr SMPPRedisPendingEntry)
  = list_to_map (map (entry_of q T) (filter (λ mg, mg.2 ≠ g) out)).
Proof.
  induction out as [|mg out IH]; [apply delete_empty|]. cbn [map list_to_map foldr]. rewrite filter_cons.
  destruct (decide (mg.2 ≠ g)) as [Hne|Heq].
  - cbn. rewrite <- IH. apply delete_insert_ne. intros Heq%fmt_ld_inj. by destruct Hne.
  - apply dec_stable in Heq. cbn. rewrite <- IH, Heq. apply delete_insert_eq.
Qed.

Lemma out_split (out : list numbered) mg :
  NoDup out.*2 → mg ∈ out → out ≡ₚ mg :: filter (λ mg', mg'.2 ≠ mg.2) out.
Proof.
  intros Hnd Hin. apply list_elem_of_split in Hin as (l1 & l2 & ->). rewrite fmap_app, fmap_cons in Hnd.
  apply NoDup_app in Hnd as (_ & Hd & [Hm _]%NoDup_cons).
  assert (∀ l, mg.2 ∉ l.*2 → filter (λ mg' : numbered, mg'.2 ≠ mg.2) l = l) as Hall.
  { intros l Hl. induction l as [|x l IH]; [done|]. cbn in Hl. apply not_elem_of_cons in Hl as [Hx Hl].
    rewrite filter_cons_True by done. by rewrite IH. }
  rewrite filter_app, filter_cons_False by (by intros []). rewrite !Hall; [solve_Permutation|done|].
  intros Hin. apply (Hd mg.2 Hin). left.
Qed.

(** What was handed out is taken back or deleted. *)
Lemma remove_holds c g temporary waiting out d :
  holds T c waiting out d → Forall (storable q) out → NoDup out.*2 → 0 ≤ g ≤ LONG_MAX →
  let '(ok, d') := smpp_database_redis_remove g temporary d in
  match pending_entries d !! fmt_lu g with
  | Some e => ok = true ∧ ∃ mg out', entry_json e = text mg ∧ out ≡ₚ mg :: out' ∧
      holds T c (if temporary =? 0 then waiting else mg :: waiting) out' d'
  | None => ok = false ∧ d' = d
  end.
Proof.
  intros Hd Hst Hnd Hg. unfold smpp_database_redis_remove.
  destruct (pending_entries d !! fmt_lu g) as [e|] eqn:He; [|done].
  rewrite (holds_out _ _ _ _ _ Hd) in He. fold q in He. destruct (fmt_lu_small g Hg) as [Hlu _].
  destruct (out_lookup _ _ _ He) as (mg & Hin & Hk & ->). rewrite Hlu in Hk |- *. apply fmt_ld_inj in Hk as ->.
  set (d1 := {| d with pending_entries := _ |}). set (out' := filter (λ mg', mg'.2 ≠ mg.2) out).
  assert (holds T c waiting out' d1) as Hd1.
  { destruct Hd as [Hc Hup Hl Hw Ho]. constructor; cbn; [done..|]. rewrite Ho. fold q. apply out_delete. }
  assert (out ≡ₚ mg :: out') as Hperm by (by apply out_split).
  assert (storable q mg) as Hmg by (rewrite Forall_forall in Hst; by apply Hst).
  cbn [entry_of snd entry_list_key entry_json entry_store_table entry_service].
  destruct (temporary =? 0); cbn [negb].
  - split; [done|]. exists mg, out'. split_and!; [done..|]. by destruct Hd1.
  - destruct (push_holds c mg waiting out' d1 Hd1) as (r' & -> & Hd2 & _); [apply Hmg|]. split; [done|].
    exists mg, out'. split_and!; [done..|].
    pose proof (track_holds _ (service (db_msg (as_read [] mg))) _ _ _ Hd2) as Hd3. by destruct Hd3.
Qed.

(** A message is stored under a new number, or refused. *)
Lemma add_holds c m kind waiting out d :
  let mg := (encode_binary m, c + 1) in
  smpp_database_store_table_name server kind = T →
  holds T c waiting out d → 0 ≤ c < LONG_MAX → one_word q (text mg) ∨ refused q (text mg) →
  ∃ ok d', smpp_database_redis_add_message server m kind d = (ok, d') ∧
    (ok = true → one_word q (text mg)) ∧
    holds T (c + 1) (if ok then mg :: waiting else waiting) out d'.
Proof.
  intros mg HTk Hd Hc Hw. unfold smpp_database_redis_add_message. rewrite HTk.
  destruct (incr_holds c waiting out d Hd Hc) as (r1 & -> & Hd1).
  change (smpp_redis_msg_to_json (encode_binary m) (c + 1)) with (text mg). fold q. clearbody mg.
  destruct Hw as [Hone|Href].
  - destruct (push_holds (c + 1) mg waiting out _ Hd1 Hone) as (r2 & -> & Hd2 & _).
    eexists true, _. split; [done|]. split; [done|]. by apply track_holds.
  - rewrite lpush_refused by (done || apply queue_plain || apply text_nul).
    eexists false, _. split; [done|]. by split.
Qed.

End table.

(** ** Runs *)

Inductive redis_op :=
  | AddMessage (m : Msg) (kind : Z)
  | GetStored (t : sms_type_t) (service : option Octstr) (limit kind : Z)
  | RemoveStored (gid temporary : Z).

(** The texts an operation adds to the store and deletes from it for good. *)
Definition redis_step (o : redis_op) (d : Redis R) : option (list Octstr * list Octstr * Redis R) :=
  match o with
  | AddMessage m kind =>
      let gid := (smpp_redis_incr_id
                    (smpp_redis_store_id_key_for (smpp_database_store_table_name server kind)) d).1 in
      let '(ok, d') := smpp_database_redis_add_message server m kind d in
      Some (if ok then [smpp_redis_msg_to_json (encode_binary m) gid] else [], [], d')
  | GetStored t service limit kind =>
      '(_, d') ← smpp_database_redis_get_stored server uuid t service limit kind d;
      Some ([], [], d')
  | RemoveStored gid temporary =>
      let '(ok, d') := smpp_database_redis_remove gid temporary d in
      Some ([], match pending_entries d !! fmt_lu gid with
                | Some e => if ok && (temporary =? 0) then [entry_json e] else []
                | None => []
                end, d')
  end.

Fixpoint redis_run (os : list redis_op) (d : Redis R) : option (list Octstr * list Octstr * Redis R) :=
  match os with
  | [] => Some ([], [], d)
  | o :: os =>
      '(added, deleted, d) ← redis_step o d;
      '(added', deleted', d) ← redis_run os d;
      Some (added ++ added', deleted ++ deleted', d)
  end.

(** What was handed out and not given back. *)
Definition outstanding (d : Redis R) : list Octstr :=
  (λ ke, entry_json ke.2) <$> map_to_list (pending_entries d).

(** An operation on the table [T]; a message is one that hiredis takes as one word or
    refuses. *)
Definition on_table (T : option Octstr) (o : redis_op) : Prop :=
  let q := smpp_redis_store_queue_key_for T in
  match o with
  | AddMessage m kind =>
      smpp_database_store_table_name server kind = T ∧ longs (encode_binary m) ∧
      ∀ g, 0 < g ≤ LONG_MAX → one_word q (text (encode_binary m, g)) ∨ refused q (text (encode_binary m, g))
  | GetStored t service limit kind => stored_table server t kind = T
  | RemoveStored gid temporary => 0 ≤ gid ≤ LONG_MAX
  end.

(** The fuel is enough, whatever the server answers. *)
Lemma loop_ends fuel list_key T t service limit picked empty d :
  0 ≤ empty ≤ max_empty_batches →
  (limit - picked) * 32 + 32 - empty < Z.of_nat fuel → (0 < fuel)%nat →
  is_Some (get_stored_loop uuid fuel list_key T t service limit picked empty d).
Proof.
  unfold max_empty_batches. revert picked empty d. induction fuel as [|fuel IH]; intros picked empty d He Hf Hpos; [lia|].
  cbn [get_stored_loop]. unfold max_empty_batches.
  destruct ((picked <? limit) && (empty <? 32)) eqn:Hgo; [|by eexists].
  destruct (smpp_redis_lpop_json_batch _ _ _) as [[|item items] d1]; [by eexists|].
  destruct (claim_batch _ _ _ _ _ _ _) as [ms d2].
  destruct (IH (picked + Z.of_nat (length ms)) (if Z.of_nat (length ms) =? 0 then empty + 1 else 0) d2)
    as [[ms' d3] Heq]; [..|rewrite Heq; by eexists].
  - case_match; lia.
  - destruct (Z.eqb_spec (Z.of_nat (length ms)) 0); lia.
  - lia.
Qed.

(** A text tells its number. *)
Lemma texts_distinct q mgs : Forall (storable q) mgs → NoDup mgs.*2 → NoDup (map text mgs).
Proof.
  induction 1 as [|mg mgs Hmg Hmgs IH]; [constructor|]. cbn [fmap list_fmap map].
  intros [Hid Hnd]%NoDup_cons. apply NoDup_cons. split; [|by apply IH].
  intros (mg' & Heq & Hin)%list_elem_of_fmap. rewrite Forall_forall in Hmgs.
  destruct Hmg as (Hl & Hg & _), (Hmgs mg' Hin) as (Hl' & Hg' & _). unfold text in Heq.
  assert (Some (message_object mg.1 mg.2) = Some (message_object mg'.1 mg'.2)) as Ho.
  { rewrite <- !message_text by (done || unfold LONG_MIN, LONG_MAX in *; lia). by rewrite Heq. }
  injection Ho as Ho. apply Hid. apply list_elem_of_fmap. exists mg'. split; [|done].
  assert (Some (JSON_INTEGER mg.2) = Some (JSON_INTEGER mg'.2)) as [=] by
    (by rewrite <- (get_message_gid mg.1), <- (get_message_gid mg'.1), Ho). done.
Qed.

Lemma outstanding_texts q T out :
  NoDup out.*2 →
  (λ ke : Octstr * SMPPRedisPendingEntry, entry_json ke.2)
    <$> map_to_list (list_to_map (map (entry_of q T) out) : gmap Octstr SMPPRedisPendingEntry) ≡ₚ map text out.
Proof.
  intros Hnd. rewrite map_to_list_to_map.
  - by rewrite map_map.
  - assert ((map (entry_of q T) out).*1 = fmt_ld <$> out.*2) as -> by (by rewrite <- !list_fmap_compose).
    apply NoDup_fmap_2; [intros ??; apply fmt_ld_inj|done].
Qed.

(** ** Properties *)

Section conserved.
Context (T : option Octstr) (HT : plain (table T) = true).
Let q := smpp_redis_store_queue_key_for T.

(** The messages in the queue, those handed out and those deleted, each with a number
    of its own. *)
Record accounted (c : Z) (waiting out gone : list numbered) (d : Redis R) : Prop := {
  accounted_holds : holds T c waiting out d;
  accounted_storable : Forall (storable q) (waiting ++ out ++ gone);
  accounted_count : 0 ≤ c;
  accounted_old : Forall (λ mg, mg.2 ≤ c) (waiting ++ out ++ gone);
  accounted_ids : NoDup (waiting ++ out ++ gone).*2;
}.

Lemma accounted_perm c waiting out gone d waiting' out' gone' d' :
  accounted c waiting out gone d → holds T c waiting' out' d' →
  waiting' ++ out' ++ gone' ≡ₚ waiting ++ out ++ gone → accounted c waiting' out' gone' d'.
Proof.
  intros [Hd Hst Hc Hold Hids] Hd' Hp. constructor; [done| |done| |]; by rewrite Hp.
Qed.

Lemma accounted_add c waiting out gone d m kind :
  accounted c waiting out gone d → on_table T (AddMessage m kind) → c < LONG_MAX →
  ∃ added d', redis_step (AddMessage m kind) d = Some (map text added, [], d') ∧
    accounted (c + 1) (added ++ waiting) out gone d'.
Proof.
  intros [Hd Hst Hc Hold Hids] (HTk & Hl & Hw) Hlt. unfold redis_step.
  destruct (incr_holds T HT c waiting out d Hd) as (r1 & Hincr & _); [lia|]. rewrite HTk, Hincr. cbn [fst].
  destruct (add_holds T HT c m kind waiting out d HTk Hd) as (ok & d' & -> & Hone & Hd'); [lia|apply Hw; lia|].
  exists (if ok then [(encode_binary m, c + 1)] else []), d'. split; [by destruct ok|].
  assert (Forall (λ mg : numbered, mg.2 ≤ c + 1) (waiting ++ out ++ gone)) as Hold1
    by (eapply Forall_impl; [exact Hold|]; cbn; lia).
  destruct ok; constructor; cbn [app]; try done; try lia.
  - apply Forall_cons. split; [|done]. by split_and!; [|cbn; lia..|apply Hone].
  - apply Forall_cons. by split; [cbn|].
  - rewrite fmap_cons. apply NoDup_cons. split; [|done]. cbn. intros (mg & Heq & Hin)%list_elem_of_fmap.
    rewrite Forall_forall in Hold. specialize (Hold mg Hin). lia.
Qed.

Lemma accounted_get c waiting out gone d t service limit kind :
  accounted c waiting out gone d → on_table T (GetStored t service limit kind) →
  ∃ waiting' out' d', redis_step (GetStored t service limit kind) d = Some ([], [], d') ∧
    waiting' ++ out' ≡ₚ waiting ++ out ∧ accounted c waiting' out' gone d'.
Proof.
  intros Hacc HTk. cbn [on_table] in HTk. unfold redis_step, smpp_database_redis_get_stored. rewrite HTk.
  set (l := if limit =? 0 then _ else _).
  destruct (loop_ends (get_stored_fuel l) q T t service l 0 0 d) as [[ms d'] Hrun].
  { unfold max_empty_batches. lia. }
  { unfold get_stored_fuel. lia. }
  { unfold get_stored_fuel. lia. }
  pose proof Hacc as [Hd Hst _ _ _]. apply Forall_app in Hst as [Hst _].
  destruct (loop_run T HT c _ _ _ _ _ _ _ _ _ _ _ Hd Hst Hrun) as (handed & waiting' & out' & _ & _ & _ & Hw & Ho & Hd').
  exists waiting', out', d'. fold q. rewrite Hrun. split; [done|].
  assert (waiting' ++ out' ≡ₚ waiting ++ out) as Hp by (rewrite Ho, <- Hw; solve_Permutation).
  split; [done|]. eapply accounted_perm; [done..|]. rewrite !app_assoc. by rewrite Hp.
Qed.

Lemma accounted_remove c waiting out gone d gid temporary :
  accounted c waiting out gone d → on_table T (RemoveStored gid temporary) →
  ∃ waiting' out' deleted d', redis_step (RemoveStored gid temporary) d = Some ([], map text deleted, d') ∧
    waiting' ++ out' ++ deleted ≡ₚ waiting ++ out ∧ accounted c waiting' out' (deleted ++ gone) d'.
Proof.
  intros Hacc Hg. cbn [on_table] in Hg. unfold redis_step. pose proof Hacc as [Hd Hst _ _ Hids].
  assert (NoDup out.*2 ∧ Forall (storable q) out) as [Hnd Hsto].
  { rewrite !fmap_app in Hids. apply NoDup_app in Hids as (_ & _ & Hids). apply NoDup_app in Hids as (? & _).
    by apply Forall_app in Hst as [_ [? _]%Forall_app]. }
  pose proof (remove_holds T HT c gid temporary waiting out d Hd Hsto Hnd Hg) as Hrm.
  destruct (smpp_database_redis_remove gid temporary d) as [ok d'].
  destruct (pending_entries d !! fmt_lu gid) as [e|].
  - destruct Hrm as (-> & mg & out' & He & Hout & Hd'). rewrite He.
    destruct (temporary =? 0); cbn [andb].
    + exists waiting, out', [mg], d'. split; [done|]. split; [rewrite Hout; solve_Permutation|].
      eapply accounted_perm; [done..|]. rewrite Hout. solve_Permutation.
    + exists (mg :: waiting), out', [], d'. split; [done|]. split; [rewrite Hout; solve_Permutation|].
      eapply accounted_perm; [done..|]. rewrite Hout. solve_Permutation.
  - destruct Hrm as [-> ->]. exists waiting, out, [], d. split; [done|].
    split; [by rewrite app_nil_r|done].
Qed.

Lemma accounted_run os c waiting out gone d :
  accounted c waiting out gone d → Forall (on_table T) os → c + Z.of_nat (length os) ≤ LONG_MAX →
  ∃ added waiting' out' deleted c' d',
    redis_run os d = Some (map text added, map text deleted, d') ∧
    waiting' ++ out' ++ deleted ≡ₚ added ++ waiting ++ out ∧ accounted c' waiting' out' (deleted ++ gone) d'.
Proof.
  revert c waiting out gone d. induction os as [|o os IH]; intros c waiting out gone d Hacc Hos Hlt.
  { exists [], waiting, out, [], c, d. split; [done|]. split; [by rewrite app_nil_r|done]. }
  apply Forall_cons in Hos as [Ho Hos]. cbn [length] in Hlt. cbn [redis_run].
  assert (∃ added waiting1 out1 deleted c1 d1, redis_step o d = Some (map text added, map text deleted, d1) ∧
    waiting1 ++ out1 ++ deleted ≡ₚ added ++ waiting ++ out ∧
    c1 ≤ c + 1 ∧ accounted c1 waiting1 out1 (deleted ++ gone) d1)
    as (added & waiting1 & out1 & deleted & c1 & d1 & -> & Hp & Hc1 & Hacc1).
  { destruct o as [m kind|t service limit kind|gid temporary].
    - destruct (accounted_add c waiting out gone d m kind Hacc Ho) as (added & d1 & -> & Hacc1); [lia|].
      exists added, (added ++ waiting), out, [], (c + 1), d1. split; [done|].
      split; [rewrite app_nil_r; by rewrite app_assoc|]. split; [lia|done].
    - destruct (accounted_get c waiting out gone d t service limit kind Hacc Ho) as (w1 & o1 & d1 & -> & Hp & Hacc1).
      exists [], w1, o1, [], c, d1. split; [done|]. split; [by rewrite app_nil_r|]. split; [lia|done].
    - destruct (accounted_remove c waiting out gone d gid temporary Hacc Ho)
        as (w1 & o1 & del & d1 & -> & Hp & Hacc1).
      exists [], w1, o1, del, c, d1. split; [done|]. split; [done|]. split; [lia|done]. }
  destruct (IH c1 waiting1 out1 (deleted ++ gone) d1 Hacc1 Hos) as
    (added' & waiting' & out' & deleted' & c' & d' & Hrun & Hp' & Hacc'); [lia|].
  exists (added ++ added'), waiting', out', (deleted ++ deleted'), c', d'. cbn. rewrite Hrun. cbn.
  split; [by rewrite !map_app|]. split.
  - transitivity ((waiting' ++ out' ++ deleted') ++ deleted); [solve_Permutation|]. rewrite Hp'.
    transitivity (added' ++ (waiting1 ++ out1 ++ deleted)); [solve_Permutation|]. rewrite Hp. solve_Permutation.
  - eapply accounted_perm; [exact Hacc'|by destruct Hacc'|]. solve_Permutation.
Qed.

End conserved.

End server.

(** The encoded text of a message is ASCII. *)
Lemma hex_digit_ascii upper v : 0 ≤ v < 16 → 0 < byte_val (hex_digit upper v) < 128.
Proof.
  intros Hv. unfold hex_digit. destruct (Z.ltb_spec v 10); rewrite byte_val_of; [rewrite Z.mod_small; lia|].
  destruct upper; rewrite Z.mod_small; lia.
Qed.

Lemma url_encode_ascii s : Forall (λ c, 0 < byte_val c < 128) (smpp_db_url_encode_octstr s).
Proof.
  destruct s as [s|]; [|constructor]. induction s as [|c s IH]; [constructor|].
  change (smpp_db_url_encode_octstr (Some (c :: s)))
    with ("%"%char :: (fmt_02X (byte_val c) ++ smpp_db_url_encode_octstr (Some s))).
  pose proof (byte_val_range c). constructor; [by vm_compute|].
  constructor; [apply hex_digit_ascii; split; [apply Z.div_pos; lia|apply Z.div_lt_upper_bound; lia]|].
  constructor; [apply hex_digit_ascii, Z.mod_pos_bound; lia|exact IH].
Qed.

Lemma ascii_no_nul s : Forall (λ c, 0 < byte_val c < 128) s → NUL ∉ s.
Proof. intros Hs Hin. rewrite Forall_forall in Hs. destruct (Hs _ Hin) as [Hpos _]. by vm_compute in Hpos. Qed.

(** A binary field that was encoded, kept in a member and decoded again. *)
Lemma kept_decoded `{OctstrLib} `{FieldLib} `{JsonLib} o :
  let e := if 0 <? octstr_len o then Some (smpp_db_url_encode_octstr o) else o in
  (if 0 <? octstr_len (Some (kept e)) then Some (smpp_db_url_decode_octstr (Some (kept e))) else Some (kept e))
  = Some (default [] o).
Proof.
  destruct o as [[|b s]|]; [done| |done]. cbv zeta.
  replace (0 <? octstr_len (Some (b :: s))) with true by done.
  set (e := smpp_db_url_encode_octstr (Some (b :: s))).
  assert (kept (Some e) = e) as ->.
  { pose proof (url_encode_ascii (Some (b :: s))) as Hasc. fold e in Hasc. unfold kept.
    replace (octstr_len (Some e) =? 0) with false by done. rewrite octstr_get_cstr_Some.
    rewrite cstr_id by (by apply ascii_no_nul). by rewrite utf8_ascii. }
  replace (0 <? octstr_len (Some e)) with true by done. subst e. by rewrite url_decode_encoded.
Qed.

(** ** The contracts of the backend *)

(** C16. A message survives its JSON text. The text is an object with the message's
    number, and the message that is read from it has every field of the one that was
    stored, its identifier too, the binary fields exactly; a string member is kept if
    it is UTF-8, up to a NUL byte, and empty otherwise, and so a string that was not
    set is empty. *)
Theorem redis_read_back `{OctstrLib} `{FieldLib} `{JsonLib} (m : Msg) (gid : Z) (i : Octstr) :
  longs (encode_binary m) → LONG_MIN ≤ gid ≤ LONG_MAX →
  ∃ root,
    json_loads (cstr (smpp_redis_msg_to_json (encode_binary m) gid)) = Some root ∧
    smpp_redis_json_get_long root ($"global_id") = gid ∧
    smpp_redis_json_to_msg root (msg_create i)
    = {| (map_strings (λ o, Some (kept o)) m (default i (kept_uuid (msg_id m)))) with
         udhdata := Some (default [] (udhdata m)); msgdata := Some (default [] (msgdata m)) |}.
Proof.
  intros Hl Hg. exists (message_object (encode_binary m) gid). split_and!.
  - by apply message_text.
  - unfold smpp_redis_json_get_long. by rewrite get_message_gid.
  - rewrite message_read. unfold decode_binary, map_strings, encode_binary. cbn [udhdata msgdata].
    by rewrite !kept_decoded.
Qed.

(** C32. Handing out always comes to an end: whatever the server answers, the loop over
    the batches is left within its bound. *)
Theorem get_stored_ends {R} `{OctstrLib} `{FieldLib} `{JsonLib} `{RedisLib R} (server : SMPPServer)
    (uuid : nat → Octstr) (t : sms_type_t) (service : option Octstr) (limit store_kind : Z) (d : Redis R) :
  is_Some (smpp_database_redis_get_stored server uuid t service limit store_kind d).
Proof.
  unfold smpp_database_redis_get_stored. set (l := if limit =? 0 then _ else _).
  apply loop_ends; unfold max_empty_batches, get_stored_fuel; lia.
Qed.


