(* ===== verification/Config.v ===== *)
(** The start of the daemon: reading the configuration (smpp_server.c,
    smpp_server_cfg.c), opening the database and attaching the queue backend
    (smpp_database.c, smpp_database_mysql.c, smpp_database_redis.c), loading plugins
    (smpp_plugin.c), choosing how messages are routed (smpp_route.c,
    smpp_http_client.c), and starting the threads (smpp_listener.c, smpp_bearerbox.c,
    smpp_esme.c, smpp_queues.c, ksmppd.c). A panic ends the run: [crash].

    Kannel's configuration and the calls of the system are the classes below. *)
From S2P Require Import Prelude CLib Gwlib DbUtil Types Kannel Dlr World Callbacks Route Fields Http Admin.
From S2P Require Import Mysql Schema Redis.
Open Scope Z_scope.

(** ** Interfaces

    A variable of a group; a number that is not there or cannot be read leaves the
    variable of the code as it is, a truth value that is not there makes it false. *)
Class CfgLib (Cfg Grp : Type) := {
  cfg_get_single_group : Cfg → Octstr → option Grp;
  cfg_get_multi_group : Cfg → Octstr → option (list Grp);
  cfg_get : Grp → Octstr → option Octstr;
  cfg_get_integer : Grp → Octstr → option Z;
  cfg_get_bool : Grp → Octstr → bool;
}.

Record SqlConf := {
  conf_host : Octstr; conf_port : Z; conf_username : Octstr; conf_password : Octstr; conf_database : Octstr }.
Record RedisConf := {
  redis_host : Octstr; redis_port : Z; redis_password : option Octstr; redis_database : Z;
  redis_idle_timeout : Z }.

(** What was compiled in; the pools, none without connections; whether the port of the
    HTTP server can be opened; shared objects, with the functions a plugin sets when
    its initialisation succeeds (one that authenticates, one that routes); libevent. *)
Class StartLib (S R : Type) := {
  HAVE_PGSQL : bool;
  HAVE_REDIS : bool;
  dbpool_create_sql : db_type → SqlConf → Z → option S;
  dbpool_create_redis : RedisConf → Z → option R;
  http_open_port_if : Z → bool → bool;
  dlopen : Octstr → bool;
  dlerror : Octstr → bool;
  dlsym : Octstr → Octstr → bool;
  plugin_run_init : Octstr → Octstr → Octstr → option Octstr → option (bool * bool);
  event_base_new : bool;
  evconnlistener_new_bind : Z → bool;
}.

(** ** smpp_server_cfg.c, smpp_server_cfg.def *)

Record cfg_group := { group_name : Octstr; single : bool; variables : list Octstr }.

Definition smpp_server_cfg_def : list cfg_group := [
  {| group_name := $"ksmppd"; single := true; variables := [
       $"id"; $"log-file"; $"log-level"; $"smpp-port"; $"database-type"; $"database-config";
       $"database-user-table"; $"database-store-table"; $"database-queue-store-table"; $"database-dlr-table";
       $"database-dlr-delete-processed"; $"database-enable-queue"; $"database-store-primary";
       $"database-pdu-table"; $"database-route-table"; $"database-version-table"; $"database-queue-type";
       $"database-queue-config"; $"database-queue-inflight-table"; $"default-max-open-acks";
       $"inbound-queue-threads"; $"outbound-queue-threads"; $"auth-method"; $"auth-url"; $"auth-plugin-id";
       $"ip-blocklist-time"; $"ip-blocklist-attempts"; $"ip-blocklist-exempt-ips"; $"wait-ack-action"] |};
  {| group_name := $"smpp-routing"; single := true; variables := [
       $"routing-method"; $"http-routing-url"; $"http-num-callers"; $"http-max-outstanding-requests";
       $"plugin-id"] |};
  {| group_name := $"http-server"; single := true; variables := [
       $"port"; $"password"; $"interface"; $"ssl"] |};
  {| group_name := $"bearerbox-connection"; single := false; variables := [
       $"id"; $"host"; $"port"; $"ssl"] |};
  {| group_name := $"ksmppd-plugin"; single := false; variables := [
       $"id"; $"path"; $"init-function"; $"args"] |};
  {| group_name := $"smpp-tlv"; single := false; variables := [
       $"name"; $"tag"; $"length"; $"type"; $"smsc-id"] |} ].

Definition smpp_server_cfg_is_allowed_in_group (group variable : Octstr) : bool :=
  match find (λ g, octstr_eq (group_name g) group) smpp_server_cfg_def with
  | Some g => octstr_eq variable ($"group") || existsb (octstr_eq variable) (variables g)
  | None => false
  end.

Definition smpp_server_cfg_is_single_group (query : Octstr) : bool :=
  match find (λ g, octstr_eq (group_name g) query) smpp_server_cfg_def with
  | Some g => single g
  | None => false
  end.

(** ** The state of the start *)

(** A plugin: the functions are its own; here whether it has them. *)
Record SMPPPlugin := {
  plugin_id : Octstr;
  init_function : option Octstr;
  plugin_args : option Octstr;
  authenticates : bool;
  routes_messages : bool;
}.
Definition smpp_plugin_create (i : Octstr) : SMPPPlugin :=
  {| plugin_id := i; init_function := None; plugin_args := None; authenticates := false;
     routes_messages := false |}.

Inductive thread :=
  | smpp_http_server_thread
  | smpp_http_client_request_thread
  | smpp_bearerbox_inbound_thread (bb : nat)
  | smpp_bearerbox_outbound_thread (bb : nat)
  | smpp_bearerbox_requeue_thread
  | smpp_esme_cleanup_thread
  | smpp_queues_simulation_thread
  | smpp_queues_inbound_thread
  | smpp_queues_outbound_thread
  | smpp_queues_requeue_thread.

Record HttpRoutingConf := { routing_url : Octstr; num_callers : Z; max_outstanding : Z }.
Record BearerboxConf := { bb_conf_id : option Octstr; bb_host : Octstr; bb_port : Z; bb_ssl : bool }.

Record Startup {Cfg S R : Type} := {
  configured : bool;
  running_configuration : option Cfg;
  settings : SMPPServer;
  smpp_port : Z;
  num_inbound_queue_threads : Z;
  num_outbound_queue_threads : Z;
  database_type : option Octstr;
  database_config : option Octstr;
  database_queue_config : option Octstr;
  auth_url : option Octstr;
  database : option (db_type * Mysql S);
  queue_backend : option (Redis R);
  plugins : gmap Octstr SMPPPlugin;
  auth_plugin : option SMPPPlugin;
  route_plugin : option SMPPPlugin;
  http_server : option SMPPHTTPServer;
  route_message_by : option routing_method;
  http_routing : option HttpRoutingConf;
  start_routes : list SMPPRoute;
  start_bearerboxes : list BearerboxConf;
  log_file : option (Octstr * Z);
  threads : list thread;
}.
Arguments Startup : clear implicits.

Definition smpp_server_empty : SMPPServer := {|
  server_id := None; database_enable_queue := false; database_store_primary := false;
  database_dlr_delete_processed := false; database_user_table := None; database_store_table := None;
  database_queue_store_table := None; database_dlr_table := None; database_pdu_table := None;
  database_route_table := None; database_version_table := None; database_queue_type := None;
  authentication_method := 0; plugin_auth := false; ip_blocklist_time := 0; ip_blocklist_attempts := 0;
  ip_blocklist_exempt_ips := None; default_max_open_acks := SMPP_ESME_DEFAULT_MAX_OPEN_ACKS;
  wait_ack_action := SMPP_WAITACK_DISCONNECT; server_status := 0 |}.

Definition smpp_server_create {Cfg S R} : Startup Cfg S R := {|
  configured := false; running_configuration := None; settings := smpp_server_empty; smpp_port := 0;
  num_inbound_queue_threads := 0; num_outbound_queue_threads := 0; database_type := None;
  database_config := None; database_queue_config := None; auth_url := None; database := None;
  queue_backend := None; plugins := ∅; auth_plugin := None; route_plugin := None; http_server := None;
  route_message_by := None; http_routing := None; start_routes := []; start_bearerboxes := [];
  log_file := None; threads := [] |}.

Section start.
Context {Cfg Grp S R : Type} `{OctstrLib} `{TimeLib} `{KannelLib} `{FieldLib} `{SqlLib} `{SqlServer S}
  `{JsonLib} `{RedisLib R} `{CfgLib Cfg Grp} `{StartLib S R}.
(** The time, the identifiers, and the variables the code leaves uninitialised. *)
Context (now : Z) (uuid : nat → Octstr) (junk : Z).
Abbreviation St := (Startup Cfg S R).
Abbreviation A := (M St).

Definition set_settings (f : SMPPServer → SMPPServer) : A unit :=
  modify (λ s, {| s with settings := f (settings s) |}).
Definition gwthread_create (t : thread) : A unit := modify (λ s, {| s with threads := threads s ++ [t] |}).
Definition running : A Cfg := o ← gets running_configuration; deref o.

(** The group of a name with an id. *)
Definition group_with_id (groups : option (list Grp)) (i : Octstr) : option Grp :=
  find (λ g, match cfg_get g ($"id") with Some p => octstr_eq p i | None => false end) (default [] groups).

Definition nonzero (size : option Z) : Z :=
  match size with Some n => if n =? 0 then 1 else n | None => 1 end.

(** *** smpp_plugin.c *)

(** [None]: the plugin could not be loaded; a plugin is loaded once. *)
Definition smpp_plugin_load (grp : Grp) (i : Octstr) : A (option SMPPPlugin) :=
  let p := smpp_plugin_create i in
  let path := cstr (default [] (cfg_get grp ($"path"))) in
  if octstr_len (cfg_get grp ($"path")) =? 0 then mret None
  else if negb (dlopen path) then mret None
  else if dlerror path then mret None
  else
    let fn := cfg_get grp ($"init-function") in
    if octstr_len fn =? 0 then mret (Some p)
    else if dlsym path (cstr (default [] fn)) then
      let args := cfg_get grp ($"args") in
      mret (match plugin_run_init path (cstr (default [] fn)) i args with
            | Some (a, r) => Some {| plugin_id := i; init_function := fn; plugin_args := args;
                                     authenticates := a; routes_messages := r |}
            | None => None
            end)
    else crash.

Definition smpp_plugin_init (i : Octstr) : A (option SMPPPlugin) :=
  ps ← gets plugins;
  match ps !! i with
  | Some p => mret (Some p)
  | None =>
      cfg ← running;
      grp ← deref (group_with_id (cfg_get_multi_group cfg ($"ksmppd-plugin")) i);
      r ← smpp_plugin_load grp i;
      match r with
      | Some p => modify (λ s, {| s with plugins := <[i := p]> (plugins s) |});; mret (Some p)
      | None => mret None
      end
  end.

(** *** The database *)

Definition new_backend (pool : S) : Mysql S :=
  {| sql_server := pool; pending_msg := ∅; pending_msg_store := ∅; pending_pdu := ∅; sql_uuid := 0;
     sql_now := now |}.

Definition smpp_database_redis_queue_attach : A unit :=
  when (negb HAVE_REDIS) crash;;
  cfg ← running;
  o ← gets database_queue_config;
  when (octstr_len o =? 0) crash;;
  groups ← deref (cfg_get_multi_group cfg ($"redis-connection"));
  grp ← deref (group_with_id (Some groups) (default [] o));
  let pool_size := nonzero (cfg_get_integer grp ($"max-connections")) in
  host ← deref (cfg_get grp ($"host"));
  port ← deref (cfg_get_integer grp ($"port"));
  pool ← deref (dbpool_create_redis
    {| redis_host := host; redis_port := port; redis_password := cfg_get grp ($"password");
       redis_database := default (-1) (cfg_get_integer grp ($"database"));
       redis_idle_timeout := default (-1) (cfg_get_integer grp ($"idle-timeout")) |} pool_size);
  let '(ok, d) := smpp_redis_check_version
    {| redis := pool; pending_entries := ∅; pending_tables := ∅; pending_pdus := ∅; redis_uuid := 0;
       redis_now := now |} in
  when (negb ok) crash;;
  modify (λ s, {| s with queue_backend := Some d |}).

(** The tables get their names and are created, before the queue is attached. *)
Definition smpp_database_relational_setup (pool : S) (dialect : db_type) : A unit :=
  set_settings relational_tables;;
  conf ← gets settings;
  d ← deref (snd <$> smpp_database_sql_init_tables conf dialect (new_backend pool));
  when (redis_queue conf) smpp_database_redis_queue_attach;;
  modify (λ s, {| s with database := Some (dialect, d) |}).

(** smpp_database_mysql_init and smpp_database_pgsql_init: the connection group of the
    dialect. *)
Definition connection_group (dialect : db_type) : Octstr :=
  match dialect with DBPOOL_MYSQL => $"mysql-connection" | DBPOOL_PGSQL => $"pgsql-connection" end.

Definition smpp_database_sql_init (dialect : db_type) : A unit :=
  cfg ← running;
  o ← gets database_config;
  i ← deref o;
  grp ← deref (group_with_id (cfg_get_multi_group cfg (connection_group dialect)) i);
  let pool_size := nonzero (cfg_get_integer grp ($"max-connections")) in
  host ← deref (cfg_get grp ($"host"));
  user ← deref (cfg_get grp ($"username"));
  pass ← deref (cfg_get grp ($"password"));
  name ← deref (cfg_get grp ($"database"));
  pool ← deref (dbpool_create_sql dialect
    {| conf_host := host; conf_port := default 0 (cfg_get_integer grp ($"port"));
       conf_username := user; conf_password := pass; conf_database := name |} pool_size);
  smpp_database_relational_setup pool dialect.

Definition smpp_database_mysql_init : A unit := smpp_database_sql_init DBPOOL_MYSQL.
Definition smpp_database_pgsql_init : A unit := smpp_database_sql_init DBPOOL_PGSQL.

Definition init_database : A unit :=
  t ← gets database_type;
  dialect ← deref (fst <$> smpp_database_init HAVE_PGSQL t tt);
  match dialect with
  | Some DBPOOL_MYSQL => smpp_database_mysql_init
  | Some DBPOOL_PGSQL => smpp_database_pgsql_init
  | None => crash
  end.

(** *** The HTTP server and routing *)

Definition add_command (key : Octstr) (c : http_command) : A unit :=
  modify (λ s, {| s with http_server := smpp_http_server_add_command key c <$> http_server s |}).

(** The rest of smpp_http_server_init: its variables, its port and its thread. *)
Definition init_http_server : A unit :=
  cfg ← running;
  grp ← deref (cfg_get_single_group cfg ($"http-server"));
  port ← deref (cfg_get_integer grp ($"port"));
  let password := cfg_get grp ($"password") in
  web ← deref (smpp_http_server_init password now);
  when (negb (http_open_port_if port (cfg_get_bool grp ($"ssl")))) crash;;
  modify (λ s, {| s with http_server := Some web |});;
  gwthread_create smpp_http_server_thread.

(** The request threads. *)
Definition smpp_http_client_route_init : A unit :=
  cfg ← running;
  grp ← deref (cfg_get_single_group cfg ($"smpp-routing"));
  let url := cfg_get grp ($"http-routing-url") in
  when (octstr_len url =? 0) crash;;
  let callers := default 1 (cfg_get_integer grp ($"http-num-callers")) in
  modify (λ s, {| s with http_routing := Some
    {| routing_url := default [] url; num_callers := callers;
       max_outstanding := default HTTP_DEFAULT_MAX_OUTSTANDING
                            (cfg_get_integer grp ($"http-max-outstanding-requests")) |} |});;
  for_each gwthread_create (replicate (Z.to_nat callers) smpp_http_client_request_thread);;
  modify (λ s, {| s with route_message_by := Some SMPP_ROUTING_METHOD_HTTP |}).

(** The numbers of the methods. *)
Definition routing_number (m : routing_method) : Z :=
  match m with SMPP_ROUTING_METHOD_DATABASE => 1 | SMPP_ROUTING_METHOD_HTTP => 2 | SMPP_ROUTING_METHOD_PLUGIN => 4 end.

Definition route_by_plugin (grp : Grp) : A unit :=
  let i := cfg_get grp ($"plugin-id") in
  when (octstr_len i =? 0) crash;;
  p ← smpp_plugin_init (default [] i);
  modify (λ s, {| s with route_plugin := p |});;
  when (negb (from_option routes_messages false p)) crash;;
  modify (λ s, {| s with route_message_by := Some SMPP_ROUTING_METHOD_PLUGIN |}).

(** The number of the method: the one that is given, that of its name, or the default;
    a name sets up the plugin. *)
Definition read_routing_method (group : option Grp) : A Z :=
  match group with
  | None => mret (routing_number SMPP_ROUTING_METHOD_DATABASE)
  | Some grp =>
      match cfg_get_integer grp ($"routing-method") with
      | Some n => mret n
      | None =>
          let name := cfg_get grp ($"routing-method") in
          if octstr_len name =? 0 then mret (routing_number SMPP_ROUTING_METHOD_DATABASE)
          else if octstr_case_eq (default [] name) ($"database")
          then mret (routing_number SMPP_ROUTING_METHOD_DATABASE)
          else if octstr_case_eq (default [] name) ($"http") then mret (routing_number SMPP_ROUTING_METHOD_HTTP)
          else if octstr_case_eq (default [] name) ($"plugin")
          then route_by_plugin grp;; mret (routing_number SMPP_ROUTING_METHOD_PLUGIN)
          else crash
      end
  end.

(** The daemon on a backend, before its first connection. *)
Definition start_world {DB} (s : St) (d : DB) : World DB := {|
  w_now := now; server := settings s; pdus := ∅; esme_heap := ∅; esmes := ∅; cleanup_queue := [];
  inbound_queue := []; outbound_queue := []; simulation_queue := [];
  bearerboxes := list_to_map (imap (λ i b, (i, {| bb_id := bb_conf_id b; connection := false; last_msg := 0;
                                                  alive := false; bb_open_acks := ∅ |})) (start_bearerboxes s));
  bb_order := seq 0 (length (start_bearerboxes s)); bb_outbound_queue := []; route_requests := [];
  inbound_routes := start_routes s; outbound_routes := ∅; blocklist := ∅; db := d; next_ptr := 0;
  next_uuid := 0; bb_writes := []; trace := [] |}.

Definition rebuild_routes : A unit :=
  s ← get;
  '(dialect, d) ← deref (database s);
  '(_, w) ← deref (smpp_route_rebuild (H2 := relational_ops (settings s) dialect uuid junk)
                     (route_message_by s) (start_world s d));
  modify (λ s, {| s with start_routes := inbound_routes w |}).

Definition smpp_route_init : A unit :=
  cfg ← running;
  n ← read_routing_method (cfg_get_single_group cfg ($"smpp-routing"));
  (if n =? routing_number SMPP_ROUTING_METHOD_DATABASE
   then modify (λ s, {| s with route_message_by := Some SMPP_ROUTING_METHOD_DATABASE |})
   else when (n =? routing_number SMPP_ROUTING_METHOD_HTTP) smpp_http_client_route_init);;
  rebuild_routes;;
  add_command ($"rebuild-routes") smpp_route_rebuild_command_cmd.

(** *** smpp_server_reconfigure *)

Definition log_settings (grp : Grp) : A unit :=
  match cfg_get grp ($"log-file") with
  | Some f => modify (λ s, {| s with log_file := Some (f, default junk (cfg_get_integer grp ($"log-level"))) |})
  | None => mret tt
  end.

Definition general_settings (grp : Grp) : A unit :=
  modify (λ s, {| s with
    smpp_port := default 2345 (cfg_get_integer grp ($"smpp-port"));
    num_inbound_queue_threads := default 1 (cfg_get_integer grp ($"inbound-queue-threads"));
    num_outbound_queue_threads := default 1 (cfg_get_integer grp ($"outbound-queue-threads")) |});;
  set_settings (λ c, {| c with
    server_id := cfg_get grp ($"id");
    ip_blocklist_time := default 300 (cfg_get_integer grp ($"ip-blocklist-time"));
    ip_blocklist_attempts := default 5 (cfg_get_integer grp ($"ip-blocklist-attempts"));
    ip_blocklist_exempt_ips := cfg_get grp ($"ip-blocklist-exempt-ips");
    default_max_open_acks := default (default_max_open_acks c) (cfg_get_integer grp ($"default-max-open-acks"));
    wait_ack_action := default (wait_ack_action c) (cfg_get_integer grp ($"wait-ack-action")) |}).

Definition database_settings (grp : Grp) : A unit :=
  modify (λ s, {| s with
    database_type := cfg_get grp ($"database-type");
    database_config := cfg_get grp ($"database-config");
    database_queue_config := cfg_get grp ($"database-queue-config") |});;
  set_settings (λ c, {| c with
    database_store_table := cfg_get grp ($"database-store-table");
    database_queue_store_table := cfg_get grp ($"database-queue-store-table");
    database_dlr_table := cfg_get grp ($"database-dlr-table");
    database_user_table := cfg_get grp ($"database-user-table");
    database_pdu_table := cfg_get grp ($"database-pdu-table");
    database_route_table := cfg_get grp ($"database-route-table");
    database_version_table := cfg_get grp ($"database-version-table");
    database_queue_type := cfg_get grp ($"database-queue-type") |});;
  s ← get;
  when (redis_queue (settings s) && (octstr_len (database_queue_config s) =? 0)) crash;;
  when (octstr_len (database_type s) =? 0) crash;;
  set_settings (λ c, {| c with
    database_enable_queue := cfg_get_bool grp ($"database-enable-queue");
    database_store_primary := cfg_get_bool grp ($"database-store-primary");
    database_dlr_delete_processed := cfg_get_bool grp ($"database-dlr-delete-processed") |}).

Definition set_auth_method (n : Z) : A unit := set_settings (λ c, {| c with authentication_method := n |}).

Definition auth_by_plugin (grp : Grp) : A unit :=
  let i := cfg_get grp ($"auth-plugin-id") in
  when (octstr_len i =? 0) crash;;
  set_auth_method SMPP_SERVER_AUTH_METHOD_PLUGIN;;
  p ← smpp_plugin_init (default [] i);
  modify (λ s, {| s with auth_plugin := p |});;
  when (negb (from_option authenticates false p)) crash;;
  set_settings (λ c, {| c with plugin_auth := true |}).

Definition auth_settings (grp : Grp) : A unit :=
  match cfg_get_integer grp ($"auth-method") with
  | Some n => set_auth_method n
  | None =>
      set_auth_method SMPP_SERVER_AUTH_METHOD_DATABASE;;
      let name := cfg_get grp ($"auth-method") in
      if octstr_len name =? 0 then set_auth_method SMPP_SERVER_AUTH_METHOD_DATABASE
      else if octstr_case_eq (default [] name) ($"database") then set_auth_method SMPP_SERVER_AUTH_METHOD_DATABASE
      else if octstr_case_eq (default [] name) ($"http") then set_auth_method SMPP_SERVER_AUTH_METHOD_HTTP
      else if octstr_case_eq (default [] name) ($"plugin") then auth_by_plugin grp
      else crash
  end.

(** The first configuration. *)
Definition configure (grp : Grp) : A unit :=
  log_settings grp;;
  general_settings grp;;
  database_settings grp;;
  init_database;;
  auth_settings grp;;
  modify (λ s, {| s with auth_url := cfg_get grp ($"auth-url") |});;
  init_http_server;;
  smpp_route_init;;
  modify (λ s, {| s with configured := true |}).

(** [read]: the file's contents, if it can be read. *)
Definition smpp_server_reconfigure (read : option Cfg) : A Z :=
  c ← gets configured;
  match read with
  | None => if (c : bool) then mret (-1) else crash
  | Some cfg =>
      match cfg_get_single_group cfg ($"ksmppd") with
      | None => if (c : bool) then mret 0 else crash
      | Some grp =>
          modify (λ s, {| s with running_configuration := Some cfg |});;
          when (negb c) (configure grp);;
          mret 0
      end
  end.

(** *** The threads *)

(** smpp_bearerbox_init: groups without a host or a port are left out. *)
Definition read_bearerbox (grp : Grp) : option BearerboxConf :=
  let port := default 0 (cfg_get_integer grp ($"port")) in
  if negb (octstr_len (cfg_get grp ($"host")) =? 0) && negb (port =? 0) then
    Some {| bb_conf_id := cfg_get grp ($"id"); bb_host := default [] (cfg_get grp ($"host")); bb_port := port;
            bb_ssl := cfg_get_bool grp ($"ssl") |}
  else None.

Definition smpp_bearerbox_init : A unit :=
  cfg ← running;
  let boxes := omap read_bearerbox (default [] (cfg_get_multi_group cfg ($"bearerbox-connection"))) in
  modify (λ s, {| s with start_bearerboxes := boxes |});;
  conf ← gets settings;
  (if bool_decide (boxes = []) then when (negb (database_store_primary conf)) crash
   else for_each (λ i, gwthread_create (smpp_bearerbox_inbound_thread i);;
                       gwthread_create (smpp_bearerbox_outbound_thread i)) (seq 0 (length boxes)));;
  when (database_enable_queue conf) (gwthread_create smpp_bearerbox_requeue_thread).

Definition smpp_esme_init : A unit :=
  gwthread_create smpp_esme_cleanup_thread;;
  add_command ($"esme-status") smpp_esme_status_command_cmd;;
  add_command ($"esme-unbind") smpp_esme_unbind_command_cmd.

Definition smpp_queues_init : A unit :=
  gwthread_create smpp_queues_simulation_thread;;
  i ← gets num_inbound_queue_threads;
  for_each gwthread_create (replicate (Z.to_nat i) smpp_queues_inbound_thread);;
  o ← gets num_outbound_queue_threads;
  for_each gwthread_create (replicate (Z.to_nat o) smpp_queues_outbound_thread);;
  gwthread_create smpp_queues_requeue_thread.

(** The port is put into 16 bits. *)
Definition listen_port (s : St) : Z := smpp_port s mod 2 ^ 16.

(** Up to the event loop; false: there is no event base, and the program ends. *)
Definition smpp_listener_start : A bool :=
  if negb event_base_new then mret false
  else
    port ← gets listen_port;
    when (negb (evconnlistener_new_bind port)) crash;;
    smpp_bearerbox_init;;
    smpp_esme_init;;
    smpp_queues_init;;
    mret true.

(** ksmppd.c: main, up to the event loop. *)
Definition SMPP_SERVER_STATUS_STARTUP : Z := 1.
Definition set_status (n : Z) : A unit := set_settings (λ c, {| c with server_status := n |}).
Definition main (read : option Cfg) : A bool :=
  set_status SMPP_SERVER_STATUS_STARTUP;;
  _ ← smpp_server_reconfigure read;
  set_status SMPP_SERVER_STATUS_RUNNING;;
  smpp_listener_start.

End start.
