(* ===== verification/Daemon.v ===== *)
(** The daemon as a whole: the threads' actions as the steps of one transition system,
    and what holds in every state it can reach. The threads of the C program are
    interleaved at the granularity of the actions: one PDU of a queue, one message of
    a bearerbox, one read event, one answer of the routing service, one pass of a
    periodic thread. *)
From stdpp Require Import relations.
From S2P Require Import Prelude CLib Gwlib Types Kannel Dlr PduUtil IpBlock World Callbacks Run Esme.
From S2P Require Import Route Bearerbox Queues Requeue Listener Fields Http.
Open Scope Z_scope.

(** ** What an action may change *)

(** An ESME only loses its connection, only gains its authentication, and its
    counters only grow. *)
Record esme_evolves (c c' : SMPPEsme) : Prop := {
  ev_id : id c' = id c ∧ ip c' = ip c ∧ time_connected c' = time_connected c;
  ev_connected : connected c' = true → connected c = true;
  ev_conn : conn c' = true → conn c = true;
  ev_authenticated : authenticated c = true → authenticated c' = true;
  ev_sequence : esme_sequence_number c ≤ esme_sequence_number c';
  ev_processed : inbound_processed c ≤ inbound_processed c' ∧ outbound_processed c ≤ outbound_processed c';
  ev_counters : mt_counter c ≤ mt_counter c' ∧ mo_counter c ≤ mo_counter c' ∧
                dlr_counter c ≤ dlr_counter c' ∧ error_counter c ≤ error_counter c';
}.

#[export] Instance esme_evolves_preorder : PreOrder esme_evolves.
Proof.
  split.
  - intros c. by split.
  - intros c1 c2 c3 [(?&?&?) ???? [??] (?&?&?&?)] [(?&?&?) ???? [??] (?&?&?&?)].
    split; try (split_and!); try congruence; try lia; auto.
Qed.

(** The ESME an event is about, if it was sent to it or closed. *)
Definition event_esme (ev : event) : option nat :=
  match ev with EvSent e _ | EvClosed e => Some e | _ => None end.

(** Nothing is sent on a connection that was closed, and it is closed once. *)
Definition quiet (t : list event) : Prop :=
  ∀ t1 e t2, t = t1 ++ EvClosed e :: t2 → Forall (λ ev, event_esme ev ≠ Some e) t2.

Section invariant.
Context {DB : Type}.
Implicit Types (w : World DB).

(** An ESME whose connection was closed. *)
Definition shut w (e : nat) : Prop :=
  match esme_heap w !! e with
  | Some (Live c) => connected c = false ∧ conn c = false
  | Some Freed => True
  | None => False
  end.

(** The invariant: addresses are given out in order, and the log is honest about
    closed connections. *)
Record daemon_ok w : Prop := {
  ok_fresh p : (next_ptr w ≤ p)%nat → pdus w !! p = None ∧ esme_heap w !! p = None;
  ok_shut e : EvClosed e ∈ trace w → shut w e;
  ok_quiet : quiet (trace w);
}.

(** How the state develops. *)
Record develops w w' : Prop := {
  dev_next : (next_ptr w ≤ next_ptr w')%nat;
  dev_server : server w' = server w;
  dev_pdus p : is_Some (pdus w !! p) → is_Some (pdus w' !! p);
  dev_freed p : pdus w !! p = Some Freed → pdus w' !! p = Some Freed;
  dev_esmes e :
    match esme_heap w !! e with
    | Some Freed => esme_heap w' !! e = Some Freed
    | Some (Live c) => esme_heap w' !! e = Some Freed ∨ ∃ c', esme_heap w' !! e = Some (Live c') ∧ esme_evolves c c'
    | None => True
    end;
  dev_globals k : is_Some (esmes w !! k) → is_Some (esmes w' !! k);
  dev_trace : trace w `prefix_of` trace w';
}.

#[export] Instance develops_preorder : PreOrder develops.
Proof.
  split.
  - intros w. split; try done. intros e. destruct (esme_heap w !! e) as [[c|]|]; [|done|done].
    right. exists c. split; [done|]. reflexivity.
  - intros w1 w2 w3 [] []. split; try congruence; try lia; auto.
    + intros e. specialize (dev_esmes0 e). specialize (dev_esmes1 e).
      destruct (esme_heap w1 !! e) as [[c|]|]; [|by rewrite dev_esmes0 in dev_esmes1|done].
      destruct dev_esmes0 as [Hf|(c' & Hc' & Hev)]; [rewrite Hf in dev_esmes1; by left|].
      rewrite Hc' in dev_esmes1. destruct dev_esmes1 as [?|(c'' & ? & ?)]; [by left|].
      right. exists c''. split; [done|]. by transitivity c'.
    + by etransitivity.
Qed.

(** The invariant of an action that started in [w0]. *)
Definition since w0 w : Prop := daemon_ok w ∧ develops w0 w.

Lemma since_refl w : daemon_ok w → since w w.
Proof. by split. Qed.

(** An action that is sound from every state is sound within a longer one. *)
Lemma preserves_since {A} (m : W DB A) w0 :
  (∀ w a w', daemon_ok w → m w = Some (a, w') → since w w') → preserves (since w0) m.
Proof.
  intros Hm w a w' [Hok Hdev] Hrun. destruct (Hm w a w' Hok Hrun) as [Hok' Hdev'].
  split; [done|]. by transitivity w.
Qed.

(** ** The primitive actions *)

(** Changes of the fields the invariant does not look at. *)
Lemma since_frame w0 w w' :
  next_ptr w' = next_ptr w → server w' = server w → pdus w' = pdus w → esme_heap w' = esme_heap w →
  esmes w' = esmes w → trace w' = trace w → since w0 w → since w0 w'.
Proof.
  intros Hn Hs Hp He Hg Ht [[] []]. split; split; unfold shut in *; rewrite ?Hn, ?Hs, ?Hp, ?He, ?Hg, ?Ht; auto.
Qed.

Lemma since_with_esme w e c c' :
  daemon_ok w → lookup_esme w e = Some c → esme_evolves c c' → since w (with_esme w e c').
Proof.
  intros [Hf Hs Hq] Hc Hev. unfold lookup_esme in Hc.
  destruct (esme_heap w !! e) as [[c0|]|] eqn:He; try done. injection Hc as ->.
  split; split; cbn; try done.
  - intros p Hp. destruct (Hf p Hp). split; [done|]. rewrite lookup_insert_ne; [done|]. congruence.
  - intros e' He'. specialize (Hs e' He'). unfold shut in *. cbn.
    destruct (decide (e = e')) as [<-|]; [|by rewrite lookup_insert_ne].
    rewrite lookup_insert_eq. rewrite He in Hs. destruct Hs as [Hcon Hco]. destruct Hev as [_ H1 H2 _ _ _ _].
    split; apply not_true_iff_false; intros Ht; [apply H1 in Ht|apply H2 in Ht]; congruence.
  - intros e'. destruct (decide (e = e')) as [<-|]; [|rewrite lookup_insert_ne by done].
    + rewrite He, lookup_insert_eq. eauto.
    + destruct (esme_heap w !! e') as [[]|]; [|done|done]. right. eexists. split; [done|reflexivity].
Qed.

Lemma since_with_pdu w p q q' : daemon_ok w → lookup_pdu w p = Some q → since w (with_pdu w p q').
Proof.
  intros [Hf Hs Hq] Hp. unfold lookup_pdu in Hp.
  destruct (pdus w !! p) as [[q0|]|] eqn:Hp'; try done.
  split; split; cbn; try done.
  - intros p' Hle. destruct (Hf p' Hle). split; [|done]. rewrite lookup_insert_ne; [done|]. congruence.
  - intros p' ?. destruct (decide (p = p')) as [<-|]; [by rewrite lookup_insert_eq|by rewrite lookup_insert_ne].
  - intros p' ?. rewrite lookup_insert_ne; [done|]. congruence.
  - intros e. destruct (esme_heap w !! e) as [[]|]; [|done|done]. right. eexists. split; [done|reflexivity].
Qed.

Lemma since_emit w ev :
  daemon_ok w →
  (∀ e, event_esme ev = Some e → EvClosed e ∉ trace w) → (∀ e, ev = EvClosed e → shut w e) →
  since w {| w with trace := trace w ++ [ev] |}.
Proof.
  intros [Hf Hs Hq] Hev Hcl. split; split; cbn; try done.
  - intros e [He|<-%list_elem_of_singleton]%elem_of_app; [by apply Hs|by apply Hcl].
  - intros t1 e t2 Ht. destruct t2 as [|ev' t2 _] using rev_ind; [done|].
    rewrite app_comm_cons, app_assoc in Ht. apply app_inj_tail in Ht as [Ht <-].
    apply Forall_app. split; [by eapply Hq|]. constructor; [|done]. intros He.
    apply (Hev e He). rewrite Ht. apply elem_of_app. right. left.
  - intros e. destruct (esme_heap w !! e) as [[]|]; [|done|done]. right. eexists. split; [done|reflexivity].
  - by eexists.
Qed.

Lemma since_alloc w q : daemon_ok w → since w (with_alloc w q).
Proof.
  intros [Hf Hs Hq]. split; split; cbn; try done.
  - intros p Hp. destruct (Hf p) as [Hp1 Hp2]; [lia|]. split; [|done]. rewrite lookup_insert_ne; [done|lia].
  - lia.
  - intros p ?. destruct (decide (next_ptr w = p)) as [<-|]; [by rewrite lookup_insert_eq|by rewrite lookup_insert_ne].
  - intros p Hp. rewrite lookup_insert_ne; [done|]. intros <-. destruct (Hf (next_ptr w)) as [Hn _]; [lia|].
    by rewrite Hn in Hp.
  - intros e. destruct (esme_heap w !! e) as [[]|]; [|done|done]. right. eexists. split; [done|reflexivity].
Qed.

Lemma since_freed w p q : daemon_ok w → lookup_pdu w p = Some q → since w (set_pdus <[p := Freed]> w).
Proof.
  intros [Hf Hs Hq] Hp. unfold lookup_pdu in Hp.
  destruct (pdus w !! p) as [[q0|]|] eqn:Hp'; try done.
  split; split; cbn; try done.
  - intros p' Hle. destruct (Hf p' Hle). split; [|done]. rewrite lookup_insert_ne; [done|]. congruence.
  - intros p' ?. destruct (decide (p = p')) as [<-|]; [by rewrite lookup_insert_eq|by rewrite lookup_insert_ne].
  - intros p' ?. destruct (decide (p = p')) as [<-|]; [by rewrite lookup_insert_eq|by rewrite lookup_insert_ne].
  - intros e. destruct (esme_heap w !! e) as [[]|]; [|done|done]. right. eexists. split; [done|reflexivity].
Qed.

Lemma since_esme_freed w e c :
  daemon_ok w → lookup_esme w e = Some c → since w (set_esme_heap <[e := Freed]> w).
Proof.
  intros [Hf Hs Hq] Hc. unfold lookup_esme in Hc.
  destruct (esme_heap w !! e) as [[c0|]|] eqn:He; try done.
  split; split; cbn; try done.
  - intros p Hp. destruct (Hf p Hp). split; [done|]. rewrite lookup_insert_ne; [done|]. congruence.
  - intros e' He'. specialize (Hs e' He'). unfold shut in *. cbn.
    destruct (decide (e = e')) as [<-|]; [by rewrite lookup_insert_eq|by rewrite lookup_insert_ne].
  - intros e'. destruct (decide (e = e')) as [<-|]; [|rewrite lookup_insert_ne by done].
    + rewrite He, lookup_insert_eq. by left.
    + destruct (esme_heap w !! e') as [[]|]; [|done|done]. right. eexists. split; [done|reflexivity].
Qed.

End invariant.

(** ** Every action preserves the invariant *)

Create HintDb daemon discriminated.

(** An ESME's update that changes counters and settings. *)
Ltac evolves :=
  intros; split; cbn; try (split_and!); try done; unfold counter_dec; try lia; auto.

(** Changes of fields the invariant does not look at, and sequences of actions. *)
Ltac since_modify :=
  let w := fresh "w" in let Hw := fresh "Hw" in
  apply preserves_modify; intros w Hw; apply (since_frame _ w); solve [reflexivity | exact Hw].
Ltac daemon_step :=
  first
    [ apply preserves_ret | apply preserves_crash | apply preserves_gets | apply preserves_get
    | apply preserves_deref
    | apply preserves_when
    | apply preserves_for_each; intros ??
    | solve [auto with daemon nocore]
    | apply preserves_bind; [|intros ?]
    | since_modify
    | match goal with
      | |- preserves _ (match ?x with _ => _ end) => destruct x eqn:?
      | |- preserves _ (let '_ := ?x in _) => destruct x eqn:?
      end ].
Ltac daemon_auto := repeat daemon_step.

Section primitives.
Context {DB : Type}.
Implicit Types (w : World DB).

Lemma read_pdu_since w0 p : preserves (since w0) (read_pdu (DB := DB) p).
Proof. unfold read_pdu. daemon_auto. Qed.
Lemma read_esme_since w0 e : preserves (since w0) (read_esme (DB := DB) e).
Proof. unfold read_esme. daemon_auto. Qed.
Lemma read_bb_since w0 b : preserves (since w0) (read_bb (DB := DB) b).
Proof. unfold read_bb. daemon_auto. Qed.
Lemma read_global_since w0 e : preserves (since w0) (read_global (DB := DB) e).
Proof.
  unfold read_global. apply preserves_bind; [apply read_esme_since|intros c]. daemon_auto.
Qed.

Lemma read_esme_inv e c w w' : read_esme e w = Some (c, w') → w' = w ∧ lookup_esme w e = Some c.
Proof.
  unfold read_esme. rewrite bind_unfold. cbn. destruct (lookup_esme w e); [|done]. by intros [= -> ->].
Qed.
Lemma read_pdu_inv p q w w' : read_pdu p w = Some (q, w') → w' = w ∧ lookup_pdu w p = Some q.
Proof.
  unfold read_pdu. rewrite bind_unfold. cbn. destruct (lookup_pdu w p); [|done]. by intros [= -> ->].
Qed.

Lemma write_esme_since w0 e c' :
  (∀ w c, lookup_esme w e = Some c → since w0 w → esme_evolves c c') →
  preserves (since w0) (write_esme (DB := DB) e c').
Proof.
  intros Hev w [] w' Hw Hrun. unfold write_esme in Hrun.
  apply bind_Some in Hrun as (c & w1 & Hc & Hm). apply read_esme_inv in Hc as [-> Hc].
  injection Hm as <-. destruct Hw as [Hok Hdev].
  destruct (since_with_esme w e c c' Hok Hc) as [? ?]; [by apply (Hev w)|].
  split; [done|]. by transitivity w.
Qed.

Lemma update_esme_since w0 e f :
  (∀ c, esme_evolves c (f c)) → preserves (since w0) (update_esme (DB := DB) e f).
Proof.
  intros Hev. apply preserves_since. intros w [] w' Hok Hrun. unfold update_esme in Hrun.
  apply bind_Some in Hrun as (c & w1 & Hc & Hm). apply read_esme_inv in Hc as [-> Hc].
  unfold write_esme in Hm. rewrite (read_esme_bind _ c) in Hm by done. injection Hm as <-.
  by apply (since_with_esme w e c).
Qed.

Lemma write_pdu_since w0 p q : preserves (since w0) (write_pdu (DB := DB) p q).
Proof.
  apply preserves_since. intros w [] w' Hok Hrun. unfold write_pdu in Hrun.
  apply bind_Some in Hrun as (q0 & w1 & Hq & Hm). apply read_pdu_inv in Hq as [-> Hq].
  injection Hm as <-. by apply (since_with_pdu w p q0).
Qed.

Lemma alloc_pdu_since w0 q : preserves (since w0) (alloc_pdu (DB := DB) q).
Proof. apply preserves_since. intros w p w' Hok [= <- <-]. by apply since_alloc. Qed.

Lemma destroy_since w0 p : preserves (since w0) (smpp_queued_pdu_destroy (DB := DB) p).
Proof.
  apply preserves_since. intros w [] w' Hok Hrun. unfold smpp_queued_pdu_destroy in Hrun.
  apply bind_Some in Hrun as (q & w1 & Hq & Hm). apply read_pdu_inv in Hq as [-> Hq].
  injection Hm as <-. by apply (since_freed w p q).
Qed.

Lemma update_global_since w0 e f : preserves (since w0) (update_global (DB := DB) e f).
Proof.
  unfold update_global. apply preserves_bind; [apply read_global_since|intros [k g]].
  apply preserves_modify. intros w [[] []]. split; split; try done. intros k' Hk'.
  cbn. destruct (decide (k = k')) as [<-|]; [by rewrite lookup_insert_eq|rewrite lookup_insert_ne by done; auto].
Qed.

Lemma emit_since w0 ev : event_esme ev = None → preserves (since w0) (emit (DB := DB) ev).
Proof.
  intros Hev. apply preserves_since. intros w [] w' Hok [= <-].
  apply since_emit; [done|by rewrite Hev|by intros e ->].
Qed.

Lemma esme_of_since w0 q : preserves (since w0) (esme_of (DB := DB) q).
Proof. apply preserves_deref. Qed.
Lemma pdu_of_since w0 q : preserves (since w0) (pdu_of (DB := DB) q).
Proof. apply preserves_deref. Qed.
Lemma now_since w0 : preserves (since w0) (now (DB := DB)).
Proof. apply preserves_gets. Qed.
Lemma server_since w0 : preserves (since w0) (the_server (DB := DB)).
Proof. apply preserves_gets. Qed.

Lemma next_write_since w0 : preserves (since w0) (next_write (DB := DB)).
Proof. unfold next_write. daemon_auto. Qed.
Lemma update_bb_since w0 b f : preserves (since w0) (update_bb (DB := DB) b f).
Proof. unfold update_bb. apply preserves_bind; [apply read_bb_since|intros c]. daemon_auto. Qed.
Lemma db_call_since {A} w0 (f : DB → A * DB) : preserves (since w0) (db_call f).
Proof. unfold db_call. daemon_auto. Qed.

End primitives.

#[export] Hint Resolve read_pdu_since read_esme_since read_bb_since read_global_since write_pdu_since
  alloc_pdu_since destroy_since update_global_since esme_of_since pdu_of_since now_since server_since
  next_write_since update_bb_since db_call_since : daemon.
#[export] Hint Extern 2 (preserves _ (emit _)) => (apply emit_since; reflexivity) : daemon.
#[export] Hint Extern 2 (preserves _ (update_esme _ _)) => (apply update_esme_since; evolves) : daemon.

Section actions.
Context {DB : Type} `{TimeLib} `{OctstrLib} `{KannelLib} `{DatabaseOps DB} `{EsmeEnv} `{RegexLib} `{BoxEnv}.
Context `{FieldLib} `{HttpLib}.
Context (method : option routing_method) (plugin : bool) (uuid : nat → Octstr).
Implicit Types (w : World DB).

(** *** Counters, the database, and disconnecting *)

Lemma count_mt_since w0 e : preserves (since w0) (count_mt (DB := DB) e).
Proof. unfold count_mt. daemon_auto. Qed.
Lemma count_error_since w0 e : preserves (since w0) (count_error (DB := DB) e).
Proof. unfold count_error. daemon_auto. Qed.
Lemma count_delivery_since w0 e p : preserves (since w0) (count_delivery (DB := DB) e p).
Proof. unfold count_delivery, count_dlr, count_mo. daemon_auto. Qed.

Lemma database_remove_since w0 g t : preserves (since w0) (smpp_database_remove (DB := DB) g t).
Proof. unfold smpp_database_remove. daemon_auto. Qed.
Lemma database_remove_dlr_since w0 g : preserves (since w0) (smpp_database_remove_dlr (DB := DB) g).
Proof. unfold smpp_database_remove_dlr. daemon_auto. Qed.
Lemma database_add_pdu_since w0 p : preserves (since w0) (smpp_database_add_pdu (DB := DB) p).
Proof. unfold smpp_database_add_pdu. daemon_auto. Qed.
Lemma database_add_message_since w0 m : preserves (since w0) (smpp_database_add_message (DB := DB) m).
Proof. unfold smpp_database_add_message. daemon_auto. Qed.
Lemma database_add_queue_message_since w0 m : preserves (since w0) (smpp_database_add_queue_message (DB := DB) m).
Proof. unfold smpp_database_add_queue_message. daemon_auto. Qed.
Lemma database_get_routes_since w0 d s : preserves (since w0) (smpp_database_get_routes (DB := DB) d s).
Proof. unfold smpp_database_get_routes. daemon_auto. Qed.
Lemma database_get_stored_since w0 t s l : preserves (since w0) (smpp_database_get_stored (DB := DB) t s l).
Proof. unfold smpp_database_get_stored. daemon_auto. Qed.
Lemma database_mt_stored_since w0 t s l :
  preserves (since w0) (smpp_database_get_bearerbox_mt_stored (DB := DB) t s l).
Proof. unfold smpp_database_get_bearerbox_mt_stored. daemon_auto. Qed.
Lemma database_get_dlrs_since w0 s l : preserves (since w0) (smpp_database_get_dlrs (DB := DB) s l).
Proof. unfold smpp_database_get_dlrs. daemon_auto. Qed.
Lemma database_get_stored_pdu_since w0 s l : preserves (since w0) (smpp_database_get_stored_pdu (DB := DB) s l).
Proof. unfold smpp_database_get_stored_pdu. daemon_auto. Qed.
Lemma database_deduct_since w0 s c : preserves (since w0) (smpp_database_deduct_credit (DB := DB) s c).
Proof. unfold smpp_database_deduct_credit. daemon_auto. Qed.
Lemma database_queued_since w0 : preserves (since w0) (smpp_database_get_esmes_with_queued (DB := DB)).
Proof. unfold smpp_database_get_esmes_with_queued. daemon_auto. Qed.

Lemma stop_listening_since w0 e : preserves (since w0) (smpp_esme_stop_listening (DB := DB) e).
Proof. unfold smpp_esme_stop_listening. daemon_auto. Qed.

Lemma update_esme_inv e f w u w' :
  update_esme e f w = Some (u, w') → ∃ c, lookup_esme w e = Some c ∧ w' = with_esme w e (f c).
Proof.
  unfold update_esme. intros (c & w1 & Hc & Hm)%bind_Some. apply read_esme_inv in Hc as [-> Hc].
  unfold write_esme in Hm. rewrite (read_esme_bind _ c) in Hm by done. injection Hm as _ <-. by exists c.
Qed.

Lemma shut_with_esme w e c : shut (with_esme w e c) e ↔ connected c = false ∧ conn c = false.
Proof. unfold shut, with_esme, set_esme_heap. cbn. by rewrite lookup_insert_eq. Qed.

(** An ESME that is connected or has a connection was not closed. *)
Lemma not_closed w e c :
  daemon_ok w → lookup_esme w e = Some c → connected c = true ∨ conn c = true → EvClosed e ∉ trace w.
Proof.
  intros [_ Hs _] Hc Hopen Hin. specialize (Hs e Hin). unfold shut in Hs. unfold lookup_esme in Hc.
  destruct (esme_heap w !! e) as [[c0|]|]; try done. injection Hc as ->.
  destruct Hs, Hopen; congruence.
Qed.

Lemma disconnect_since w0 e : preserves (since w0) (smpp_esme_disconnect (DB := DB) e).
Proof.
  apply preserves_since. intros w [] w' Hok Hrun. unfold smpp_esme_disconnect in Hrun.
  apply bind_Some in Hrun as ([] & w1 & Hstop & Hrun). apply update_esme_inv in Hstop as (c & Hc & ->).
  apply bind_Some in Hrun as (c1 & w1 & Hc1 & Hrun). apply read_esme_inv in Hc1 as [-> Hc1].
  rewrite lookup_with_esme_eq in Hc1. injection Hc1 as <-.
  assert (since w (with_esme w e (silence c))) as Hsil by (apply (since_with_esme w e c); [done|done|evolves]).
  destruct (conn (silence c)) eqn:Hconn; cbn [when] in Hrun; [|by injection Hrun as <-].
  apply bind_Some in Hrun as ([] & w2 & Hupd & Hrun). apply update_esme_inv in Hupd as (c2 & Hc2 & ->).
  rewrite lookup_with_esme_eq in Hc2. injection Hc2 as <-. injection Hrun as <-.
  destruct Hsil as [Hok1 Hdev1].
  destruct (since_with_esme (with_esme w e (silence c)) e (silence c)
              {| (silence c) with conn := false |}) as [Hok2 Hdev2]; [done|apply lookup_with_esme_eq|evolves|].
  destruct (since_emit _ (EvClosed e) Hok2) as [Hok3 Hdev3].
  - intros e' [= <-]. apply (not_closed w e c); [done|done|]. by right.
  - intros e' [= <-]. by apply shut_with_esme.
  - split; [done|]. etransitivity; [exact Hdev1|]. by etransitivity.
Qed.

(** *** smpp_queues.c and smpp_bearerbox.c: enqueueing and the callbacks *)

#[local] Hint Resolve count_mt_since count_error_since count_delivery_since database_remove_since
  database_remove_dlr_since database_add_pdu_since database_add_message_since
  database_add_queue_message_since database_get_routes_since database_get_stored_since
  database_mt_stored_since database_get_dlrs_since database_get_stored_pdu_since database_deduct_since
  database_queued_since stop_listening_since disconnect_since : daemon.

Lemma add_outbound_since w0 p : preserves (since w0) (smpp_queues_add_outbound (DB := DB) p).
Proof. unfold smpp_queues_add_outbound, put_open_ack, produce_outbound. daemon_auto. Qed.
Lemma add_inbound_since w0 p : preserves (since w0) (smpp_queues_add_inbound (DB := DB) p).
Proof. unfold smpp_queues_add_inbound, produce_inbound. daemon_auto. Qed.
Lemma acknowledge_since w0 b i st : preserves (since w0) (smpp_bearerbox_acknowledge (DB := DB) b i st).
Proof. unfold smpp_bearerbox_acknowledge, smpp_bearerbox_set_state. daemon_auto. Qed.

#[local] Hint Resolve add_outbound_since add_inbound_since acknowledge_since : daemon.

Lemma settle_since w0 q : preserves (since w0) (settle (DB := DB) q).
Proof. unfold settle. daemon_auto. Qed.
#[local] Hint Resolve settle_since : daemon.

Lemma run_callback_since w0 cb p st : preserves (since w0) (run_callback (DB := DB) cb p st).
Proof.
  destruct cb; cbn [run_callback]; unfold smpp_queues_callback_deliver_sm_resp, smpp_esme_db_queue_callback,
    database_queued_pdu_handler; daemon_auto.
Qed.
Lemma run_bb_callback_since w0 cb st : preserves (since w0) (run_bb_callback (DB := DB) cb st).
Proof.
  destruct cb; cbn [run_bb_callback]; unfold smpp_queues_callback_submit_sm, smpp_queues_callback_data_sm,
    smpp_bearerbox_requeue_result; daemon_auto.
Qed.
Lemma create_quick_since w0 e t n : preserves (since w0) (smpp_queued_pdu_create_quick (DB := DB) e t n).
Proof. unfold smpp_queued_pdu_create_quick. daemon_auto. Qed.
#[local] Hint Resolve run_callback_since run_bb_callback_since create_quick_since : daemon.

(** *** smpp_esme.c *)

Lemma read_esmes_since w0 es : preserves (since w0) (read_esmes (DB := DB) es).
Proof. induction es; cbn [read_esmes]; daemon_auto. Qed.
#[local] Hint Resolve read_esmes_since : daemon.

Lemma best_receiver_since w0 sid : preserves (since w0) (smpp_esme_find_best_receiver (DB := DB) sid).
Proof. unfold smpp_esme_find_best_receiver. daemon_auto. Qed.
Lemma auth_failed_since w0 ip : preserves (since w0) (note_auth_failed (DB := DB) ip).
Proof. unfold note_auth_failed. daemon_auto. Qed.
Lemma load_in_since w0 e : preserves (since w0) (smpp_esme_inbound_load_increase (DB := DB) e).
Proof. unfold smpp_esme_inbound_load_increase. daemon_auto. Qed.
Lemma load_out_since w0 e : preserves (since w0) (smpp_esme_outbound_load_increase (DB := DB) e).
Proof. unfold smpp_esme_outbound_load_increase. daemon_auto. Qed.
Lemma cleanup_since w0 e : preserves (since w0) (smpp_esme_cleanup (DB := DB) e).
Proof. unfold smpp_esme_cleanup. daemon_auto. Qed.
#[local] Hint Resolve best_receiver_since auth_failed_since load_in_since load_out_since cleanup_since : daemon.

Lemma insert_global_since w0 k f :
  preserves (since w0) (modify (λ w : World DB, {| w with esmes := <[k := f w]> (esmes w) |})).
Proof.
  apply preserves_modify. intros w [[] []]. split; split; try done. intros k' Hk'. cbn.
  destruct (decide (k = k')) as [<-|]; [by rewrite lookup_insert_eq|rewrite lookup_insert_ne by done; auto].
Qed.

Lemma auth_since w0 sid pass e : preserves (since w0) (smpp_esme_auth (DB := DB) sid pass e).
Proof. unfold smpp_esme_auth, authenticate_by_method, smpp_database_auth. daemon_auto. Qed.
Lemma global_add_since w0 e : preserves (since w0) (smpp_esme_global_add (DB := DB) e).
Proof. unfold smpp_esme_global_add. daemon_auto. apply insert_global_since. Qed.

Lemma disconnect_live e w w' : smpp_esme_disconnect e w = Some (tt, w') → ∃ c, lookup_esme w' e = Some c.
Proof.
  unfold smpp_esme_disconnect. intros ([] & w1 & Hstop & Hrun)%bind_Some.
  apply update_esme_inv in Hstop as (c & _ & ->). rewrite (read_esme_bind _ _ _ _ (lookup_with_esme_eq _ _ _)) in Hrun.
  destruct (conn (silence c)); cbn [when] in Hrun.
  - apply bind_Some in Hrun as ([] & w2 & Hupd & [= <-]). apply update_esme_inv in Hupd as (c2 & _ & ->).
    eexists. exact (lookup_with_esme_eq _ _ _).
  - injection Hrun as <-. eexists. exact (lookup_with_esme_eq _ _ _).
Qed.

Lemma esme_destroy_since w0 e : preserves (since w0) (smpp_esme_destroy (DB := DB) e).
Proof.
  unfold smpp_esme_destroy, smpp_esme_destroy_open_acks. apply preserves_bind; [daemon_auto|intros _].
  intros w [] w' Hw Hrun. apply bind_Some in Hrun as ([] & w1 & Hdis & Hrun). injection Hrun as <-.
  destruct (disconnect_since w0 e w tt w1 Hw Hdis) as [Hok1 Hdev1]. apply disconnect_live in Hdis as (c & Hc).
  destruct (since_esme_freed w1 e c Hok1 Hc) as [Hok2 Hdev2]. split; [done|]. by transitivity w1.
Qed.

Lemma enquire_link_since w0 e : preserves (since w0) (smpp_queues_send_enquire_link (DB := DB) e).
Proof. unfold smpp_queues_send_enquire_link. daemon_auto. Qed.
Lemma expire_ack_since w0 e k : preserves (since w0) (expire_ack (DB := DB) e k).
Proof. unfold expire_ack. daemon_auto. Qed.
#[local] Hint Resolve auth_since global_add_since esme_destroy_since enquire_link_since expire_ack_since
  insert_global_since : daemon.

Lemma cleanup_binds_since w0 es : preserves (since w0) (cleanup_binds (DB := DB) es).
Proof. induction es; cbn [cleanup_binds]; unfold cleanup_bind; daemon_auto. Qed.
Lemma cleanup_queue_since w0 es : preserves (since w0) (cleanup_queue_pass (DB := DB) es).
Proof. induction es; cbn [cleanup_queue_pass]; unfold cleanup_queued; daemon_auto. Qed.
#[local] Hint Resolve cleanup_binds_since cleanup_queue_since : daemon.

Lemma cleanup_pass_since w0 : preserves (since w0) (smpp_esme_cleanup_pass (DB := DB)).
Proof. unfold smpp_esme_cleanup_pass, cleanup_global. daemon_auto. Qed.

(** *** smpp_bearerbox.c *)

Lemma conversion_evolves t m c r c' : smpp_pdu_msg_to_pdu t m c = Some (r, c') → esme_evolves c c'.
Proof.
  enough (preserves (esme_evolves c) (smpp_pdu_msg_to_pdu t m)) as Hp by (intros Hrun; by apply (Hp c r c')).
  assert (∀ (f : SMPPEsme → SMPPEsme), (∀ x, esme_evolves x (f x)) → preserves (esme_evolves c) (modify f)) as Hmod.
  { intros f Hf. apply preserves_modify. intros x Hx. by transitivity x. }
  assert (∀ tpl parts, preserves (esme_evolves c) (part_pdus m tpl parts)) as Hparts.
  { intros tpl parts. induction parts as [|m2 parts IH]; cbn [part_pdus]; [apply preserves_ret|].
    unfold part_pdu. daemon_auto; try done. apply Hmod. evolves. }
  unfold smpp_pdu_msg_to_pdu. daemon_auto; try done. apply Hmod. evolves.
Qed.

Lemma msg_to_pdus_since w0 e m : preserves (since w0) (msg_to_pdus (DB := DB) e m).
Proof.
  intros w ps w' Hw Hrun. unfold msg_to_pdus in Hrun. rewrite bind_unfold in Hrun. cbn [now gets] in Hrun.
  apply bind_Some in Hrun as (c & w1 & Hc & Hrun). apply read_esme_inv in Hc as [-> Hc].
  apply bind_Some in Hrun as ([ps' c'] & w1 & Hconv & Hrun).
  destruct (smpp_pdu_msg_to_pdu _ m c) as [[r c'']|] eqn:Hto; [|done]. injection Hconv as <- <- <-.
  apply bind_Some in Hrun as ([] & w1 & Hwrite & [= <- <-]).
  unfold write_esme in Hwrite. rewrite (read_esme_bind _ c) in Hwrite by done. injection Hwrite as <-.
  destruct Hw as [Hok Hdev]. destruct (since_with_esme w e c c'' Hok Hc) as [? ?]; [by eapply conversion_evolves|].
  split; [done|]. by transitivity w.
Qed.
#[local] Hint Resolve msg_to_pdus_since : daemon.

Lemma queue_deliver_since w0 e q pd : preserves (since w0) (queue_deliver (DB := DB) e q pd).
Proof. unfold queue_deliver. daemon_auto. Qed.
Lemma produce_bb_since w0 m : preserves (since w0) (produce_bb (DB := DB) m).
Proof. unfold produce_bb. daemon_auto. Qed.
#[local] Hint Resolve queue_deliver_since produce_bb_since : daemon.

Lemma bb_add_to_queue_since w0 m : preserves (since w0) (smpp_bearerbox_add_to_queue (DB := DB) m).
Proof. unfold smpp_bearerbox_add_to_queue. daemon_auto. Qed.
Lemma bb_routing_done_since w0 b m r : preserves (since w0) (smpp_bearerbox_routing_done (DB := DB) b m r).
Proof. unfold smpp_bearerbox_routing_done. daemon_auto. Qed.
Lemma requeue_routing_done_since w0 d m r :
  preserves (since w0) (smpp_bearerbox_requeue_routing_done (DB := DB) d m r).
Proof. unfold smpp_bearerbox_requeue_routing_done. daemon_auto. Qed.
Lemma route_message_since w0 meth pl dir smsc sid m cb :
  preserves (since w0) (smpp_route_message (DB := DB) meth pl dir smsc sid m cb).
Proof. unfold smpp_route_message, smpp_route_message_plugin, smpp_route_message_database, outbound_routes_of. daemon_auto. Qed.
#[local] Hint Resolve bb_add_to_queue_since bb_routing_done_since requeue_routing_done_since
  route_message_since : daemon.

Lemma handle_report_since w0 b m : preserves (since w0) (smpp_bearerbox_handle_report (DB := DB) b m).
Proof. unfold smpp_bearerbox_handle_report. daemon_auto. Qed.
#[local] Hint Resolve handle_report_since : daemon.

Lemma handle_sms_since w0 b m : preserves (since w0) (smpp_bearerbox_handle_sms (DB := DB) method plugin b m).
Proof. unfold smpp_bearerbox_handle_sms. daemon_auto. Qed.
Lemma bb_outbound_since w0 b : preserves (since w0) (smpp_bearerbox_outbound_step (DB := DB) b).
Proof. unfold smpp_bearerbox_outbound_step. daemon_auto. Qed.
Lemma reconnect_since w0 b c : preserves (since w0) (smpp_bearerbox_reconnect (DB := DB) b c).
Proof. unfold smpp_bearerbox_reconnect, smpp_bearerbox_identify, smpp_bearerbox_set_state. daemon_auto. Qed.
Lemma handle_ack_since w0 b i n : preserves (since w0) (smpp_bearerbox_handle_ack (DB := DB) b i n).
Proof. unfold smpp_bearerbox_handle_ack. daemon_auto. Qed.
Lemma heartbeat_since w0 b : preserves (since w0) (smpp_bearerbox_heartbeat (DB := DB) b).
Proof. unfold smpp_bearerbox_heartbeat, smpp_bearerbox_deliver, smpp_bearerbox_set_state. daemon_auto. Qed.
Lemma box_state_since w0 b st : preserves (since w0) (smpp_bearerbox_set_state (DB := DB) b st).
Proof. unfold smpp_bearerbox_set_state. daemon_auto. Qed.
Lemma bb_requeue_since w0 : preserves (since w0) (smpp_bearerbox_requeue_pass (DB := DB) method plugin).
Proof. unfold smpp_bearerbox_requeue_pass, requeue_mt, requeue_mo. daemon_auto. Qed.

(** *** The queues' threads *)

Lemma update_pdu_since w0 p f : preserves (since w0) (update_pdu (DB := DB) p f).
Proof. unfold update_pdu. daemon_auto. Qed.
Lemma fresh_uuid_since w0 : preserves (since w0) (fresh_uuid (DB := DB) uuid).
Proof. unfold fresh_uuid. daemon_auto. Qed.
Lemma convert_request_since w0 p conv : preserves (since w0) (convert_request (DB := DB) p conv).
Proof. unfold convert_request. daemon_auto. Qed.
#[local] Hint Resolve update_pdu_since fresh_uuid_since convert_request_since : daemon.

Lemma respond_since w0 e t n st : preserves (since w0) (respond (DB := DB) e t n st).
Proof. unfold respond. daemon_auto. Qed.
Lemma charge_since w0 e c : preserves (since w0) (charge (DB := DB) e c).
Proof. unfold charge. daemon_auto. Qed.
Lemma reject_since w0 p e st : preserves (since w0) (reject_submit (DB := DB) p e st).
Proof. unfold reject_submit. daemon_auto. Qed.
#[local] Hint Resolve respond_since charge_since reject_since : daemon.

Lemma accept_submit_since w0 p e m : preserves (since w0) (accept_submit (DB := DB) p e m).
Proof. unfold accept_submit, hand_over, smpp_queues_callback_submit_sm. daemon_auto. Qed.
Lemma accept_data_since w0 p e m : preserves (since w0) (accept_data (DB := DB) p e m).
Proof. unfold accept_data, hand_over, smpp_queues_callback_data_sm. daemon_auto. Qed.

#[local] Hint Resolve accept_submit_since accept_data_since : daemon.

Lemma route_callback_since w0 cb m st : preserves (since w0) (run_route_callback (DB := DB) cb m st).
Proof.
  destruct cb; cbn [run_route_callback];
    unfold smpp_queues_submit_routing_done, smpp_queues_data_sm_routing_done, routing_done; daemon_auto.
Qed.
#[local] Hint Resolve route_callback_since : daemon.

Lemma route_submission_since w0 e resp n m cb :
  preserves (since w0) (route_submission (DB := DB) method plugin e resp n m cb).
Proof. unfold route_submission. daemon_auto. Qed.
Lemma simulate_message_since w0 e m : preserves (since w0) (simulate_message (DB := DB) e m).
Proof. unfold simulate_message, produce_simulation. daemon_auto. Qed.
#[local] Hint Resolve route_submission_since simulate_message_since : daemon.

Lemma handle_simulated_since w0 p e n : preserves (since w0) (handle_simulated (DB := DB) uuid p e n).
Proof. unfold handle_simulated. daemon_auto. Qed.
#[local] Hint Resolve handle_simulated_since : daemon.

Lemma handle_submit_since w0 p : preserves (since w0) (smpp_queues_handle_submit_sm (DB := DB) method plugin uuid p).
Proof. unfold smpp_queues_handle_submit_sm. daemon_auto. Qed.
Lemma handle_data_since w0 p : preserves (since w0) (smpp_queues_handle_data_sm (DB := DB) method plugin uuid p).
Proof. unfold smpp_queues_handle_data_sm. daemon_auto. Qed.
Lemma handle_bind_since w0 p : preserves (since w0) (smpp_queues_handle_bind_pdu (DB := DB) p).
Proof. unfold smpp_queues_handle_bind_pdu. daemon_auto. Qed.
Lemma handle_enquire_since w0 p : preserves (since w0) (smpp_queues_handle_enquire_link (DB := DB) p).
Proof. unfold smpp_queues_handle_enquire_link, reply. daemon_auto. Qed.
Lemma handle_unbind_since w0 p : preserves (since w0) (smpp_queues_handle_unbind (DB := DB) p).
Proof. unfold smpp_queues_handle_unbind, reply. daemon_auto. Qed.
Lemma process_ack_since w0 e n st : preserves (since w0) (smpp_queues_process_ack (DB := DB) e n st).
Proof. unfold smpp_queues_process_ack. daemon_auto. Qed.
#[local] Hint Resolve handle_submit_since handle_data_since handle_bind_since handle_enquire_since
  handle_unbind_since process_ack_since : daemon.

Lemma inbound_since w0 : preserves (since w0) (smpp_queues_inbound_step (DB := DB) method plugin uuid).
Proof. unfold smpp_queues_inbound_step. daemon_auto. Qed.

(** An action that leaves the log alone, as long as nothing was closed. *)
Lemma with_open_log {A} w0 e (m : W DB A) :
  preserves (since w0) m → (∀ w a w', m w = Some (a, w') → trace w' = trace w) →
  preserves (λ w, since w0 w ∧ EvClosed e ∉ trace w) m.
Proof. intros Hm Ht w a w' [Hw He] Hrun. split; [by eapply Hm|]. by rewrite (Ht _ _ _ Hrun). Qed.

Lemma update_esme_log e f w a w' : update_esme e f w = Some (a, w') → trace w' = trace w.
Proof. by intros (c & _ & ->)%update_esme_inv. Qed.
Lemma write_pdu_log p q w a w' : write_pdu p q w = Some (a, w') → trace w' = trace w.
Proof. unfold write_pdu. intros (q0 & w1 & Hq & [= _ <-])%bind_Some. by apply read_pdu_inv in Hq as [-> _]. Qed.

(** What is written to an ESME is written to one that was not closed. *)
Lemma outbound_since w0 : preserves (since w0) (smpp_queues_outbound_step (DB := DB)).
Proof.
  unfold smpp_queues_outbound_step. apply preserves_bind; [daemon_auto|intros [|p oq]]; [daemon_auto|].
  do 5 (apply preserves_bind; [daemon_auto|intros ?]).
  rename a0 into q, a1 into e, a2 into t.
  intros w [] w' Hw Hrun. apply bind_Some in Hrun as (c & w1 & Hc & Hrun). apply read_esme_inv in Hc as [-> Hc].
  destruct (connected c) eqn:Hcon.
  2:{ assert (preserves (since w0) (when (bool_decide (callback q = None))
        (smpp_queued_pdu_destroy (DB := DB) p))) as Hp by daemon_auto. by apply (Hp w tt w'). }
  assert (since w0 w ∧ EvClosed e ∉ trace w) as Hopen.
  { split; [done|]. apply (not_closed w e c); [apply Hw|done|by left]. }
  match type of Hrun with ?m w = _ =>
    enough (triple (λ w, since w0 w ∧ EvClosed e ∉ trace w) m (λ _, since w0)) as Ht
      by (by apply (Ht w tt w')) end.
  clear w w' Hw Hc Hrun Hopen.
  apply (triple_bind _ _ _ (λ _ w, since w0 w ∧ EvClosed e ∉ trace w)); [|intros _].
  { apply with_open_log; [daemon_auto|]. intros w x w'. destruct (disconnect q); [|by intros [= _ <-]].
    apply update_esme_log. }
  apply (triple_bind _ _ _ (λ _ w, since w0 w ∧ EvClosed e ∉ trace w)); [|intros _].
  { apply with_open_log; [daemon_auto|]. intros w x w'. destruct (bool_decide _); [|by intros [= _ <-]].
    apply write_pdu_log. }
  apply (triple_bind _ _ _ (λ _ w, since w0 w ∧ EvClosed e ∉ trace w)); [|intros pd].
  { apply with_open_log; [daemon_auto|]. unfold pdu_of. intros w x w'. destruct (pdu q); [|done].
    by intros [= _ <-]. }
  apply (triple_bind _ _ _ (λ _, since w0)); 
    [|intros _; match goal with |- triple _ ?m _ => change (preserves (since w0) m) end; daemon_auto].
  intros w x w' [[Hok Hdev] He] [= _ <-].
  destruct (since_emit w (EvSent e pd) Hok) as [? ?]; [by intros e' [= <-]|done|].
  split; [done|]. by transitivity w.
Qed.

Lemma simulation_since w0 : preserves (since w0) (smpp_queues_simulation_step (DB := DB)).
Proof. unfold smpp_queues_simulation_step, smpp_queues_callback_deliver_sm_resp. daemon_auto. Qed.

(** *** Requeueing and the HTTP interfaces *)

Lemma alloc_pdus_since w0 qs : preserves (since w0) (alloc_pdus (DB := DB) qs).
Proof. induction qs; cbn [alloc_pdus]; daemon_auto. Qed.
Lemma capable_keys_since w0 ks : preserves (since w0) (capable_keys (DB := DB) ks).
Proof. induction ks; cbn [capable_keys]; daemon_auto. Qed.
Lemma readers_since w0 b ks : preserves (since w0) (readers (DB := DB) b ks).
Proof. induction ks; cbn [readers]; daemon_auto. Qed.
#[local] Hint Resolve alloc_pdus_since capable_keys_since readers_since : daemon.

Lemma messages_to_pdus_since w0 e b ds : preserves (since w0) (messages_to_pdus (DB := DB) e b ds).
Proof. induction ds; cbn [messages_to_pdus]; daemon_auto. Qed.
#[local] Hint Resolve messages_to_pdus_since : daemon.

Lemma queued_for_all_since w0 es : preserves (since w0) (queued_for_all (DB := DB) es).
Proof. induction es; cbn [queued_for_all]; unfold queued_for; daemon_auto. Qed.
#[local] Hint Resolve queued_for_all_since : daemon.

Lemma requeue_pass_since w0 : preserves (since w0) (smpp_queues_requeue_pass (DB := DB)).
Proof.
  unfold smpp_queues_requeue_pass, smpp_esme_global_get_queued, smpp_esme_global_get_readers, requeue_pdu.
  daemon_auto.
Qed.

Lemma unbind_command_since w0 sid b : preserves (since w0) (smpp_esme_unbind_command (DB := DB) sid b).
Proof. unfold smpp_esme_unbind_command, send_unbind. daemon_auto. Qed.
Lemma rebuild_since w0 : preserves (since w0) (smpp_route_rebuild_database (DB := DB)).
Proof. unfold smpp_route_rebuild_database. daemon_auto. Qed.
Lemma http_receive_since w0 k hs : preserves (since w0) (smpp_http_client_receive (DB := DB) k hs).
Proof. unfold smpp_http_client_receive, request_msg. daemon_auto. Qed.

(** *** smpp_listener.c *)

Lemma read_loop_since w0 e vs : preserves (since w0) (read_loop (DB := DB) e vs).
Proof. induction vs; cbn [read_loop]; daemon_auto. Qed.
#[local] Hint Resolve read_loop_since : daemon.

Lemma listener_event_since w0 e vs : preserves (since w0) (smpp_listener_event (DB := DB) e vs).
Proof. unfold smpp_listener_event, too_many_errors. daemon_auto. Qed.

Lemma new_esme_since w0 c :
  preserves (since w0) (p ← gets next_ptr;
    modify (λ w : World DB, {| w with next_ptr := S p; esme_heap := <[p := Live c]> (esme_heap w) |});;
    mret (Some p)).
Proof.
  apply preserves_since. intros w p w' [Hf Hs Hq] [= <- <-]. destruct (Hf (next_ptr w)) as [_ Hnone]; [lia|].
  split; split; cbn; try done.
  - intros p Hp. destruct (Hf p) as [Hp1 Hp2]; [lia|]. split; [done|]. rewrite lookup_insert_ne; [done|lia].
  - intros e He. specialize (Hs e He). unfold shut in *. cbn.
    destruct (decide (next_ptr w = e)) as [<-|]; [by rewrite Hnone in Hs|by rewrite lookup_insert_ne].
  - lia.
  - intros e. destruct (decide (next_ptr w = e)) as [<-|]; [by rewrite Hnone|rewrite lookup_insert_ne by done].
    destruct (esme_heap w !! e) as [[]|]; [|done|done]. right. eexists. split; [done|reflexivity].
Qed.

Lemma connection_since w0 peer n : preserves (since w0) (smpp_listener_connection_callback (DB := DB) peer n).
Proof.
  unfold smpp_listener_connection_callback. do 2 (apply preserves_bind; [daemon_auto|intros ?]).
  apply preserves_bind; [daemon_auto|intros []]; [daemon_auto|]. apply new_esme_since.
Qed.

End actions.

(** ** The transition system *)

Inductive action :=
  | Inbound | Outbound | Simulation | Requeue | Cleanup
  | BoxWrite (b : nat) | BoxReconnect (b : nat) (connected : bool)
  | BoxAck (b : nat) (ack_id : Octstr) (nack : option ack_status_t) | BoxSms (b : nat) (m : Msg)
  | BoxHeartbeat (b : nat) | BoxBroken (b : nat) | BoxRequeue
  | Connection (peer : option Octstr) (n : Z) | Data (e : nat) (vs : list conn_view)
  | RouteAnswer (k : nat) (hs : headers) | Unbind (sid bind_id : option Octstr) | RebuildRoutes
  | Elapse (seconds : Z) | BoxWrites (results : list bool).

Section daemon.
Context {DB : Type} `{TimeLib} `{OctstrLib} `{KannelLib} `{DatabaseOps DB} `{EsmeEnv} `{RegexLib} `{BoxEnv}.
Context `{FieldLib} `{HttpLib}.
Context (method : option routing_method) (plugin : bool) (uuid : nat → Octstr).
Implicit Types (w : World DB).

Definition run_action (a : action) : W DB unit :=
  match a with
  | Inbound => smpp_queues_inbound_step method plugin uuid
  | Outbound => smpp_queues_outbound_step
  | Simulation => smpp_queues_simulation_step
  | Requeue => smpp_queues_requeue_pass
  | Cleanup => smpp_esme_cleanup_pass
  | BoxWrite b => smpp_bearerbox_outbound_step b
  | BoxReconnect b c => smpp_bearerbox_reconnect b c
  | BoxAck b i nack => smpp_bearerbox_handle_ack b i nack
  | BoxSms b m => smpp_bearerbox_handle_sms method plugin b m
  | BoxHeartbeat b => smpp_bearerbox_heartbeat b
  | BoxBroken b => smpp_bearerbox_set_state b false
  | BoxRequeue => smpp_bearerbox_requeue_pass method plugin
  | Connection peer n => _ ← smpp_listener_connection_callback peer n; mret tt
  | Data e vs => smpp_listener_event e vs
  | RouteAnswer k hs => smpp_http_client_receive k hs
  | Unbind sid b => _ ← smpp_esme_unbind_command sid b; mret tt
  | RebuildRoutes => smpp_route_rebuild_database
  | Elapse s => modify (λ w, {| w with w_now := w_now w + Z.max 0 s |})
  | BoxWrites bs => modify (λ w, {| w with bb_writes := bs |})
  end.

(** One action of some thread; an action C gives no meaning to is no step. *)
Definition daemon_step w w' : Prop := ∃ a, run_action a w = Some (tt, w').

(** The daemon when its threads are started. *)
Definition started w : Prop := pdus w = ∅ ∧ esme_heap w = ∅ ∧ trace w = [].

Lemma action_since w0 a : preserves (since w0) (run_action a).
Proof.
  destruct a; cbn [run_action].
  - apply inbound_since.
  - apply outbound_since.
  - apply simulation_since.
  - apply requeue_pass_since.
  - apply cleanup_pass_since.
  - apply bb_outbound_since.
  - apply reconnect_since.
  - apply handle_ack_since.
  - apply handle_sms_since.
  - apply heartbeat_since.
  - apply box_state_since.
  - apply bb_requeue_since.
  - apply preserves_bind; [apply connection_since|intros ?; apply preserves_ret].
  - apply listener_event_since.
  - apply http_receive_since.
  - apply preserves_bind; [apply unbind_command_since|intros ?; apply preserves_ret].
  - apply rebuild_since.
  - since_modify.
  - since_modify.
Qed.

Lemma steps_since w w' : daemon_ok w → rtc daemon_step w w' → since w w'.
Proof.
  intros Hok Hsteps. enough (∀ w0, since w0 w → since w0 w') as Hall by (by apply Hall, since_refl).
  clear Hok. induction Hsteps as [w|w w1 w2 [a Ha] _ IH]; intros w0 Hw; [done|].
  apply IH. by apply (action_since w0 a w tt w1).
Qed.

(** A run of given actions. *)
Lemma actions_steps l w w' : for_each run_action l w = Some (tt, w') → rtc daemon_step w w'.
Proof.
  revert w. induction l as [|a l IH]; intros w; [by intros [= <-]|].
  intros ([] & w1 & Ha & Hl)%bind_Some. eapply rtc_l; [by exists a|by apply IH].
Qed.

Lemma started_ok w : started w → daemon_ok w.
Proof.
  intros (Hp & He & Ht). split; rewrite ?Hp, ?He, ?Ht.
  - intros p _. by rewrite !lookup_empty.
  - intros e Hin. by apply elem_of_nil in Hin.
  - intros [] ? ? [=].
Qed.

End daemon.

(** ** Properties *)


