(* ===== verification/Stop.v ===== *)
(** The stop of the daemon: the signal (ksmppd.c), the end of the threads of the queues
    (smpp_queues.c), and what is freed then (smpp_listener.c, smpp_esme.c,
    smpp_bearerbox.c). The theorems are in Stopped.v. *)
From stdpp Require Import relations.

From S2P Require Import Prelude CLib Gwlib Types Kannel Dlr PduUtil IpBlock World Callbacks Run Esme.
From S2P Require Import Route Bearerbox Queues Requeue Listener Fields Http Daemon.
Open Scope Z_scope.

(** ** The stopping daemon

    The threads of the queues that run, and whether something can still be added to the
    inbound and outbound queues; both have one producer, the simulation queue has
    none. *)
Record Stopping {DB : Type} := {
  world : World DB;
  loop_broken : bool;
  producers : bool;
  inbound_threads : nat;
  outbound_threads : nat;
  simulation_threads : nat;
  requeue_threads : nat;
}.
Arguments Stopping : clear implicits.

(** *** Signals *)

Inductive signal := SIGINT | SIGTERM | SIGQUIT | SIGHUP | SIGPIPE | SIGUSR2 | SIGSEGV.
Inductive signal_effect := WakeupAll | LogReopen | AlogReopen | CheckLeaks.

Section stop.
Context {DB : Type} `{TimeLib} `{OctstrLib} `{KannelLib} `{DatabaseOps DB} `{EsmeEnv} `{RegexLib} `{BoxEnv}.
Context `{FieldLib} `{HttpLib}.
Context (method : option routing_method) (plugin : bool) (uuid : nat → Octstr).
Abbreviation W := (M (World DB)).

Definition shutting_down (w : World DB) : bool :=
  negb (Z.land (server_status (server w)) SMPP_SERVER_STATUS_SHUTDOWN =? 0).

Definition set_shutdown (w : World DB) : World DB :=
  {| w with server := {| (server w) with
       server_status := Z.lor (server_status (server w)) SMPP_SERVER_STATUS_SHUTDOWN |} |}.

Definition smpp_listener_shutdown : M (Stopping DB) unit :=
  modify (λ s, {| s with loop_broken := true |}).

(** [handles]: gwthread_shouldhandlesignal, one thread for each signal. *)
Definition signal_handler (handles : bool) (signum : signal) : M (Stopping DB) (list signal_effect) :=
  if negb handles then mret []
  else
    match signum with
    | SIGINT | SIGTERM =>
        w ← gets world;
        if shutting_down w then mret []
        else
          modify (λ s, {| s with world := set_shutdown (world s) |});;
          smpp_listener_shutdown;;
          mret [WakeupAll]
    | SIGUSR2 | SIGHUP => mret [LogReopen; AlogReopen]
    | SIGQUIT => mret [CheckLeaks]
    | SIGSEGV => crash
    | SIGPIPE => mret []
    end.

(** *** The threads of the queues *)

Definition running_threads (s : Stopping DB) : nat :=
  (inbound_threads s + outbound_threads s + simulation_threads s + requeue_threads s)%nat.

(** smpp_queues_shutdown before it waits. *)
Definition remove_producers : M (Stopping DB) unit := modify (λ s, {| s with producers := false |}).

(** What the threads other than those of the queues and of the listener do meanwhile. *)
Definition meanwhile (a : action) : bool :=
  match a with
  | Inbound | Outbound | Simulation | Requeue | Connection _ _ | Data _ _ => false
  | _ => true
  end.

(** A turn of a thread of the queues (their loops in smpp_queues.c: 878 for inbound, 941
    for outbound, 1079 for the simulation, 1016 for requeueing): it takes a PDU, or it
    ends. The inbound and outbound threads end when there is none and nothing can be
    added. The other two end when they see that the daemon is shut down; a simulation
    thread that is still taking PDUs goes on until there is none, but one that was
    asleep leaves what is there. *)
Inductive queue_step : Stopping DB → Stopping DB → Prop :=
  | inbound_turn s w' :
      inbound_threads s ≠ O → inbound_queue (world s) ≠ [] →
      smpp_queues_inbound_step method plugin uuid (world s) = Some (tt, w') →
      queue_step s {| s with world := w' |}
  | inbound_ends s n :
      inbound_threads s = S n → inbound_queue (world s) = [] → producers s = false →
      queue_step s {| s with inbound_threads := n |}
  | outbound_turn s w' :
      outbound_threads s ≠ O → outbound_queue (world s) ≠ [] →
      smpp_queues_outbound_step (world s) = Some (tt, w') →
      queue_step s {| s with world := w' |}
  | outbound_ends s n :
      outbound_threads s = S n → outbound_queue (world s) = [] → producers s = false →
      queue_step s {| s with outbound_threads := n |}
  | simulation_turn s w' :
      simulation_threads s ≠ O → simulation_queue (world s) ≠ [] →
      smpp_queues_simulation_step (world s) = Some (tt, w') →
      queue_step s {| s with world := w' |}
  | simulation_ends s n :
      simulation_threads s = S n → shutting_down (world s) = true →
      queue_step s {| s with simulation_threads := n |}
  | requeue_ends s n :
      requeue_threads s = S n → shutting_down (world s) = true →
      queue_step s {| s with requeue_threads := n |}.

Inductive stop_step : Stopping DB → Stopping DB → Prop :=
  | of_the_queues s s' : queue_step s s' → stop_step s s'
  | of_others s a w' :
      meanwhile a = true → run_action method plugin uuid a (world s) = Some (tt, w') →
      stop_step s {| s with world := w' |}.

(** smpp_queues_shutdown after its wait: the outbound queue is dropped as it is. *)
Definition smpp_queues_shutdown : W unit :=
  iq ← gets inbound_queue;
  for_each smpp_queued_pdu_destroy iq;;
  sq ← gets simulation_queue;
  for_each smpp_queued_pdu_destroy sq;;
  modify (λ w, {| w with inbound_queue := []; outbound_queue := []; simulation_queue := [] |}).

(** *** smpp_esme.c, smpp_bearerbox.c, smpp_listener.c *)

Definition smpp_esme_global_destroy (g : SMPPEsmeGlobal) : W unit := for_each smpp_esme_destroy (binds g).

(** The cleanup thread has ended. *)
Definition smpp_esme_shutdown : W unit :=
  known ← gets esmes;
  for_each (λ kg : Octstr * SMPPEsmeGlobal,
    modify (λ w, {| w with esmes := base.delete kg.1 (esmes w) |});;
    smpp_esme_global_destroy kg.2) (map_to_list known);;
  cq ← gets cleanup_queue;
  for_each smpp_esme_destroy cq;;
  modify (λ w, {| w with cleanup_queue := [] |}).

(** What waits for an acknowledgement is freed without its callback. *)
Definition smpp_bearerbox_destroy (b : nat) : W unit :=
  _ ← read_bb b;
  modify (λ w, {| w with bearerboxes := base.delete b (bearerboxes w) |}).

(** The end of a bearerbox's reader, when its writer has ended. *)
Definition reader_ends (b : nat) : W unit :=
  smpp_bearerbox_set_state b false;;
  smpp_bearerbox_destroy b.

(** All readers have ended. *)
Definition smpp_bearerbox_shutdown : W unit :=
  bs ← gets bb_order;
  for_each reader_ends bs;;
  modify (λ w, {| w with bb_outbound_queue := []; bb_order := [] |}).

(** smpp_listener_start after its event loop and the wait for the queues' threads. *)
Definition listener_ends : W unit :=
  smpp_queues_shutdown;;
  smpp_esme_shutdown;;
  smpp_bearerbox_shutdown;;
  modify (λ w, {| w with blocklist := ∅ |}).

End stop.

Lemma set_shutdown_status {DB} (w : World DB) : shutting_down (set_shutdown w) = true.
Proof.
  unfold shutting_down. apply negb_true_iff, Z.eqb_neq. cbn. intros Hz.
  assert (Z.testbit (Z.land (Z.lor (server_status (server w)) SMPP_SERVER_STATUS_SHUTDOWN)
    SMPP_SERVER_STATUS_SHUTDOWN) 3 = false) as Hb by (rewrite Hz; apply Z.testbit_0_l).
  rewrite Z.land_spec, Z.lor_spec in Hb. change (Z.testbit SMPP_SERVER_STATUS_SHUTDOWN 3) with true in Hb.
  by rewrite orb_true_r in Hb.
Qed.

(** ** The inbound queue is filled by the listener only *)

(** An action that keeps an observation of the state, taken apart down to the changes
    of the state; fixpoints are lemmas. *)
Ltac frame_modify := apply preserves_modify; intros ? <-; reflexivity.
Ltac head_of t := lazymatch t with ?f _ => head_of f | _ => t end.
Ltac frame_step :=
  first
    [ apply preserves_ret | apply preserves_crash | apply preserves_gets | apply preserves_get
    | apply preserves_deref
    | apply preserves_when
    | apply preserves_for_each; intros ??
    | solve [auto with frame nocore]
    | apply preserves_bind; [|intros ?]
    | frame_modify
    | match goal with
      | |- preserves _ (match ?x with _ => _ end) => destruct x
      | |- preserves _ (let '_ := ?x in _) => destruct x
      | |- preserves _ (let x := _ in _) => cbv zeta
      end
    | match goal with |- preserves _ ?m => let h := head_of m in unfold h end ].
Ltac frame_auto := repeat frame_step.
Create HintDb frame discriminated.

Section frames.
Context {DB : Type} `{TimeLib} `{OctstrLib} `{KannelLib} `{DatabaseOps DB} `{EsmeEnv} `{RegexLib} `{BoxEnv}.
Context `{FieldLib} `{HttpLib}.
Context (method : option routing_method) (plugin : bool) (uuid : nat → Octstr).
Implicit Types (w : World DB).

(** The inbound queue is [q]. *)
Definition inb (q : list nat) w : Prop := inbound_queue w = q.
#[local] Hint Extern 1 (preserves (inb _) (modify _)) => (apply preserves_modify; intros ? Hw; exact Hw) : frame.
#[local] Hint Extern 1 (preserves (inb _) (mret _)) => apply preserves_ret : frame.

Lemma read_esmes_inb q es : preserves (inb q) (read_esmes es).
Proof. induction es; cbn [read_esmes]; frame_auto; auto. Qed.
Lemma add_outbound_inb q p : preserves (inb q) (smpp_queues_add_outbound p).
Proof. frame_auto. Qed.
Lemma run_callback_inb q cb p st : preserves (inb q) (run_callback cb p st).
Proof. frame_auto. Qed.
#[local] Hint Resolve read_esmes_inb add_outbound_inb run_callback_inb : frame.
Lemma run_bb_callback_inb q cb st : preserves (inb q) (run_bb_callback cb st).
Proof. frame_auto. Qed.
Lemma add_to_queue_inb q m : preserves (inb q) (smpp_bearerbox_add_to_queue m).
Proof. frame_auto. Qed.
Lemma msg_to_pdus_inb q e m : preserves (inb q) (msg_to_pdus e m).
Proof. frame_auto. Qed.
#[local] Hint Resolve run_bb_callback_inb add_to_queue_inb msg_to_pdus_inb : frame.
Lemma route_message_inb q dir smsc sid m cb : preserves (inb q) (smpp_route_message method plugin dir smsc sid m cb).
Proof. frame_auto. Qed.
Lemma route_callback_inb q cb m st : preserves (inb q) (run_route_callback cb m st).
Proof. frame_auto. Qed.
#[local] Hint Resolve route_message_inb route_callback_inb : frame.

Lemma handle_submit_inb q p : preserves (inb q) (smpp_queues_handle_submit_sm method plugin uuid p).
Proof. frame_auto. Qed.
Lemma handle_data_inb q p : preserves (inb q) (smpp_queues_handle_data_sm method plugin uuid p).
Proof. frame_auto. Qed.
Lemma handle_bind_inb q p : preserves (inb q) (smpp_queues_handle_bind_pdu p).
Proof. frame_auto. Qed.
#[local] Hint Resolve handle_submit_inb handle_data_inb handle_bind_inb : frame.

Lemma cleanup_binds_inb q es : preserves (inb q) (cleanup_binds es).
Proof. induction es; cbn [cleanup_binds]; frame_auto; auto. Qed.
Lemma cleanup_queue_inb q es : preserves (inb q) (cleanup_queue_pass es).
Proof. induction es; cbn [cleanup_queue_pass]; frame_auto; auto. Qed.
#[local] Hint Resolve cleanup_binds_inb cleanup_queue_inb : frame.

Lemma meanwhile_inb q a : meanwhile a = true → preserves (inb q) (run_action method plugin uuid a).
Proof. destruct a; intros Ha; try done; cbn [run_action]; frame_auto. Qed.

(** A turn takes the first PDU of its queue; the inbound one leaves the others to grow,
    the simulation adds to the outbound queue only. *)
Lemma inbound_takes w w' :
  smpp_queues_inbound_step method plugin uuid w = Some (tt, w') → inbound_queue w' = tail (inbound_queue w).
Proof.
  unfold smpp_queues_inbound_step. rewrite gets_bind. destruct (inbound_queue w) as [|p iq] eqn:Hq.
  { intros [= <-]. by rewrite Hq. }
  rewrite modify_bind. intros Hrun. cbn [tail].
  match type of Hrun with ?m ?w1 = _ => assert (preserves (inb iq) m) as Hp by frame_auto end.
  refine (Hp _ _ _ _ Hrun). reflexivity.
Qed.

Definition queues3 w := (inbound_queue w, simulation_queue w, outbound_queue w).
Lemma outbound_takes w w' :
  smpp_queues_outbound_step w = Some (tt, w') →
  queues3 w' = (inbound_queue w, simulation_queue w, tail (outbound_queue w)).
Proof.
  unfold smpp_queues_outbound_step. rewrite gets_bind. destruct (outbound_queue w) as [|p oq] eqn:Hq.
  { intros [= <-]. unfold queues3. by rewrite Hq. }
  rewrite modify_bind. intros Hrun. cbn [tail].
  match type of Hrun with ?m ?w1 = _ =>
    assert (preserves (λ v, queues3 v = queues3 w1) m) as Hp by frame_auto end.
  refine (Hp _ _ _ _ Hrun). reflexivity.
Qed.

Definition queues2 w := (inbound_queue w, simulation_queue w).
Lemma read_esmes_queues2 q es : preserves (λ w, queues2 w = q) (read_esmes es).
Proof. induction es; cbn [read_esmes]; frame_auto; auto. Qed.
#[local] Hint Resolve read_esmes_queues2 : frame.
Lemma simulation_takes w w' :
  smpp_queues_simulation_step w = Some (tt, w') → queues2 w' = (inbound_queue w, tail (simulation_queue w)).
Proof.
  unfold smpp_queues_simulation_step. rewrite gets_bind. destruct (simulation_queue w) as [|p sq] eqn:Hq.
  { intros [= <-]. unfold queues2. by rewrite Hq. }
  rewrite modify_bind. intros Hrun. cbn [tail].
  match type of Hrun with ?m ?w1 = _ =>
    assert (preserves (λ v, queues2 v = queues2 w1) m) as Hp by frame_auto end.
  refine (Hp _ _ _ _ Hrun). reflexivity.
Qed.

End frames.
