(* ===== verification/Stopped.v ===== *)
(** What is left when the daemon has stopped: the theorems about Stop.v. *)
From stdpp Require Import relations.
From Stdlib Require Import Wellfounded Relation_Operators.
From S2P Require Import Prelude CLib Gwlib Types Kannel Dlr PduUtil IpBlock World Callbacks Run Esme.
From S2P Require Import Route Bearerbox Queues Requeue Listener Fields Http Daemon Stop.
Open Scope Z_scope.

Section waiting.
Context {DB : Type} `{TimeLib} `{OctstrLib} `{KannelLib} `{DatabaseOps DB} `{EsmeEnv} `{RegexLib} `{BoxEnv}.
Context `{FieldLib} `{HttpLib}.
Context (method : option routing_method) (plugin : bool) (uuid : nat → Octstr).
Implicit Types (s : Stopping DB).

(** ** The wait for the queues' threads *)

(** Requests first, then simulated messages, then what is sent, then the threads. *)
Definition size_of s : (nat * nat) * (nat * nat) :=
  let w := world s in
  ((length (inbound_queue w), length (simulation_queue w)), (length (outbound_queue w), running_threads s)).
Definition smaller : relation ((nat * nat) * (nat * nat)) :=
  slexprod _ _ (slexprod _ _ lt lt) (slexprod _ _ lt lt).
Lemma smaller_wf : well_founded smaller.
Proof. repeat apply wf_slexprod; apply lt_wf. Qed.

Lemma tail_shorter {A} (l : list A) : l ≠ [] → (length (tail l) < length l)%nat.
Proof. destruct l; cbn; [done|lia]. Qed.

Lemma queue_step_smaller s s' : queue_step method plugin uuid s s' → smaller (size_of s') (size_of s).
Proof.
  intros Hstep. destruct Hstep as [s w' _ Hne Hrun|s n Hn|s w' _ Hne Hrun|s n Hn|s w' _ Hne Hrun|s n Hn|s n Hn];
    unfold size_of, running_threads; cbn [world inbound_threads outbound_threads simulation_threads requeue_threads].
  2,4,6,7: apply right_slex, right_slex; rewrite Hn; lia.
  - apply inbound_takes in Hrun as ->. by apply left_slex, left_slex, tail_shorter.
  - apply outbound_takes in Hrun. injection Hrun as -> -> ->. by apply right_slex, left_slex, tail_shorter.
  - apply simulation_takes in Hrun. injection Hrun as -> ->. by apply left_slex, right_slex, tail_shorter.
Qed.

(** A turn C gives no meaning to. *)
Definition crashing s : Prop :=
  (inbound_queue (world s) ≠ [] ∧ smpp_queues_inbound_step method plugin uuid (world s) = None) ∨
  (outbound_queue (world s) ≠ [] ∧ smpp_queues_outbound_step (world s) = None).

Lemma next_turn s :
  shutting_down (world s) = true → producers s = false → running_threads s ≠ O →
  (∃ s', queue_step method plugin uuid s s') ∨ crashing s.
Proof.
  intros Hst Hpr Hrun. unfold crashing, running_threads in *.
  destruct (inbound_threads s) as [|n] eqn:Hi.
  2:{ destruct (decide (inbound_queue (world s) = [])); [left; eexists; by eapply inbound_ends|].
      destruct (smpp_queues_inbound_step method plugin uuid (world s)) as [[[] w']|] eqn:Hw; [left|by right; left].
      eexists. eapply inbound_turn; [by rewrite Hi|done..]. }
  destruct (outbound_threads s) as [|n] eqn:Ho.
  2:{ destruct (decide (outbound_queue (world s) = [])); [left; eexists; by eapply outbound_ends|].
      destruct (smpp_queues_outbound_step (world s)) as [[[] w']|] eqn:Hw; [left|by right; right].
      eexists. eapply outbound_turn; [by rewrite Ho|done..]. }
  destruct (simulation_threads s) as [|n] eqn:Hs; [|left; eexists; by eapply simulation_ends].
  destruct (requeue_threads s) as [|n] eqn:Hr; [done|]. left. eexists. by eapply requeue_ends.
Qed.

(** The daemon stays shut down. *)
Definition winding s : Prop :=
  daemon_ok (world s) ∧ shutting_down (world s) = true ∧ producers s = false.

Lemma action_winding s a w' :
  winding s → run_action method plugin uuid a (world s) = Some (tt, w') → winding {| s with world := w' |}.
Proof.
  intros (Hok & Hst & Hpr) Hrun.
  destruct (action_since method plugin uuid (world s) a (world s) tt w') as [Hok' Hdev]; [by apply since_refl|done|].
  split_and!; [done| |done]. unfold shutting_down in *. cbn [world]. by rewrite (dev_server _ _ Hdev).
Qed.

Lemma stop_winding s s' : winding s → rtc (stop_step method plugin uuid) s s' → winding s'.
Proof.
  intros Hs Hsteps. induction Hsteps as [s|s s1 s2 Hstep _ IH]; [done|]. apply IH.
  destruct Hstep as [s s1 Hstep|s a w' _ Hrun]; [|by eapply action_winding].
  destruct Hstep as [s w' _ _ Hrun|s n|s w' _ _ Hrun|s n|s w' _ _ Hrun|s n|s n]; try exact Hs.
  - exact (action_winding s Inbound w' Hs Hrun).
  - exact (action_winding s Outbound w' Hs Hrun).
  - exact (action_winding s Simulation w' Hs Hrun).
Qed.

Lemma wait_ends s : Acc (flip (queue_step method plugin uuid)) s.
Proof.
  remember (size_of s) as n eqn:Hn. revert s Hn. induction (smaller_wf n) as [n _ IH]. intros s ->.
  constructor. intros s' Hstep. apply (IH (size_of s')); [|done]. by apply queue_step_smaller.
Qed.

Lemma inbound_drained s s' :
  (inbound_threads s = O → inbound_queue (world s) = []) → rtc (stop_step method plugin uuid) s s' →
  inbound_threads s' = O → inbound_queue (world s') = [].
Proof.
  intros Hs Hsteps. revert Hs. induction Hsteps as [s|s s1 s2 Hstep _ IH]; intros Hs; [done|].
  apply IH. clear IH s2. destruct Hstep as [s s1 Hstep|s a w' Ha Hrun]; cbn [inbound_threads world].
  - destruct Hstep as [s w' Hn _ _|s n _ Hq _|s w' _ _ Hrun|s n|s w' _ _ Hrun|s n|s n]; cbn [inbound_threads world];
      try done.
    + apply outbound_takes in Hrun. by injection Hrun as -> _ _.
    + apply simulation_takes in Hrun. by injection Hrun as -> _.
  - intros Hn. exact (meanwhile_inb method plugin uuid _ a Ha _ _ _ (Hs Hn) Hrun).
Qed.

End waiting.

(** ** What is freed *)

(** The ESMEs whose connection was closed. *)
Definition closed_of (ev : event) : option nat := match ev with EvClosed e => Some e | _ => None end.
Definition is_sent (ev : event) : bool := match ev with EvSent _ _ => true | _ => false end.

(** [frees w w' es ps evs]: going from [w] to [w'] freed the ESMEs [es] and the PDUs
    [ps], logged [evs], and left the other ones and the dictionaries alone. *)
Record frees {DB} (w w' : World DB) (es ps : list nat) (evs : list event) : Prop := {
  fr_esmes e : e ∈ es → esme_heap w' !! e = Some Freed;
  fr_other_esmes e : e ∉ es → esme_heap w' !! e = esme_heap w !! e;
  fr_pdus p : p ∈ ps → pdus w' !! p = Some Freed;
  fr_other_pdus p : p ∉ ps → pdus w' !! p = pdus w !! p;
  fr_boxes b : is_Some (bearerboxes w !! b) → is_Some (bearerboxes w' !! b);
  fr_known : esmes w' = esmes w ∧ cleanup_queue w' = cleanup_queue w ∧
    (bb_order w', queues3 w') = (bb_order w, queues3 w);
  fr_trace : trace w' = trace w ++ evs;
}.

Section freeing.
Context {DB : Type} `{KannelLib} `{DatabaseOps DB} `{EsmeEnv}.
Implicit Types (w : World DB).

Lemma frees_nil w : frees w w [] [] [].
Proof. split; try done; [by intros ? ?%not_elem_of_nil|by intros ? ?%not_elem_of_nil|by rewrite app_nil_r]. Qed.

Lemma frees_app w w1 w2 es1 es2 ps1 ps2 evs1 evs2 :
  frees w w1 es1 ps1 evs1 → frees w1 w2 es2 ps2 evs2 → frees w w2 (es1 ++ es2) (ps1 ++ ps2) (evs1 ++ evs2).
Proof.
  intros [F1 F2 F3 F4 F5 (F6 & F7 & F8) F9] [G1 G2 G3 G4 G5 (G6 & G7 & G8) G9]. split.
  - intros e He. destruct (decide (e ∈ es2)); [by apply G1|]. rewrite G2 by done. apply F1. set_solver.
  - intros e He. rewrite G2, F2; [done|set_solver..].
  - intros p Hp. destruct (decide (p ∈ ps2)); [by apply G3|]. rewrite G4 by done. apply F3. set_solver.
  - intros p Hp. rewrite G4, F4; [done|set_solver..].
  - auto.
  - split_and!; congruence.
  - by rewrite G9, F9, app_assoc.
Qed.

(** What stands for the message of a PDU when its ESME goes: a bearerbox's message is
    given back as temporarily failed, if the bearerbox can be reached. *)
Definition given_back (q : SMPPQueuedPDU) (evs : list event) : Prop :=
  match callback q, bearerbox q, bearerbox_id q with
  | Some smpp_queues_callback_deliver_sm_resp_cb, Some b, Some ((_ :: _) as i) =>
      evs = [EvAck b i ack_failed_tmp] ∨ evs = [EvAckLost i]
  | _, _, _ => evs = []
  end.

(** A PDU whose callback can be run: it has one, knows its bearerbox if it is from
    one, and its server if it is from the database. *)
Definition returnable w (q : SMPPQueuedPDU) : Prop :=
  match callback q with
  | Some smpp_queues_callback_deliver_sm_resp_cb =>
      octstr_len (bearerbox_id q) ≠ 0 → ∃ b, bearerbox q = Some b ∧ is_Some (bearerboxes w !! b)
  | Some smpp_esme_db_queue_callback_cb => True
  | Some database_queued_pdu_handler_cb => smpp_server q = true
  | None => False
  end.

Lemma frees_pdu w w1 p q evs :
  lookup_pdu w1 p = Some q → pdus w1 = pdus w → esme_heap w1 = esme_heap w → esmes w1 = esmes w →
  cleanup_queue w1 = cleanup_queue w → (bb_order w1, queues3 w1) = (bb_order w, queues3 w) →
  (∀ b, is_Some (bearerboxes w !! b) → is_Some (bearerboxes w1 !! b)) → trace w1 = trace w ++ evs →
  ∃ w', smpp_queued_pdu_destroy p w1 = Some (tt, w') ∧ frees w w' [] [p] evs.
Proof.
  intros Hq Hp He Hes Hc Ho Hb Ht. rewrite (destroy_run _ q) by done. eexists. split; [reflexivity|].
  split; cbn; try done.
  - by intros e ?%not_elem_of_nil.
  - intros e _. by rewrite He.
  - intros p' ->%list_elem_of_singleton. by rewrite lookup_insert_eq.
  - intros p' Hp'. rewrite lookup_insert_ne, Hp; [done|set_solver].
Qed.

Lemma acknowledge_frees b i st w :
  i ≠ [] → is_Some (bearerboxes w !! b) →
  ∃ w' ev, smpp_bearerbox_acknowledge (Some b) (Some i) st w = Some (tt, w') ∧
    (ev = EvAck b i st ∨ ev = EvAckLost i) ∧ trace w' = trace w ++ [ev] ∧
    (pdus w', esme_heap w', esmes w', cleanup_queue w', (bb_order w', queues3 w')) =
    (pdus w, esme_heap w, esmes w, cleanup_queue w, (bb_order w, queues3 w)) ∧
    ∀ b', is_Some (bearerboxes w !! b') → is_Some (bearerboxes w' !! b').
Proof.
  intros Hi [box Hbox]. unfold smpp_bearerbox_acknowledge, now.
  replace (octlen i =? 0) with false by (by destruct i).
  rewrite deref_bind, (read_bb_bind _ box), gets_bind by done.
  destruct (alive box); [|by eexists _, _; split_and!; [reflexivity|right|..]].
  rewrite next_write_bind. unfold smpp_bearerbox_set_state.
  destruct (default true (head (bb_writes w))); rewrite (update_bb_bind _ box) by done;
    (eexists _, _; split; [reflexivity|]; split; [by (left + right)|]; split; [done|]; split; [done|]);
    intros b'; cbn; destruct (decide (b = b')) as [<-|]; rewrite ?lookup_insert_eq, ?lookup_insert_ne by done; done.
Qed.

Lemma db_call_frames {A} (f : DB → A * DB) w :
  ∃ a d, db_call f w = Some (a, {| w with db := d |}).
Proof. unfold db_call. rewrite get_bind. destruct (f (db w)) as [a d]. by exists a, d. Qed.

(** Every callback gives its message back and frees its PDU. *)
Lemma callback_frees w p q cb :
  lookup_pdu w p = Some q → callback q = Some cb → returnable w q →
  ∃ w' evs, run_callback cb p SMPP_QUEUED_PDU_DESTROYED w = Some (tt, w') ∧ frees w w' [] [p] evs ∧
    given_back q evs.
Proof.
  intros Hq Hcb Hret. unfold returnable, given_back in *. rewrite Hcb in *.
  destruct cb; cbn [run_callback].
  - unfold smpp_queues_callback_deliver_sm_resp. rewrite (read_pdu_bind _ q) by done. cbn [Z.eqb when].
    change (SMPP_QUEUED_PDU_DESTROYED =? SMPP_ESME_ROK) with false.
    change (SMPP_QUEUED_PDU_DESTROYED =? SMPP_ESME_COMMAND_STATUS_QUEUED) with false.
    change (SMPP_QUEUED_PDU_DESTROYED =? SMPP_ESME_COMMAND_STATUS_WAIT_ACK_TIMEOUT) with false.
    rewrite Z.eqb_refl. cbn [when].
    destruct (bearerbox_id q) as [[|c i]|] eqn:Hi.
    + destruct (frees_pdu w w p q []) as (w' & Hd & Hf); rewrite ?app_nil_r; try done.
      exists w', []. rewrite bind_unfold. split; [exact Hd|]. split; [done|by destruct (bearerbox q)].
    + destruct Hret as (b & Hb & Hbox); [done|]. rewrite Hb.
      destruct (acknowledge_frees b (c :: i) ack_failed_tmp w) as (w1 & ev & Hack & Hev & Ht & Hsame & Hboxes); [done..|].
      apply pair_equal_spec in Hsame as [[[[S1 S2]%pair_equal_spec S3]%pair_equal_spec S4]%pair_equal_spec S5].
      destruct (frees_pdu w w1 p q [ev]) as (w' & Hd & Hf); try done.
      { unfold lookup_pdu in *. by rewrite S1. }
      exists w', [ev]. rewrite bind_unfold, Hack. split; [exact Hd|]. split; [done|].
      destruct Hev as [-> | ->]; [by left|by right].
    + destruct (frees_pdu w w p q []) as (w' & Hd & Hf); rewrite ?app_nil_r; try done.
      exists w', []. rewrite bind_unfold. split; [exact Hd|]. split; [done|by destruct (bearerbox q)].
  - unfold smpp_esme_db_queue_callback. rewrite (read_pdu_bind _ q) by done. cbv zeta.
    change (SMPP_QUEUED_PDU_DESTROYED =? SMPP_ESME_ROK) with false.
    change (SMPP_QUEUED_PDU_DESTROYED =? SMPP_ESME_COMMAND_STATUS_QUEUED) with false. cbn [orb].
    assert (∃ ok d, smpp_database_add_pdu p w = Some (ok, {| w with db := d |})) as (ok & d & Hadd).
    { unfold smpp_database_add_pdu. destruct add_pdu as [f|]; [|exists false, (db w); by destruct w].
      rewrite (read_pdu_bind _ q) by done. apply db_call_frames. }
    assert (∀ w, ∃ d, (if from_dlr_table q then smpp_database_remove_dlr (sequence q)
       else smpp_database_remove (sequence q) 0) w = Some (tt, {| w with db := d |})) as Hrem.
    { intros v. unfold smpp_database_remove_dlr, smpp_database_remove.
      destruct (from_dlr_table q); [destruct delete_dlr as [f|]|destruct delete as [f|]];
        try (exists (db v); by destruct v); rewrite bind_unfold;
        match goal with |- context [db_call ?g _] => destruct (db_call_frames g v) as (a & d' & ->) end; by exists d'. }
    destruct (Hrem {| w with db := d |}) as [d2 Hrun].
    destruct (frees_pdu w {| w with db := d2 |} p q []) as (w' & Hd & Hf); rewrite ?app_nil_r; try done.
    exists w', []. rewrite bind_bind, bind_unfold, Hadd, bind_unfold, Hrun. by split.
  - unfold database_queued_pdu_handler. rewrite (read_pdu_bind _ q), Hret by done. cbn [negb].
    rewrite modify_bind.
    match goal with |- context [smpp_queued_pdu_destroy p ?v] =>
      destruct (frees_pdu w v p q []) as (w' & Hd & Hf); rewrite ?app_nil_r; try done end.
    exists w', []. by split.
Qed.

(** *** One ESME *)

(** The state but for the ESME [e]. *)
Definition hide (e : nat) w : World DB := set_esme_heap <[e := Freed]> w.

Lemma hide_with_esme e c w : hide e (with_esme w e c) = hide e w.
Proof. unfold hide, with_esme, set_esme_heap. cbn. by rewrite insert_insert_eq. Qed.

Lemma frees_hide e w w' ps evs : frees w w' [] ps evs → frees (hide e w) (hide e w') [] ps evs.
Proof.
  intros [F1 F2 F3 F4 F5 F6 F7]. split; try done; [by intros e' ?%not_elem_of_nil|]. intros e' _. cbn.
  destruct (decide (e = e')) as [<-|]; [by rewrite !lookup_insert_eq|].
  rewrite !lookup_insert_ne by done. by apply F2, not_elem_of_nil.
Qed.

Lemma frees_lookup_esme w w' es ps evs e : frees w w' es ps evs → e ∉ es → lookup_esme w' e = lookup_esme w e.
Proof. intros Hf He. unfold lookup_esme. by rewrite (fr_other_esmes _ _ _ _ _ Hf). Qed.
Lemma frees_lookup_pdu w w' es ps evs p : frees w w' es ps evs → p ∉ ps → lookup_pdu w' p = lookup_pdu w p.
Proof. intros Hf He. unfold lookup_pdu. by rewrite (fr_other_pdus _ _ _ _ _ Hf). Qed.
Lemma frees_returnable w w' es ps evs q : frees w w' es ps evs → returnable w q → returnable w' q.
Proof.
  intros Hf. unfold returnable. destruct (callback q) as [[]|]; try done.
  intros Hq Hn. destruct (Hq Hn) as (b & Hb & Hbox). exists b. split; [done|]. by apply (fr_boxes _ _ _ _ _ Hf).
Qed.

(** A PDU that is given back when its ESME goes, and what is logged for it. *)
Definition returned w (p : nat) (evs : list event) : Prop := ∃ q, lookup_pdu w p = Some q ∧ given_back q evs.
Definition can_return w (p : nat) : Prop := ∃ q, lookup_pdu w p = Some q ∧ returnable w q.

Lemma open_acks_loop e kps w c :
  lookup_esme w e = Some c → Forall (can_return w) kps.*2 → NoDup kps.*2 →
  ∃ w' c' evss,
    for_each (λ kp : Octstr * nat,
      update_esme e (λ c, {| c with open_acks := base.delete kp.1 (open_acks c) |});;
      q ← read_pdu kp.2;
      match callback q with
      | Some cb => run_callback cb kp.2 SMPP_QUEUED_PDU_DESTROYED
      | None => mret tt
      end) kps w = Some (tt, w') ∧
    lookup_esme w' e = Some c' ∧ conn c' = conn c ∧
    frees (hide e w) (hide e w') [] kps.*2 (concat evss) ∧ Forall2 (returned w) kps.*2 evss.
Proof.
  revert w c. induction kps as [|[k p] kps IH]; intros w c Hc Hall Hnd.
  { exists w, c, []. split; [done|]. split; [done|]. split; [done|]. split; [apply frees_nil|done]. }
  apply Forall_cons in Hall as [(q & Hq & Hret) Hall]. apply NoDup_cons in Hnd as [Hp Hnd].
  set (c1 := {| c with open_acks := base.delete k (open_acks c) |}).
  destruct (callback q) as [cb|] eqn:Hcb; [|by unfold returnable in Hret; rewrite Hcb in Hret].
  destruct (callback_frees (with_esme w e c1) p q cb) as (w2 & evs & Hrun & Hf & Hback); [done..|].
  assert (lookup_esme w2 e = Some c1) as Hc2.
  { rewrite (frees_lookup_esme _ _ _ _ _ _ Hf) by apply not_elem_of_nil. apply lookup_with_esme_eq. }
  assert (∀ p', p' ≠ p → lookup_pdu w2 p' = lookup_pdu w p') as Hsame.
  { intros p' Hp'. rewrite (frees_lookup_pdu _ _ _ _ _ _ Hf); [done|by rewrite list_elem_of_singleton]. }
  destruct (IH w2 c1 Hc2) as (w' & c' & evss & Hloop & Hc' & Hconn & Hfr & Hfor); [|done|].
  { apply Forall_forall. intros p' Hp'. rewrite Forall_forall in Hall. destruct (Hall p' Hp') as (q' & Hq' & Hr').
    exists q'. rewrite Hsame by (by intros ->). split; [done|]. by apply (frees_returnable _ _ _ _ _ _ Hf). }
  exists w', c', (evs :: evss). split_and!.
  - cbn [for_each fst snd]. rewrite bind_unfold, (update_esme_bind _ c) by done. fold c1.
    rewrite (read_pdu_bind _ q), Hcb, Hrun by done. exact Hloop.
  - done.
  - done.
  - cbn [concat]. apply (frees_app _ (hide e w2) _ [] [] [p]); [|done]. rewrite <- (hide_with_esme e c1 w).
    by apply frees_hide.
  - constructor; [by exists q|]. revert Hfor. apply Forall2_impl_in.
    intros p' evs' Hp' (q' & Hq' & Hg). exists q'. by rewrite <- Hsame by (by intros ->).
Qed.

(** What waits for an acknowledgement of an ESME. *)
Definition acks_of (c : SMPPEsme) : list nat := (map_to_list (open_acks c)).*2.
Definition acks_at w (e : nat) : list nat := from_option acks_of [] (lookup_esme w e).

(** The log of ESMEs that go, in order: for each, its messages are given back, and
    then its connection is closed, if it has one. *)
Inductive farewell w : list nat → list event → Prop :=
  | farewell_nil : farewell w [] []
  | farewell_cons e c es evss evs :
      lookup_esme w e = Some c → Forall2 (returned w) (acks_of c) evss → farewell w es evs →
      farewell w (e :: es) (concat evss ++ (if conn c then [EvClosed e] else []) ++ evs).

Lemma farewell_same w w1 es evs :
  (∀ e, e ∈ es → lookup_esme w1 e = lookup_esme w e) →
  (∀ p, p ∈ concat (map (acks_at w) es) → lookup_pdu w1 p = lookup_pdu w p) →
  farewell w1 es evs → farewell w es evs.
Proof.
  intros He Hp Hf. induction Hf as [|e c es evss evs Hc Hr _ IH]; [constructor|].
  rewrite He in Hc by left. cbn [map concat] in Hp. unfold acks_at in Hp at 1. rewrite Hc in Hp.
  constructor; [done| |].
  - revert Hr. apply Forall2_impl_in. intros p evs' Hin (q & Hq & Hg). exists q.
    split; [|done]. rewrite <- Hp; [done|]. apply elem_of_app. by left.
  - apply IH; [intros e' Hin; apply He; by right|]. intros p Hin. apply Hp, elem_of_app. by right.
Qed.

Lemma esme_destroy_frees e c w :
  lookup_esme w e = Some c → Forall (can_return w) (acks_of c) → NoDup (acks_of c) →
  ∃ w' evss, smpp_esme_destroy e w = Some (tt, w') ∧ Forall2 (returned w) (acks_of c) evss ∧
    frees w w' [e] (acks_of c) (concat evss ++ if conn c then [EvClosed e] else []).
Proof.
  intros Hc Hall Hnd. destruct (open_acks_loop e (map_to_list (open_acks c)) w c Hc Hall Hnd)
    as (w1 & c' & evss & Hrun & Hc' & Hconn & [F1 F2 F3 F4 F5 F6 F7] & Hfor).
  unfold smpp_esme_destroy, smpp_esme_destroy_open_acks.
  do 2 eexists. split; [|split; [exact Hfor|]].
  - rewrite bind_unfold, (read_esme_bind _ c), Hrun, bind_unfold, (disconnect_run _ c') by done. reflexivity.
  - split; cbn.
    + intros e' ->%list_elem_of_singleton. by rewrite lookup_insert_eq.
    + intros e' He'. rewrite list_elem_of_singleton in He'. rewrite !lookup_insert_ne by done.
      specialize (F2 e' (not_elem_of_nil _)). cbn in F2. by rewrite !lookup_insert_ne in F2.
    + exact F3.
    + exact F4.
    + exact F5.
    + exact F6.
    + rewrite app_assoc, <- Hconn. f_equal. exact F7.
Qed.

(** *** All ESMEs *)

(** The ESMEs are there, each once, and what waits for their acknowledgements is there,
    each once, and can be given back. *)
Record owned w (es : list nat) : Prop := {
  own_nodup : NoDup es;
  own_live e : e ∈ es → is_Some (lookup_esme w e);
  own_acks : NoDup (concat (map (acks_at w) es));
  own_return p : p ∈ concat (map (acks_at w) es) → can_return w p;
}.

Lemma acks_at_same w w1 es :
  (∀ e, e ∈ es → lookup_esme w1 e = lookup_esme w e) → map (acks_at w1) es = map (acks_at w) es.
Proof. intros He. apply map_ext_in. intros e Hin%list_elem_of_In. unfold acks_at. by rewrite He. Qed.

Lemma owned_same w w1 es :
  (∀ e, e ∈ es → lookup_esme w1 e = lookup_esme w e) →
  (∀ p, p ∈ concat (map (acks_at w) es) → lookup_pdu w1 p = lookup_pdu w p) →
  (∀ q, returnable w q → returnable w1 q) → owned w es → owned w1 es.
Proof.
  intros He Hp Hr [O1 O2 O3 O4]. pose proof (acks_at_same w w1 es He) as Hm. split; rewrite ?Hm; [done| |done|].
  - intros e Hin. rewrite He by done. by apply O2.
  - intros p Hin. destruct (O4 p Hin) as (q & Hq & Hret). exists q. rewrite Hp by done. eauto.
Qed.

Lemma destroys_free es w :
  owned w es →
  ∃ w' evs, for_each smpp_esme_destroy es w = Some (tt, w') ∧ farewell w es evs ∧
    frees w w' es (concat (map (acks_at w) es)) evs.
Proof.
  revert w. induction es as [|e es IH]; intros w Hown.
  { exists w, []. split; [done|]. split; [constructor|apply frees_nil]. }
  destruct Hown as [O1 O2 O3 O4]. apply NoDup_cons in O1 as [Hne O1].
  destruct (O2 e) as [c Hc]; [by left|]. cbn [map concat] in *.
  assert (acks_at w e = acks_of c) as Ha by (unfold acks_at; by rewrite Hc). rewrite Ha in *.
  apply NoDup_app in O3 as (Hn1 & Hdis & Hn2).
  destruct (esme_destroy_frees e c w) as (w1 & evss & Hrun & Hfor & Hf); [done| |done|].
  { apply Forall_forall. intros p Hp. apply O4, elem_of_app. by left. }
  assert (∀ e', e' ∈ es → lookup_esme w1 e' = lookup_esme w e') as He1.
  { intros e' Hin. apply (frees_lookup_esme _ _ _ _ _ _ Hf). rewrite list_elem_of_singleton. by intros ->. }
  assert (∀ p, p ∈ concat (map (acks_at w) es) → lookup_pdu w1 p = lookup_pdu w p) as Hp1.
  { intros p Hin. apply (frees_lookup_pdu _ _ _ _ _ _ Hf). intros Hin'. by apply (Hdis p Hin'). }
  destruct (IH w1) as (w' & evs & Hrun' & Hfw & Hf').
  { apply (owned_same w); [done|done|intros q; apply (frees_returnable _ _ _ _ _ _ Hf)|].
    split; [done|intros e' ?; apply O2; by right|done|intros p ?; apply O4, elem_of_app; by right]. }
  rewrite (acks_at_same w w1 es He1) in Hf'.
  exists w', (concat evss ++ (if conn c then [EvClosed e] else []) ++ evs). split_and!.
  - cbn [for_each]. by rewrite bind_unfold, Hrun.
  - constructor; [done|done|]. by apply (farewell_same w w1).
  - rewrite app_assoc. apply (frees_app _ w1 _ [e] es (acks_of c)); done.
Qed.

(** *** The accounts *)

(** The state but for the dictionary of the accounts. *)
Definition strip w : World DB := {| w with esmes := ∅ |}.
Definition accounts_binds (kgs : list (Octstr * SMPPEsmeGlobal)) : list nat := concat (map (λ kg, binds kg.2) kgs).

Lemma frees_strip w w' es ps evs : frees w w' es ps evs → frees (strip w) (strip w') es ps evs.
Proof. intros [F1 F2 F3 F4 F5 (F6 & F7 & F8) F9]. by split. Qed.

Lemma farewell_app w es1 es2 evs1 evs2 :
  farewell w es1 evs1 → farewell w es2 evs2 → farewell w (es1 ++ es2) (evs1 ++ evs2).
Proof.
  intros Hf H'. induction Hf as [|e c es evss evs Hc Hr _ IH]; [done|].
  rewrite <- !app_assoc. by constructor.
Qed.

Lemma concat_map_app {A B} (f : A → list B) l1 l2 : concat (map f (l1 ++ l2)) = concat (map f l1) ++ concat (map f l2).
Proof. by rewrite map_app, concat_app. Qed.

(** What is owned after other ESMEs have gone. *)
Lemma owned_after w w1 es1 es2 evs :
  owned w (es1 ++ es2) → frees (strip w) (strip w1) es1 (concat (map (acks_at w) es1)) evs →
  owned w es1 ∧ owned w1 es2 ∧ map (acks_at w1) es2 = map (acks_at w) es2 ∧
  ∀ evs2, farewell w1 es2 evs2 → farewell w es2 evs2.
Proof.
  intros [O1 O2 O3 O4] Hf. rewrite concat_map_app in O3, O4.
  apply NoDup_app in O1 as (N1 & Hdis & N2). apply NoDup_app in O3 as (M1 & Pdis & M2).
  assert (∀ e, e ∈ es2 → lookup_esme w1 e = lookup_esme w e) as He.
  { intros e Hin. apply (frees_lookup_esme _ _ _ _ _ _ Hf). intros Hin'. by apply (Hdis e). }
  assert (∀ p, p ∈ concat (map (acks_at w) es2) → lookup_pdu w1 p = lookup_pdu w p) as Hp.
  { intros p Hin. apply (frees_lookup_pdu _ _ _ _ _ _ Hf). intros Hin'. by apply (Pdis p). }
  split_and!.
  - split; [done|intros e ?; apply O2, elem_of_app; by left|done|intros p ?; apply O4, elem_of_app; by left].
  - apply (owned_same w); [done|done|intros q; apply (frees_returnable _ _ _ _ _ _ Hf)|].
    split; [done|intros e ?; apply O2, elem_of_app; by right|done|intros p ?; apply O4, elem_of_app; by right].
  - by apply acks_at_same.
  - intros evs2. by apply farewell_same.
Qed.

Lemma owned_left w es1 es2 : owned w (es1 ++ es2) → owned w es1.
Proof.
  intros [O1 O2 O3 O4]. rewrite concat_map_app in O3, O4. apply NoDup_app in O1 as (N1 & _). apply NoDup_app in O3 as (M1 & _).
  split; [done|intros e ?; apply O2, elem_of_app; by left|done|intros p ?; apply O4, elem_of_app; by left].
Qed.

Lemma accounts_free kgs w :
  owned w (accounts_binds kgs) →
  ∃ w' evs, for_each (λ kg : Octstr * SMPPEsmeGlobal,
      modify (λ w, {| w with esmes := base.delete kg.1 (esmes w) |});;
      smpp_esme_global_destroy kg.2) kgs w = Some (tt, w') ∧
    farewell w (accounts_binds kgs) evs ∧
    frees (strip w) (strip w') (accounts_binds kgs) (concat (map (acks_at w) (accounts_binds kgs))) evs ∧
    ∀ k, k ∈ kgs.*1 ∨ esmes w !! k = None → esmes w' !! k = None.
Proof.
  revert w. induction kgs as [|[k g] kgs IH]; intros w Hown.
  { exists w, []. split; [done|]. split; [constructor|]. split; [apply frees_nil|].
    by intros k [?%not_elem_of_nil|?]. }
  change (accounts_binds ((k, g) :: kgs)) with (binds g ++ accounts_binds kgs) in *.
  set (w0 := {| w with esmes := base.delete k (esmes w) |}).
  destruct (destroys_free (binds g) w0) as (w1 & evs1 & Hrun1 & Hfw1 & Hf1); [by apply (owned_same w w0), (owned_left _ _ _ Hown)|].
  destruct (owned_after w w1 (binds g) (accounts_binds kgs) evs1) as (_ & Hown1 & Hacks & Hfw); [done|exact (frees_strip _ _ _ _ _ Hf1)|].
  destruct (IH w1 Hown1) as (w' & evs2 & Hrun2 & Hfw2 & Hf2 & Hk). rewrite Hacks in Hf2.
  exists w', (evs1 ++ evs2). split_and!.
  - exact (eq_trans (f_equal (λ o, match o with Some (_, s') => for_each _ kgs s' | None => None end) Hrun1) Hrun2).
  - apply farewell_app; [by apply (farewell_same w w0)|by apply Hfw].
  - rewrite concat_map_app. apply (frees_app _ (strip w1)); [exact (frees_strip _ _ _ _ _ Hf1)|exact Hf2].
  - intros k' Hk'. apply Hk. destruct (fr_known _ _ _ _ _ Hf1) as (-> & _). cbn.
    destruct (decide (k = k')) as [<-|]; [right; apply lookup_delete_eq|].
    destruct Hk' as [[->|?]%elem_of_cons|?]; [done|by left|right]. by rewrite lookup_delete_ne.
Qed.

(** The ESMEs the daemon has: those that are bound, by account, and those that wait to
    be freed. *)
Definition all_esmes w : list nat := accounts_binds (map_to_list (esmes w)) ++ cleanup_queue w.

Lemma esme_shutdown_frees w :
  owned w (all_esmes w) →
  ∃ w' evs, smpp_esme_shutdown w = Some (tt, w') ∧ esmes w' = ∅ ∧ cleanup_queue w' = [] ∧
    farewell w (all_esmes w) evs ∧
    frees {| (strip w) with cleanup_queue := [] |} w' (all_esmes w) (concat (map (acks_at w) (all_esmes w))) evs.
Proof.
  intros Hown. unfold all_esmes in *. set (kgs := map_to_list (esmes w)) in *.
  destruct (accounts_free kgs w) as (w1 & evs1 & Hrun1 & Hfw1 & Hf1 & Hk); [exact (owned_left _ _ _ Hown)|].
  destruct (owned_after w w1 _ _ _ Hown Hf1) as (_ & Hown1 & Hacks & Hfw).
  destruct (fr_known _ _ _ _ _ Hf1) as (_ & Hc & _). cbn in Hc.
  destruct (destroys_free (cleanup_queue w) w1 Hown1) as (w2 & evs2 & Hrun2 & Hfw2 & Hf2). rewrite Hacks in Hf2.
  assert (esmes w1 = ∅) as Hnone.
  { apply map_eq. intros k. rewrite lookup_empty. apply Hk.
    destruct (esmes w !! k) as [g|] eqn:Hg; [left|by right].
    apply list_elem_of_fmap. exists (k, g). split; [done|]. by apply elem_of_map_to_list. }
  exists {| w2 with cleanup_queue := [] |}, (evs1 ++ evs2). split_and!.
  - unfold smpp_esme_shutdown. rewrite gets_bind. fold kgs. rewrite bind_unfold, Hrun1, gets_bind, Hc.
    by rewrite bind_unfold, Hrun2.
  - cbn. destruct (fr_known _ _ _ _ _ Hf2) as (-> & _). done.
  - done.
  - by apply farewell_app, Hfw.
  - rewrite concat_map_app.
    destruct (frees_app _ _ _ _ _ _ _ _ _ Hf1 (frees_strip _ _ _ _ _ Hf2)) as [G1 G2 G3 G4 G5 (G6 & G7 & G8) G9].
    split; try done. cbn. split_and!; [|done|done]. destruct (fr_known _ _ _ _ _ Hf2) as (-> & _). done.
Qed.

(** *** The queues and the bearerboxes *)

Lemma pdus_free ps w :
  NoDup ps → (∀ p, p ∈ ps → is_Some (lookup_pdu w p)) →
  ∃ w', for_each smpp_queued_pdu_destroy ps w = Some (tt, w') ∧ frees w w' [] ps [].
Proof.
  revert w. induction ps as [|p ps IH]; intros w Hnd Hp.
  { exists w. split; [done|apply frees_nil]. }
  apply NoDup_cons in Hnd as [Hnp Hnd]. destruct (Hp p) as [q Hq]; [by left|].
  destruct (frees_pdu w w p q []) as (w1 & Hd & Hf); rewrite ?app_nil_r; try done.
  destruct (IH w1 Hnd) as (w' & Hrun & Hf').
  { intros p' Hp'. rewrite (frees_lookup_pdu _ _ _ _ _ _ Hf); [apply Hp; by right|].
    rewrite list_elem_of_singleton. by intros ->. }
  exists w'. split.
  - cbn [for_each]. by rewrite bind_unfold, Hd.
  - by apply (frees_app _ w1 _ [] [] [p] ps [] []).
Qed.

Lemma readers_end bs w :
  NoDup bs → (∀ b, b ∈ bs → is_Some (bearerboxes w !! b)) →
  ∃ w', for_each reader_ends bs w = Some (tt, w') ∧ (∀ b, b ∈ bs ∨ bearerboxes w !! b = None → bearerboxes w' !! b = None) ∧
    {| w' with bearerboxes := ∅ |} = {| w with bearerboxes := ∅ |}.
Proof.
  revert w. induction bs as [|b bs IH]; intros w Hnd Hb.
  { exists w. split; [done|]. split; [by intros b [?%not_elem_of_nil|?]|done]. }
  apply NoDup_cons in Hnd as [Hnb Hnd]. destruct (Hb b) as [box Hbox]; [by left|].
  set (w1 := {| w with bearerboxes := base.delete b (bearerboxes w) |}).
  assert (reader_ends b w = Some (tt, w1)) as Hrun.
  { unfold reader_ends, smpp_bearerbox_set_state, smpp_bearerbox_destroy.
    rewrite (update_bb_bind _ box) by done. erewrite read_bb_bind by (cbn; apply lookup_insert_eq).
    unfold modify, w1. cbn. by rewrite delete_insert_eq. }
  destruct (IH w1 Hnd) as (w' & Hrun' & Hnone & Hsame).
  { intros b' Hin. cbn. rewrite lookup_delete_ne by (by intros ->). apply Hb. by right. }
  exists w'. split_and!.
  - cbn [for_each]. by rewrite bind_unfold, Hrun.
  - intros b' Hin. apply Hnone. cbn. destruct (decide (b = b')) as [<-|]; [right; apply lookup_delete_eq|].
    destruct Hin as [[->|?]%elem_of_cons|?]; [done|by left|right]. by rewrite lookup_delete_ne.
  - by rewrite Hsame.
Qed.

(** *** The whole stop *)

Definition all_acks w : list nat := concat (map (acks_at w) (all_esmes w)).

(** Every ESME, every PDU that waits and every bearerbox is there and has one owner. *)
Record all_owned w : Prop := {
  whole_esmes : owned w (all_esmes w);
  whole_queues : NoDup ((inbound_queue w ++ simulation_queue w) ++ all_acks w);
  whole_live p : p ∈ inbound_queue w ++ simulation_queue w → is_Some (lookup_pdu w p);
  whole_boxes : NoDup (bb_order w);
  whole_boxes_live b : b ∈ bb_order w → is_Some (bearerboxes w !! b);
}.

Definition no_queues w : World DB :=
  {| w with inbound_queue := []; outbound_queue := []; simulation_queue := [] |}.
Lemma queues_shutdown_frees w :
  NoDup (inbound_queue w ++ simulation_queue w) →
  (∀ p, p ∈ inbound_queue w ++ simulation_queue w → is_Some (lookup_pdu w p)) →
  ∃ w', smpp_queues_shutdown w = Some (tt, w') ∧ frees (no_queues w) w' [] (inbound_queue w ++ simulation_queue w) [].
Proof.
  intros (N1 & Hdis & N2)%NoDup_app Hlive. unfold smpp_queues_shutdown. rewrite gets_bind.
  destruct (pdus_free (inbound_queue w) w N1) as (w1 & Hrun1 & Hf1).
  { intros p Hp. apply Hlive, elem_of_app. by left. }
  destruct (fr_known _ _ _ _ _ Hf1) as (_ & _ & Hq1). apply pair_equal_spec in Hq1 as [_ [[_ Hs1]%pair_equal_spec _]%pair_equal_spec].
  rewrite bind_unfold, Hrun1, gets_bind, Hs1.
  destruct (pdus_free (simulation_queue w) w1 N2) as (w2 & Hrun2 & Hf2).
  { intros p Hp. rewrite (frees_lookup_pdu _ _ _ _ _ _ Hf1); [apply Hlive, elem_of_app; by right|].
    intros Hp'. by apply (Hdis p). }
  rewrite bind_unfold, Hrun2. eexists. split; [reflexivity|].
  destruct (frees_app _ _ _ [] [] _ _ [] [] Hf1 Hf2) as [F1 F2 F3 F4 F5 (F6 & F7 & F8) F9].
  apply pair_equal_spec in F8 as [F8 _]. split; try done. cbn. by rewrite F8.
Qed.

(** A farewell sends nothing. *)
Lemma farewell_sends_nothing w es evs : farewell w es evs → Forall (λ ev, is_sent ev = false) evs.
Proof.
  induction 1 as [|e c es evss evs _ Hr _ IH]; [constructor|].
  apply Forall_app. split; [|apply Forall_app; split; [by destruct (conn c); repeat constructor|done]].
  apply Forall_concat. induction Hr as [|p evs' ps evss' (q & _ & Hg) _ IH']; constructor; [|done].
  unfold given_back in Hg. repeat case_match; try (destruct Hg as [-> | ->]); subst; by repeat constructor.
Qed.

Lemma listener_ends_frees w :
  all_owned w →
  ∃ w' evs, listener_ends w = Some (tt, w') ∧ farewell w (all_esmes w) evs ∧ trace w' = trace w ++ evs ∧
    (∀ e, e ∈ all_esmes w → esme_heap w' !! e = Some Freed) ∧
    (∀ p, if decide (p ∈ (inbound_queue w ++ simulation_queue w) ++ all_acks w)
          then pdus w' !! p = Some Freed else pdus w' !! p = pdus w !! p) ∧
    esmes w' = ∅ ∧ cleanup_queue w' = [] ∧ inbound_queue w' = [] ∧ outbound_queue w' = [] ∧
    simulation_queue w' = [] ∧ bb_outbound_queue w' = [] ∧ blocklist w' = ∅ ∧
    ∀ b, b ∈ bb_order w → bearerboxes w' !! b = None.
Proof.
  intros [O1 O2 O3 O4 O5]. apply NoDup_app in O2 as (N1 & Hdis & N2).
  destruct (queues_shutdown_frees w N1 O3) as (w1 & Hrun1 & Hf1).
  destruct (fr_known _ _ _ _ _ Hf1) as (K1 & K2 & K3). cbn in K1, K2.
  apply pair_equal_spec in K3 as [K3 K4]. cbn in K3.
  assert (all_esmes w1 = all_esmes w) as Hall by (unfold all_esmes; by rewrite K1, K2).
  assert (∀ e, lookup_esme w1 e = lookup_esme w e) as He1.
  { intros e. apply (frees_lookup_esme _ _ _ _ _ _ Hf1), not_elem_of_nil. }
  assert (∀ p, p ∈ all_acks w → lookup_pdu w1 p = lookup_pdu w p) as Hp1.
  { intros p Hp. apply (frees_lookup_pdu _ _ _ _ _ _ Hf1). intros Hin. by apply (Hdis p). }
  assert (owned w1 (all_esmes w1)) as Hown1.
  { rewrite Hall. apply (owned_same w); [done|done|intros q; apply (frees_returnable _ _ _ _ _ _ Hf1)|done]. }
  destruct (esme_shutdown_frees w1 Hown1) as (w2 & evs & Hrun2 & Hes & Hcq & Hfw & Hf2). rewrite Hall in Hfw, Hf2.
  rewrite (acks_at_same w w1) in Hf2 by done. fold (all_acks w) in Hf2.
  destruct (fr_known _ _ _ _ _ Hf2) as (_ & _ & L3). apply pair_equal_spec in L3 as [L3 L4]. cbn in L3.
  destruct (readers_end (bb_order w) w2 O4) as (w3 & Hrun3 & Hnone & Hsame).
  { intros b Hb. apply (fr_boxes _ _ _ _ _ Hf2). cbn. apply (fr_boxes _ _ _ _ _ Hf1). cbn. by apply O5. }
  assert (∀ {A} (f : World DB → A), (∀ w, f {| w with bearerboxes := ∅ |} = f w) → f w3 = f w2) as Hf3.
  { intros A f Hf. rewrite <- Hf, Hsame. apply Hf. }
  assert (queues3 w3 = ([], [], [])) as HQ3.
  { rewrite (Hf3 _ queues3) by done. etransitivity; [exact L4|]. exact K4. }
  unfold queues3 in HQ3. injection HQ3 as Q1 Q2 Q3.
  eexists {| w3 with bb_outbound_queue := []; bb_order := []; blocklist := ∅ |}, evs. split_and!; cbn; try done.
  - unfold listener_ends, smpp_bearerbox_shutdown. rewrite bind_unfold, Hrun1, bind_unfold, Hrun2.
    rewrite bind_bind, gets_bind, L3, K3, bind_bind, bind_unfold, Hrun3. done.
  - apply (farewell_same w w1); [done|exact Hp1|done].
  - rewrite (Hf3 _ trace) by done. rewrite (fr_trace _ _ _ _ _ Hf2). cbn. rewrite (fr_trace _ _ _ _ _ Hf1). cbn.
    by rewrite app_nil_r.
  - intros e He. rewrite (Hf3 _ esme_heap) by done. by apply (fr_esmes _ _ _ _ _ Hf2).
  - intros p. rewrite (Hf3 _ pdus) by done. case_decide as Hp.
    + destruct (decide (p ∈ all_acks w)) as [Ha|Ha]; [by apply (fr_pdus _ _ _ _ _ Hf2)|].
      rewrite (fr_other_pdus _ _ _ _ _ Hf2) by done. apply (fr_pdus _ _ _ _ _ Hf1). set_solver.
    + rewrite (fr_other_pdus _ _ _ _ _ Hf2) by set_solver. apply (fr_other_pdus _ _ _ _ _ Hf1). set_solver.
  - by rewrite (Hf3 _ esmes).
  - by rewrite (Hf3 _ cleanup_queue).
  - intros b Hb. apply Hnone. by left.
Qed.
End freeing.

(** ** Properties *)

(** The first SIGINT or SIGTERM shuts the daemon down, and a second one does nothing. *)
Lemma signal_shuts_down {DB} (s : Stopping DB) (signum : signal) :
  signum = SIGINT ∨ signum = SIGTERM → shutting_down (world s) = false →
  let s' := {| s with world := set_shutdown (world s); loop_broken := true |} in
  signal_handler true signum s = Some ([WakeupAll], s') ∧ shutting_down (world s') = true ∧
  signal_handler true signum s' = Some ([], s').
Proof.
  intros Hsig Hst s'. assert (shutting_down (world s') = true) as Hst' by apply set_shutdown_status.
  unfold signal_handler. cbn [negb]. split_and!; [|done|].
  - by destruct Hsig as [-> | ->]; rewrite gets_bind, Hst.
  - by destruct Hsig as [-> | ->]; rewrite gets_bind, Hst'.
Qed.


