(* ===== verification/Threads.v ===== *)
(** The two threads of each bearerbox (smpp_bearerbox.c): the reader, which connects,
    reads and in the end frees the bearerbox, and the writer. A thread is its place in
    its loop and a function for each turn from there to where it next waits. The
    theorems are in Connections.v. *)
From stdpp Require Import relations.
From S2P Require Import Prelude CLib Gwlib Types Kannel Dlr PduUtil IpBlock World Callbacks Run Esme.
From S2P Require Import Route Bearerbox Queues Requeue Listener Fields Http Daemon Stop.
Open Scope Z_scope.

(** What [read_from_bearerbox_real] brings within its second. *)
Inductive incoming :=
  | InAck (ack_id : Octstr) (nack : option ack_status_t)
  | InAdmin (command : admin_command)
  | InSms (m : Msg)
  | InOther.
Inductive read_result := Received (m : incoming) | TimedOut | Broken.

(** Where a reader is: before the test of its outer loop, before it reads, where it
    waits for the writer, at its end. *)
Inductive reader_place := ReaderOutside | Reading | ReaderWaits | ReaderGone.
#[export] Instance reader_place_eq_dec : EqDecision reader_place.
Proof. solve_decision. Defined.

(** Where a writer is: not yet running, before the test of its outer loop, before it
    takes a message, at its end. *)
Inductive writer_place := WriterNew | WriterOutside | Writing | WriterGone.

Definition writer_alive (p : writer_place) : bool :=
  match p with WriterOutside | Writing => true | WriterNew | WriterGone => false end.

Record BoxThreads := { box : nat; reader : reader_place; writer : writer_place }.
Definition set_reader (p : reader_place) (t : BoxThreads) : BoxThreads := {| t with reader := p |}.
Definition set_writer (p : writer_place) (t : BoxThreads) : BoxThreads := {| t with writer := p |}.

Section threads.
Context {DB : Type} `{TimeLib} `{OctstrLib} `{KannelLib} `{DatabaseOps DB} `{EsmeEnv} `{RegexLib} `{BoxEnv}.
Context `{FieldLib} `{HttpLib}.
Context (method : option routing_method) (plugin : bool) (uuid : nat → Octstr).
Abbreviation W := (M (World DB)).

Definition smpp_bearerbox_online (b : nat) : W bool := c ← read_bb b; mret (alive c).

(** ** The reader *)

Definition smpp_bearerbox_incoming (b : nat) (m : incoming) : W unit :=
  match m with
  | InAck ack_id nack => smpp_bearerbox_handle_ack b ack_id nack
  | InAdmin command => smpp_bearerbox_handle_admin b command
  | InSms m => smpp_bearerbox_handle_sms method plugin b m
  | InOther => mret tt
  end.

(** From the outer loop's test; [connected]: whether connecting succeeds. *)
Definition reader_connects (b : nat) (connected : bool) : W reader_place :=
  stopping ← gets shutting_down;
  if stopping : bool then smpp_bearerbox_set_state b false;; mret ReaderWaits
  else
    online ← smpp_bearerbox_online b;
    when (negb online) (smpp_bearerbox_reconnect b connected);;
    online ← smpp_bearerbox_online b;
    mret (if online : bool then Reading else ReaderOutside).

Definition reader_reads (b : nat) (r : read_result) : W reader_place :=
  match r with
  | Broken => smpp_bearerbox_set_state b false;; mret ReaderOutside
  | Received _ | TimedOut =>
      match r with Received m => smpp_bearerbox_incoming b m | _ => smpp_bearerbox_heartbeat b end;;
      online ← smpp_bearerbox_online b;
      stopping ← gets shutting_down;
      if negb online || stopping then smpp_bearerbox_set_state b false;; mret ReaderOutside
      else mret Reading
  end.

(** ** The writer *)

Definition writer_looks (b : nat) : W writer_place :=
  stopping ← gets shutting_down;
  if stopping : bool then mret WriterGone
  else
    online ← smpp_bearerbox_online b;
    mret (if online : bool then Writing else WriterOutside).

Definition writer_writes (b : nat) : W writer_place :=
  smpp_bearerbox_outbound_step b;;
  online ← smpp_bearerbox_online b;
  mret (if online : bool then Writing else WriterOutside).

(** ** Their turns

    [producer]: whether something can still be added to the queue of the bearerboxes. *)
Inductive box_turn (producer : bool) : World DB → BoxThreads → World DB → BoxThreads → Prop :=
  | reader_connect w t w' connected p :
      reader t = ReaderOutside → reader_connects (box t) connected w = Some (p, w') →
      box_turn producer w t w' (set_reader p t)
  | reader_read w t w' r p :
      reader t = Reading → reader_reads (box t) r w = Some (p, w') →
      box_turn producer w t w' (set_reader p t)
  | reader_ends_turn w t w' :
      reader t = ReaderWaits → writer_alive (writer t) = false →
      smpp_bearerbox_destroy (box t) w = Some (tt, w') →
      box_turn producer w t w' (set_reader ReaderGone t)
  | writer_starts w t :
      writer t = WriterNew → box_turn producer w t w (set_writer WriterOutside t)
  | writer_look w t w' p :
      writer t = WriterOutside → writer_looks (box t) w = Some (p, w') →
      box_turn producer w t w' (set_writer p t)
  | writer_write w t w' p :
      writer t = Writing → bb_outbound_queue w ≠ [] → writer_writes (box t) w = Some (p, w') →
      box_turn producer w t w' (set_writer p t)
  | writer_drained w t :
      writer t = Writing → bb_outbound_queue w = [] → producer = false →
      box_turn producer w t w (set_writer WriterOutside t).

(** The daemon with its bearerboxes' threads. *)
Record Running := { running : World DB; bb_producer : bool; box_threads : list BoxThreads }.

Inductive boxes_turn : Running → Running → Prop :=
  | turn_of w producer l1 t l2 w' t' :
      box_turn producer w t w' t' →
      boxes_turn {| running := w; bb_producer := producer; box_threads := l1 ++ t :: l2 |}
                 {| running := w'; bb_producer := producer; box_threads := l1 ++ t' :: l2 |}.

(** The actions that are not those of the bearerboxes' threads. *)
Definition elsewhere (a : action) : bool :=
  match a with
  | BoxWrite _ | BoxReconnect _ _ | BoxAck _ _ _ | BoxSms _ _ | BoxHeartbeat _ | BoxBroken _ => false
  | _ => true
  end.

(** Those of all threads, and the stop: the signal and, later, the removal of the
    queue's producers. *)
Inductive running_step : Running → Running → Prop :=
  | of_bearerboxes s s' : boxes_turn s s' → running_step s s'
  | of_other_threads s a w' :
      elsewhere a = true → run_action method plugin uuid a (running s) = Some (tt, w') →
      running_step s {| s with running := w' |}
  | of_signal s : running_step s {| s with running := set_shutdown (running s) |}
  | of_producers s : running_step s {| s with bb_producer := false |}.

End threads.
Arguments Running : clear implicits.

(** ** What only the reader changes *)

(** A property of a bearerbox that stays when it goes offline, and whatever its table
    and its times are. *)
Definition lasting (Φ : SMPPBearerbox → Prop) : Prop :=
  ∀ c c', connection c' = connection c → (alive c' = true → alive c = true) → Φ c → Φ c'.

Section frames.
Context {DB : Type} `{TimeLib} `{OctstrLib} `{KannelLib} `{DatabaseOps DB} `{EsmeEnv} `{RegexLib} `{BoxEnv}.
Context `{FieldLib} `{HttpLib}.
Context (method : option routing_method) (plugin : bool) (uuid : nat → Octstr).
Implicit Types (w : World DB).

(** The bearerbox [b] is there, and [Φ] of it. *)
Definition box_sat (Φ : SMPPBearerbox → Prop) (b : nat) w : Prop := ∃ c, bearerboxes w !! b = Some c ∧ Φ c.

Lemma update_bb_box Φ b b' f :
  (b' = b → ∀ c, Φ c → Φ (f c)) → preserves (box_sat Φ b) (update_bb (DB := DB) b' f).
Proof.
  intros Hf w [] w' (c & Hc & Hk). unfold update_bb, read_bb. rewrite bind_bind, gets_bind.
  destruct (bearerboxes w !! b') as [c'|] eqn:Hc'; [|done]. intros [= <-]. unfold box_sat. cbn.
  destruct (decide (b' = b)) as [->|Hne].
  - rewrite Hc in Hc'. injection Hc' as <-. exists (f c). split; [apply lookup_insert_eq|]. by apply Hf.
  - exists c. by rewrite lookup_insert_ne.
Qed.

Context (Φ : SMPPBearerbox → Prop) (HΦ : lasting Φ) (b : nat).
#[local] Abbreviation box_is := (box_sat Φ b).
#[local] Hint Extern 1 (preserves _ (modify _)) => (apply preserves_modify; intros ? Hw; exact Hw) : frame.
#[local] Hint Extern 1 (preserves _ (mret _)) => apply preserves_ret : frame.
#[local] Hint Extern 1 (preserves _ (update_bb _ _)) =>
  (apply update_bb_box; intros He ?;
   first [by apply HΦ; [done|intros] | match goal with Hn : _ ≠ _ |- _ => by destruct (Hn He) end]) : frame.

Lemma read_esmes_box es : preserves box_is (read_esmes (DB := DB) es).
Proof. induction es; cbn [read_esmes]; frame_auto; auto. Qed.
Lemma set_state_box b' : preserves box_is (smpp_bearerbox_set_state (DB := DB) b' false).
Proof. unfold smpp_bearerbox_set_state. auto with frame nocore. Qed.
#[local] Hint Resolve read_esmes_box set_state_box : frame.
Lemma acknowledge_box b' i st : preserves box_is (smpp_bearerbox_acknowledge (DB := DB) b' i st).
Proof. frame_auto. Qed.
#[local] Hint Resolve acknowledge_box : frame.
Lemma run_callback_box cb p st : preserves box_is (run_callback (DB := DB) cb p st).
Proof. frame_auto. Qed.
#[local] Hint Resolve run_callback_box : frame.
Lemma run_bb_callback_box cb st : preserves box_is (run_bb_callback (DB := DB) cb st).
Proof. frame_auto. Qed.
#[local] Hint Resolve run_bb_callback_box : frame.
Lemma add_to_queue_box m : preserves box_is (smpp_bearerbox_add_to_queue (DB := DB) m).
Proof. frame_auto. Qed.
Lemma msg_to_pdus_box e m : preserves box_is (msg_to_pdus (DB := DB) e m).
Proof. frame_auto. Qed.
#[local] Hint Resolve add_to_queue_box msg_to_pdus_box : frame.
Lemma route_message_box dir smsc sid m cb :
  preserves box_is (smpp_route_message (DB := DB) method plugin dir smsc sid m cb).
Proof. frame_auto. Qed.
Lemma route_callback_box cb m st : preserves box_is (run_route_callback (DB := DB) cb m st).
Proof. frame_auto. Qed.
#[local] Hint Resolve route_message_box route_callback_box : frame.

Lemma handle_submit_box p : preserves box_is (smpp_queues_handle_submit_sm (DB := DB) method plugin uuid p).
Proof. frame_auto. Qed.
Lemma handle_data_box p : preserves box_is (smpp_queues_handle_data_sm (DB := DB) method plugin uuid p).
Proof. frame_auto. Qed.
Lemma handle_bind_box p : preserves box_is (smpp_queues_handle_bind_pdu (DB := DB) p).
Proof. frame_auto. Qed.
#[local] Hint Resolve handle_submit_box handle_data_box handle_bind_box : frame.
Lemma cleanup_binds_box es : preserves box_is (cleanup_binds (DB := DB) es).
Proof. induction es; cbn [cleanup_binds]; frame_auto; auto. Qed.
Lemma cleanup_queue_box es : preserves box_is (cleanup_queue_pass (DB := DB) es).
Proof. induction es; cbn [cleanup_queue_pass]; frame_auto; auto. Qed.
#[local] Hint Resolve cleanup_binds_box cleanup_queue_box : frame.
Lemma capable_keys_box ks : preserves box_is (capable_keys (DB := DB) ks).
Proof. induction ks; cbn [capable_keys]; frame_auto; auto. Qed.
Lemma readers_box best ks : preserves box_is (readers (DB := DB) best ks).
Proof. induction ks; cbn [readers]; frame_auto; auto. Qed.
Lemma alloc_pdus_box qs : preserves box_is (alloc_pdus (DB := DB) qs).
Proof. induction qs; cbn [alloc_pdus]; frame_auto; auto. Qed.
#[local] Hint Resolve capable_keys_box readers_box alloc_pdus_box : frame.
Lemma messages_to_pdus_box e d ms : preserves box_is (messages_to_pdus (DB := DB) e d ms).
Proof. induction ms; cbn [messages_to_pdus]; frame_auto; auto. Qed.
#[local] Hint Resolve messages_to_pdus_box : frame.
Lemma queued_for_all_box es : preserves box_is (queued_for_all (DB := DB) es).
Proof. induction es; cbn [queued_for_all]; frame_auto; auto. Qed.
Lemma read_loop_box e vs : preserves box_is (read_loop (DB := DB) e vs).
Proof. induction vs; cbn [read_loop]; frame_auto; auto. Qed.
#[local] Hint Resolve queued_for_all_box read_loop_box : frame.

Lemma elsewhere_box a : elsewhere a = true → preserves box_is (run_action (DB := DB) method plugin uuid a).
Proof. destruct a; intros Ha; try done; cbn [run_action]; frame_auto. Qed.

(** *** The turns of the bearerboxes' threads *)

Lemma incoming_box b' m : preserves box_is (smpp_bearerbox_incoming (DB := DB) method plugin b' m).
Proof. frame_auto. Qed.
Lemma heartbeat_box b' : preserves box_is (smpp_bearerbox_heartbeat (DB := DB) b').
Proof. frame_auto. Qed.
#[local] Hint Resolve incoming_box heartbeat_box : frame.
Lemma reader_reads_box b' r : preserves box_is (reader_reads (DB := DB) method plugin b' r).
Proof. frame_auto. Qed.
Lemma outbound_step_box b' : preserves box_is (smpp_bearerbox_outbound_step (DB := DB) b').
Proof. frame_auto. Qed.
#[local] Hint Resolve outbound_step_box : frame.
Lemma writer_writes_box b' : preserves box_is (writer_writes (DB := DB) b').
Proof. frame_auto. Qed.
Lemma writer_looks_box b' : preserves box_is (writer_looks (DB := DB) b').
Proof. frame_auto. Qed.
Lemma reader_connects_other b' connected : b' ≠ b → preserves box_is (reader_connects (DB := DB) b' connected).
Proof.
  intros Hb. unfold reader_connects, smpp_bearerbox_online, smpp_bearerbox_reconnect, smpp_bearerbox_identify,
    smpp_bearerbox_set_state.
  frame_auto.
Qed.
Lemma destroy_other b' : b' ≠ b → preserves box_is (smpp_bearerbox_destroy (DB := DB) b').
Proof.
  intros Hb. apply preserves_bind; [frame_auto|intros ?]. apply preserves_modify. intros w (c & Hc & Hk).
  exists c. split; [|done]. cbn. by rewrite lookup_delete_ne.
Qed.
End frames.
