(* ===== verification/Connections.v ===== *)
(** The connections to the bearerboxes: what the theorems about Threads.v show. *)
From stdpp Require Import relations.
From Stdlib Require Import Wellfounded Relation_Operators.
From S2P Require Import Prelude CLib Gwlib Types Kannel Dlr PduUtil IpBlock World Callbacks Run Esme.
From S2P Require Import Route Bearerbox Queues Requeue Listener Fields Http Daemon Stop Threads.
Open Scope Z_scope.

(** ** A bearerbox that is alive is connected *)

(** [reading]: also one that its reader reads from is. *)
Definition connected_if (reading : bool) (c : SMPPBearerbox) : Prop := alive c || reading = true → connection c = true.
Definition offline (c : SMPPBearerbox) : Prop := alive c = false.

Lemma connected_if_lasting k : lasting (connected_if k).
Proof. intros c c' Hcon Hal Hk Ha. rewrite Hcon. apply Hk. destruct (alive c'); [by rewrite Hal|by destruct (alive c)]. Qed.
Lemma offline_lasting : lasting offline.
Proof. intros c c' _ Hal Hoff. unfold offline in *. destruct (alive c'); [by rewrite Hal in Hoff|done]. Qed.
Lemma connected_if_weaken k c : connected_if k c → connected_if false c.
Proof. intros Hk Ha. apply Hk. rewrite orb_false_r in Ha. by rewrite Ha. Qed.

Section turns.
Context {DB : Type} `{TimeLib} `{OctstrLib} `{KannelLib} `{DatabaseOps DB} `{EsmeEnv} `{RegexLib} `{BoxEnv}.
Context `{FieldLib} `{HttpLib}.
Context (method : option routing_method) (plugin : bool) (uuid : nat → Octstr).
Implicit Types (w : World DB).

Lemma online_run b w : smpp_bearerbox_online b w = (λ c, (alive c, w)) <$> bearerboxes w !! b.
Proof. unfold smpp_bearerbox_online, read_bb. rewrite bind_bind, gets_bind. by destruct (bearerboxes w !! b). Qed.
Lemma online_bind {B} b w c (k : bool → M (World DB) B) :
  bearerboxes w !! b = Some c → (smpp_bearerbox_online b ≫= k) w = k (alive c) w.
Proof. intros Hc. by rewrite bind_unfold, online_run, Hc. Qed.

(** *** What the threads do are actions of the daemon *)

Abbreviation daemon_steps := (rtc (daemon_step method plugin uuid)).
Lemma action_steps a w w' : run_action method plugin uuid a w = Some (tt, w') → daemon_steps w w'.
Proof. intros Ha. apply rtc_once. by exists a. Qed.

Lemma incoming_steps b m w w' : smpp_bearerbox_incoming method plugin b m w = Some (tt, w') → daemon_steps w w'.
Proof.
  destruct m as [i n|c|m|]; cbn [smpp_bearerbox_incoming]; intros Hrun.
  - by apply (action_steps (BoxAck b i n)).
  - destruct c; try (injection Hrun as <-; apply rtc_refl); by apply (action_steps (BoxBroken b)).
  - by apply (action_steps (BoxSms b m)).
  - injection Hrun as <-. apply rtc_refl.
Qed.

Lemma heartbeat_steps b w w' : smpp_bearerbox_heartbeat b w = Some (tt, w') → daemon_steps w w'.
Proof. by apply (action_steps (BoxHeartbeat b)). Qed.
Lemma broken_steps b w w' p (q : reader_place) :
  (smpp_bearerbox_set_state b false;; mret q) w = Some (p, w') → p = q ∧ daemon_steps w w'.
Proof.
  intros ([] & w1 & Hrun & [= <- <-])%bind_Some. split; [done|]. by apply (action_steps (BoxBroken b)).
Qed.

Lemma reader_reads_steps b r w p w' :
  reader_reads method plugin b r w = Some (p, w') → daemon_steps w w' ∧ (p = ReaderOutside ∨ p = Reading) ∧
    (shutting_down w = true → daemon_ok w → p = ReaderOutside).
Proof.
  destruct r as [m| |]; cbn [reader_reads];
    [| |intros [-> Hs]%broken_steps; split; [done|]; split; [by left|done]].
  all: intros ([] & w1 & Hrun & Hrest)%bind_Some; first [apply incoming_steps in Hrun|apply heartbeat_steps in Hrun].
  all: rewrite bind_unfold, online_run in Hrest; destruct (bearerboxes w1 !! b) as [c|]; [|done]; cbn in Hrest.
  all: rewrite gets_bind in Hrest.
  all: assert (shutting_down w = true → daemon_ok w → shutting_down w1 = true) as Hst
    by (intros Hst Hok; destruct (steps_since method plugin uuid w w1 Hok Hrun) as [_ Hdev];
        unfold shutting_down in *; by rewrite (dev_server _ _ Hdev)).
  all: destruct (negb (alive c) || shutting_down w1) eqn:Hend;
    [apply broken_steps in Hrest as [-> Hs]; split; [by etransitivity|]; split; [by left|done]
    |injection Hrest as <- <-; split; [done|]; split; [by right|]].
  all: intros Hs Hok; apply orb_false_iff in Hend as [_ Hend]; by rewrite (Hst Hs Hok) in Hend.
Qed.

Lemma reader_connects_steps b connected w p w' :
  reader_connects b connected w = Some (p, w') → daemon_steps w w' ∧
    if shutting_down w then p = ReaderWaits else p = Reading ∨ p = ReaderOutside.
Proof.
  unfold reader_connects. rewrite gets_bind. destruct (shutting_down w).
  { intros [-> Hs]%broken_steps. done. }
  rewrite bind_unfold, online_run. destruct (bearerboxes w !! b) as [c|]; [|done]. cbn [fmap option_fmap option_map].
  intros ([] & w1 & Hrun & Hrest)%bind_Some.
  rewrite bind_unfold, online_run in Hrest. destruct (bearerboxes w1 !! b) as [c1|]; [|done]. cbn in Hrest.
  injection Hrest as <- <-. split; [|destruct (alive c1); auto].
  destruct (alive c); cbn [negb when] in Hrun; [injection Hrun as <-; apply rtc_refl|].
  by apply (action_steps (BoxReconnect b connected)).
Qed.

Lemma writer_writes_steps b w p w' :
  writer_writes b w = Some (p, w') → daemon_steps w w' ∧ (p = Writing ∨ p = WriterOutside).
Proof.
  intros ([] & w1 & Hrun & Hrest)%bind_Some.
  rewrite bind_unfold, online_run in Hrest. destruct (bearerboxes w1 !! b) as [c1|]; [|done]. cbn in Hrest.
  injection Hrest as <- <-. split; [by apply (action_steps (BoxWrite b))|destruct (alive c1); auto].
Qed.

Lemma writer_looks_steps b w p w' :
  writer_looks b w = Some (p, w') → w' = w ∧
    if shutting_down w then p = WriterGone else p = Writing ∨ p = WriterOutside.
Proof.
  unfold writer_looks. rewrite gets_bind. destruct (shutting_down w); [by intros [= <- <-]|].
  rewrite bind_unfold, online_run. destruct (bearerboxes w !! b) as [c|]; [|done]. cbn.
  intros [= <- <-]. split; [done|]. destruct (alive c); auto.
Qed.

(** *** What they leave of their bearerbox *)

Lemma reconnect_own b connected :
  triple (box_sat (DB := DB) offline b) (smpp_bearerbox_reconnect b connected) (λ _, box_sat (connected_if false) b).
Proof.
  intros w [] w' Hoff. unfold smpp_bearerbox_reconnect.
  intros (c & w1 & Hread & Hrest)%bind_Some.
  assert (box_sat offline b w1) as Hoff1.
  { revert Hread. unfold read_bb. intros (o & w2 & [= <- <-] & Hd)%bind_Some.
    destruct (bearerboxes w !! b); [|done]. by injection Hd as _ <-. }
  clear Hread Hoff. apply bind_Some in Hrest as ([] & w2 & Hloop & Hrest).
  assert (box_sat offline b w2) as (c2 & Hc2 & Hoff2).
  { revert Hoff1 Hloop. apply preserves_for_each. intros kv _.
    apply preserves_bind; [|intros _; apply run_bb_callback_box].
    apply update_bb_box. intros _ c'. by apply offline_lasting. }
  clear Hloop Hoff1. rewrite (update_bb_bind _ c2) in Hrest by done.
  set (c3 := {| c2 with bb_open_acks := ∅; connection := connected |}) in *.
  destruct connected; cbn [when] in Hrest.
  - unfold smpp_bearerbox_identify, now in Hrest. rewrite bind_bind, next_write_bind, bind_bind, gets_bind, bind_bind in Hrest.
    destruct (default true _); cbn [when] in Hrest.
    + rewrite (update_bb_bind _ c3), ret_bind in Hrest by (cbn; apply lookup_insert_eq). cbn [when] in Hrest.
      unfold smpp_bearerbox_set_state in Hrest. erewrite update_bb_run in Hrest by (cbn; apply lookup_insert_eq).
      injection Hrest as <-. eexists. split; [cbn; apply lookup_insert_eq|]. done.
    + rewrite ret_bind, ret_bind in Hrest. cbn [when] in Hrest. injection Hrest as <-.
      eexists. split; [cbn; apply lookup_insert_eq|]. done.
  - injection Hrest as <-. eexists. split; [cbn; apply lookup_insert_eq|]. intros Ha. cbn in Ha.
    unfold offline in Hoff2. by rewrite Hoff2 in Ha.
Qed.

Definition reads (p : reader_place) : bool := match p with Reading => true | _ => false end.

Lemma box_weaken (Φ Ψ : SMPPBearerbox → Prop) b w :
  (∀ c, Φ c → Ψ c) → box_sat (DB := DB) Φ b w → box_sat Ψ b w.
Proof. intros HΦ (c & Hc & Hk). exists c. auto. Qed.

Lemma reader_connects_own b connected :
  triple (box_sat (DB := DB) (connected_if false) b) (reader_connects b connected)
         (λ p, box_sat (connected_if (reads p)) b).
Proof.
  intros w p w' (c & Hc & Hk) Hrun. unfold reader_connects in Hrun. rewrite gets_bind in Hrun.
  destruct (shutting_down w).
  { unfold smpp_bearerbox_set_state in Hrun. rewrite (update_bb_bind _ c) in Hrun by done. injection Hrun as <- <-.
    eexists. split; [cbn; apply lookup_insert_eq|]. done. }
  rewrite (online_bind _ _ c) in Hrun by done. apply bind_Some in Hrun as ([] & w1 & Hrun & Hrest).
  assert (box_sat (connected_if false) b w1) as (c1 & Hc1 & Hk1).
  { destruct (alive c) eqn:Ha; cbn [negb when] in Hrun; [injection Hrun as <-; by exists c|].
    refine (reconnect_own b connected _ _ _ _ Hrun). by exists c. }
  rewrite (online_bind _ _ c1) in Hrest by done. injection Hrest as <- <-. exists c1. split; [done|].
  destruct (alive c1) eqn:Ha; [|done]. intros _. apply Hk1. by rewrite Ha.
Qed.
End turns.

(** ** The invariant *)

Section invariant.
Context {DB : Type} `{TimeLib} `{OctstrLib} `{KannelLib} `{DatabaseOps DB} `{EsmeEnv} `{RegexLib} `{BoxEnv}.
Context `{FieldLib} `{HttpLib}.
Context (method : option routing_method) (plugin : bool) (uuid : nat → Octstr).
Implicit Types (w : World DB).

(** A thread's bearerbox is there as long as one of its threads runs; it is connected
    when it is alive and when it is read from. *)
Record wired w (t : BoxThreads) : Prop := {
  wi_started : writer t ≠ WriterNew;
  wi_there : reader t ≠ ReaderGone → box_sat (connected_if (reads (reader t))) (box t) w;
  wi_gone : reader t = ReaderGone → writer t = WriterGone;
}.

(** Each bearerbox has one pair of threads. *)
Record well_wired (s : Running DB) : Prop := {
  ww_ok : daemon_ok (running s);
  ww_boxes : NoDup (map box (box_threads s));
  ww_threads t : t ∈ box_threads s → wired (running s) t;
}.

Lemma preserves_wired (m : M (World DB) unit) w w' t :
  (∀ k, preserves (box_sat (connected_if k) (box t)) m) → m w = Some (tt, w') → wired w t → wired w' t.
Proof. intros Hm Hrun [W1 W2 W3]. split; [done| |done]. intros Hr. by eapply Hm; [apply W2|]. Qed.

(** A turn keeps its own threads wired, and those of other bearerboxes. *)
Lemma box_turn_own producer w t w' t' :
  box_turn method plugin producer w t w' t' → wired w t → box t' = box t ∧ wired w' t'.
Proof.
  intros Hturn [W1 W2 W3].
  destruct Hturn as [w t w' con p Hr Hrun|w t w' r p Hr Hrun|w t w' Hr Hwr Hrun|w t Hwr|w t w' p Hwr Hrun
    |w t w' p Hwr Hq Hrun|w t Hwr Hq Hp]; (split; [done|]).
  - rewrite Hr in W2. split; cbn; [done| |].
    + intros _. by eapply reader_connects_own; [apply W2|].
    + intros ->. apply (reader_connects_steps method plugin uuid) in Hrun as [_ Hp].
      destruct (shutting_down w); [done|by destruct Hp].
  - rewrite Hr in W2. destruct (reader_reads_steps method plugin uuid _ _ _ _ _ Hrun) as (_ & Hp & _).
    assert (box_sat (connected_if true) (box t) w') as Hbox.
    { refine (reader_reads_box method plugin _ (connected_if_lasting true) _ _ _ _ _ _ _ Hrun). by apply W2. }
    split; cbn; [done|intros _|by destruct Hp as [-> | ->]]. destruct Hp as [-> | ->]; [|done].
    revert Hbox. apply box_weaken, connected_if_weaken.
  - split; cbn; [done|done|]. intros _. by destruct (writer t).
  - done.
  - apply (writer_looks_steps (DB := DB)) in Hrun as [-> Hp]. split; cbn.
    + destruct (shutting_down w); [by subst|by destruct Hp as [-> | ->]].
    + done.
    + intros Hg. by rewrite (W3 Hg) in Hwr.
  - destruct (writer_writes_steps method plugin uuid _ _ _ _ Hrun) as [_ Hp]. split; cbn.
    + by destruct Hp as [-> | ->].
    + intros Hg. refine (writer_writes_box _ (connected_if_lasting _) _ _ _ _ _ _ Hrun). by apply W2.
    + intros Hg. by rewrite (W3 Hg) in Hwr.
  - split; cbn; [done|done|]. intros Hg. by rewrite (W3 Hg) in Hwr.
Qed.

Lemma box_turn_other producer w t w' t' u :
  box_turn method plugin producer w t w' t' → box u ≠ box t → wired w u → wired w' u.
Proof.
  intros Hturn Hne [W1 W2 W3]. split; [done| |done]. intros Hr. specialize (W2 Hr). revert W2.
  generalize (connected_if_lasting (reads (reader u))). generalize (connected_if (reads (reader u))). intros Φ HΦ Hbox.
  destruct Hturn as [w t w' con p _ Hrun|w t w' r p _ Hrun|w t w' _ _ Hrun|w t _|w t w' p _ Hrun
    |w t w' p _ _ Hrun|w t _ _ _]; try done.
  - by eapply (reader_connects_other Φ HΦ); [done|..].
  - by eapply (reader_reads_box method plugin Φ HΦ).
  - by eapply (destroy_other Φ); [done|..].
  - by apply (writer_looks_steps (DB := DB)) in Hrun as [-> _].
  - by eapply (writer_writes_box Φ HΦ).
Qed.

Lemma box_turn_ok producer w t w' t' :
  box_turn method plugin producer w t w' t' → daemon_ok w → daemon_ok w' ∧ shutting_down w' = shutting_down w.
Proof.
  intros Hturn Hok.
  assert (rtc (daemon_step method plugin uuid) w w' → daemon_ok w' ∧ shutting_down w' = shutting_down w) as Hdone.
  { intros Hsteps. destruct (steps_since method plugin uuid w w' Hok Hsteps) as [Hok' Hdev]. split; [done|].
    unfold shutting_down. by rewrite (dev_server _ _ Hdev). }
  destruct Hturn as [w t w' con p _ Hrun|w t w' r p _ Hrun|w t w' _ _ Hrun|w t _|w t w' p _ Hrun
    |w t w' p _ _ Hrun|w t _ _ _]; try done.
  - apply Hdone. by eapply reader_connects_steps.
  - apply Hdone. by eapply reader_reads_steps.
  - clear Hdone. apply bind_Some in Hrun as (c & w1 & Hread & [= <-]). unfold read_bb in Hread.
    apply bind_Some in Hread as (o & w2 & [= <- <-] & Hd). destruct (bearerboxes w !! box t); [|done].
    injection Hd as _ <-. split; [by destruct Hok|done].
  - by apply (writer_looks_steps (DB := DB)) in Hrun as [-> _].
  - apply Hdone. by eapply writer_writes_steps.
Qed.

Lemma well_wired_turn s s' : boxes_turn method plugin s s' → well_wired s → well_wired s'.
Proof.
  intros [w pr l1 t l2 w' t' Hturn] [W1 W2 W3]. cbn in *.
  assert (wired w t) as Ht by (apply W3; set_solver). destruct (box_turn_own _ _ _ _ _ Hturn Ht) as [Hb Ht'].
  split; cbn.
  - by eapply box_turn_ok.
  - by rewrite map_app in W2 |- *; cbn in *; rewrite Hb.
  - rewrite map_app in W2. apply NoDup_app in W2 as (_ & Hdis & [Hn _]%NoDup_cons).
    intros u Hu. assert (u = t' ∨ u ∈ l1 ∨ u ∈ l2) as [->|Hin] by set_solver; [done|].
    eapply box_turn_other; [done| |apply W3; set_solver]. intros He. destruct Hin as [Hin|Hin].
    + apply (Hdis (box u)); [by apply list_elem_of_In, in_map, list_elem_of_In|rewrite He; left].
    + apply Hn. rewrite <- He. by apply list_elem_of_In, in_map, list_elem_of_In.
Qed.

Lemma well_wired_step s s' : running_step method plugin uuid s s' → well_wired s → well_wired s'.
Proof.
  intros Hstep Hs. destruct Hstep as [s s' Hturn|s a w' Ha Hrun|s|s]; [by eapply well_wired_turn| | |].
  - destruct Hs as [W1 W2 W3]. split; cbn; [|done|].
    + by destruct (action_since method plugin uuid (running s) a (running s) tt w' (since_refl _ W1) Hrun).
    + intros t Ht. eapply preserves_wired; [|exact Hrun|by apply W3]. intros k.
      by apply elsewhere_box, Ha; apply connected_if_lasting.
  - destruct Hs as [W1 W2 W3]. split; cbn; [by destruct W1|done|]. intros t Ht. by destruct (W3 t Ht).
  - by destruct Hs.
Qed.

Lemma well_wired_steps s s' : rtc (running_step method plugin uuid) s s' → well_wired s → well_wired s'.
Proof. induction 1 as [|s s1 s2 Hstep _ IH]; [done|]. intros Hs. by eapply IH, well_wired_step. Qed.

(** *** The end of the threads *)

Definition reader_rank (p : reader_place) : nat :=
  match p with Reading => 3 | ReaderOutside => 2 | ReaderWaits => 1 | ReaderGone => 0 end.
Definition writer_rank (p : writer_place) : nat :=
  match p with WriterNew => 2 | Writing => 2 | WriterOutside => 1 | WriterGone => 0 end.
Definition rank (t : BoxThreads) : nat := (reader_rank (reader t) + writer_rank (writer t))%nat.
Definition ranks (ts : list BoxThreads) : nat := list_sum (map rank ts).

(** What the threads have before them: their places, then the queue. *)
Definition before_them (s : Running DB) : nat * nat :=
  (ranks (box_threads s), length (bb_outbound_queue (running s))).
Definition nearer : relation (nat * nat) := slexprod _ _ lt lt.
Lemma nearer_wf : well_founded nearer.
Proof. apply wf_slexprod; apply lt_wf. Qed.

Lemma ranks_app l1 t l2 : ranks (l1 ++ t :: l2) = (ranks l1 + (rank t + ranks l2))%nat.
Proof. unfold ranks. by rewrite map_app, list_sum_app. Qed.

(** A writer whose bearerbox is still alive has taken a message. *)
Lemma add_to_queue_offline b m : preserves (box_sat (DB := DB) offline b) (smpp_bearerbox_add_to_queue m).
Proof. by apply add_to_queue_box. Qed.

Lemma writer_takes b w w' :
  box_sat (connected_if false) b w → bb_outbound_queue w ≠ [] → writer_writes b w = Some (Writing, w') →
  bb_outbound_queue w' = tail (bb_outbound_queue w).
Proof.
  intros (c & Hc & Hk) Hne ([] & w1 & Hrun & Hrest)%bind_Some.
  rewrite bind_unfold, online_run in Hrest. destruct (bearerboxes w1 !! b) as [c1|] eqn:Hc1; [|done]. cbn in Hrest.
  injection Hrest as Halive <-.
  assert (¬ box_sat offline b w1) as Hon.
  { intros (c2 & Hc2 & Hoff). rewrite Hc1 in Hc2. injection Hc2 as <-. unfold offline in Hoff. by rewrite Hoff in Halive. }
  clear Halive Hc1 c1. unfold smpp_bearerbox_outbound_step in Hrun. rewrite gets_bind in Hrun.
  destruct (bb_outbound_queue w) as [|m q]; [done|]. rewrite modify_bind in Hrun. cbn [tail].
  rewrite (read_bb_bind _ c) in Hrun by done. destruct (alive c) eqn:Ha.
  - rewrite Hk in Hrun by (by rewrite Ha). cbn [andb] in Hrun. cbv zeta in Hrun.
    rewrite (update_bb_bind _ c), next_write_bind in Hrun by done.
    destruct (default true _); [by injection Hrun as <-|].
    erewrite update_bb_bind in Hrun by (cbn; apply lookup_insert_eq).
    destruct Hon. refine (add_to_queue_offline b _ _ _ _ _ Hrun). eexists. split; [cbn; apply lookup_insert_eq|done].
  - cbn [andb] in Hrun. destruct Hon. refine (add_to_queue_offline b _ _ _ _ _ Hrun). by exists c.
Qed.

Lemma turn_nearer s s' :
  well_wired s → shutting_down (running s) = true → boxes_turn method plugin s s' →
  nearer (before_them s') (before_them s).
Proof.
  intros [W1 W2 W3] Hst Hturn. destruct Hturn as [w pr l1 t l2 w' t' Hturn]. cbn in *.
  assert (wired w t) as [_ Ht _] by (apply W3; set_solver). unfold before_them. cbn [running box_threads]. rewrite !ranks_app.
  assert (rank t' < rank t ∨ rank t' = rank t ∧ length (bb_outbound_queue w') < length (bb_outbound_queue w))%nat
    as [Hr|[-> Hq]]; [|left; lia|by right].
  destruct Hturn as [w t w' con p Hp Hrun|w t w' r p Hp Hrun|w t w' Hp _ Hrun|w t Hp|w t w' p Hp Hrun
    |w t w' p Hp Hne Hrun|w t Hp _ _]; unfold rank; cbn; rewrite Hp; cbn.
  - apply (reader_connects_steps method plugin uuid) in Hrun as [_ Hw]. rewrite Hst in Hw. subst p. cbn. lia.
  - destruct (reader_reads_steps method plugin uuid _ _ _ _ _ Hrun) as (_ & _ & Hw). rewrite (Hw Hst W1). cbn. lia.
  - lia.
  - lia.
  - apply (writer_looks_steps (DB := DB)) in Hrun as [_ Hw]. rewrite Hst in Hw. subst p. cbn. lia.
  - destruct (writer_writes_steps method plugin uuid _ _ _ _ Hrun) as [_ [-> | ->]]; cbn; [|lia].
    right. split; [done|]. assert (box_sat (connected_if false) (box t) w) as Hbox.
    { destruct (reader t) eqn:Hrd; try (eapply box_weaken; [apply connected_if_weaken|by apply Ht]).
      destruct (W3 t) as [_ _ Hg]; [set_solver|]. by rewrite (Hg Hrd) in Hp. }
    rewrite (writer_takes _ _ _ Hbox Hne Hrun). destruct (bb_outbound_queue w); [done|]. cbn. lia.
  - lia.
Qed.

Lemma turns_end s :
  well_wired s → shutting_down (running s) = true → Acc (flip (boxes_turn method plugin)) s.
Proof.
  remember (before_them s) as n eqn:Hn. revert s Hn. induction (nearer_wf n) as [n _ IH]. intros s -> Hs Hst.
  constructor. intros s' Hturn. apply (IH (before_them s')); [by apply turn_nearer|done|by eapply well_wired_turn|].
  destruct Hturn as [w pr l1 t l2 w' t' Hturn]. cbn in *.
  destruct (box_turn_ok _ _ _ _ _ Hturn (ww_ok _ Hs)) as [_ ->]. done.
Qed.

Definition ended (t : BoxThreads) : Prop := reader t = ReaderGone ∧ writer t = WriterGone.
(** A turn of a writer that C gives no meaning to. *)
Definition writer_crashes (s : Running DB) : Prop :=
  ∃ t, t ∈ box_threads s ∧ writer t = Writing ∧ bb_outbound_queue (running s) ≠ [] ∧
    writer_writes (box t) (running s) = None.

Lemma wired_turn producer w t :
  wired w t → shutting_down w = true → producer = false → ¬ ended t →
  (∃ w' t', box_turn method plugin producer w t w' t') ∨
  writer t = Writing ∧ bb_outbound_queue w ≠ [] ∧ writer_writes (box t) w = None.
Proof.
  intros [W1 W2 W3] Hst -> Hend.
  destruct (reader t) eqn:Hr; [..|by destruct Hend; split; [|apply W3]].
  all: destruct W2 as (c & Hc & _); [done|].
  - left. do 2 eexists. eapply (reader_connect _ _ _ _ _ _ true); [done|].
    unfold reader_connects, smpp_bearerbox_set_state. rewrite gets_bind, Hst, (update_bb_bind _ c) by done. reflexivity.
  - left. do 2 eexists. eapply (reader_read _ _ _ _ _ _ Broken); [done|].
    cbn [reader_reads]. unfold smpp_bearerbox_set_state. rewrite (update_bb_bind _ c) by done. reflexivity.
  - destruct (writer t) eqn:Hw; [done|..].
    + left. do 2 eexists. eapply writer_look; [done|]. unfold writer_looks. rewrite gets_bind, Hst. reflexivity.
    + destruct (decide (bb_outbound_queue w = [])); [left; do 2 eexists; by eapply writer_drained|].
      destruct (writer_writes (box t) w) as [[p w']|] eqn:Hrun; [left|by right].
      do 2 eexists. by eapply writer_write.
    + left. do 2 eexists. eapply reader_ends_turn; [done|by rewrite Hw|].
      unfold smpp_bearerbox_destroy. rewrite (read_bb_bind _ c) by done. reflexivity.
Qed.

Lemma next_box_turn s :
  well_wired s → shutting_down (running s) = true → bb_producer s = false →
  Forall ended (box_threads s) ∨ (∃ s', boxes_turn method plugin s s') ∨ writer_crashes s.
Proof.
  intros Hs Hst Hpr. destruct (decide (Forall (λ t, reader t = ReaderGone) (box_threads s))) as [Hall|Hnot].
  { left. rewrite Forall_forall in Hall |- *. intros t Ht. split; [by apply Hall|]. by apply (ww_threads _ Hs t Ht), Hall. }
  right. apply not_Forall_Exists, Exists_exists in Hnot as (t & Ht & Hr); [|apply _].
  destruct (wired_turn (bb_producer s) (running s) t) as [(w' & t' & Hturn)|Hcrash]; [by apply Hs|done|done|by intros []| |].
  - left. apply list_elem_of_split in Ht as (l1 & l2 & Hl). destruct s as [w pr ts]. cbn in *. subst ts.
    eexists. by constructor.
  - right. by exists t.
Qed.
End invariant.

(** ** Properties *)

(** When the daemon has started: the readers are about to connect, the writers run. *)
Record bearerboxes_started {DB} (s : Running DB) : Prop := {
  st_ok : daemon_ok (running s);
  st_boxes : NoDup (map box (box_threads s));
  st_places t : t ∈ box_threads s → reader t = ReaderOutside ∧ writer t ≠ WriterNew;
  st_offline t : t ∈ box_threads s → ∃ c, bearerboxes (running s) !! box t = Some c ∧ alive c = false;
}.

Lemma started_wired {DB} (s : Running DB) : bearerboxes_started s → well_wired s.
Proof.
  intros [S1 S2 S3 S4]. split; [done|done|]. intros t Ht. destruct (S3 t Ht) as [Hr Hw].
  destruct (S4 t Ht) as (c & Hc & Ha). split; [done| |by rewrite Hr].
  intros _. exists c. split; [done|]. rewrite Hr. intros Hk. cbn in Hk. by rewrite Ha in Hk.
Qed.

(** C12. No thread uses a connection that is not there. Whatever the threads of the
    bearerboxes and all others do, in whatever order, and whenever the daemon is
    stopped: as long as the reader or the writer of a bearerbox runs, the bearerbox has
    not been freed; it has a connection whenever it is marked alive, which is all that
    an acknowledgement, a heartbeat or the writer looks at before it writes, and
    whenever its reader reads; and all the daemon's own invariants hold. *)
Theorem connections_sound {DB} `{TimeLib} `{OctstrLib} `{KannelLib} `{DatabaseOps DB} `{EsmeEnv} `{RegexLib}
    `{BoxEnv} `{FieldLib} `{HttpLib} (method : option routing_method) (plugin : bool)
    (uuid : nat → Octstr) (s s' : Running DB) :
  bearerboxes_started s → rtc (running_step method plugin uuid) s s' →
  daemon_ok (running s') ∧
  ∀ t, t ∈ box_threads s' → reader t ≠ ReaderGone ∨ writer t ≠ WriterGone →
    ∃ c, bearerboxes (running s') !! box t = Some c ∧
      (alive c = true ∨ reader t = Reading → connection c = true).
Proof.
  intros Hs Hsteps. destruct (well_wired_steps method plugin uuid s s' Hsteps (started_wired s Hs)) as [W1 _ W3].
  split; [done|]. intros t Ht Hruns. destruct (W3 t Ht) as [_ T2 T3].
  destruct T2 as (c & Hc & Hk); [intros Hg; destruct Hruns as [?|Hw]; [done|by apply Hw, T3]|].
  exists c. split; [done|]. intros [Ha|Hr]; apply Hk; [by rewrite Ha|rewrite Hr; apply orb_true_r].
Qed.

(** C13. The threads of the bearerboxes end. Once the daemon is stopped and nothing more
    is put into their queue, they take only finitely many turns from any state they
    have got to, however long the queue is and whatever the bearerboxes do, and unless a
    writer's turn has no meaning in C one of them can always take a turn until all have
    ended. *)
Theorem connections_end {DB} `{TimeLib} `{OctstrLib} `{KannelLib} `{DatabaseOps DB} `{EsmeEnv} `{RegexLib}
    `{BoxEnv} `{FieldLib} `{HttpLib} (method : option routing_method) (plugin : bool)
    (uuid : nat → Octstr) (s s' : Running DB) :
  bearerboxes_started s → rtc (running_step method plugin uuid) s s' →
  shutting_down (running s') = true → bb_producer s' = false →
  Acc (flip (boxes_turn method plugin)) s' ∧
  (Forall ended (box_threads s') ∨ (∃ s'', boxes_turn method plugin s' s'') ∨ writer_crashes s').
Proof.
  intros Hs Hsteps Hst Hpr.
  assert (well_wired s') as Hw by (by eapply (well_wired_steps method plugin uuid); [|apply started_wired]).
  split; [by eapply turns_end|by apply next_box_turn].
Qed.
