(* ===== verification/Start.v ===== *)
(** What the daemon has when it has started: the theorems about Config.v. *)
From S2P Require Import Prelude CLib Gwlib DbUtil Types Kannel Dlr World Callbacks Route Fields Http Admin.
From S2P Require Import Mysql Schema Redis Config Daemon.
Open Scope Z_scope.

(** ** Runs of the start

    [keep f P m]: a run of [m] keeps what [f] tells of the state. *)
Definition keeps {S A B} (f : S → B) (m : M S A) : Prop := ∀ v, preserves (λ s, f s = v) m.

Lemma keeps_run {S A B} (f : S → B) (m : M S A) s a s' : keeps f m → m s = Some (a, s') → f s' = f s.
Proof. intros Hm Hrun. by eapply (Hm (f s)). Qed.

Lemma keeps_bind {S A B C} (f : S → C) (m : M S A) (k : A → M S B) :
  keeps f m → (∀ a, keeps f (k a)) → keeps f (m ≫= k).
Proof. intros Hm Hk v. apply preserves_bind; [apply Hm|intros a; apply Hk]. Qed.
Lemma keeps_modify {S B} (f : S → B) g : (∀ s, f (g s) = f s) → keeps f (modify g).
Proof. intros Hg v. apply preserves_modify. intros s <-. apply Hg. Qed.
Lemma keeps_pure {S A B} (f : S → B) (m : M S A) : (∀ P, preserves P m) → keeps f m.
Proof. intros Hm v. apply Hm. Qed.
Lemma keeps_for_each {S A B} (f : S → B) (body : A → M S unit) l :
  (∀ x, keeps f (body x)) → keeps f (for_each body l).
Proof. intros Hb v. apply preserves_for_each. intros x _. apply Hb. Qed.
Lemma keeps_when {S B} (f : S → B) b (m : M S unit) : keeps f m → keeps f (when b m).
Proof. intros Hm v. apply preserves_when, Hm. Qed.

Ltac keeps_step :=
  first
    [ done
    | solve [auto with start nocore]
    | apply keeps_pure; intros ?;
      first [apply preserves_ret | apply preserves_crash | apply preserves_gets | apply preserves_get
            | apply preserves_deref]
    | apply keeps_modify; intros ?; reflexivity
    | apply keeps_when
    | apply keeps_for_each; intros ?
    | apply keeps_bind; [|intros ?]
    | match goal with
      | |- keeps _ (match ?x with _ => _ end) => destruct x eqn:?
      | |- keeps _ (let '_ := ?x in _) => destruct x eqn:?
      end ].
Ltac keeps_auto := repeat keeps_step.
Create HintDb start discriminated.

Lemma when_crash_run {S} b (s s' : S) a : when b crash s = Some (a, s') → b = false ∧ s' = s.
Proof. destruct b; [done|]. by intros [= _ <-]. Qed.
Lemma deref_run {S A} (o : option A) (s s' : S) a : deref o s = Some (a, s') → o = Some a ∧ s' = s.
Proof. destruct o; [|done]. by intros [= -> ->]. Qed.

Lemma modify_run {S} g (s s' : S) a : modify g s = Some (a, s') → s' = g s.
Proof. by intros [= _ <-]. Qed.
Lemma gets_run {S A} (g : S → A) s s' a : gets g s = Some (a, s') → a = g s ∧ s' = s.
Proof. by intros [= <- <-]. Qed.

Lemma get_run {S} (s s' a : S) : get s = Some (a, s') → a = s ∧ s' = s.
Proof. by intros [= <- <-]. Qed.

(** Takes runs apart up to the actions that have a lemma of their own. *)
Ltac runs :=
  repeat match goal with
    | Hr : (_ ≫= _) _ = Some _ |- _ =>
        let a := fresh "a" in let s := fresh "s" in let H1 := fresh "Hrun" in
        apply bind_Some in Hr as (a & s & H1 & Hr)
    | Hr : deref _ _ = Some _ |- _ => let E := fresh "E" in apply deref_run in Hr as [E ->]
    | Hr : gets _ _ = Some _ |- _ => apply gets_run in Hr as [-> ->]
    | Hr : get _ = Some _ |- _ => apply get_run in Hr as [-> ->]
    | Hr : when _ crash _ = Some _ |- _ => let E := fresh "E" in apply when_crash_run in Hr as [E ->]
    | Hr : modify _ _ = Some _ |- _ => apply modify_run in Hr
    | Hr : mret _ _ = Some _ |- _ => apply ret_Some in Hr as [<- <-]
    | Hr : crash _ = Some _ |- _ => discriminate Hr
    end.

Lemma for_each_threads {Cfg S R} ts (s s' : Startup Cfg S R) a :
  for_each gwthread_create ts s = Some (a, s') → threads s' = threads s ++ ts.
Proof.
  revert s. induction ts as [|t ts IH]; intros s Hrun.
  - injection Hrun as _ <-. by rewrite app_nil_r.
  - apply bind_Some in Hrun as (? & s1 & [= _ <-] & Hrun). rewrite (IH _ Hrun). cbn. by rewrite <- app_assoc.
Qed.

Section start.
Context {Cfg Grp S R : Type} `{OctstrLib} `{TimeLib} `{KannelLib} `{FieldLib} `{SqlLib} `{SqlServer S}
  `{JsonLib} `{RedisLib R} `{CfgLib Cfg Grp} `{StartLib S R}.
Context (now : Z) (uuid : nat → Octstr) (junk : Z).
Abbreviation St := (Startup Cfg S R).

(** What the tables and the queue are called. *)
Definition tables (c : SMPPServer) :=
  (database_user_table c, database_store_table c, database_queue_store_table c, database_dlr_table c,
   database_pdu_table c, database_route_table c, database_version_table c, database_queue_type c).
Definition tables_named (c : SMPPServer) : Prop :=
  Forall (λ o, octstr_len o ≠ 0)
    [database_user_table c; database_store_table c; database_queue_store_table c; database_dlr_table c;
     database_pdu_table c; database_route_table c; database_version_table c].

Lemma relational_named c : tables_named (relational_tables c).
Proof.
  unfold tables_named, relational_tables, default_table. cbn [database_user_table database_store_table
    database_queue_store_table database_dlr_table database_pdu_table database_route_table database_version_table].
  repeat apply Forall_cons_2; [..|constructor]; case_match; try done; by apply Z.eqb_neq.
Qed.

Lemma named_tables c c' : tables c = tables c' → tables_named c → tables_named c'.
Proof. unfold tables, tables_named. by intros [= -> -> -> -> -> -> -> _]. Qed.
Lemma redis_tables c c' : tables c = tables c' → redis_queue c = redis_queue c'.
Proof. unfold tables, redis_queue. by intros [= _ _ _ _ _ _ _ ->]. Qed.

(** *** Plugins *)

Definition but_plugins (s : St) :=
  (configured s, running_configuration s, settings s, database_type s, database s, queue_backend s,
   http_server s, threads s, (auth_plugin s, route_plugin s, route_message_by s, http_routing s)).

Lemma plugin_load_pure (grp : Grp) i (P : St → Prop) : preserves P (smpp_plugin_load grp i).
Proof. unfold smpp_plugin_load. repeat (apply preserves_ret || apply preserves_crash || case_match). Qed.

Lemma plugin_init_keeps i : keeps but_plugins (smpp_plugin_init i).
Proof.
  unfold smpp_plugin_init, running. keeps_auto. apply keeps_pure. intros P. apply plugin_load_pure.
Qed.

Lemma plugin_kept i (s s' : St) p : smpp_plugin_init i s = Some (Some p, s') → plugins s' !! i = Some p.
Proof.
  unfold smpp_plugin_init. rewrite gets_bind. destruct (plugins s !! i) as [p'|] eqn:Hp.
  { by intros [= -> <-]. }
  intros Hrun. m_step Hrun. m_step Hrun. m_step Hrun. destruct a1 as [p'|]; [|done].
  m_step Hrun. injection Hrun as -> <-. injection Hrun3 as _ <-. cbn. by rewrite lookup_insert_eq.
Qed.

(** *** The database *)

Definition but_database (s : St) :=
  (configured s, running_configuration s, database_type s, http_server s, threads s, auth_plugin s,
   (route_plugin s, route_message_by s, http_routing s)).

Lemma queue_attach_keeps :
  keeps (λ s : St, (but_database s, settings s, database s)) (smpp_database_redis_queue_attach now).
Proof. unfold smpp_database_redis_queue_attach, running. keeps_auto. Qed.

Lemma queue_attached (s s' : St) a :
  smpp_database_redis_queue_attach now s = Some (a, s') → is_Some (queue_backend s').
Proof.
  unfold smpp_database_redis_queue_attach, running. intros Hrun. runs.
  destruct (smpp_redis_check_version _) as [ok d]. runs. subst. by eexists.
Qed.

Lemma sql_init_run dialect (s s' : St) a :
  smpp_database_sql_init now dialect s = Some (a, s') →
  but_database s' = but_database s ∧
  ∃ d, settings s' = relational_tables (settings s) ∧ database s' = Some (dialect, d) ∧
    (queue_backend s = None → is_Some (queue_backend s') ↔ redis_queue (settings s') = true).
Proof.
  unfold smpp_database_sql_init, running. intros Hrun. runs.
  unfold smpp_database_relational_setup, set_settings in Hrun. runs.
  match goal with Hm : ?x1 = _, Hw : when (redis_queue (settings ?x1)) _ ?x1 = Some (_, ?x2) |- _ =>
    rename x1 into s1, x2 into s2; rename Hm into Hset; rename Hw into Hattach end.
  assert (settings s1 = relational_tables (settings s) ∧ but_database s1 = but_database s ∧
          queue_backend s1 = queue_backend s) as (Hs1 & Hb1 & Hq1) by (by rewrite Hset).
  clear Hset. subst s'. destruct (redis_queue (settings s1)) eqn:Hredis; cbn [when] in Hattach.
  - pose proof (keeps_run _ _ _ _ _ queue_attach_keeps Hattach) as Hk. cbv beta in Hk.
    apply pair_equal_spec in Hk as [[Hb2 Hs2]%pair_equal_spec _].
    apply queue_attached in Hattach. split; [by rewrite <- Hb1, <- Hb2|].
    eexists. cbn. split_and!; [by rewrite Hs2|done|]. intros _. by rewrite Hs2, Hredis.
  - runs. split; [done|]. eexists. cbn. split_and!; [done|done|]. intros Hq. rewrite Hredis, Hq1, Hq.
    split; [by intros []|done].
Qed.

Lemma init_database_run (s s' : St) a :
  init_database now s = Some (a, s') →
  but_database s' = but_database s ∧
  ∃ dialect d, settings s' = relational_tables (settings s) ∧ database s' = Some (dialect, d) ∧
    (queue_backend s = None → is_Some (queue_backend s') ↔ redis_queue (settings s') = true).
Proof.
  unfold init_database. intros Hrun. runs.
  match type of Hrun with match ?o with _ => _ end _ = _ => destruct o as [dialect|]; [|done] end.
  assert (smpp_database_sql_init now dialect s = Some (a, s')) as Hinit by (by destruct dialect).
  destruct (sql_init_run _ _ _ _ Hinit) as (Hb & d & Hd). split; [done|]. by exists dialect, d.
Qed.

(** *** The HTTP server and the routing *)

Definition but_http (s : St) :=
  (configured s, running_configuration s, settings s, database_type s, database s, queue_backend s,
   (auth_plugin s, route_plugin s, route_message_by s, http_routing s)).

Lemma init_http_server_run (s s' : St) a :
  init_http_server now s = Some (a, s') →
  but_http s' = but_http s ∧ threads s' = threads s ++ [smpp_http_server_thread] ∧
  ∃ cfg web pw, running_configuration s = Some cfg ∧ cfg_get_single_group cfg ($"http-server") = Some web ∧
    cfg_get web ($"password") = Some pw ∧ pw ≠ [] ∧
    http_server s' = Some (smpp_http_server_add_command ($"log-level") smpp_http_command_log_level_cmd
      (smpp_http_server_add_command ($"uptime") smpp_http_command_uptime_cmd
        {| http_password := Some pw; commands := ∅; start_time := now |})).
Proof.
  unfold init_http_server, running, gwthread_create. intros Hrun. runs.
  match goal with Hi : smpp_http_server_init (cfg_get ?g _) _ = Some _ |- _ =>
    rename g into web; destruct (cfg_get web ($"password")) as [[|c pw]|] eqn:Hpw; [done| |done];
    injection Hi as <- end.
  subst. split; [done|]. split; [done|]. by eexists _, web, (c :: pw).
Qed.

Definition but_routing (s : St) :=
  (configured s, running_configuration s, settings s, database_type s, database s, queue_backend s,
   (auth_plugin s, http_server s)).

(** What routing needs for the method that is used. *)
Definition routing_ready (s : St) : Prop :=
  (route_message_by s = Some SMPP_ROUTING_METHOD_PLUGIN → from_option routes_messages false (route_plugin s) = true) ∧
  (route_message_by s = Some SMPP_ROUTING_METHOD_HTTP → ∃ h, http_routing s = Some h ∧ routing_url h ≠ []).
Definition caller_threads (s : St) : list thread :=
  match http_routing s with
  | Some h => replicate (Z.to_nat (num_callers h)) smpp_http_client_request_thread
  | None => []
  end.

Lemma threads_keep ts (s s' : St) a :
  for_each gwthread_create ts s = Some (a, s') → (but_routing s', route_plugin s', http_routing s', route_message_by s')
    = (but_routing s, route_plugin s, http_routing s, route_message_by s).
Proof.
  intros Hrun. eapply (keeps_run (λ s, (but_routing s, route_plugin s, http_routing s, route_message_by s))); [|done].
  unfold gwthread_create. keeps_auto.
Qed.

Lemma http_route_run (s s' : St) a :
  smpp_http_client_route_init s = Some (a, s') →
  but_routing s' = but_routing s ∧ route_message_by s' = Some SMPP_ROUTING_METHOD_HTTP ∧
  threads s' = threads s ++ caller_threads s' ∧ ∃ h, http_routing s' = Some h ∧ routing_url h ≠ [].
Proof.
  unfold smpp_http_client_route_init, running. intros Hrun. runs.
  match goal with Hl : octstr_len (cfg_get ?g _) =? 0 = false |- _ =>
    rename g into grp; destruct (cfg_get grp ($"http-routing-url")) as [url|] eqn:Hurl; [|done] end.
  match goal with Ht : for_each _ _ ?x1 = Some (_, ?x2), Hm : ?x1 = _ |- _ =>
    rename x1 into s1, x2 into s2; rename Ht into Hthreads; rename Hm into Hconf end.
  pose proof (threads_keep _ _ _ _ Hthreads) as Hk. apply pair_equal_spec in Hk as [[[Hb _]%pair_equal_spec Hh]%pair_equal_spec _].
  apply for_each_threads in Hthreads.
  assert (threads s1 = threads s ∧ but_routing s1 = but_routing s ∧
    http_routing s1 = Some {| routing_url := url; num_callers := default 1 (cfg_get_integer grp ($"http-num-callers"));
      max_outstanding := default HTTP_DEFAULT_MAX_OUTSTANDING
                           (cfg_get_integer grp ($"http-max-outstanding-requests")) |}) as (Ht1 & Hb1 & Hh1)
    by (by rewrite Hconf).
  clear Hconf. subst s'. unfold caller_threads. cbn [threads http_routing route_message_by].
  rewrite Hh, Hh1, Hthreads, Ht1. split_and!; [by rewrite <- Hb1, <- Hb|done|done|].
  eexists. split; [done|]. cbn. by intros ->.
Qed.

(** The method that is named or numbered; the plugin routes, if it was named. *)
Lemma read_method_run group (s s' : St) n :
  read_routing_method group s = Some (n, s') →
  route_message_by s = None →
  but_routing s' = but_routing s ∧ threads s' = threads s ∧ http_routing s' = http_routing s ∧
  (route_message_by s' = None ∨
   route_message_by s' = Some SMPP_ROUTING_METHOD_PLUGIN ∧ n = routing_number SMPP_ROUTING_METHOD_PLUGIN ∧
   from_option routes_messages false (route_plugin s') = true).
Proof.
  unfold read_routing_method. intros Hrun Hnone.
  repeat match type of Hrun with
    | match ?x with _ => _ end _ = _ => destruct x eqn:?
    | crash _ = _ => done
    | mret _ _ = _ => apply ret_Some in Hrun as [_ <-]; split_and!; [done..|by left]
    end.
  unfold route_by_plugin in Hrun. runs.
  match goal with Hp : smpp_plugin_init _ _ = Some (?p, ?x1), Hn : negb _ = false |- _ =>
    apply negb_false_iff in Hn; rename Hp into Hplugin, Hn into Hroutes end.
  pose proof (keeps_run _ _ _ _ _ (plugin_init_keeps _) Hplugin) as Hk. unfold but_plugins in Hk.
  injection Hk as ????????????. subst. cbn [threads http_routing route_message_by route_plugin].
  split_and!; [unfold but_routing; cbn; congruence|done|done|]. right. by split_and!.
Qed.

Lemma rebuild_routes_keeps : keeps (λ s : St,
  (but_routing s, threads s, route_plugin s, route_message_by s, http_routing s)) (rebuild_routes now uuid junk).
Proof. unfold rebuild_routes. keeps_auto. Qed.

Lemma route_init_run (s s' : St) a h :
  smpp_route_init now uuid junk s = Some (a, s') →
  route_message_by s = None → http_routing s = None → http_server s = Some h →
  let but s := (configured s, running_configuration s, settings s, database_type s, database s, queue_backend s,
                auth_plugin s) in
  but s' = but s ∧ threads s' = threads s ++ caller_threads s' ∧ routing_ready s' ∧
  http_server s' = Some (smpp_http_server_add_command ($"rebuild-routes") smpp_route_rebuild_command_cmd h).
Proof.
  intros Hrun Hmethod Hnohttp Hweb but. unfold smpp_route_init, running, add_command in Hrun. runs.
  match goal with Hr : read_routing_method _ _ = Some (?n, ?x1) |- _ =>
    destruct (read_method_run _ _ _ _ Hr Hmethod) as (Hb1 & Ht1 & Hh1 & Hm1); clear Hr; rename x1 into s1 end.
  match goal with Hr : rebuild_routes _ _ _ ?x2 = Some (_, ?x3) |- _ =>
    pose proof (keeps_run _ _ _ _ _ rebuild_routes_keeps Hr) as Hk3; clear Hr; rename x2 into s2, x3 into s3 end.
  cbv beta in Hk3. apply pair_equal_spec in Hk3 as [[[[Hb3 Ht3]%pair_equal_spec Hp3]%pair_equal_spec Hm3]%pair_equal_spec Hh3].
  assert (but_routing s2 = but_routing s1 ∧ threads s2 = threads s1 ++ caller_threads s2 ∧ routing_ready s2)
    as (Hb2 & Ht2 & Hr2).
  { rewrite Hnohttp in Hh1.
    match goal with Hr : (if ?b then _ else _) s1 = Some (_, s2) |- _ => destruct b eqn:Hn; rename Hr into Hr2 end.
    - runs. subst s2. split; [done|]. unfold caller_threads, routing_ready. cbn. rewrite Hh1, app_nil_r. done.
    - destruct (_ =? _) in Hr2; cbn [when] in Hr2.
      + apply http_route_run in Hr2 as (Hb2 & Hm2 & Ht2 & Hh2). split; [done|]. split; [done|].
        split; [by rewrite Hm2|done].
      + runs. split; [done|]. unfold caller_threads, routing_ready. rewrite Hh1, app_nil_r. split; [done|].
        destruct Hm1 as [->|(-> & _ & Hp)]; by split. }
  subst s'. unfold but_routing in Hb1, Hb2, Hb3. injection Hb1 as ????????. injection Hb2 as ????????.
  injection Hb3 as ????????. unfold but, caller_threads, routing_ready in *. cbn. 
  rewrite Ht3, Ht2, Ht1, Hh3, Hp3, Hm3. split_and!; [congruence|done|apply Hr2|apply Hr2|].
  assert (http_server s3 = Some h) as -> by congruence. done.
Qed.

(** *** Authentication and the settings *)

Definition but_settings (s : St) :=
  (configured s, running_configuration s, database s, queue_backend s, http_server s, threads s,
   (route_plugin s, route_message_by s, http_routing s, start_bearerboxes s)).

(** The method: a number that is given, or that of a name; a plugin that was named
    authenticates. *)
Definition auth_ready (grp : Grp) (s : St) : Prop :=
  (plugin_auth (settings s) = true → from_option authenticates false (auth_plugin s) = true) ∧
  match cfg_get_integer grp ($"auth-method") with
  | Some n => authentication_method (settings s) = n
  | None => authentication_method (settings s) ∈
              [SMPP_SERVER_AUTH_METHOD_DATABASE; SMPP_SERVER_AUTH_METHOD_HTTP; SMPP_SERVER_AUTH_METHOD_PLUGIN] ∧
            (authentication_method (settings s) = SMPP_SERVER_AUTH_METHOD_PLUGIN → plugin_auth (settings s) = true)
  end.

Lemma plugin_init_settings i (s s' : St) p :
  smpp_plugin_init i s = Some (p, s') →
  but_settings s' = but_settings s ∧ settings s' = settings s ∧ database_type s' = database_type s.
Proof.
  intros Hrun. assert (keeps (λ s : St, (but_settings s, settings s, database_type s)) (smpp_plugin_init i)) as Hk.
  { unfold smpp_plugin_init, running. keeps_auto. apply keeps_pure. intros P. apply plugin_load_pure. }
  apply (keeps_run _ _ _ _ _ Hk) in Hrun. by apply pair_equal_spec in Hrun as [[? ?]%pair_equal_spec ?].
Qed.

Lemma auth_settings_run grp (s s' : St) a :
  auth_settings grp s = Some (a, s') → plugin_auth (settings s) = false →
  but_settings s' = but_settings s ∧ database_type s' = database_type s ∧
  tables (settings s') = tables (settings s) ∧
  database_store_primary (settings s') = database_store_primary (settings s) ∧
  database_enable_queue (settings s') = database_enable_queue (settings s) ∧ auth_ready grp s'.
Proof.
  unfold auth_settings, auth_ready. intros Hrun Hno. destruct (cfg_get_integer grp ($"auth-method")) as [n|].
  { unfold set_auth_method, set_settings in Hrun. runs. subst s'. cbn. rewrite Hno. by split_and!. }
  unfold auth_by_plugin, set_auth_method, set_settings in Hrun. runs.
  match goal with Hm : ?x1 = _ |- _ => rename x1 into s1; rename Hm into Hs1 end.
  assert (but_settings s1 = but_settings s ∧ database_type s1 = database_type s ∧
          settings s1 = {| (settings s) with authentication_method := SMPP_SERVER_AUTH_METHOD_DATABASE |})
    as (Hb1 & Ht1 & Hset1) by (by subst s1). clear Hs1.
  assert (plugin_auth (settings s1) = false) as Hno1 by (by rewrite Hset1).
  rewrite <- Hb1, <- Ht1.
  assert (tables (settings s1) = tables (settings s) ∧
    database_store_primary (settings s1) = database_store_primary (settings s) ∧
    database_enable_queue (settings s1) = database_enable_queue (settings s)) as (<- & <- & <-) by (by rewrite Hset1).
  clear Hb1 Ht1 Hset1 Hno s. 
  repeat match type of Hrun with
    | (if ?x then _ else _) _ = _ => destruct x
    | crash _ = _ => done
    | modify _ _ = _ =>
        apply modify_run in Hrun; subst s'; cbn; rewrite Hno1; split_and!; try done; set_solver
    end.
  runs. match goal with Hp : smpp_plugin_init _ ?x2 = Some (?p, ?x3), Hn : negb _ = false |- _ =>
    apply negb_false_iff in Hn; apply plugin_init_settings in Hp as (Hb & Hset & Ht) end.
  subst. split; [exact Hb|]. split; [exact Ht|]. cbn. rewrite Hset. cbn. split_and!; try done. set_solver.
Qed.

Lemma settings_run grp (s s1 s2 s' : St) a1 a2 a :
  log_settings junk grp s = Some (a1, s1) → general_settings grp s1 = Some (a2, s2) →
  database_settings grp s2 = Some (a, s') →
  but_settings s' = but_settings s ∧ auth_plugin s' = auth_plugin s ∧
  plugin_auth (settings s') = plugin_auth (settings s) ∧ octstr_len (database_type s') ≠ 0 ∧
  database_store_primary (settings s') = cfg_get_bool grp ($"database-store-primary") ∧
  database_enable_queue (settings s') = cfg_get_bool grp ($"database-enable-queue").
Proof.
  intros Hr1 Hr2 Hrun.
  assert (keeps (λ s : St, (but_settings s, auth_plugin s, plugin_auth (settings s))) (log_settings junk grp)) as K1
    by (unfold log_settings; keeps_auto).
  assert (keeps (λ s : St, (but_settings s, auth_plugin s, plugin_auth (settings s))) (general_settings grp)) as K2
    by (unfold general_settings, set_settings; keeps_auto).
  apply (keeps_run _ _ _ _ _ K1) in Hr1. apply (keeps_run _ _ _ _ _ K2) in Hr2. rewrite Hr1 in Hr2. clear Hr1 K1 K2.
  apply pair_equal_spec in Hr2 as [[Hb2 Hp2]%pair_equal_spec Ha2]. rewrite <- Hb2, <- Hp2, <- Ha2.
  unfold database_settings, set_settings in Hrun. runs.
  match goal with Hl : (octstr_len (database_type ?x) =? 0) = false, Hf : s' = _ |- _ =>
    rename x into s3; apply Z.eqb_neq in Hl; rename Hf into Hs' end.
  assert (but_settings s3 = but_settings s2 ∧ auth_plugin s3 = auth_plugin s2 ∧
          plugin_auth (settings s3) = plugin_auth (settings s2)) as (Hb3 & Hp3 & Ha3) by (by subst).
  rewrite <- Hb3, <- Hp3, <- Ha3. by rewrite Hs'.
Qed.

(** *** The first configuration *)

(** What is settled when the first configuration is done. *)
Record configured_by (cfg : Cfg) (grp : Grp) (s : St) : Prop := {
  by_cfg : running_configuration s = Some cfg;
  by_type : octstr_len (database_type s) ≠ 0;
  by_database : is_Some (database s);
  by_tables : tables_named (settings s);
  by_queue : is_Some (queue_backend s) ↔ redis_queue (settings s) = true;
  by_auth : auth_ready grp s;
  by_routing : routing_ready s;
  by_primary : database_store_primary (settings s) = cfg_get_bool grp ($"database-store-primary");
  by_enable : database_enable_queue (settings s) = cfg_get_bool grp ($"database-enable-queue");
  by_http : ∃ web pw, cfg_get_single_group cfg ($"http-server") = Some web ∧
    cfg_get web ($"password") = Some pw ∧ pw ≠ [] ∧
    http_server s = Some (smpp_http_server_add_command ($"rebuild-routes") smpp_route_rebuild_command_cmd
      (smpp_http_server_add_command ($"log-level") smpp_http_command_log_level_cmd
        (smpp_http_server_add_command ($"uptime") smpp_http_command_uptime_cmd
          {| http_password := Some pw; commands := ∅; start_time := now |})));
  by_threads : threads s = smpp_http_server_thread :: caller_threads s;
}.

(** Fresh: as smpp_server_create leaves it, but for the configuration and the status. *)
Definition fresh (s : St) : Prop :=
  route_message_by s = None ∧ http_routing s = None ∧ plugin_auth (settings s) = false ∧
  queue_backend s = None ∧ threads s = [].

Lemma configure_run cfg grp (s s' : St) a :
  configure now uuid junk grp s = Some (a, s') → fresh s → running_configuration s = Some cfg →
  configured_by cfg grp s' ∧ configured s' = true.
Proof.
  unfold configure. intros Hrun (Hm & Hh & Hpa & Hq & Ht) Hcfg.
  apply bind_Some in Hrun as (? & s1 & Hr1 & Hrun). apply bind_Some in Hrun as (? & s2 & Hr2 & Hrun).
  apply bind_Some in Hrun as (? & s3 & Hr3 & Hrun). apply bind_Some in Hrun as (? & s4 & Hr4 & Hrun).
  apply bind_Some in Hrun as (? & s5 & Hr5 & Hrun). apply bind_Some in Hrun as (? & s6 & Hr6 & Hrun).
  apply bind_Some in Hrun as (? & s7 & Hr7 & Hrun). apply bind_Some in Hrun as (? & s8 & Hr8 & Hrun).
  destruct (settings_run _ _ _ _ _ _ _ _ Hr1 Hr2 Hr3) as (Hb3 & _ & Hp3 & Htype & Hprim & Hen).
  destruct (init_database_run _ _ _ Hr4) as (Hb4 & dialect & d & Hset4 & Hdb4 & Hq4).
  unfold but_settings in Hb3. injection Hb3 as Hconf3 Hcfg3 _ Hq3 _ Ht3 _ Hm3 Hh3 _.
  unfold but_database in Hb4. injection Hb4 as Hconf4 Hcfg4 Htype4 _ Ht4 _ _ Hm4 Hh4.
  destruct (auth_settings_run _ _ _ _ Hr5) as (Hb5 & Htype5 & Htab5 & Hprim5 & Hen5 & Hauth5); [by rewrite Hset4, <- Hpa, <- Hp3|].
  unfold but_settings in Hb5. injection Hb5 as Hconf5 Hcfg5 Hdb5 Hq5 _ Ht5 _ Hm5 Hh5 _.
  apply modify_run in Hr6.
  assert (but_settings s6 = but_settings s5 ∧ settings s6 = settings s5 ∧ database_type s6 = database_type s5 ∧
          auth_plugin s6 = auth_plugin s5) as (Hb6 & Hset6 & Htype6 & Hap6) by (by subst s6). clear Hr6.
  unfold but_settings in Hb6. injection Hb6 as Hconf6 Hcfg6 Hdb6 Hq6 _ Ht6 _ Hm6 Hh6 _.
  destruct (init_http_server_run _ _ _ Hr7) as (Hb7 & Ht7 & cfg7 & web & pw & Hcfg7 & Hweb & Hpw & Hne & Hsrv7).
  unfold but_http in Hb7. injection Hb7 as Hconf7 Hcfg7' Hset7 Htype7 Hdb7 Hq7 Hap7 _ Hm7 Hh7.
  destruct (route_init_run _ _ _ _ Hr8 ltac:(congruence) ltac:(congruence) Hsrv7) as (Hb8 & Ht8 & Hready & Hsrv8).
  injection Hb8 as Hconf8 Hcfg8 Hset8 Htype8 Hdb8 Hq8 Hap8.
  assert (running_configuration s6 = Some cfg) as Hcfg6' by congruence.
  assert (cfg7 = cfg) as -> by congruence.
  assert (settings s8 = settings s5) as Hset by congruence.
  apply modify_run in Hrun. subst s'. split; [|done].
  assert (tables (settings s8) = tables (settings s4)) as Htab by congruence.
  constructor; cbn [running_configuration database_type database settings queue_backend http_server threads
                    caller_threads http_routing]; try done.
  - congruence.
  - congruence.
  - exists (dialect, d). congruence.
  - apply (named_tables (settings s4)); [done|]. rewrite Hset4. apply relational_named.
  - rewrite (redis_tables _ _ Htab). replace (queue_backend s8) with (queue_backend s4) by congruence.
    apply Hq4. congruence.
  - unfold auth_ready in *. cbn. rewrite Hset. replace (auth_plugin s8) with (auth_plugin s5) by congruence. done.
  - rewrite Hset, Hprim5, Hset4. exact Hprim.
  - rewrite Hset, Hen5, Hset4. exact Hen.
  - exists web, pw. done.
  - rewrite Ht8, Ht7. replace (threads s6) with (threads s) by congruence. by rewrite Ht.
Qed.

Lemma reconfigure_first_run read (s s' : St) n :
  smpp_server_reconfigure now uuid junk read s = Some (n, s') → fresh s → configured s = false →
  ∃ cfg grp, read = Some cfg ∧ cfg_get_single_group cfg ($"ksmppd") = Some grp ∧ n = 0 ∧
    configured_by cfg grp s' ∧ configured s' = true.
Proof.
  unfold smpp_server_reconfigure. rewrite gets_bind. intros Hrun Hfresh Hno. rewrite Hno in Hrun.
  destruct read as [cfg|]; [|done]. destruct (cfg_get_single_group cfg ($"ksmppd")) as [grp|] eqn:Hgrp; [|done].
  cbn [negb when] in Hrun. apply bind_Some in Hrun as (? & s1 & Hr1 & Hrun). apply modify_run in Hr1.
  apply bind_Some in Hrun as (? & s2 & Hr2 & [= <- <-]).
  destruct (configure_run cfg grp s1 s2 _ Hr2) as [Hby Hc]; [by subst s1|by subst s1|].
  by exists cfg, grp.
Qed.

(** *** The threads *)

Lemma threads_run ts (s s' : St) a :
  for_each gwthread_create ts s = Some (a, s') → s' = {| s with threads := threads s ++ ts |}.
Proof.
  revert s. induction ts as [|t ts IH]; intros s Hrun.
  - injection Hrun as _ <-. rewrite app_nil_r. by destruct s.
  - apply bind_Some in Hrun as (? & s1 & Hr1 & Hrun). apply modify_run in Hr1 as ->. rewrite (IH _ Hrun).
    cbn. by rewrite <- app_assoc.
Qed.

Definition box_threads (n : nat) : list thread :=
  flat_map (λ i, [smpp_bearerbox_inbound_thread i; smpp_bearerbox_outbound_thread i]) (seq 0 n).

Lemma box_threads_run ns (s s' : St) a :
  for_each (λ i, gwthread_create (smpp_bearerbox_inbound_thread i);;
                 gwthread_create (smpp_bearerbox_outbound_thread i)) ns s = Some (a, s') →
  s' = {| s with threads := threads s ++ flat_map (λ i, [smpp_bearerbox_inbound_thread i;
                                                         smpp_bearerbox_outbound_thread i]) ns |}.
Proof.
  revert s. induction ns as [|i ns IH]; intros s Hrun.
  - injection Hrun as _ <-. cbn [flat_map]. rewrite app_nil_r. by destruct s.
  - apply bind_Some in Hrun as (? & s1 & Hr1 & Hrun). apply bind_Some in Hr1 as (? & s2 & Hr2 & Hr3).
    apply modify_run in Hr2 as ->. apply modify_run in Hr3 as ->. rewrite (IH _ Hrun). cbn. by rewrite <- !app_assoc.
Qed.

Definition but_boxes (s : St) :=
  (configured s, running_configuration s, settings s, database_type s, database s, queue_backend s, http_server s,
   (auth_plugin s, route_plugin s, route_message_by s, http_routing s),
   num_inbound_queue_threads s, num_outbound_queue_threads s).

Lemma bearerbox_init_run cfg (s s' : St) a :
  smpp_bearerbox_init s = Some (a, s') → running_configuration s = Some cfg →
  but_boxes s' = but_boxes s ∧
  start_bearerboxes s' = omap read_bearerbox (default [] (cfg_get_multi_group cfg ($"bearerbox-connection"))) ∧
  (start_bearerboxes s' ≠ [] ∨ database_store_primary (settings s) = true) ∧
  threads s' = threads s ++ box_threads (length (start_bearerboxes s'))
               ++ (if database_enable_queue (settings s) then [smpp_bearerbox_requeue_thread] else []).
Proof.
  unfold smpp_bearerbox_init, running. intros Hrun Hcfg. rewrite bind_unfold, gets_bind, Hcfg in Hrun. cbn in Hrun.
  apply bind_Some in Hrun as (? & s1 & Hr1 & Hrun). apply modify_run in Hr1.
  set (boxes := omap read_bearerbox _) in *. rewrite gets_bind in Hrun.
  apply bind_Some in Hrun as (? & s2 & Hr2 & Hrun).
  assert (settings s1 = settings s ∧ threads s1 = threads s ∧ start_bearerboxes s1 = boxes ∧ but_boxes s1 = but_boxes s)
    as (Hset1 & Ht1 & Hbox1 & Hb1) by (by subst s1). clear Hr1. rewrite Hset1 in Hr2, Hrun.
  assert (s2 = {| s1 with threads := threads s1 ++ box_threads (length boxes) |} ∧
    (boxes ≠ [] ∨ database_store_primary (settings s) = true)) as [Hs2 Hok].
  { destruct (bool_decide_reflect (boxes = [])) as [Hnil|Hne].
    - apply when_crash_run in Hr2 as [Hp ->]. apply negb_false_iff in Hp. split; [|by right].
      rewrite Hnil. cbn. rewrite app_nil_r. by destruct s1.
    - apply box_threads_run in Hr2. split; [exact Hr2|by left]. }
  clear Hr2.
  assert (s' = {| s2 with threads := threads s2 ++ (if database_enable_queue (settings s)
                                                    then [smpp_bearerbox_requeue_thread] else []) |}) as Hs'.
  { destruct (database_enable_queue (settings s)); cbn [when] in Hrun.
    - by apply modify_run in Hrun.
    - apply ret_Some in Hrun as [_ <-]. rewrite app_nil_r. by destruct s2. }
  clear Hrun. rewrite Hs', Hs2. cbn [start_bearerboxes threads]. rewrite Hbox1, Ht1.
  split; [exact Hb1|]. split; [done|]. split; [exact Hok|]. by rewrite <- app_assoc.
Qed.

Definition but_start (s : St) :=
  (configured s, running_configuration s, settings s, database_type s, database s, queue_backend s,
   (auth_plugin s, route_plugin s, route_message_by s, http_routing s, start_bearerboxes s),
   num_inbound_queue_threads s, num_outbound_queue_threads s).

Lemma esme_init_run (s s' : St) a h :
  smpp_esme_init s = Some (a, s') → http_server s = Some h →
  but_start s' = but_start s ∧ threads s' = threads s ++ [smpp_esme_cleanup_thread] ∧
  http_server s' = Some (smpp_http_server_add_command ($"esme-unbind") smpp_esme_unbind_command_cmd
                           (smpp_http_server_add_command ($"esme-status") smpp_esme_status_command_cmd h)).
Proof.
  intros Hrun Hh. unfold smpp_esme_init, add_command, gwthread_create in Hrun.
  apply bind_Some in Hrun as (? & s1 & Hr1 & Hrun). apply bind_Some in Hrun as (? & s2 & Hr2 & Hrun).
  apply modify_run in Hr1, Hr2, Hrun.
  assert (http_server s1 = Some h ∧ but_start s1 = but_start s ∧ threads s1 = threads s ++ [smpp_esme_cleanup_thread])
    as (Hh1 & Hb1 & Ht1) by (by subst s1). clear Hr1.
  subst s2 s'. cbn. by rewrite Hh1, Ht1.
Qed.

Lemma queues_init_run (s s' : St) a :
  smpp_queues_init s = Some (a, s') →
  but_start s' = but_start s ∧ http_server s' = http_server s ∧
  threads s' = threads s ++ [smpp_queues_simulation_thread]
    ++ replicate (Z.to_nat (num_inbound_queue_threads s)) smpp_queues_inbound_thread
    ++ replicate (Z.to_nat (num_outbound_queue_threads s)) smpp_queues_outbound_thread
    ++ [smpp_queues_requeue_thread].
Proof.
  unfold smpp_queues_init. intros Hrun. apply bind_Some in Hrun as (? & s1 & Hr1 & Hrun).
  rewrite gets_bind in Hrun. apply bind_Some in Hrun as (? & s2 & Hr2 & Hrun). rewrite gets_bind in Hrun.
  apply bind_Some in Hrun as (? & s3 & Hr3 & Hrun). apply threads_run in Hr2, Hr3. apply modify_run in Hr1, Hrun.
  assert (but_start s1 = but_start s ∧ http_server s1 = http_server s ∧
    threads s1 = threads s ++ [smpp_queues_simulation_thread] ∧
    num_inbound_queue_threads s1 = num_inbound_queue_threads s ∧
    num_outbound_queue_threads s1 = num_outbound_queue_threads s) as (Hb1 & Hh1 & Ht1 & Hi1 & Ho1) by (by subst s1).
  clear Hr1.
  assert (but_start s2 = but_start s1 ∧ http_server s2 = http_server s1 ∧
    threads s2 = threads s1 ++ replicate (Z.to_nat (num_inbound_queue_threads s1)) smpp_queues_inbound_thread ∧
    num_outbound_queue_threads s2 = num_outbound_queue_threads s1) as (Hb2 & Hh2 & Ht2 & Ho2) by (by subst s2).
  clear Hr2. subst s' s3. split; [by rewrite <- Hb1, <- Hb2|]. split; [by rewrite <- Hh1, <- Hh2|].
  cbn [threads]. rewrite Ht2, Ho2, Ht1, Ho1, Hi1. by rewrite <- !app_assoc.
Qed.

(** The threads of the daemon, in the order they are started. *)
Definition daemon_threads (s : St) : list thread :=
  smpp_http_server_thread :: caller_threads s ++ box_threads (length (start_bearerboxes s))
  ++ (if database_enable_queue (settings s) then [smpp_bearerbox_requeue_thread] else [])
  ++ [smpp_esme_cleanup_thread; smpp_queues_simulation_thread]
  ++ replicate (Z.to_nat (num_inbound_queue_threads s)) smpp_queues_inbound_thread
  ++ replicate (Z.to_nat (num_outbound_queue_threads s)) smpp_queues_outbound_thread
  ++ [smpp_queues_requeue_thread].

Lemma listener_run cfg grp (s s' : St) :
  smpp_listener_start s = Some (true, s') → configured_by cfg grp s →
  let but s := (configured s, running_configuration s, settings s, database_type s, database s, queue_backend s,
                (auth_plugin s, route_plugin s, route_message_by s, http_routing s)) in
  but s' = but s ∧
  start_bearerboxes s' = omap read_bearerbox (default [] (cfg_get_multi_group cfg ($"bearerbox-connection"))) ∧
  (start_bearerboxes s' ≠ [] ∨ database_store_primary (settings s) = true) ∧
  threads s' = daemon_threads s' ∧
  ∃ web, cfg_get_single_group cfg ($"http-server") = Some web ∧ is_Some (http_server s') ∧
    http_server s' = http_server_of (cfg_get web ($"password")) now.
Proof.
  intros Hrun Hby but. unfold smpp_listener_start in Hrun. destruct event_base_new; cbn [negb] in Hrun; [|done].
  rewrite gets_bind in Hrun. apply bind_Some in Hrun as (? & s0 & Hr0 & Hrun).
  apply when_crash_run in Hr0 as [_ ->]. apply bind_Some in Hrun as (? & s1 & Hr1 & Hrun).
  apply bind_Some in Hrun as (? & s2 & Hr2 & Hrun). apply bind_Some in Hrun as (? & s3 & Hr3 & [= <-]).
  destruct Hby as [Hcfg _ _ _ _ _ _ _ _ (web & pw & Hweb & Hpw & Hne & Hsrv) Hthreads].
  destruct (bearerbox_init_run cfg _ _ _ Hr1 Hcfg) as (Hb1 & Hbox1 & Hok & Ht1).
  unfold but_boxes in Hb1. injection Hb1 as E1 E2 E3 E4 E5 E6 E7 E8 E9 E10 E11 E12 E13.
  rewrite Hsrv in E7. destruct (esme_init_run _ _ _ _ Hr2 E7) as (Hb2 & Ht2 & Hsrv2).
  destruct (queues_init_run _ _ _ Hr3) as (Hb3 & Hsrv3 & Ht3).
  unfold but_start in Hb2, Hb3. injection Hb2 as F1 F2 F3 F4 F5 F6 F7 F8 F9 F10 F11 F12 F13.
  injection Hb3 as G1 G2 G3 G4 G5 G6 G7 G8 G9 G10 G11 G12 G13.
  split; [unfold but; congruence|]. split; [congruence|].
  split; [replace (start_bearerboxes s3) with (start_bearerboxes s1) by congruence; exact Hok|].
  split.
  - unfold daemon_threads, caller_threads in *. rewrite Ht3, Ht2, Ht1, Hthreads.
    rewrite G10, F10, E11, G11, F11, G3, F3, E3, G12, G13. cbn [app]. by rewrite <- !app_assoc.
  - exists web. rewrite Hsrv3, Hsrv2. split; [done|]. split; [by eexists|].
    unfold http_server_of, smpp_http_server_init, register_commands. rewrite Hpw. destruct pw; done.
Qed.

End start.

(** ** Properties *)


(** A daemon that runs can be told to read its configuration again without risk:
    it never panics, and what changes is the configuration that later reads look at,
    if the file can be read and has the group ksmppd; the result is -1 exactly if the
    file cannot be read. *)
Theorem reconfigure_is_safe {Cfg Grp S R} `{OctstrLib} `{TimeLib} `{KannelLib} `{FieldLib} `{SqlLib} `{SqlServer S}
    `{JsonLib} `{RedisLib R} `{CfgLib Cfg Grp} `{StartLib S R} (now : Z) (uuid : nat → Octstr) (junk : Z)
    (read : option Cfg) (s : Startup Cfg S R) :
  configured s = true →
  ∃ n cfg, smpp_server_reconfigure now uuid junk read s = Some (n, {| s with running_configuration := cfg |}) ∧
    (n = -1 ↔ read = None) ∧
    cfg = match read with
          | Some c => if cfg_get_single_group c ($"ksmppd") then Some c else running_configuration s
          | None => running_configuration s
          end.
Proof.
  intros Hc. unfold smpp_server_reconfigure. destruct s. cbn in Hc. subst. destruct read as [c|].
  - destruct (cfg_get_single_group c ($"ksmppd")) as [grp|]; eexists 0, _;
      (split; [|split; [by split|done]]); rewrite gets_bind; reflexivity.
  - eexists (-1), _. by split.
Qed.

(** A plugin is loaded once. When a plugin was loaded, asking for it again gives
    the same plugin and does nothing. *)
Theorem plugin_loaded_once {Cfg Grp S R} `{CfgLib Cfg Grp} `{StartLib S R} (i : Octstr) (s s' : Startup Cfg S R)
    (p : SMPPPlugin) :
  smpp_plugin_init i s = Some (Some p, s') → smpp_plugin_init i s' = Some (Some p, s').
Proof. intros Hrun. apply plugin_kept in Hrun. unfold smpp_plugin_init. by rewrite gets_bind, Hrun. Qed.

(** Routing by plugin, asked for by its number, has no plugin and answers nothing. *)
Lemma numbered_plugin_never_routes {Cfg Grp S R} `{CfgLib Cfg Grp} `{StartLib S R} (grp : Grp)
    (s s' : Startup Cfg S R) (n : Z) :
  cfg_get_integer grp ($"routing-method") = Some 4 → read_routing_method (Some grp) s = Some (n, s') →
  n = routing_number SMPP_ROUTING_METHOD_PLUGIN ∧ s' = s.
Proof. intros Hn. unfold read_routing_method. rewrite Hn. by intros [= <- <-]. Qed.
