(* ===== verification/Shutdown.v ===== *)
(** What is closed when the event loop has ended and Stop.v's part is done
    (smpp_server.c: smpp_server_destroy, and the shutdowns of smpp_http_server.c,
    smpp_database.c, smpp_database_mysql.c, smpp_route.c, smpp_http_client.c and
    smpp_plugin.c), on the state that the start of Config.v has left. *)
From S2P Require Import Prelude CLib Gwlib DbUtil Types Kannel Dlr World Callbacks Route Fields Http Admin.
From S2P Require Import Mysql Schema Redis Config Start.
Open Scope Z_scope.

#[export] Instance thread_eq_dec : EqDecision thread.
Proof. solve_decision. Defined.

(** What is closed: the port of the HTTP server, the connections to a server, a
    plugin. *)
Inductive closing := ClosePort | CloseQueuePool | CloseSqlPool (dialect : db_type) | ClosePlugin (i : Octstr).

(** The threads that have ended when smpp_listener_start returns: smpp_queues_shutdown,
    smpp_esme_shutdown and smpp_bearerbox_shutdown wait for them. *)
Definition listener_waits (t : thread) : bool :=
  match t with smpp_http_server_thread | smpp_http_client_request_thread => false | _ => true end.

Fixpoint remove_thread (t : thread) (ts : list thread) : list thread :=
  match ts with
  | [] => []
  | u :: ts => if bool_decide (u = t) then ts else u :: remove_thread t ts
  end.

Section shutdown.
Context {Cfg S R : Type}.
Abbreviation St := (Startup Cfg S R).
Abbreviation A := (M St).

Definition listener_returns : A unit :=
  modify (λ s, {| s with threads := base.filter (λ t, listener_waits t = false) (threads s) |}).

(** A thread that is joined ends: its loop sees that the port is closed or that the
    daemon is shut down. *)
Definition gwthread_join (t : thread) : A unit := modify (λ s, {| s with threads := remove_thread t (threads s) |}).

Definition smpp_http_server_destroy : A unit := modify (λ s, {| s with http_server := None |}).
Definition smpp_http_server_shutdown : A (list closing) :=
  o ← gets http_server;
  _ ← deref o;
  gwthread_join smpp_http_server_thread;;
  smpp_http_server_destroy;;
  mret [ClosePort].

Definition queue_pool {X} (q : option X) : list closing := match q with Some _ => [CloseQueuePool] | None => [] end.
Definition smpp_database_mysql_shutdown : A (list closing) :=
  o ← gets database;
  '(dialect, _) ← deref o;
  queue ← gets queue_backend;
  modify (λ s, {| s with queue_backend := None |});;
  mret (queue_pool queue ++ [CloseSqlPool dialect]).

(** The backend's shutdown is set by smpp_database_relational_setup. *)
Definition smpp_database_shutdown : A (list closing) :=
  closed ← smpp_database_mysql_shutdown;
  modify (λ s, {| s with database := None |});;
  mret closed.

(** The requests that still wait are dropped. *)
Definition smpp_http_client_route_shutdown : A unit :=
  o ← gets http_routing;
  h ← deref o;
  for_each gwthread_join (replicate (Z.to_nat (num_callers h)) smpp_http_client_request_thread);;
  modify (λ s, {| s with http_routing := None |}).

Definition smpp_route_shutdown_database : A unit := mret tt.

Definition smpp_route_shutdown : A unit :=
  method ← gets route_message_by;
  match method with
  | Some SMPP_ROUTING_METHOD_HTTP => smpp_http_client_route_shutdown
  | Some SMPP_ROUTING_METHOD_DATABASE => smpp_route_shutdown_database
  | Some SMPP_ROUTING_METHOD_PLUGIN | None => mret tt
  end;;
  modify (λ s, {| s with start_routes := []; route_message_by := None |}).

(** By its own function, or smpp_plugin_destroy_real. *)
Definition smpp_plugin_destroy (i : Octstr) : A (list closing) :=
  modify (λ s, {| s with plugins := base.delete i (plugins s) |});;
  mret [ClosePlugin i].

Fixpoint destroy_plugins (ids : list Octstr) : A (list closing) :=
  match ids with
  | [] => mret []
  | i :: ids =>
      closed ← smpp_plugin_destroy i;
      rest ← destroy_plugins ids;
      mret (closed ++ rest)
  end.

Definition smpp_server_destroy : A (list closing) :=
  web ← smpp_http_server_shutdown;
  db ← smpp_database_shutdown;
  smpp_route_shutdown;;
  ps ← gets plugins;
  closed ← destroy_plugins (map_to_list ps).*1;
  modify (λ s, {| s with running_configuration := None |});;
  mret (web ++ db ++ closed).

(** ** Lemmas *)

(** What the shutdown needs: it is what Start.v shows of a daemon that has started. *)
Record stoppable (s : St) : Prop := {
  stop_web : is_Some (http_server s);
  stop_database : is_Some (database s);
  stop_threads : threads s = daemon_threads s;
  stop_routing : match http_routing s with
                 | Some _ => route_message_by s = Some SMPP_ROUTING_METHOD_HTTP
                 | None => route_message_by s ≠ Some SMPP_ROUTING_METHOD_HTTP
                 end;
}.

Lemma filter_none {X} (P : X → Prop) `{∀ x, Decision (P x)} (l : list X) : Forall (λ x, ¬ P x) l → base.filter P l = [].
Proof. induction 1 as [|x l Hx _ IH]; [done|]. by rewrite filter_cons_False. Qed.
Lemma filter_all {X} (P : X → Prop) `{∀ x, Decision (P x)} (l : list X) : Forall P l → base.filter P l = l.
Proof. induction 1 as [|x l Hx _ IH]; [done|]. rewrite filter_cons_True by done. by rewrite IH. Qed.

(** Only the HTTP threads are left. *)
Lemma listener_leaves (s : St) :
  base.filter (λ t, listener_waits t = false) (daemon_threads s) = smpp_http_server_thread :: caller_threads s.
Proof.
  unfold daemon_threads. rewrite filter_cons_True by done. f_equal. rewrite !filter_app.
  rewrite (filter_all _ (caller_threads s)).
  2:{ unfold caller_threads. destruct (http_routing s); [|done]. by apply Forall_replicate. }
  rewrite !(filter_none _ (replicate _ _)) by (by apply Forall_replicate).
  rewrite (filter_none _ (box_threads _)), (filter_none _ (if database_enable_queue _ then _ else _)).
  - by rewrite app_nil_r.
  - destruct (database_enable_queue _); by repeat constructor.
  - unfold box_threads. apply Forall_flat_map, Forall_forall. intros n _. by repeat constructor.
Qed.

Lemma join_all n (s : St) :
  threads s = replicate n smpp_http_client_request_thread →
  for_each gwthread_join (replicate n smpp_http_client_request_thread) s = Some (tt, {| s with threads := [] |}).
Proof.
  revert s. induction n as [|n IH]; intros s Hs; [by destruct s; cbn in *; subst|].
  cbn [replicate for_each]. rewrite bind_unfold. unfold gwthread_join at 1, modify. rewrite Hs. cbn [replicate remove_thread].
  rewrite bool_decide_true by done. by rewrite IH.
Qed.

Lemma destroy_plugins_run ids (s : St) :
  destroy_plugins ids s =
    Some (map ClosePlugin ids, {| s with plugins := foldl (λ ps i, base.delete i ps) (plugins s) ids |}).
Proof.
  revert s. induction ids as [|i ids IH]; intros s; [by destruct s|].
  cbn [destroy_plugins]. unfold smpp_plugin_destroy. rewrite bind_bind, modify_bind, ret_bind, bind_unfold, IH. done.
Qed.

Lemma delete_all {X} (ids : list Octstr) (m : gmap Octstr X) :
  (∀ i, is_Some (m !! i) → i ∈ ids) → foldl (λ ps i, base.delete i ps) m ids = ∅.
Proof.
  revert m. induction ids as [|i ids IH]; intros m Hm; cbn [foldl].
  - apply map_eq. intros i. rewrite lookup_empty. destruct (m !! i) eqn:Hi; [|done].
    assert (i ∈ []) as []%elem_of_nil by (apply Hm; by rewrite Hi).
  - apply IH. intros j [x Hj]. destruct (decide (i = j)) as [<-|Hne]; [by rewrite lookup_delete_eq in Hj|].
    rewrite lookup_delete_ne in Hj by done. by destruct (proj1 (elem_of_cons ids j i) (Hm j (mk_is_Some _ _ Hj))).
Qed.
End shutdown.

(** ** Properties *)

