(* ===== verification/Examples.v ===== *)
(** A small running daemon: a database that counts its records, one bound ESME, one
    that has just connected, and a bearerbox; and the theorems about the daemon
    applied to it. *)
From S2P Require Import Prelude CLib Gwlib Types Kannel Dlr PduUtil IpBlock World Callbacks Run Esme Acks.
From S2P Require Import Route Bearerbox Queues Requeue Listener Replies Submissions Boxes Binds Deliveries.
Open Scope Z_scope.

#[local] Existing Instances time_ref octstr_ref kannel_ref esme_env_ref regex_ref box_env_ref.

(** ** The database *)

Definition example_account : SMPPESMEAuthResult :=
  {| smpp_esme_auth_result_create with auth_throughput := 50%Q; auth_max_binds := 3;
     auth_default_cost := 1%Q |}.

Definition example_route : SMPPRoute := {|
  rt_direction := SMPP_ROUTE_DIRECTION_OUTBOUND; rt_regex := $"+49"; rt_cost := 2%Q;
  rt_system_id := Some ($"acme"); rt_smsc_id := Some ($"smsc1"); rt_source_regex := None |}.

#[local] Instance example_db : DatabaseOps nat := {
  authenticate := Some (λ user pass _,
    if bool_decide (user = Some ($"acme") ∧ pass = Some ($"secret")) then Some example_account else None);
  add_message := Some (λ _ _ d, (true, S d));
  add_pdu := Some (λ _ d, (true, S d));
  get_stored := None;
  get_dlrs := None;
  get_stored_pdu := None;
  get_routes := Some (λ _ _ _, [example_route]);
  deduct_credit := Some (λ _ _ d, (bool_decide (d ≠ 0%nat), pred d));
  delete := Some (λ _ _ d, (true, pred d));
  delete_dlr := None;
  get_esmes_with_queued := None;
  pdu_handler _ _ d := pred d;
}.

(** ** The state *)

Definition example_global : SMPPEsmeGlobal :=
  {| smpp_esme_global_create with g_system_id := Some ($"acme"); binds := [7%nat]; throughput := 50%Q |}.

(** ESME 8 has connected and not bound yet. *)
Definition example_new : SMPPEsme :=
  {| smpp_esme_create with conn := true; connected := true; event_container := true; id := 2;
     ip := Some ($"10.0.0.8"); time_connected := 1000 |}.

Definition example_bind : SMPP_PDU :=
  {| example_submit with type := bind_transceiver; sequence_number := 3;
     pdu_system_id := Some ($"acme"); password := Some ($"secret"); interface_version := 0x34 |}.

Definition example_deliver : SMPP_PDU := {| example_submit with type := deliver_sm; sequence_number := 7 |}.
Definition example_ack : SMPP_PDU := {| example_submit with type := deliver_sm_resp; sequence_number := 7 |}.
Definition example_response : SMPP_PDU :=
  {| (smpp_pdu_create submit_sm_resp 1) with message_id := Some ($"uuid") |}.

(** The queued PDUs: requests (1: submit_sm, 2: data_sm, 5: bind), a response that
    waits (3), a deliver_sm from the bearerbox (4), a stored PDU (6). *)
Definition request (e : nat) (pd : SMPP_PDU) : SMPPQueuedPDU := heard e pd.
Definition example_reply : SMPPQueuedPDU :=
  {| (new_response 7 example_esme submit_sm_resp 1) with
     pdu := Some example_response; msg := Some {| example_mo with sms_type := mt_push |} |}.
Definition example_delivery : SMPPQueuedPDU :=
  delivery (from_bearerbox 0 ($"uuid")) 7 (Some ($"acme")) 7 example_deliver.
Definition example_stored : SMPPQueuedPDU :=
  stored_pdu (Some ($"acme")) ($"42", (0, Some example_deliver)).

Definition example_box : SMPPBearerbox :=
  {| bb_id := Some ($"smppbox"); connection := true; last_msg := 990; alive := true; bb_open_acks := ∅ |}.
Definition example_box_msg : SMPPBearerboxMsg :=
  {| bb_msg := {| example_mo with sms_type := mt_push |};
     bb_callback_of := smpp_queues_callback_submit_sm_cb 3; bb_msg_id := $"uuid" |}.

Definition example_world : World nat := {|
  w_now := 1000; server := example_server;
  pdus := {[ 1%nat := Live (request 7 example_submit);
             2%nat := Live (request 7 {| example_data with sm := {| (sm example_data) with esm_class := 0;
                                           message_payload := Some ($"hello") |} |});
             3%nat := Live example_reply; 4%nat := Live example_delivery;
             5%nat := Live (request 8 example_bind); 6%nat := Live example_stored ]};
  esme_heap := {[ 7%nat := Live example_esme; 8%nat := Live example_new ]};
  esmes := {[ $"acme" := example_global ]};
  cleanup_queue := []; inbound_queue := []; outbound_queue := [4%nat]; simulation_queue := [];
  bearerboxes := {[ 0%nat := example_box ]}; bb_order := [0%nat]; bb_outbound_queue := [example_box_msg];
  route_requests := []; inbound_routes := [example_route];
  outbound_routes := {[ $"acme" := [example_route] ]}; blocklist := ∅; db := 5%nat; next_ptr := 10%nat;
  next_uuid := 0%nat; bb_writes := []; trace := [] |}.

Definition example_uuid (n : nat) : Octstr := fmt_ld (Z.of_nat n).

(** ** smpp_esme.c *)

Lemma find_best_receiver_spec_witness :
  ∃ r, smpp_esme_find_best_receiver (Some ($"ACME")) example_world = Some (r, example_world) ∧ r = Some 7%nat.
Proof.
  destruct (find_best_receiver_spec example_world ($"ACME") example_global) as (r & Hrun & _).
  - done.
  - by vm_compute.
  - repeat constructor. by eexists.
  - exists r. split; [done|]. vm_compute in Hrun. by injection Hrun.
Defined.

Lemma auth_outcome_witness :
  ip_allowed example_account (ip example_new) = true ∧
  smpp_esme_auth (Some ($"acme")) (Some ($"secret")) 8 example_world = Some (Some example_account, example_world).
Proof.
  destruct (auth_outcome example_world example_world (Some ($"acme")) (Some ($"secret")) 8 example_new
    (Some example_account)) as (_ & Hip & _ & _); [by vm_compute..|]. split; [exact Hip|by vm_compute].
Defined.

Lemma max_binds_enforced_witness :
  within_max_binds example_account (Some ($"acme")) (esmes example_world) = true.
Proof.
  rewrite (max_binds_enforced example_account ($"acme") _ example_global); by vm_compute.
Defined.

(** The ESME that connects as [ACME]. *)
Definition example_upper : World nat :=
  with_esme (with_db example_world 0%nat) 8 {| example_new with system_id := Some ($"Other") |}.

Lemma upper_case_account_unlimited_witness :
  ∃ w', smpp_esme_global_add 8 example_upper = Some (tt, w') ∧
    smpp_esme_find_best_receiver (Some ($"Other")) w' = Some (None, w').
Proof.
  destruct (upper_case_account_unlimited example_upper 8
    {| example_new with system_id := Some ($"Other") |} ($"Other")) as (w' & Hrun & _ & _ & Hbest);
    [by vm_compute|done|by vm_compute|by vm_compute|].
  by exists w'.
Defined.

Lemma cleanup_destroys_idle_only_witness :
  ∃ w', cleanup_queued 8 example_world = Some (false, w') ∧ esme_heap w' !! 8%nat = Some Freed.
Proof.
  destruct (cleanup_destroys_idle_only example_world 8 example_new) as [_ Hidle]; [by vm_compute|].
  destruct Hidle as (w' & Hrun & Hfreed & _); [by vm_compute|done|]. by exists w'.
Defined.


(** ** Acknowledgements *)

Lemma deliver_sm_acked_once_witness :
  ∃ w', smpp_queues_callback_deliver_sm_resp 4 SMPP_ESME_ROK example_world = Some (tt, w') ∧
    acks (trace w') = [EvAck 0 ($"uuid") ack_success].
Proof.
  destruct (deliver_sm_acked_once example_world 4 0 7 ($"uuid") example_delivery
    {| example_deliver with sequence_number := 7 |} SMPP_ESME_ROK) as (w' & Hrun & _ & Hacks);
    [by vm_compute|done|done|done|by eexists|done|done|done| |done|].
  { exists example_esme, ($"acme"), example_global. by vm_compute. }
  exists w'. split; [done|]. rewrite Hacks. by vm_compute.
Defined.

(** ** Routing *)

Lemma route_first_match_witness :
  (smpp_route_message_database SMPP_ROUTE_DIRECTION_OUTBOUND None (Some ($"acme"))
     {| example_mo with receiver := Some ($"+49170") |} example_world) ≠ None.
Proof.
  destruct (route_first_match ($"smsc1") ($"acme") {| example_mo with receiver := Some ($"+49170") |}
    example_world [example_route]) as [Hrun _]; [done|done|by vm_compute|]. by rewrite Hrun.
Defined.

Lemma route_cache_refines_witness :
  ∃ w', outbound_routes_of ($"other") example_world = Some ([example_route], w').
Proof.
  destruct (route_cache_refines ($"other") example_world (λ _ _ _, [example_route])) as [(w' & Hrun & _) _];
    [done|].
  exists w'. rewrite Hrun. by vm_compute.
Defined.

(** ** Submissions *)

Lemma example_awaiting :
  awaiting example_world 3 example_reply example_response 7 example_esme ($"acme") example_global.
Proof. by split; vm_compute. Qed.

Lemma routing_done_decides_witness :
  ∃ w', smpp_queues_submit_routing_done 3 {| parts := 1; cost := 2%Q; status := SMPP_ESME_RINVDSTADR |}
          example_world = Some (tt, w') ∧
    answered example_world w' 3 example_response SMPP_ESME_RINVDSTADR.
Proof.
  destruct (routing_done_decides example_world 3 example_reply example_response 7 example_esme ($"acme")
    example_global {| example_mo with sms_type := mt_push |} ($"acme")
    {| parts := 1; cost := 2%Q; status := SMPP_ESME_RINVDSTADR |} false example_awaiting)
    as (w' & Hrun & _ & Hout & _); [done..|].
  by exists w'.
Defined.

Lemma example_requested p pd :
  lookup_pdu example_world p = Some (request 7 pd) → p ≠ 10%nat →
  requested example_world p (request 7 pd) pd 7 example_esme ($"acme") example_global ($"acme").
Proof. intros Hp Hne. by split; [exact Hp|vm_compute..|exact Hne]. Qed.

Lemma submit_sm_answered_once_witness :
  ∃ w', smpp_queues_handle_submit_sm (Some SMPP_ROUTING_METHOD_DATABASE) false example_uuid 1 example_world
        = Some (tt, w') ∧ served example_world w' 1 submit_sm_resp 1.
Proof.
  apply (submit_sm_answered_once (Some SMPP_ROUTING_METHOD_DATABASE) false example_uuid example_world 1
    (request 7 example_submit) example_submit 7 example_esme ($"acme") example_global ($"acme"));
    [by apply example_requested; vm_compute|by eexists|by vm_compute|done|done|].
  intros _. by eexists.
Defined.

Definition example_data_request : SMPP_PDU :=
  {| example_data with sm := {| (sm example_data) with esm_class := 0; message_payload := Some ($"hello") |} |}.

Lemma data_sm_answered_once_witness :
  ∃ w', smpp_queues_handle_data_sm (Some SMPP_ROUTING_METHOD_HTTP) false example_uuid 2 example_world
        = Some (tt, w') ∧ served example_world w' 2 data_sm_resp 1.
Proof.
  apply (data_sm_answered_once (Some SMPP_ROUTING_METHOD_HTTP) false example_uuid example_world 2
    (request 7 example_data_request) example_data_request 7 example_esme ($"acme") example_global ($"acme"));
    [by apply example_requested; vm_compute|by eexists|by vm_compute|done|done].
Defined.

(** A receiver may not submit. *)
Definition example_receiver : SMPPEsme := {| example_esme with bind_type := SMPP_ESME_RECEIVE |}.

Lemma submissions_gated_witness :
  ∃ w1, smpp_queues_handle_submit_sm None false example_uuid 1 (with_esme example_world 7 example_receiver)
        = Some (tt, set_pdus <[1%nat := Freed]> w1) ∧ outbound_queue w1 = [4%nat; 10%nat].
Proof.
  destruct (submissions_gated None false example_uuid (with_esme example_world 7 example_receiver) 1
    (request 7 example_submit) example_submit 7 example_receiver ($"acme") example_global ($"acme")
    SMPP_ESME_RINVBNDSTS false) as (w1 & Hrun & Hans & _); [by split; vm_compute|by vm_compute|].
  exists w1. split; [exact Hrun|]. by rewrite (an_queue _ _ _ _ _ Hans).
Defined.

(** ** The bearerboxes *)

(** The response waits in the queue ([example_world]), or in the table of a
    bearerbox. *)
Definition example_sent (live : bool) : World nat :=
  {| example_world with
     bearerboxes := {[ 0%nat := {| example_box with bb_open_acks := {[ $"uuid" := example_box_msg ]};
                                                    alive := live |} ]};
     bb_outbound_queue := [] |}.

Lemma example_ready (w : World nat) p :
  pdus w = pdus example_world → esme_heap w = esme_heap example_world → esmes w = esmes example_world →
  msg_response example_box_msg = Some p → ready w p.
Proof.
  intros Hp He Hg [= <-].
  exists example_reply, example_response, 7%nat, example_esme, ($"acme"), example_global.
  split; try done; unfold lookup_pdu, lookup_esme; by rewrite ?Hp, ?He, ?Hg; vm_compute.
Qed.

Lemma example_world_ready : all_ready example_world.
Proof.
  split.
  - intros m p ->%list_elem_of_singleton. by apply example_ready.
  - intros b bx m p Hb Hm. cbn in Hb. apply lookup_singleton_Some in Hb as [<- <-]. by apply elem_of_nil in Hm.
Qed.

Lemma example_sent_ready live : all_ready (example_sent live).
Proof.
  split; [by intros m p Hm%elem_of_nil|].
  intros b bx m p Hb Hm. cbn in Hb. apply lookup_singleton_Some in Hb as [<- <-].
  change (m ∈ (map_to_list ({[ $"uuid" := example_box_msg ]} : gmap Octstr SMPPBearerboxMsg)).*2) in Hm.
  rewrite map_to_list_singleton in Hm. apply list_elem_of_singleton in Hm as ->. by apply example_ready.
Qed.

Lemma bearerbox_ack_completes_witness :
  ∃ w', smpp_bearerbox_handle_ack 0 ($"uuid") (Some ack_success) (example_sent true) = Some (tt, w') ∧
    outbound_queue w' = [4%nat; 3%nat] ∧ response_status w' 3 = Some SMPP_ESME_ROK.
Proof.
  destruct (bearerbox_ack_completes (example_sent true) 0
    {| example_box with bb_open_acks := {[ $"uuid" := example_box_msg ]} |} ($"uuid") (Some ack_success))
    as (w' & Hrun & _ & _ & _ & Hcase); [done|apply example_sent_ready|].
  vm_compute in Hcase. destruct Hcase as (Hq & Hst & _). exists w'.
  split; [exact Hrun|split; [exact Hq|exact (Hst 3%nat)]].
Defined.

Lemma reconnect_fails_outstanding_witness :
  ∃ w', smpp_bearerbox_reconnect 0 true (example_sent false) = Some (tt, w') ∧
    outbound_queue w' = [4%nat; 3%nat] ∧ response_status w' 3 = Some SMPP_ESME_RSYSERR.
Proof.
  destruct (reconnect_fails_outstanding (example_sent false) 0
    {| example_box with bb_open_acks := {[ $"uuid" := example_box_msg ]}; alive := false |} true)
    as (w' & bx' & Hrun & _ & _ & _ & _ & Hq & _ & Hst); [done|done|apply example_sent_ready|].
  exists w'. split; [exact Hrun|]. rewrite Hq, Hst. split; [reflexivity|].
  rewrite bool_decide_true; [done|]. apply (list_elem_of_singleton 3%nat 3%nat). done.
Defined.

Lemma writer_loses_nothing_witness :
  ∃ w', smpp_bearerbox_outbound_step 0 example_world = Some (tt, w') ∧ held w' ≡ₚ [4%nat; 3%nat] ∧
    bb_outbound_queue w' = [].
Proof.
  destruct (writer_loses_nothing example_world 0 example_box example_box_msg [])
    as (w' & Hrun & Hheld & _ & Hcase); [done|done|done|exact example_world_ready|].
  exists w'. split; [exact Hrun|]. vm_compute in Hcase. split; [|by apply Hcase].
  etransitivity; [exact Hheld|]. by vm_compute.
Defined.

(** ** Binds and acknowledgements *)

Lemma bind_granted_witness :
  ∃ w', smpp_queues_handle_bind_pdu 5 example_world = Some (tt, w') ∧ outbound_queue w' = [4%nat; 10%nat].
Proof.
  destruct (bind_granted example_world example_world 5 8 (request 8 example_bind) example_bind example_new
    bind_transceiver_resp (Z.lor SMPP_ESME_TRANSMIT SMPP_ESME_RECEIVE) example_account ($"acme"))
    as (w' & r & c' & g' & Hrun & _ & Hq & _); [by vm_compute..|done|by vm_compute|done|by vm_compute|].
  by exists w'.
Defined.

Definition example_bad_bind : SMPP_PDU := {| example_bind with password := Some ($"guess") |}.

Lemma bind_refused_witness :
  ∃ w', smpp_queues_handle_bind_pdu 5 (with_pdu example_world 5 (request 8 example_bad_bind)) = Some (tt, w') ∧
    outbound_queue w' = [4%nat; 10%nat] ∧ esmes w' = {[ $"acme" := example_global ]}.
Proof.
  destruct (smpp_esme_auth (pdu_system_id example_bad_bind) (password example_bad_bind) 8
    (with_pdu example_world 5 (request 8 example_bad_bind))) as [[a w1]|] eqn:Hauth;
    [|by vm_compute in Hauth].
  assert (a = None) as -> by (vm_compute in Hauth; congruence).
  destruct (bind_refused (with_pdu example_world 5 (request 8 example_bad_bind)) w1 5 8
    (request 8 example_bad_bind) example_bad_bind example_new bind_transceiver_resp (Z.lor SMPP_ESME_TRANSMIT SMPP_ESME_RECEIVE))
    as (w' & r & Hrun & _ & Hq & _ & _ & _ & Hg & _); [by vm_compute..|done|by vm_compute|exact Hauth|].
  by exists w'.
Defined.

Lemma outbound_step_sends_witness :
  ∃ w', smpp_queues_outbound_step example_world = Some (tt, w') ∧ outbound_queue w' = [] ∧
    trace w' = [EvSent 7 example_deliver].
Proof.
  destruct (outbound_step_sends example_world 4 7 [] example_delivery
    {| example_deliver with sequence_number := 7 |} example_esme)
    as (w' & Hrun & Hq & Ht & _); [by vm_compute..|].
  by exists w'.
Defined.

(** The client acknowledges PDU 4 while it is still queued. *)
Definition example_early : SMPPEsme := {| example_esme with open_acks := {[ fmt_ld 7 := 4%nat ]} |}.

Lemma early_ack_dangles_witness :
  ∃ w', smpp_queues_process_ack 7 7 SMPP_ESME_ROK (with_esme example_world 7 example_early) = Some (tt, w') ∧
    smpp_queues_outbound_step w' = None.
Proof.
  apply (early_ack_dangles (with_esme example_world 7 example_early) 4 0 7 ($"uuid") example_delivery
    {| example_deliver with sequence_number := 7 |} example_early []); try (by vm_compute).
  - by eexists.
  - exists example_early, ($"acme"), example_global. by vm_compute.
Defined.

(** ** The listener *)

Definition example_view (pd : SMPP_PDU) : conn_view :=
  {| cv_len := 40; cv_data := true; cv_pdu := Some pd; cv_closed := false |}.

Lemma response_before_bind_stops_witness :
  ∃ w1 w2, smpp_listener_connection_callback (Some ($"10.0.0.9")) 1 example_world = Some (Some 10%nat, w1) ∧
    smpp_listener_event 10 [example_view example_ack] w1 = Some (tt, w2) ∧
    smpp_queues_inbound_step None false example_uuid w2 = None.
Proof.
  destruct (smpp_listener_connection_callback (Some ($"10.0.0.9")) 1 example_world) as [[o w1]|] eqn:Hrun;
    [|by vm_compute in Hrun].
  assert (o = Some 10%nat) as -> by (vm_compute in Hrun; congruence).
  destruct (response_before_bind_stops None false example_uuid example_world w1 (Some ($"10.0.0.9")) 1 10
    (example_view example_ack) example_ack Hrun) as (w2 & Hev & _ & Hstop); [done|done|done|].
  by exists w1, w2.
Defined.

Lemma listener_queues_in_order_witness :
  ∃ w', smpp_listener_event 7 [example_view example_submit; example_view example_ack] example_world
        = Some (tt, w') ∧ inbound_queue w' = [10%nat; 11%nat].
Proof.
  destruct (listener_queues_in_order example_world 7 example_esme
    [example_view example_submit; example_view example_ack] [example_submit; example_ack])
    as (w' & c' & Hrun & Hq & _); [by vm_compute|done|by repeat constructor|done|].
  by exists w'.
Defined.

Definition example_noise : conn_view :=
  {| cv_len := -1; cv_data := false; cv_pdu := None; cv_closed := false |}.

Lemma garbage_closes_after_ten_witness :
  ∃ w' c', for_each (λ v, smpp_listener_event 7 [v]) (replicate 10 example_noise) example_world = Some (tt, w') ∧
    lookup_esme w' 7 = Some c' ∧ connected c' = false.
Proof.
  destruct (garbage_closes_after_ten example_world 7 example_esme (replicate 10 example_noise))
    as (w' & c' & Hrun & Hc & He & _ & _ & Hcase);
    [by vm_compute|done|done|done|by repeat (constructor; [by left|])|done|done|].
  exists w', c'. split; [exact Hrun|]. split; [exact Hc|]. rewrite He in Hcase. by apply Hcase.
Defined.

(** ** Deliveries *)

Definition example_mo_to : Msg :=
  {| example_mo with service := Some ($"acme"); msg_id := $"mo-id"; sms_type := mo |}.
Definition example_routed : SMPPRouteStatus := {| parts := 1; cost := 0%Q; status := SMPP_ESME_ROK |}.

Lemma mo_parts_delivered_witness :
  ∃ w', smpp_bearerbox_routing_done 0 example_mo_to example_routed example_world = Some (tt, w') ∧
    outbound_queue w' = [4%nat; 10%nat].
Proof.
  destruct (smpp_pdu_msg_to_pdu 1000 example_mo_to example_esme) as [[[pds|] c1]|] eqn:Hpdu;
    [|by vm_compute in Hpdu..].
  destruct (mo_parts_delivered example_world 0 7 example_mo_to example_routed example_esme c1 pds)
    as (w' & c' & Hrun & _ & Hq & _); [done|by vm_compute|by vm_compute|exact Hpdu| |].
  { intros k _. vm_compute in Hpdu. injection Hpdu as _ <-. done. }
  exists w'. split; [exact Hrun|]. rewrite Hq. vm_compute in Hpdu. by injection Hpdu as <- _.
Defined.



Lemma dlr_url_leads_back_witness :
  smpp_pdu_get_system_id_from_dlr_url
    (default [] (dlr_url (smpp_queues_msg_set_dlr_url 1000 ($"acme") example_mo))) = Some ($"acme").
Proof.
  destruct (dlr_url_leads_back 1000 ($"acme") ($"acme") [] example_mo) as [Hlead _]; [|by apply Hlead].
  intros Hin%list_elem_of_In. vm_compute in Hin. by repeat destruct Hin as [?|Hin].
Defined.

(** ** The outbound queue *)

