(* ===== verification/SqlExamples.v ===== *)
(** A small relational database and a routing service: Kannel's conversions on whole
    numbers, the fields of a message, a server with accounts and a table of records,
    the theorems about the backend and the HTTP client applied to them, and the daemon
    run on the backend. *)
From S2P Require Import Prelude CLib Gwlib DbUtil Types Kannel Dlr PduUtil IpBlock World Callbacks Run Esme Route.
From S2P Require Import Bearerbox Queues Listener Fields Http Mysql Schema Stores Ledger Daemon.
From stdpp Require Import relations.
Open Scope Z_scope.

#[local] Existing Instances time_ref octstr_ref kannel_ref esme_env_ref regex_ref box_env_ref.

(** ** The fields of a message *)

Definition sms_type_of (z : Z) : sms_type_t :=
  if z =? 0 then mo else if z =? 1 then mt_reply else if z =? 2 then mt_push
  else if z =? 3 then report_mo else report_mt.
Definition coding_code (c : coding_t) : Z :=
  match c with DC_UNDEF => -1 | DC_7BIT => 0 | DC_8BIT => 1 | DC_UCS2 => 2 end.
Definition coding_of (z : Z) : coding_t :=
  if z =? 0 then DC_7BIT else if z =? 1 then DC_8BIT else if z =? 2 then DC_UCS2 else DC_UNDEF.

Definition example_columns : list column := [
  OCTSTR ($"sender") sender (λ v m, {| m with sender := v |});
  OCTSTR ($"receiver") receiver (λ v m, {| m with receiver := v |});
  OCTSTR ($"udhdata") udhdata (λ v m, {| m with udhdata := v |});
  OCTSTR ($"msgdata") msgdata (λ v m, {| m with msgdata := v |});
  INTEGER ($"time") time (λ v m, {| m with time := v |});
  OCTSTR ($"smsc_id") smsc_id (λ v m, {| m with smsc_id := v |});
  OCTSTR ($"service") service (λ v m, {| m with service := v |});
  UUID ($"id") msg_id;
  INTEGER ($"sms_type") (λ m, sms_type_code (sms_type m)) (λ v m, {| m with sms_type := sms_type_of v |});
  INTEGER ($"mclass") mclass (λ v m, {| m with mclass := v |});
  INTEGER ($"mwi") mwi (λ v m, {| m with mwi := v |});
  INTEGER ($"coding") (λ m, coding_code (coding m)) (λ v m, {| m with coding := coding_of v |});
  INTEGER ($"validity") validity (λ v m, {| m with validity := v |});
  INTEGER ($"dlr_mask") dlr_mask (λ v m, {| m with dlr_mask := v |});
  OCTSTR ($"dlr_url") dlr_url (λ v m, {| m with dlr_url := v |});
  INTEGER ($"pid") pid (λ v m, {| m with pid := v |});
  INTEGER ($"alt_dcs") alt_dcs (λ v m, {| m with alt_dcs := v |});
  INTEGER ($"rpi") rpi (λ v m, {| m with rpi := v |});
  OCTSTR ($"binfo") binfo (λ v m, {| m with binfo := v |});
  INTEGER ($"priority") priority (λ v m, {| m with priority := v |});
  OCTSTR ($"meta_data") meta_data (λ v m, {| m with meta_data := v |});
  OCTSTR ($"boxc_id") boxc_id (λ v m, {| m with boxc_id := v |}) ].

Lemma example_columns_named : NoDup (map column_name example_columns).
Proof. apply (bool_decide_unpack _). by vm_compute. Qed.

Lemma example_columns_no_key : $"global_id" ∉ map column_name example_columns.
Proof. apply (bool_decide_unpack _). by vm_compute. Qed.

(** A string field that is not set yet can be set to what there is. *)
Lemma copy_string h u m m0 n (get : Msg → option Octstr) set :
  set None m0 = m0 → copy_column h u m m0 (OCTSTR n get set) = set (h (get m)) m0.
Proof. intros Hset. cbn. by destruct (h (get m)). Qed.

Lemma copy_number h u m m0 n (get : Msg → Z) set : copy_column h u m m0 (INTEGER n get set) = set (get m) m0.
Proof. done. Qed.
Lemma copy_uuid h u m m0 n get :
  copy_column h u m m0 (UUID n get) = {| m0 with msg_id := default (msg_id m0) (u (get m)) |}.
Proof. cbn. destruct (u (get m)); [done|]. by destruct m0. Qed.
Lemma foldl_cons_eq {A B} (f : A → B → A) a x l : foldl f a (x :: l) = foldl f (f a x) l.
Proof. done. Qed.

Lemma example_columns_complete h u m i :
  foldl (copy_column h u m) (msg_create i) example_columns =
    map_strings h m (default i (u (msg_id m))).
Proof.
  unfold example_columns, msg_create.
  repeat (rewrite foldl_cons_eq; first [rewrite copy_string by reflexivity | rewrite copy_number | rewrite copy_uuid];
          cbv beta iota;
          cbn [sender receiver udhdata msgdata time smsc_id service msg_id sms_type mclass mwi coding validity
               dlr_mask dlr_url pid alt_dcs rpi binfo priority meta_data boxc_id]).
  cbn [foldl]. unfold map_strings.
  by destruct (sms_type m), (coding m).
Qed.

(** ** Conversions: whole numbers, of any size *)

Definition parse_number (s : Octstr) : Z :=
  match s with
  | "-"%char :: s => - strtol_digits 10 0 s
  | s => strtol_digits 10 0 s
  end.

Lemma parse_number_digits s : Forall (λ c, isdigit c = true) s → parse_number s = strtol_digits 10 0 s.
Proof.
  intros Hs. destruct s as [|c s]; [done|]. apply Forall_cons in Hs as [Hc _].
  unfold parse_number. repeat case_match; simplify_eq; done.
Qed.

Lemma parse_number_fmt z : parse_number (fmt_ld z) = z.
Proof.
  unfold fmt_ld. destruct z as [|p|p]; [done| |].
  - change (pretty (Z.pos p)) with (pretty (N.pos p)). rewrite pretty_pos.
    rewrite parse_number_digits by (by apply pretty_N_go_digits). by rewrite strtol_digits_pretty.
  - change (lit (pretty (Z.neg p))) with ("-"%char :: lit (pretty (N.pos p))). rewrite pretty_pos.
    cbn [parse_number]. by rewrite strtol_digits_pretty.
Qed.

#[local] Instance field_ref : FieldLib := {
  octstr_S o := default ($"(null)") o;
  octstr_get_cstr o := cstr (default ($"(null)") o);
  atof s := inject_Z (parse_number s);
  octstr_parse_double o := (λ s, inject_Z (parse_number s)) <$> o;
  octstr_parse_long s := Some (parse_number s);
  fmt_f q := fmt_ld (Qnum q / Zpos (Qden q));
  uuid_parse s := Some s;
  sms_columns := example_columns;
  octstr_S_Some _ := eq_refl;
  octstr_get_cstr_Some _ := eq_refl;
  sms_columns_named := example_columns_named;
  sms_columns_no_key := example_columns_no_key;
  sms_columns_complete := example_columns_complete;
}.

(** PDUs are deliver_sms with a number, which comes after the length. *)
#[local, refine] Instance sql_lib_ref : SqlLib := {
  gw_regex_comp _ := true;
  smpp_pdu_pack _ p := $"0000" ++ fmt_ld (sequence_number p);
  smpp_pdu_unpack _ s := Some (smpp_pdu_create deliver_sm (parse_number s));
  packable p := p = smpp_pdu_create deliver_sm (sequence_number p);
}.
Proof.
  intros _ p Hp. change (drop 4 ($"0000" ++ ?x)) with x. rewrite parse_number_fmt. by f_equal.
Defined.

(** ** The server

    It has the accounts' credit and one table of records, which it answers every
    query with that is not about the credit, but for those whose key is in the text
    of the query, followed by a comma or a parenthesis. Keys are longs. *)
Record RefServer := { accounts : gmap Octstr Z; records : gmap Z row }.

Fixpoint contains (n s : Octstr) : bool :=
  starts_with n s || match s with [] => false | _ :: s => contains n s end.

Definition mentioned (sql : Octstr) (g : Z) : bool :=
  contains (fmt_ld g ++ $",") sql || contains (fmt_ld g ++ $")") sql.

Definition answers (sql : Octstr) (g : Z) : bool :=
  (LONG_MIN <=? g) && (g <=? LONG_MAX) && negb (mentioned sql g).
Definition answer_rows (sql : Octstr) (s : RefServer) : list row :=
  map (λ gr, Some (fmt_ld gr.1) :: gr.2)
      (filter (λ gr, answers sql gr.1 = true) (map_to_list (records s))).

#[local] Instance ref_server : SqlServer RefServer := {
  dbpool_conn_select sql binds s :=
    if starts_with ($"SELECT credit") sql then
      match binds with
      | [Some sid] => Some (match accounts s !! sid with Some n => [[Some (fmt_ld n)]] | None => [] end)
      | _ => None
      end
    else Some (answer_rows sql s);
  dbpool_conn_update sql binds s :=
    match binds with
    | [Some amount; Some sid] =>
        match accounts s !! sid with
        | Some n => (1, {| s with accounts := <[sid := n - parse_number amount]> (accounts s) |})
        | None => (0, s)
        end
    | _ => (1, s)
    end;
}.

Lemma contains_app n a b : contains n (a ++ n ++ b) = true.
Proof.
  induction a as [|c a IH]; cbn [app].
  - assert (starts_with n (n ++ b) = true) as Hn.
    { unfold starts_with. clear. induction n as [|c n IH]; [done|]. cbn. rewrite bool_decide_true by done. done. }
    destruct (n ++ b); cbn [contains]; by rewrite Hn.
  - cbn [contains]. rewrite IH. by rewrite orb_true_r.
Qed.

Lemma delete_last (t : Octstr) c : octstr_delete (t ++ [c]) (octlen (t ++ [c]) - 1) 1 = t.
Proof.
  unfold octstr_delete, octlen. rewrite length_app. cbn [length].
  replace (Z.to_nat (Z.of_nat (length t + 1) - 1)) with (length t) by lia.
  rewrite take_app_length. rewrite drop_ge; [by rewrite app_nil_r|]. rewrite length_app. cbn. lia.
Qed.

Lemma not_pending_mentions ids k : k ∈ ids →
  ∃ a b, not_pending ids = a ++ (k ++ $",") ++ b ∨ not_pending ids = a ++ (k ++ $")") ++ b.
Proof.
  intros Hk. unfold not_pending. rewrite (proj2 (Nat.eqb_neq _ _)).
  2:{ intros Hs%size_empty_iff. set_solver. }
  apply elem_of_elements, list_elem_of_split in Hk as (l1 & l2 & ->).
  set (f := λ i : Octstr, i ++ $","). set (p := $" AND global_id NOT IN (").
  rewrite map_app, concat_app. cbn [map concat]. change (f k) with (k ++ $",").
  destruct l2 as [|k2 l2 _] using rev_ind.
  - cbn [map concat]. rewrite app_nil_r. exists (p ++ concat (map f l1)), []. right.
    replace (p ++ concat (map f l1) ++ k ++ $",") with ((p ++ concat (map f l1) ++ k) ++ [","%char])
      by (by rewrite <- !app_assoc).
    rewrite delete_last, app_nil_r, <- !app_assoc. done.
  - exists (p ++ concat (map f l1)), (concat (map f l2) ++ k2 ++ $")"). left.
    rewrite map_app, concat_app. cbn [map concat]. change (f k2) with (k2 ++ $","). rewrite app_nil_r.
    replace (p ++ concat (map f l1) ++ (k ++ $",") ++ concat (map f l2) ++ k2 ++ $",")
      with ((p ++ concat (map f l1) ++ (k ++ $",") ++ concat (map f l2) ++ k2) ++ [","%char])
      by (by rewrite <- !app_assoc).
    rewrite delete_last, <- !app_assoc. done.
Qed.

Lemma mentioned_pending ids g a b : fmt_ld g ∈ ids → mentioned (a ++ not_pending ids ++ b) g = true.
Proof.
  intros (a' & b' & [->| ->])%not_pending_mentions; unfold mentioned; apply orb_true_iff; [left|right].
  - rewrite <- app_assoc, (app_assoc a), <- (app_assoc _ b'). apply contains_app.
  - rewrite <- app_assoc, (app_assoc a), <- (app_assoc _ b'). apply contains_app.
Qed.

Lemma answer_keys sql s :
  NoDup (row_keys (answer_rows sql s)) ∧
  ∀ k, k ∈ row_keys (answer_rows sql s) → ∃ g, k = fmt_ld g ∧ answers sql g = true.
Proof.
  assert (row_keys (answer_rows sql s)
          = fmt_ld <$> (filter (λ gr, answers sql gr.1 = true) (map_to_list (records s))).*1) as Hkeys.
  { unfold row_keys, answer_rows. rewrite map_map, <- list_fmap_compose. done. }
  rewrite Hkeys. split.
  - apply NoDup_fmap_2; [intros x y; apply fmt_ld_inj|].
    apply (sublist_NoDup _ (map_to_list (records s)).*1); [apply NoDup_fst_map_to_list|].
    apply fmap_sublist, sublist_filter.
  - intros k (g & -> & Hin)%list_elem_of_fmap. exists g. split; [done|].
    by apply list_elem_of_fmap in Hin as ([g' r] & -> & [Hm Hin]%list_elem_of_filter).
Qed.

(** ** The contracts *)

Definition sql_server_config : SMPPServer :=
  {| (relational_tables example_server) with server_id := Some ($"ksmppd") |}.

Lemma stored_columns_text :
  let columns := $"SELECT global_id, " ++ concat (map (λ c, $"`" ++ column_name c ++ $"`,") sms_columns) in
  chop columns = $"SELECT g" ++ drop 8 (chop columns).
Proof. vm_compute. reflexivity. Qed.

Lemma answered_records sql p ids rest binds s rs :
  sql = ($"SELECT g" ++ p) ++ not_pending ids ++ rest →
  dbpool_conn_select sql binds s = Some rs →
  NoDup (row_keys rs) ∧ ∀ k, k ∈ row_keys rs → k ∉ ids ∧ ∃ g, LONG_MIN ≤ g ≤ LONG_MAX ∧ k = fmt_ld g.
Proof.
  intros Hsql Hrs. assert (starts_with ($"SELECT credit") sql = false) as Hst by (by subst).
  cbn [dbpool_conn_select ref_server] in Hrs. rewrite Hst in Hrs. injection Hrs as <-.
  destruct (answer_keys sql s) as [Hnd Hk]. split; [done|].
  intros k (g & -> & Ha)%Hk. unfold answers in Ha. rewrite !andb_true_iff, negb_true_iff in Ha.
  destruct Ha as [[? ?] Hm]. split; [|exists g; split; [lia|done]].
  intros Hin. subst sql. by rewrite mentioned_pending in Hm.
Qed.

#[local] Instance ref_excludes server : SqlExcludes RefServer server DBPOOL_MYSQL.
Proof.
  split.
  - intros t service kind ids s rs. unfold get_stored_sql.
    destruct (stored_from _ _ _ _ _) as [from binds]. eapply answered_records with
      (p := drop 8 (chop ($"SELECT global_id, " ++ concat (map (λ c, $"`" ++ column_name c ++ $"`,") sms_columns)))
            ++ from).
    rewrite (app_assoc ($"SELECT g")), <- stored_columns_text. by rewrite <- app_assoc.
  - intros service limit ids s rs. unfold get_stored_pdu_sql.
    rewrite (surjective_pairing (smpp_db_sql_append_where_eq _ _ _ _ _)).
    set (q := (smpp_db_sql_append_where_eq _ _ _ _ _).1). intros Hrs.
    apply answered_records with (p := drop 8 q ++ $" ") (ids := ids)
      (rest := $" LIMIT " ++ fmt_ld limit ++ $" ") in Hrs
      as [? Hk]; [split; [done|]; intros k ?; by apply Hk|].
    assert (q = $"SELECT g" ++ drop 8 q) as Hq by reflexivity.
    rewrite (app_assoc ($"SELECT g")), <- Hq. by rewrite <- app_assoc.
Qed.

Definition ref_credit (s : RefServer) (sid : Octstr) : option Q := inject_Z <$> accounts s !! sid.
Definition ref_worth (cost : Q) : Q := inject_Z (Qnum cost / Zpos (Qden cost)).

#[local] Instance ref_credit_server server : CreditServer RefServer server DBPOOL_MYSQL ref_credit ref_worth.
Proof.
  split.
  - intros sid s. unfold credit_sql.
    rewrite (surjective_pairing (smpp_db_sql_append_where_eq _ _ _ _ _)).
    unfold smpp_db_sql_append_where_eq, smpp_db_sql_append_column.
    change (smpp_db_sql_is_pgsql DBPOOL_MYSQL) with false. cbn [fst snd app].
    eexists. split; [reflexivity|]. unfold ref_credit.
    destruct (accounts s !! sid) as [n|]; [|done]. eexists _, _, _. split; [reflexivity|].
    cbn. by rewrite parse_number_fmt.
  - intros sid cost s b Hb. unfold deduct_sql. change (smpp_db_sql_is_pgsql DBPOOL_MYSQL) with false.
    cbv iota. unfold ref_credit in *. destruct (accounts s !! sid) as [n|] eqn:Hn; [|done]. injection Hb as <-.
    assert (∀ q a, dbpool_conn_update q [Some a; Some sid] s
      = (1, {| s with accounts := <[sid := n - parse_number a]> (accounts s) |})) as Hupd
      by (intros q a; cbn [dbpool_conn_update ref_server]; by rewrite Hn).
    change (sent DBPOOL_MYSQL ?l) with l. rewrite Hupd.
    eexists _, _. split; [reflexivity|]. split; [lia|]. cbn. split.
    + rewrite lookup_insert_eq. cbn. do 2 f_equal. rewrite parse_number_fmt.
      unfold ref_worth, inject_Z, Qminus, Qplus, Qopp. cbn. f_equal. lia.
    + intros sid' Hne. by rewrite lookup_insert_ne.
Qed.

(** ** The examples *)

Definition example_uuid (n : nat) : Octstr := fmt_ld (Z.of_nat n).

Definition example_backend : Mysql RefServer := {|
  sql_server := {| accounts := {[ $"acme" := 10 ]}; records := {[ 5 := []; 7 := [] ]} |};
  pending_msg := ∅; pending_msg_store := ∅; pending_pdu := ∅; sql_uuid := 0; sql_now := 1700000000 |}.

Definition example_pdu : SMPPQueuedPDU :=
  {| smpp_queued_pdu_create with pdu := Some (smpp_pdu_create deliver_sm 7); q_system_id := Some ($"acme") |}.


(** Both records are handed out, one is returned and handed out again. *)
Definition example_ops : list sql_op :=
  [Fetch mo None 0 SMPP_DATABASE_STORE_AUTO; Fetch mo None 0 SMPP_DATABASE_STORE_AUTO; Remove 5 1;
   Fetch mo None 0 SMPP_DATABASE_STORE_AUTO].



Definition example_dlr_row : row :=
  map Some [$"9"; $"uuid-1"; $"acme"; $"DELIVRD"; $"003"; $"231114221320"; $"231114221321";
            $"49170"; $"12345"; $"smsc1"; $"hello"].

Lemma receipt_row_readable_witness :
  dlr_mask (db_msg (read_dlr 0 1700000000 (Some ($"acme")) ($"new") example_dlr_row)) = DLR_SUCCESS ∧
  smpp_pdu_get_system_id_from_dlr_url
    (default [] (dlr_url (db_msg (read_dlr 0 1700000000 (Some ($"acme")) ($"new") example_dlr_row))))
  = Some ($"acme").
Proof.
  destruct (receipt_row_readable 0 1700000000 1700000000 ($"acme") ($"new") example_dlr_row ($"uuid-1")
    ($"DELIVRD") ($"hello") ($"003") 3) as (_ & Hmask & Hurl).
  all: try exact (conj Hmask Hurl). all: try done. all: by apply (bool_decide_unpack _); vm_compute.
Defined.

(** ** The routing service *)

#[local] Instance http_ref : HttpLib := {
  http_header_value hs n := snd <$> find (λ h, octstr_case_eq h.1 n) hs;
  octstr_E o := default [] o;
  octstr_replace s a b := s;
}.

Lemma http_window_witness :
  let h := smpp_http_client_request_pass
             (smpp_http_client_route_message 2%nat (smpp_http_client_route_message 1%nat (idle 1))) in
  outstanding_requests h = 1 ∧ [1; 2]%nat ≡ₚ in_flight h ++ queued_requests h.
Proof.
  destruct (http_window 1 [1; 2]%nat [] (smpp_http_client_request_pass
    (smpp_http_client_route_message 2%nat (smpp_http_client_route_message 1%nat (idle 1))))) as (_ & _ & Hp).
  { eapply (run_step (idle 1) [1; 2]%nat [] _ None None); [|apply step_send].
    eapply (run_step (idle 1) [1%nat] [] _ (Some 2%nat) None); [|apply step_route].
    eapply (run_step (idle 1) [] [] _ (Some 1%nat) None); [apply run_refl|apply step_route]. }
  split; [done|exact Hp].
Defined.

(** ** The daemon on the backend *)

#[local] Instance sql_daemon : DatabaseOps (Mysql RefServer) :=
  relational_ops sql_server_config DBPOOL_MYSQL example_uuid 0.

Definition example_start : World (Mysql RefServer) := {|
  w_now := 1700000000; server := sql_server_config; pdus := ∅; esme_heap := ∅; esmes := ∅;
  cleanup_queue := []; inbound_queue := []; outbound_queue := []; simulation_queue := [];
  bearerboxes := ∅; bb_order := []; bb_outbound_queue := []; route_requests := []; inbound_routes := [];
  outbound_routes := ∅; blocklist := ∅; db := example_backend; next_ptr := 0; next_uuid := 0;
  bb_writes := []; trace := [] |}.

(** An ESME connects and its connection breaks. *)
Definition example_actions : list action :=
  [Connection (Some ($"10.0.0.9")) 1;
   Data 0 [{| cv_len := 0; cv_data := false; cv_pdu := None; cv_closed := true |}]; Elapse 60; Cleanup].



(** ** The version of the schema

    A server that keeps the version it was told last. *)
Definition version_of (o : option Z) : option Z :=
  match o with Some v => if (LONG_MIN <=? v) && (v <=? LONG_MAX) then Some v else None | None => None end.

Definition before_version (s : SMPPServer) : Octstr :=
  $"UPDATE " ++ table (database_version_table s) ++ $" SET `version` = ".
Definition after_version : Octstr := $" WHERE `component` = ?".
Definition told_version (s : SMPPServer) (sql : Octstr) : Z :=
  let rest := drop (length (before_version s)) sql in
  parse_number (take (length rest - length after_version) rest).

#[local] Instance version_server (s : SMPPServer) : SqlServer (option Z) := {
  dbpool_conn_select _ _ o := Some (match version_of o with Some v => [[Some (fmt_ld v)]] | None => [] end);
  dbpool_conn_update sql binds o :=
    match binds with
    | [] => (0, o)
    | _ => (1, Some (if starts_with ($"INSERT") sql then 1 else told_version s sql))
    end;
}.

Lemma version_of_long v : LONG_MIN ≤ v ≤ LONG_MAX → version_of (Some v) = Some v.
Proof. intros [Hl Hu]. cbn. by rewrite (proj2 (Z.leb_le _ _) Hl), (proj2 (Z.leb_le _ _) Hu). Qed.

Lemma told_version_eq s v : told_version s (before_version s ++ fmt_ld v ++ after_version) = v.
Proof.
  unfold told_version. cbv zeta. rewrite drop_app_length, length_app, Nat.add_sub, take_app_length.
  apply parse_number_fmt.
Qed.

#[local] Instance version_server_ok s : @VersionServer (option Z) _ (version_server s) s version_of.
Proof.
  split.
  - intros o v Hv. destruct o as [v0|]; [|done]. cbn in Hv.
    destruct (Z.leb_spec LONG_MIN v0); [|done]. destruct (Z.leb_spec v0 LONG_MAX); [|done]. by injection Hv as ->.
  - intros sql o _. by exists 0, o.
  - done.
  - done.
  - intros o. done.
  - intros v o _ Hv. cbn [dbpool_conn_update version_server snd ksmppd_component].
    change (starts_with ($"INSERT") _) with false. cbv iota.
    pose proof (told_version_eq s v) as Ht. unfold before_version in Ht. rewrite <- !app_assoc in Ht.
    unfold after_version in Ht. rewrite Ht. by apply version_of_long.
Qed.

Definition example_versioned (v : option Z) : Mysql (option Z) := {|
  sql_server := v; pending_msg := ∅; pending_msg_store := ∅; pending_pdu := ∅; sql_uuid := 0; sql_now := 0 |}.

Lemma init_records_version_witness :
  ∃ d', @smpp_database_mysql_init_tables _ field_ref (version_server example_server) example_server
          (example_versioned (Some 3)) = Some (tt, d') ∧ version_of (sql_server d') = Some 5.
Proof.
  destruct (@init_records_version _ field_ref (version_server example_server) example_server version_of
    (example_versioned (Some 3)) (version_server_ok example_server)) as (d' & Hrun & Hv & _).
  exists d'. split; [exact Hrun|exact Hv].
Defined.
