(* ===== verification/RedisExamples.v ===== *)
(** A small Redis server and JSON library, and the administration interface of the
    daemon: the theorems of RedisStore.v and Admin.v applied to concrete runs. The JSON
    text is a brace and the binary notation of an object's code; the server takes a command that
    holds no "%" as the words between its blanks. *)
From S2P Require Import Prelude CLib Gwlib DbUtil Types Kannel Dlr PduUtil IpBlock World Callbacks Run Esme Route.
From S2P Require Import Bearerbox Queues Requeue Listener Fields Http Admin Mysql Redis RedisStore Examples SqlExamples.
Open Scope Z_scope.

#[local] Existing Instances time_ref octstr_ref kannel_ref esme_env_ref regex_ref box_env_ref field_ref sql_lib_ref.

(** ** JSON *)

Fixpoint bits (p : positive) : Octstr :=
  match p with
  | xH => []
  | xO p => "0"%char :: bits p
  | xI p => "1"%char :: bits p
  end.
Fixpoint unbits (s : Octstr) : positive :=
  match s with
  | [] => xH
  | c :: s => if bool_decide (c = "0"%char) then xO (unbits s) else xI (unbits s)
  end.

Lemma unbits_bits p : unbits (bits p) = p.
Proof. by induction p as [p IH|p IH|]; cbn; [rewrite IH..|]. Qed.
Lemma bits_chars p c : c ∈ bits p → c = "0"%char ∨ c = "1"%char.
Proof. induction p as [p IH|p IH|]; cbn; [| |set_solver]; intros [->|?]%elem_of_cons; auto. Qed.

(** The values a text carries. *)
Definition json_code (v : json_t) : nat * Z * list N :=
  match v with
  | JSON_NULL => (0%nat, 0, [])
  | JSON_INTEGER z => (1%nat, z, [])
  | JSON_STRING s => (2%nat, 0, map N_of_ascii s)
  | _ => (3%nat, 0, [])
  end.
Definition json_value (c : nat * Z * list N) : json_t :=
  match c with
  | (0%nat, _, _) => JSON_NULL
  | (1%nat, z, _) => JSON_INTEGER z
  | (2%nat, _, s) => JSON_STRING (map ascii_of_N s)
  | _ => JSON_OTHER
  end.

Lemma ascii_codes s : map ascii_of_N (map N_of_ascii s) = s.
Proof. rewrite map_map. induction s as [|c s IH]; [done|]. cbn [map]. by rewrite ascii_N_embedding, IH. Qed.

Lemma json_value_code u v : json_carried u v → json_value (json_code v) = v.
Proof. destruct v; cbn; try done. by rewrite ascii_codes. Qed.

Definition ref_dumps (o : json_object) : Octstr :=
  "{"%char :: bits (encode (map (λ kv, (map N_of_ascii kv.1, json_code kv.2)) o)).
Definition ref_loads (s : Octstr) : option json_object :=
  match s with
  | [] => None
  | _ :: s => map (λ kv, (map ascii_of_N kv.1, json_value kv.2))
                <$> (decode (unbits s) : option (list (list N * (nat * Z * list N))))
  end.
Definition ref_utf8 (s : Octstr) : bool := forallb (λ c, (0 <? byte_val c) && (byte_val c <? 128)) s.

#[local, refine] Instance json_ref : JsonLib := {
  utf8 := ref_utf8;
  json_dumps := ref_dumps;
  json_loads := ref_loads;
}.
Proof.
  - intros s Hs. unfold ref_utf8. apply forallb_forall. intros c Hc%list_elem_of_In.
    rewrite Forall_forall in Hs. specialize (Hs c Hc). cbn in Hs. lia.
  - intros o [Hin|[Hin|Hin]%bits_chars]%elem_of_cons; by vm_compute in Hin.
  - intros o _ Ho. unfold ref_loads, ref_dumps. rewrite unbits_bits, decode_encode. cbn. f_equal.
    rewrite map_map. induction Ho as [|[k v] o Hv _ IH]; [done|]. cbn [map]. rewrite IH. cbn in *.
    by rewrite ascii_codes, (json_value_code _ _ Hv).
Defined.

(** ** The server *)

Definition ref_format (c : Octstr) : option (list Octstr) :=
  if bool_decide ("%"%char ∈ c) then None else Some (ref_split [] " "%char c).

Definition ref_exec (ws : list Octstr) (ks : keyspace_t) : option redisReply * keyspace_t :=
  match ws with
  | cmd :: k :: args =>
      if bool_decide (cmd = $"LPUSH") then
        match args, ks !! k with
        | [v], (None | Some (RList _)) =>
            (Some (REDIS_REPLY_INTEGER (Z.of_nat (length (list_at ks k)) + 1)), put_list k (v :: list_at ks k) ks)
        | _, _ => (Some (REDIS_REPLY_ERROR ($"WRONGTYPE")), ks)
        end
      else if bool_decide (cmd = $"LPOP") then
        match args, ks !! k with
        | [n], (None | Some (RList _)) =>
            (Some (match list_at ks k with
                   | [] => REDIS_REPLY_NIL
                   | l => REDIS_REPLY_ARRAY (map REDIS_REPLY_STRING (take (Z.to_nat (parse_number n)) l))
                   end), put_list k (drop (Z.to_nat (parse_number n)) (list_at ks k)) ks)
        | _, _ => (Some (REDIS_REPLY_ERROR ($"WRONGTYPE")), ks)
        end
      else if bool_decide (cmd = $"INCR") then
        match count_at ks k with
        | Some z => (Some (REDIS_REPLY_INTEGER (z + 1)), <[k := RInt (z + 1)]> ks)
        | None => (Some (REDIS_REPLY_ERROR ($"WRONGTYPE")), ks)
        end
      else if bool_decide (cmd = $"SADD") then
        match ks !! k with
        | None => (Some (REDIS_REPLY_INTEGER 1), <[k := RSet (list_to_set args)]> ks)
        | Some (RSet s) => (Some (REDIS_REPLY_INTEGER 1), <[k := RSet (list_to_set args ∪ s)]> ks)
        | _ => (Some (REDIS_REPLY_ERROR ($"WRONGTYPE")), ks)
        end
      else (Some (REDIS_REPLY_ERROR ($"ERR")), ks)
  | _ => (Some (REDIS_REPLY_ERROR ($"ERR")), ks)
  end.

#[local] Instance redis_ref : RedisLib keyspace_t := {
  redisFormatCommand := ref_format;
  redis_exec := ref_exec;
}.

Lemma plain_no_blank w : plain w = true → w ≠ [] ∧ " "%char ∉ w ∧ "%"%char ∉ w.
Proof.
  intros [Hne Hw]%andb_true_iff. rewrite forallb_forall in Hw. split_and!.
  - apply negb_true_iff, bool_decide_eq_false in Hne. done.
  - intros Hin%list_elem_of_In%Hw. by vm_compute in Hin.
  - intros Hin%list_elem_of_In%Hw. by vm_compute in Hin.
Qed.

Lemma join_percent ws : Forall (λ w, plain w = true) ws → "%"%char ∉ join " "%char ws.
Proof.
  induction 1 as [|w ws Hw Hws IH]; [set_solver|]. apply plain_no_blank in Hw as (_ & _ & Hw).
  destruct ws as [|w' ws]; [done|].
  change (join " "%char (w :: w' :: ws)) with (w ++ " "%char :: join " "%char (w' :: ws)).
  intros [?|[Heq|?]%elem_of_cons]%elem_of_app; [done| |done]. by vm_compute in Heq.
Qed.

Lemma split_prefix ws w :
  Forall (λ w, plain w = true) ws →
  ref_split [] " "%char (join " "%char (ws ++ [w])) = ws ++ ref_split [] " "%char w.
Proof.
  induction 1 as [|v ws Hv Hws IH]; [done|]. apply plain_no_blank in Hv as (Hne & Hv & _). cbn [app].
  assert (join " "%char (v :: ws ++ [w]) = v ++ " "%char :: join " "%char (ws ++ [w])) as ->
    by (by destruct ws).
  rewrite ref_split_piece by done. rewrite app_nil_r. cbn [ref_split]. rewrite bool_decide_true by done.
  by rewrite IH, rev_involutive.
Qed.

#[local, refine] Instance redis_server_ref : RedisServer keyspace_t := {
  redis_up _ := True;
  keyspace ks := ks;
}.
Proof.
  - intros ws Hne Hws. cbn. unfold ref_format. rewrite bool_decide_false by (by apply join_percent).
    rewrite ref_split_join; [done|]. eapply Forall_impl; [done|]. intros w Hw.
    by apply plain_no_blank in Hw as (? & ? & _).
  - intros ws w ws' _ Hws. cbn. unfold ref_format. case_bool_decide; [done|]. rewrite split_prefix by done.
    intros [= <-]. by eexists.
  - done.
  - intros k v ks _ Hl. cbn [redis_exec redis_ref ref_exec]. rewrite bool_decide_true by done.
    unfold is_list in Hl. destruct (ks !! k) as [[]|] eqn:Hk; try done; by do 2 eexists.
  - intros k n ks _ Hl Hn. cbn [redis_exec redis_ref ref_exec].
    rewrite bool_decide_false by done. rewrite bool_decide_true by done. rewrite parse_number_fmt.
    unfold is_list in Hl. destruct (ks !! k) as [[]|] eqn:Hk; try done; destruct (list_at ks k); by eexists.
  - intros k z ks _ Hz _. cbn [redis_exec redis_ref ref_exec].
    rewrite !bool_decide_false by done. rewrite bool_decide_true by done. rewrite Hz. by eexists.
  - intros k vs ks k' _ Hne. cbn [redis_exec redis_ref ref_exec].
    rewrite !bool_decide_false by done. rewrite bool_decide_true by done.
    destruct (ks !! k) as [[]|]; cbn; [done|by rewrite lookup_insert_ne|done|by rewrite lookup_insert_ne].
Defined.

(** ** The backend *)

Definition redis_config : SMPPServer := {| sql_server_config with database_store_primary := true |}.
Definition example_redis : Redis keyspace_t :=
  {| redis := ∅; pending_entries := ∅; pending_tables := ∅; pending_pdus := ∅; redis_uuid := 0;
     redis_now := 1700000000 |}.
Definition store_table : option Octstr := Some ($"smpp_store").
Definition store_queue : Octstr := smpp_redis_store_queue_key_for store_table.

(** Every text of the library is one word. *)
Lemma text_one_word mg : one_word store_queue (text mg).
Proof.
  unfold one_word. cbn [redisFormatCommand redis_ref].
  assert (" "%char ∉ text mg ∧ "%"%char ∉ text mg) as [Hb Hp].
  { split; intros [Hin|[Hin|Hin]%bits_chars]%elem_of_cons; by vm_compute in Hin. }
  assert (text mg ≠ []) as Hne by done. generalize dependent (text mg). intros j Hb Hp Hne.
  unfold ref_format. rewrite bool_decide_false.
  - rewrite ref_split_join; [done|]. repeat apply Forall_cons_2; [split; [done|]..|by constructor];
      try done; apply (bool_decide_unpack _); by vm_compute.
  - change (join " "%char [$"LPUSH"; store_queue; j]) with ($"LPUSH smpp_store:queue " ++ j).
    intros [Hin|?]%elem_of_app; [|done]. revert Hin. apply (bool_decide_unpack _). by vm_compute.
Qed.

Definition example_first : Msg := {| example_mo with service := Some ($"ACME"); udhdata := None; msgdata := None |}.
Definition example_second : Msg := {| example_mo with service := Some ($"other"); udhdata := None; msgdata := None |}.

Ltac longs_tac :=
  unfold longs, sms_columns, field_ref, example_columns;
  repeat (apply List.Forall_cons; [first [exact I | split; apply Z.leb_le; by vm_compute]|]);
  by apply List.Forall_nil.

Lemma redis_read_back_witness :
  ∃ root, json_loads (cstr (smpp_redis_msg_to_json (encode_binary example_mo) 42)) = Some root ∧
    smpp_redis_json_to_msg root (msg_create ($"new"))
    = {| (map_strings (λ o, Some (kept o)) example_mo (default ($"new") (kept_uuid (msg_id example_mo)))) with
         udhdata := Some (default [] (udhdata example_mo)); msgdata := Some (default [] (msgdata example_mo)) |}.
Proof.
  destruct (redis_read_back example_mo 42 ($"new")) as (root & Hload & _ & Hmsg).
  - longs_tac.
  - done.
  - exists root. exact (conj Hload Hmsg).
Defined.

(** A queue of two messages. *)
Definition example_waiting : list (Msg * Z) := [(example_first, 2); (example_second, 1)].
Definition example_filled : Redis keyspace_t :=
  {| example_redis with redis := {[ store_queue := RList (map text example_waiting);
                                    smpp_redis_store_id_key_for store_table := RInt 2 ]} |}.

Lemma example_filled_holds : holds store_table 2 example_waiting [] example_filled.
Proof. constructor; [by vm_compute|done| | |done]; [by vm_compute|]. reflexivity. Qed.

Lemma example_storable : Forall (storable store_queue) example_waiting.
Proof.
  repeat apply Forall_cons_2; [| |by constructor]; (split; [|split; [done|apply text_one_word]]); longs_tac.
Qed.


Definition example_store_ops : list redis_op :=
  [AddMessage example_first SMPP_DATABASE_STORE_PRIMARY; AddMessage example_second SMPP_DATABASE_STORE_PRIMARY;
   GetStored mo None 10 SMPP_DATABASE_STORE_AUTO; RemoveStored 1 1; RemoveStored 2 0].


(** ** The administration interface *)

Fixpoint last_pos (s : Octstr) (c : ascii) (i best : Z) : Z :=
  match s with
  | [] => best
  | d :: s => last_pos s c (i + 1) (if bool_decide (d = c) then i else best)
  end.

Lemma last_pos_none s c i best : c ∉ s → last_pos s c i best = best.
Proof.
  revert i best. induction s as [|d s IH]; intros i best Hc; [done|]. apply not_elem_of_cons in Hc as [Hd Hs].
  cbn. by rewrite bool_decide_false, IH.
Qed.
Lemma last_pos_last a c b i best : c ∉ b → last_pos (a ++ c :: b) c i best = i + octlen a.
Proof.
  intros Hb. revert i best. induction a as [|d a IH]; intros i best; cbn.
  - rewrite bool_decide_true, last_pos_none by done. unfold octlen. cbn. lia.
  - rewrite IH. unfold octlen. cbn [length]. lia.
Qed.

#[local, refine] Instance admin_ref : AdminLib := {
  http_cgi_variable vars key := snd <$> find (λ v, octstr_eq v.1 key) vars;
  octstr_rsearch_char s c pos := last_pos s c 0 (-1);
  fmt_f2 q := fmt_ld (Qnum q / Zpos (Qden q));
}.
Proof.
  - intros s c Hc. by rewrite last_pos_none.
  - intros a c b Hb. by rewrite last_pos_last.
  - intros q. apply fmt_ld_no_tag.
Defined.

#[local] Existing Instance example_db.

Definition example_totals : totals :=
  {| total_inbound_processed := 3; total_outbound_processed := 2; total_inbound_load := inbound_load example_new;
     total_outbound_load := inbound_load example_new |}.
(** One account with one bind. *)
Definition example_admin_world : World nat :=
  {| example_world with esme_heap := {[ 7%nat := Live {| example_esme with ip := Some ($"10.0.0.7") |} ]} |}.

Lemma example_only_account key g : esmes example_admin_world !! key = Some g → key = $"acme" ∧ g = example_global.
Proof.
  change (esmes example_admin_world) with ({[ $"acme" := example_global ]} : gmap Octstr SMPPEsmeGlobal).
  intros [<- <-]%lookup_singleton_Some. done.
Qed.

Lemma status_well_formed_witness :
  ∃ text, smpp_esme_status_command example_totals HTTP_CONTENT_TYPE_XML example_admin_world
          = Some (ok_result text, example_admin_world) ∧ scan_tags text None [] = Some [].
Proof.
  apply (status_well_formed example_admin_world example_totals).
  intros key g [-> ->]%example_only_account. split; [apply (bool_decide_unpack _); by vm_compute|].
  apply Forall_cons_2; [|constructor]. eexists. split; [by vm_compute|].
  apply (bool_decide_unpack _); by vm_compute.
Defined.

Lemma unbind_disconnects_witness :
  ∃ w', smpp_esme_unbind_command (Some ($"ACME")) None example_admin_world
        = Some ((HTTP_OK, $"1 binds disconnected"), w') ∧
    outbound_queue w' = [4%nat; 10%nat].
Proof.
  destruct (unbind_disconnects example_admin_world ($"ACME") None example_global)
    as (w' & targets & Hrun & Hq & _ & _ & _ & _ & Ht).
  - done.
  - by vm_compute.
  - apply Forall_cons_2; [by eexists|constructor].
  - cbn in Ht. subst targets. exists w'. exact (conj Hrun Hq).
Defined.

Definition example_http : SMPPHTTPServer :=
  default {| http_password := None; commands := ∅; start_time := 0 |} (http_server_of (Some ($"secret")) 0).

