(* ===== verification/StartExamples.v ===== *)
(** A configuration and the start of the daemon with it: the theorems of Start.v
    applied to a small configuration on the SQL server of SqlExamples.v. *)
From S2P Require Import Prelude CLib Gwlib DbUtil Types Kannel Dlr World Callbacks Route Fields Http Admin.
From S2P Require Import Mysql Schema Redis RedisStore Config Daemon Start Shutdown Examples SqlExamples RedisExamples.
Open Scope Z_scope.

#[local] Existing Instances time_ref octstr_ref kannel_ref field_ref sql_lib_ref ref_server json_ref redis_ref.

(** ** Configurations

    A configuration is the list of its groups, a group the list of its variables, its
    name the value of the variable [group]. *)
Definition ref_group : Type := list (Octstr * Octstr).
Definition ref_get (g : ref_group) (key : Octstr) : option Octstr := snd <$> find (λ v, octstr_eq v.1 key) g.
Definition ref_named (name : Octstr) (g : ref_group) : bool :=
  match ref_get g ($"group") with Some n => octstr_eq n name | None => false end.
Definition ref_integer (g : ref_group) (key : Octstr) : option Z :=
  match ref_get g key with
  | Some v => if negb (bool_decide (v = [])) && forallb isdigit v then Some (parse_number v) else None
  | None => None
  end.

#[local] Instance cfg_ref : CfgLib (list ref_group) ref_group := {
  cfg_get_single_group c name := find (ref_named name) c;
  cfg_get_multi_group c name := Some (base.filter (λ g, ref_named name g = true) c);
  cfg_get := ref_get;
  cfg_get_integer := ref_integer;
  cfg_get_bool g key := match ref_get g key with
                        | Some v => octstr_case_eq v ($"true") || octstr_case_eq v ($"1")
                        | None => false
                        end;
}.

(** Every pool has connections, every library has a plugin that does both. *)
#[local] Instance start_ref : StartLib RefServer keyspace_t := {
  HAVE_PGSQL := true;
  HAVE_REDIS := true;
  dbpool_create_sql _ _ _ := Some (sql_server example_backend);
  dbpool_create_redis _ _ := Some ∅;
  http_open_port_if _ _ := true;
  dlopen _ := true;
  dlerror _ := false;
  dlsym _ _ := true;
  plugin_run_init _ _ _ _ := Some (true, true);
  event_base_new := true;
  evconnlistener_new_bind _ := true;
}.

(** ** The daemon's start *)

Definition example_cfg : list ref_group := [
  [($"group", $"ksmppd"); ($"id", $"ksmppd"); ($"smpp-port", $"2776"); ($"database-type", $"mysql");
   ($"database-config", $"db"); ($"auth-method", $"plugin"); ($"auth-plugin-id", $"auth");
   ($"database-enable-queue", $"true"); ($"inbound-queue-threads", $"2")];
  [($"group", $"mysql-connection"); ($"id", $"db"); ($"host", $"localhost"); ($"username", $"u");
   ($"password", $"p"); ($"database", $"d")];
  [($"group", $"ksmppd-plugin"); ($"id", $"auth"); ($"path", $"/lib/auth.so"); ($"init-function", $"init")];
  [($"group", $"http-server"); ($"port", $"13015"); ($"password", $"secret")];
  [($"group", $"bearerbox-connection"); ($"id", $"bb"); ($"host", $"localhost"); ($"port", $"13001")];
  [($"group", $"bearerbox-connection"); ($"id", $"incomplete")] ].

Abbreviation example_main :=
  (main 1700000000 example_uuid 0 (Some example_cfg)
     (@smpp_server_create (list ref_group) RefServer keyspace_t)).

Definition example_threads : list thread :=
  [smpp_http_server_thread; smpp_bearerbox_inbound_thread 0; smpp_bearerbox_outbound_thread 0;
   smpp_bearerbox_requeue_thread; smpp_esme_cleanup_thread; smpp_queues_simulation_thread;
   smpp_queues_inbound_thread; smpp_queues_inbound_thread; smpp_queues_outbound_thread;
   smpp_queues_requeue_thread].


Definition example_running : Startup (list ref_group) RefServer keyspace_t :=
  {| (@smpp_server_create (list ref_group) RefServer keyspace_t) with configured := true; running_configuration := Some example_cfg |}.

(** The file is gone. *)
Lemma reconfigure_is_safe_witness :
  ∃ n, smpp_server_reconfigure 1700000000 example_uuid 0 None example_running = Some (n, example_running) ∧ n = -1.
Proof.
  destruct (reconfigure_is_safe 1700000000 example_uuid 0 None example_running eq_refl) as (n & cfg & Hrun & Hn & ->).
  exists n. exact (conj Hrun (proj2 Hn eq_refl)).
Defined.

Lemma plugin_loaded_once_witness :
  ∃ p s, smpp_plugin_init ($"auth") example_running = Some (Some p, s) ∧
    smpp_plugin_init ($"auth") s = Some (Some p, s) ∧ authenticates p = true.
Proof.
  assert ((λ r : option SMPPPlugin * _, authenticates <$> r.1) <$> smpp_plugin_init ($"auth") example_running
          = Some (Some true)) as Hauth by (by vm_compute).
  destruct (smpp_plugin_init ($"auth") example_running) as [[[p|] s]|] eqn:Hrun; try done.
  exists p, s. split; [done|]. split; [exact (plugin_loaded_once ($"auth") example_running s p Hrun)|].
  by injection Hauth.
Defined.

(** ** Its end *)

#[local] Instance routing_method_eq_dec : EqDecision routing_method.
Proof. solve_decision. Defined.
#[local] Instance routing_conf_eq_dec : EqDecision HttpRoutingConf.
Proof. solve_decision. Defined.

(** What the shutdown looks at. *)
Definition shutdown_view (s : Startup (list ref_group) RefServer keyspace_t) :=
  ((bool_decide (is_Some (http_server s)), bool_decide (is_Some (database s)), bool_decide (threads s = daemon_threads s)),
   (bool_decide (http_routing s = None), bool_decide (route_message_by s = Some SMPP_ROUTING_METHOD_DATABASE),
    (fst <$> database s, bool_decide (is_Some (queue_backend s)), (map_to_list (plugins s)).*1))).

