(* ===== verification/StopExamples.v ===== *)
(** The stop of the small daemon of Examples.v: the theorems of Stopped.v applied to
    it. *)
From stdpp Require Import relations.
From S2P Require Import Prelude CLib Gwlib Types Kannel Dlr PduUtil IpBlock World Callbacks Run Esme.
From S2P Require Import Route Bearerbox Queues Requeue Listener Fields Http Mysql Daemon Stop Stopped Threads Connections.
From S2P Require Import Examples SqlExamples.
Open Scope Z_scope.

#[local] Existing Instances time_ref octstr_ref kannel_ref esme_env_ref regex_ref box_env_ref example_db.
#[local] Existing Instances field_ref http_ref sql_daemon.

(** ESME 7 has the message 4 of the bearerbox to acknowledge, ESME 8 waits to be freed;
    a request and a stored PDU are still in the queues. *)
Definition example_stopping : World nat :=
  {| example_world with
     esme_heap := {[ 7%nat := Live {| example_esme with conn := true; open_acks := {[ fmt_ld 7 := 4%nat ]} |};
                     8%nat := Live example_new ]};
     cleanup_queue := [8%nat]; inbound_queue := [1%nat]; simulation_queue := [6%nat] |}.

Lemma example_stopping_lists :
  all_esmes example_stopping = [7%nat; 8%nat] /\ all_acks example_stopping = [4%nat].
Proof. split; vm_compute; reflexivity. Qed.

Lemma example_stopping_owned : all_owned example_stopping.
Proof.
  destruct example_stopping_lists as [He Ha].
  assert (map (acks_at example_stopping) [7%nat; 8%nat] = [[4%nat]; []]) as Hm by (by vm_compute).
  split; rewrite ?Ha, ?He.
  - split; rewrite ?Hm; cbn [concat app].
    + by apply (bool_decide_unpack _).
    + intros e He'. apply elem_of_cons in He' as [-> | ->%list_elem_of_singleton]; by eexists.
    + by apply (bool_decide_unpack _).
    + intros p ->%list_elem_of_singleton. eexists. split; [vm_compute; reflexivity|].
      intros _. exists 0%nat. split; [done|]. by eexists.
  - change (NoDup [1%nat; 6%nat; 4%nat]). by apply (bool_decide_unpack _).
  - intros p Hp. change (p ∈ [1%nat; 6%nat]) in Hp.
    apply elem_of_cons in Hp as [-> | ->%list_elem_of_singleton]; by eexists.
  - change (NoDup [0%nat]). by apply (bool_decide_unpack _).
  - intros b Hb. change (b ∈ [0%nat]) in Hb. apply list_elem_of_singleton in Hb as ->. by eexists.
Qed.


(** HTTP routing still waits for the answer to a submission when the ESMEs are freed:
    the answer would have been fine before, but its callback now uses the freed ESME. *)
Definition example_late : World nat :=
  {| example_stopping with route_requests := [smpp_queues_submit_routing_done_cb 3] |}.

Lemma late_route_answer_crashes :
  ∃ w', listener_ends example_late = Some (tt, w') ∧
    smpp_http_client_receive 0 [] w' = None ∧ is_Some (smpp_http_client_receive 0 [] example_late).
Proof.
  eexists. split; [vm_compute; reflexivity|]. split; [by vm_compute|]. vm_compute. by eexists.
Qed.

(** The daemon of SqlExamples.v reads a bind and gets a SIGTERM; one inbound thread is
    left, the outbound one has ended. The inbound thread answers the bind, and the
    answer stays. *)
Definition example_requests : list action :=
  [Connection (Some ($"10.0.0.9")) 1;
   Data 0 [{| cv_len := 40; cv_data := true; cv_pdu := Some example_bind; cv_closed := false |}]].

Definition one_inbound (w : World (Mysql RefServer)) (left : nat) : Stopping (Mysql RefServer) :=
  {| world := w; loop_broken := true; producers := false; inbound_threads := left;
     outbound_threads := 0; simulation_threads := 0; requeue_threads := 0 |}.


(** ** The threads of a bearerbox

    The reader of the bearerbox connects, and nothing arrives; then the daemon gets its
    signal and the producers go. *)
Definition example_boxed : World (Mysql RefServer) :=
  {| example_start with bearerboxes := {[ 0%nat := smpp_bearerbox_create ]}; bb_order := [0%nat] |}.

Definition boxed (w : World (Mysql RefServer)) (producer : bool) (r : reader_place) : Running (Mysql RefServer) :=
  {| running := w; bb_producer := producer; box_threads := [{| box := 0; reader := r; writer := WriterOutside |}] |}.

Lemma example_boxed_started : bearerboxes_started (boxed example_boxed true ReaderOutside).
Proof.
  split; cbn.
  - by apply started_ok.
  - by apply (bool_decide_unpack _).
  - by intros t ->%list_elem_of_singleton.
  - intros t ->%list_elem_of_singleton. by eexists.
Qed.

Lemma example_connects :
  ∃ w, reader_connects 0 true example_boxed = Some (Reading, w) ∧
    rtc (running_step None false example_uuid) (boxed example_boxed true ReaderOutside) (boxed w true Reading).
Proof.
  assert (∃ w, reader_connects 0 true example_boxed = Some (Reading, w)) as [w Hrun].
  { eexists. vm_compute. reflexivity. }
  exists w. split; [exact Hrun|]. apply rtc_once, of_bearerboxes.
  apply (turn_of None false example_boxed true [] _ [] w _).
  by apply (reader_connect None false true example_boxed {| box := 0; reader := ReaderOutside; writer := WriterOutside |} w true).
Qed.

Lemma connections_sound_witness :
  ∃ w c, reader_connects 0 true example_boxed = Some (Reading, w) ∧ bearerboxes w !! 0%nat = Some c ∧ connection c = true.
Proof.
  destruct example_connects as (w & Hrun & Hsteps).
  destruct (connections_sound None false example_uuid _ _ example_boxed_started Hsteps) as [_ Hall].
  destruct (Hall {| box := 0; reader := Reading; writer := WriterOutside |}) as (c & Hc & Hcon);
    [by left|by left|].
  exists w, c. split; [exact Hrun|]. split; [exact Hc|]. apply Hcon. by right.
Defined.

Lemma connections_end_witness :
  ∃ w, reader_connects 0 true example_boxed = Some (Reading, w) ∧
    Acc (flip (boxes_turn None false)) (boxed (set_shutdown w) false Reading).
Proof.
  destruct example_connects as (w & Hrun & Hsteps). exists w. split; [exact Hrun|].
  apply (connections_end None false example_uuid (boxed example_boxed true ReaderOutside)).
  - apply example_boxed_started.
  - etransitivity; [exact Hsteps|]. eapply rtc_l; [apply of_signal|]. apply rtc_once. apply of_producers.
  - apply set_shutdown_status.
  - done.
Defined.
